(* ===== verification/_CoqProject ===== *)
-Q . S2P
Prelude.v
Msgpuck.v
MsgpuckRef.v
Mem.v
Uri.v
UriSpec.v
Stream.v
Buf.v
Proto.v
Object.v
ObjectSpec.v
Request.v
RequestSpec.v
Commands.v
CommandsSpec.v
UpdateSpec.v
Reply.v
ReplySpec.v
Iter.v
IterSpec.v
Format.v
FormatSpec.v
System.v
Opt.v
Io.v
IoSpec.v
Murmur.v
Mhash.v
MhashSpec.v
Assoc.v
Schema.v
SchemaSpec.v
Sha1.v
Base64.v
Base64Spec.v
Auth.v
Connect.v
ConnectSpec.v
Sim.v
Net.v
NetSpec.v
Tp.v
TpSpec.v
TpReply.v
TpReplySpec.v
SessionSpec.v
SetupSpec.v
Stdio.v
Log.v
LogSpec.v
LogReplay.v
Dir.v
DirSpec.v
Rpl.v
RplSpec.v
