(* ===== verification/Prelude.v ===== *)
(** * A verification development of the tarantool-c client library

    tarantool-c is a client for the Tarantool database.  A program builds
    msgpack values in _objects_, puts them in _requests_ (or calls a command
    such as [tnt_insert]), which are written to a _stream_; the stream is a
    memory buffer or a network connection.  Replies are read from the stream,
    parsed, and walked with _iterators_.

    ** Files

    - [Prelude]: integers of fixed width, big endian numbers, lists, options,
      automation.
    - [Msgpuck], [MsgpuckRef]: the msgpack library the code calls, a git
      submodule whose sources are not in the repository, as the class [MsgPuck]
      of operations and [MsgPuckSpec] of documented laws; [RefPuck] is an
      executable instance, which also shows that the laws hold of something.
    - [Mem] (tnt/tnt_mem.c): the allocator hook.  A pointer is a live, freed,
      user or [NULL] block; each allocation takes the next [answer] of a list,
      granted or refused, so theorems quantify over every pattern of failures.
    - [Stream] (tnt/tnt_stream.c): [struct tnt_stream].  Its function pointers
      are the class [Sink]; [SinkSpec] is what commands and requests need of it.
    - [Buf] (tnt/tnt_buf.c): the memory buffer stream, an instance of [Sink].
    - [Proto] (tnt_proto.h, tnt_proto_internal.h): constants, request headers.
    - [Object], [ObjectSpec] (tnt/tnt_object.c): the builder of msgpack values,
      with its stack of open containers; [Format], [FormatSpec]:
      [tnt_object_format] and the [_format] setters of requests.
    - [Request], [RequestSpec] (tnt/tnt_request.c): request objects and their
      encoding, with an abstract decoder of request packets.
    - [Commands], [CommandsSpec], [UpdateSpec] (tnt/tnt_select.c, tnt_insert.c,
      tnt_delete.c, tnt_update.c, tnt_call.c, tnt_execute.c, tnt_ping.c).
    - [Reply], [ReplySpec] (tnt/tnt_reply.c, and [tnt_buf_reply]).
    - [Iter], [IterSpec] (tnt/tnt_iter.c).
    - [System]: system calls and user callbacks as a class of operations on a
      world, their documented behaviour, and a concrete world.
    - [Uri], [UriSpec] (third_party/uri.c): the URI parser that Ragel generated,
      label by label; its properties are checked edge by edge, and on templates
      of strings by symbolic execution.
    - [Opt] (tnt/tnt_opt.c), [Io], [IoSpec] (tnt/tnt_io.c, tnt_iob.c):
      connection options, buffered transmission and reception.
    - [Connect], [ConnectSpec] (tnt/tnt_io.c): name resolution, non-blocking
      connection, socket options; [Sim], a concrete world with connections.
    - [Murmur] (third_party/PMurHash.c), [Mhash], [MhashSpec]
      (third_party/mhash.h), [Assoc] (tnt/tnt_assoc.h): the hash table.
    - [Schema], [SchemaSpec] (tnt/tnt_schema.c): the cache of the names and
      numbers of spaces and indexes, in two levels of hash tables.
    - [Sha1], [Base64], [Base64Spec] (third_party/), [Auth] (tnt/tnt_auth.c):
      hash and encoding of passwords and salts, authentication.
    - [Net], [NetSpec] (tnt/tnt_net.c): the network stream, the other instance
      of [Sink]: options, connection, greeting, schema reload; [SessionSpec]
      puts connection, greeting, authentication and schema together, [SetupSpec]
      the creation of the stream and the URI before them.
    - [Stdio], files of the C library; [Log], [LogSpec], [LogReplay]
      (tntrpl/tnt_log.c, tnt_xlog.c, tnt_snapshot.c), the readers of logs and
      snapshots: a file format, its records, the two streams; [Dir], [DirSpec]
      (tntrpl/tnt_dir.c), the logs of a directory; [Rpl], [RplSpec]
      (tntrpl/tnt_rpl.c), the replication stream, over a network stream.  The
      build files leave this directory out, and the checksum, the requests and
      the tuples it needs belong to another version of the library: they are
      the class [Legacy] and an argument of [Rpl].
    - [Tp], [TpSpec], [TpReply], [TpReplySpec] (include/tp.h): the header-only
      connector, a second implementation of the protocol that shares none of
      the code above.

    Files named [...Spec], and [LogReplay], hold abstract specifications, lemmas, theorems and
    witnesses; the others the definitions that follow the code, function by
    function and under the same names.

    ** How the code is modelled

    Functions are executable.  A result in [option] is [None] when the C code
    would have undefined behaviour (an access out of a block, a double free, a
    signed overflow, a call outside the contract of a library); error codes are
    values.  So a theorem that says a call is [Some] says that it is safe.
    Integers are [Z] with their wrap-around ([u32], [u64], [s32], [s64]) where
    the code can reach it; sizes of blocks are [nat].  Byte strings are lists
    of [Z] ([bytes]).  Structures are records; a structure the code updates
    in place is passed in and returned.  A local array is [local n bs], undefined
    when more than [n] bytes are written to it.

    Loops over data are structural.  Loops that a peer or a signal can prolong
    take [fuel]: [Io.retry] repeats an interrupted system call, and the theorems
    ask for more fuel than the world has interruptions to come ([interrupts]);
    the loops of [Connect] and [Net] use the same measure.  The loop of
    [tnt_reload_schema] reads at most the two replies it waits for, and one round
    finds none left: its bound [replies] is three.  The loops of [Log]
    consume a byte of the file each time and are bounded by its length; a
    client reads at most one more time than there are records.  The other loops of
    [Io] have their own bound (the bytes left to transfer), the iterators that
    of the number of elements; theorems prove that they return, so that the
    bound is enough.  In tp.h nothing loops over data of unknown length; sizes
    are computed in [int], and [TpSpec] bounds a single call so that they do not
    overflow.

    ** The theorems

    - Building: every tree of values, in each of the three packing modes, by
      calls or by a format string, gives its encoding (C1, C16); nesting more
      than eight containers does not ([ninth_container_corrupted]).
    - Requests: what a request or command writes is decoded as that request,
      also when many are pipelined (C2, C3, C5, C6, C7, C12, C17).
    - Replies: a reply that a server encodes is parsed back, incomplete or
      malformed input is reported without an access out of the input, the two
      parsers agree (C4, C8 to C11).
    - Iterators visit every element or reply once, then stop (C13 to C15).
    - The memory stream: the theorems at the end of [Buf].
    - The network stream transmits and receives in order and without loss as
      long as the calls succeed (C18, C19); what a failure leaves is
      [recv_failure_redelivers] and [flush_retry_duplicates]; the search for the
      socket buffer size ends at the boundary of what the system accepts,
      whatever that is (C20).
    - The hash table: the hash is MurmurHash3, whatever the alignment of the key
      (C22), and the table refines a finite map, also during a resize (C21).
    - The schema cache: what a reload makes it resolve (C23), the invariant and
      the memory safety of the operations (C24; the readers are safe on rows of
      at least three fields, shorter ones can be undefined), the flush
      ([flush_empties]).
    - Authentication: SHA-1 (C26), base64 (C27), and the packet that the server
      accepts (C25).
    - The network stream as a whole: requests are compiled, buffered and sent
      so that the server decodes them in order (C28), the replies come back in
      order and their iteration ends (C29), connecting leaks no descriptor when
      the URI fits the arrays it is copied to and descriptor 0 is open (C30;
      [descriptor_0_leaks] and [long_host_overflows] are the other cases).
    - The header-only connector: bounds and contents of the requests that count
      their size right (C31; [tp_delete], [tp_auth], [tp_deauth] and some splices
      do not, as the Examples of [TpSpec] show), the parser of its replies (C32).
    - A session: what the server decodes and the client knows after [tnt_connect]
      with a login, for a server whose greeting and replies are well-formed, in
      any order and in any pieces (C35; under the conditions of C30, and a salt
      that is not base64 is undefined, [auth_bad_salt]).
    - URIs: what the parser leaves is well-formed (C33), the documented formats
      are parsed to their parts (C34), and the first calls of a program lead from
      the text of a URI whose host or path fits to the session with its server
      (C36).
    - Logs: a log that an encoder writes is read back, record by record, with
      garbage between the records (C37) and wherever the file ends (C38;
      [snapshot_replay] for snapshots); reading a record
      is safe on any file, and accepts nothing but what is in it with its two
      checksums (C39); a payload that is too short is another matter
      ([LogReplay.short_payload]).  The
      log of a directory to start from is C40, with the names of logs specified
      apart from the scan ([DirSpec.LogName]); the handshake and the rows of
      the replication are [rpl_open_ok] and [rpl_request_ok].

    The references that results are compared with (the decoder of packets, the
    encodings of values, the fields of a reply, MurmurHash3, SHA-1, base64, log
    files and the names of logs) are written from the formats, with Examples of
    known values; of the functions that follow the code they use none.

    Where a theorem describes a defect, it states what the code does, on the
    inputs where it does it; the Examples next to it are concrete runs.

    ** What is not modelled

    - [strerror] and, for tp.h, [mp_vformat]: parameters.
    - Errors of the medium under [Stdio]: a short read is the end of the file.
    - pmatomic.h is compiler intrinsics: counters are updated by one thread.
    - Of third_party/mhash.h, [mh_random], [mh_reserve], [mh_memsize] and the
      debug dump, which nothing calls.
    - Tests, examples and the documentation. *)

From stdpp Require Export base option list numbers sets.
From Stdlib Require Export ZArith Lia.
#[global] Open Scope Z_scope.

(** ** Bytes and machine integers *)

(** A byte string: each element is the unsigned value of one [char]. *)
Abbreviation bytes := (list Z).

Definition is_byte (b : Z) : Prop := 0 <= b < 256.

#[export] Instance is_byte_dec b : Decision (is_byte b).
Proof. unfold is_byte. apply _. Defined.

(** Conversions to the C integer types of the sources. *)
Definition u8 (z : Z) : Z := z mod 2 ^ 8.
Definition u32 (z : Z) : Z := z mod 2 ^ 32.
Definition u64 (z : Z) : Z := z mod 2 ^ 64.
Definition s32 (z : Z) : Z := (z + 2 ^ 31) mod 2 ^ 32 - 2 ^ 31.
Definition s64 (z : Z) : Z := (z + 2 ^ 63) mod 2 ^ 64 - 2 ^ 63.

Definition UINT32_MAX : Z := 2 ^ 32 - 1.
Definition INT64_MAX : Z := 2 ^ 63 - 1.
Definition INT_MAX : Z := 2 ^ 31 - 1.

(** [x++] on an [int]; signed overflow is undefined. *)
Definition int_incr (z : Z) : option Z := if decide (z < INT_MAX) then Some (z + 1) else None.

(** The length of a byte string as the [size_t] / [ssize_t] the code uses. *)
Definition zlen {A} (l : list A) : Z := Z.of_nat (length l).

(** [be n z]: the [n] low-order bytes of [z], most significant first
    ([mp_store_u32] and the network byte order of the protocol). *)
Fixpoint be (n : nat) (z : Z) : bytes :=
  match n with
  | O => []
  | S n => (z / 256 ^ Z.of_nat n) mod 256 :: be n z
  end.

(** The value of a big-endian byte string. *)
Fixpoint be_val (bs : bytes) : Z :=
  match bs with
  | [] => 0
  | b :: bs => b * 256 ^ zlen bs + be_val bs
  end.

(** ** Memory blocks *)

(** [splice off new bs] is the block [bs] after [memcpy(bs + off, new, |new|)];
    [None] when the write leaves the block. *)
Definition splice {A} (off : nat) (new bs : list A) : option (list A) :=
  if decide (off + length new <= length bs)%nat
  then Some (take off bs ++ new ++ drop (off + length new) bs)
  else None.

(** [slice off n bs] reads [n] bytes at [off]; [None] when out of the block. *)
Definition slice {A} (off n : nat) (bs : list A) : option (list A) :=
  if decide (off + n <= length bs)%nat then Some (take n (drop off bs)) else None.

(** ** Automation *)

Create Rewrite HintDb len.
#[export] Hint Rewrite @length_app @length_take @length_drop @length_replicate
  @length_resize @length_cons @length_nil @length_insert : len.

(** Normalise the lengths of list expressions and call [lia]. *)
Ltac len := unfold zlen in *; autorewrite with len in *; simpl length in *; try lia.

(** Case analysis on the scrutinee of the first match or test of the goal. *)
Ltac step_match :=
  match goal with
  | |- context [match ?x with _ => _ end] => destruct x eqn:?
  end.

(** Inversion of the [mbind]s of the option monad in a hypothesis. *)
Ltac inv_opt :=
  repeat match goal with
  | H : (_ ≫= _) = Some _ |- _ => apply bind_Some in H as (? & ? & ?)
  | H : Some _ = Some _ |- _ => injection H; clear H; intros; subst
  | H : None = Some _ |- _ => discriminate H
  | H : Some _ = None |- _ => discriminate H
  | H : (_, _) = (_, _) |- _ => injection H; clear H; intros; subst
  end.

(** ** Lemmas *)

Section integers.

Lemma u32_bound z : 0 <= u32 z < 2 ^ 32.
Proof. apply Z.mod_pos_bound. lia. Qed.

Lemma u64_bound z : 0 <= u64 z < 2 ^ 64.
Proof. apply Z.mod_pos_bound. lia. Qed.

Lemma u32_small z : 0 <= z < 2 ^ 32 -> u32 z = z.
Proof. apply Z.mod_small. Qed.

Lemma u64_small z : 0 <= z < 2 ^ 64 -> u64 z = z.
Proof. apply Z.mod_small. Qed.

Lemma s64_small z : - 2 ^ 63 <= z < 2 ^ 63 -> s64 z = z.
Proof. intros H. unfold s64. rewrite Z.mod_small; lia. Qed.

Lemma s32_small z : - 2 ^ 31 <= z < 2 ^ 31 -> s32 z = z.
Proof. intros H. unfold s32. rewrite Z.mod_small; lia. Qed.

Lemma int_incr_ok z : z < INT_MAX -> int_incr z = Some (z + 1).
Proof. intros. unfold int_incr. by rewrite decide_True. Qed.

End integers.

#[export] Hint Resolve u32_bound u64_bound : core.

Section big_endian.

Lemma length_be n z : length (be n z) = n.
Proof. induction n; simpl; auto. Qed.

Lemma be_bytes n z : Forall is_byte (be n z).
Proof.
  induction n; simpl; constructor; auto.
  apply Z.mod_pos_bound. lia.
Qed.

Lemma be_val_be n z : be_val (be n z) = z mod 256 ^ Z.of_nat n.
Proof.
  induction n as [|n IH]; simpl be; simpl be_val.
  - symmetry. apply Z.mod_1_r.
  - rewrite IH. unfold zlen. rewrite length_be, Nat2Z.inj_succ.
    rewrite Z.pow_succ_r by lia.
    rewrite (Z.mul_comm 256), Z.rem_mul_r by lia. lia.
Qed.

Lemma be_val_small n z : 0 <= z < 256 ^ Z.of_nat n -> be_val (be n z) = z.
Proof. intros H. rewrite be_val_be. apply Z.mod_small, H. Qed.

Lemma be_inj n x y :
  0 <= x < 256 ^ Z.of_nat n -> 0 <= y < 256 ^ Z.of_nat n ->
  be n x = be n y -> x = y.
Proof.
  intros Hx Hy E. rewrite <- (be_val_small n x), <- (be_val_small n y) by done.
  by rewrite E.
Qed.

End big_endian.

Section bits.

(** Bits of numbers below a power of two. *)
Lemma testbit_high a k i : 0 <= a < 2 ^ k -> k <= i -> Z.testbit a i = false.
Proof.
  intros Ha Hi. destruct (decide (0 <= k)) as [Hk|Hk]; [|rewrite Z.pow_neg_r in Ha by lia; lia].
  rewrite <- (Z.mod_small a (2 ^ k)) by done. by apply Z.mod_pow2_bits_high.
Qed.

Lemma land_shiftl_0 a b k : 0 <= k -> 0 <= a < 2 ^ k -> Z.land a (Z.shiftl b k) = 0.
Proof.
  intros Hk Ha. apply Z.bits_inj'. intros i Hi. rewrite Z.land_spec, Z.bits_0.
  destruct (decide (i < k)) as [Hlt|Hge].
  - rewrite Z.shiftl_spec_low by done. by rewrite andb_false_r.
  - rewrite (testbit_high a k) by lia. done.
Qed.

(** Disjoint bit patterns add up. *)
Lemma lor_shiftl a b k : 0 <= k -> 0 <= a < 2 ^ k -> Z.lor a (Z.shiftl b k) = a + b * 2 ^ k.
Proof.
  intros Hk Ha. pose proof (land_shiftl_0 a b k Hk Ha) as H0.
  rewrite <- Z.lxor_lor, <- Z.add_nocarry_lxor by done. by rewrite Z.shiftl_mul_pow2.
Qed.

Lemma shiftr_small a k : 0 <= k -> 0 <= a < 2 ^ k -> Z.shiftr a k = 0.
Proof. intros. rewrite Z.shiftr_div_pow2 by done. by apply Z.div_small. Qed.

End bits.

#[export] Hint Rewrite length_be : len.
#[export] Hint Resolve be_bytes : core.

Section blocks.
Context {A : Type}.
Implicit Types bs new old pre mid post : list A.

Lemma to_nat_zlen bs : Z.to_nat (zlen bs) = length bs.
Proof. apply Nat2Z.id. Qed.

Lemma zlen_app bs new : zlen (bs ++ new) = zlen bs + zlen new.
Proof. len. Qed.

Lemma splice_length off new bs bs' :
  splice off new bs = Some bs' -> length bs' = length bs.
Proof. unfold splice. case_decide; intros; inv_opt. len. Qed.

Lemma splice_Some off new bs :
  (off + length new <= length bs)%nat ->
  splice off new bs = Some (take off bs ++ new ++ drop (off + length new) bs).
Proof. intros. unfold splice. by rewrite decide_True. Qed.

(** Writing [new] over [old] between [pre] and [post]. *)
Lemma splice_app pre old new post :
  length old = length new ->
  splice (length pre) new (pre ++ old ++ post) = Some (pre ++ new ++ post).
Proof.
  intros E. rewrite splice_Some by len.
  rewrite take_app_length, <- E, drop_app_add', drop_app_length; done.
Qed.

Lemma splice_take off new bs bs' :
  splice off new bs = Some bs' ->
  take (off + length new) bs' = take off bs ++ new.
Proof.
  unfold splice. case_decide; intros; inv_opt.
  rewrite app_assoc, take_app_length'; len. done.
Qed.

Lemma slice_all bs : slice 0 (Z.to_nat (zlen bs)) bs = Some bs.
Proof.
  unfold slice, zlen. rewrite Nat2Z.id, decide_True by lia. by rewrite drop_0, firstn_all.
Qed.

Lemma slice_app pre mid post :
  slice (length pre) (length mid) (pre ++ mid ++ post) = Some mid.
Proof.
  unfold slice. rewrite decide_True by len.
  by rewrite drop_app_length, take_app_length.
Qed.

End blocks.
