(* ===== verification/Msgpuck.v ===== *)
(** * The msgpuck library as an interface

    [third_party/msgpuck] is a git submodule: its C code is not part of the
    repository.  The functions the client calls are the fields of the class
    [MsgPuck]; what the client relies on is the class [MsgPuckSpec], the
    documented behaviour of these functions (the MessagePack format and the
    doc comments of msgpuck.h).  Every model that calls msgpuck is parametric
    in an instance; [MsgpuckRef.v] builds one from the MessagePack
    specification.

    A C pointer into an encoded buffer is the list of bytes from that pointer
    to the end of the readable memory.  Encoders return the bytes they store;
    the C result ([data] advanced) is the position after them.  Decoders
    return the value with the advanced pointer, and [None] when the call has
    undefined behaviour (reading past the end, or a tag of another type, where
    msgpuck executes [mp_unreachable]). *)

From S2P Require Import Prelude.

(** [enum mp_type] of msgpuck.h. *)
Inductive mp_type :=
  | MP_NIL | MP_UINT | MP_INT | MP_STR | MP_BIN | MP_ARRAY | MP_MAP
  | MP_BOOL | MP_FLOAT | MP_DOUBLE | MP_EXT.

#[export] Instance mp_type_eq_dec : EqDecision mp_type.
Proof. solve_decision. Defined.

Class MsgPuck := {
  (** [mp_store_u8], [mp_store_u32], [mp_store_u64]: network byte order. *)
  mp_store_u8 : Z -> bytes;
  mp_store_u32 : Z -> bytes;
  mp_store_u64 : Z -> bytes;
  mp_encode_nil : bytes;
  mp_encode_uint : Z -> bytes;
  mp_encode_int : Z -> bytes;
  mp_encode_bool : bool -> bytes;
  (** floats are their IEEE-754 bit patterns *)
  mp_encode_float : Z -> bytes;
  mp_encode_double : Z -> bytes;
  mp_encode_strl : Z -> bytes;
  mp_encode_binl : Z -> bytes;
  mp_encode_array : Z -> bytes;
  mp_encode_map : Z -> bytes;
  mp_sizeof_uint : Z -> Z;
  mp_sizeof_str : Z -> Z;
  mp_sizeof_array : Z -> Z;
  mp_sizeof_map : Z -> Z;
  mp_sizeof_nil : Z;
  mp_sizeof_int : Z -> Z;
  mp_sizeof_bool : bool -> Z;
  mp_sizeof_float : Z -> Z;
  mp_sizeof_double : Z -> Z;
  mp_sizeof_bin : Z -> Z;
  mp_typeof : Z -> mp_type;
  (** [mp_check(&p, end)]: [Some p'] when the bytes at [p] start with one
      valid object, which [p'] follows; [None] when the C call returns non-zero. *)
  mp_check : bytes -> option bytes;
  mp_next : bytes -> option bytes;
  mp_decode_uint : bytes -> option (Z * bytes);
  mp_decode_str : bytes -> option (bytes * bytes);
  mp_decode_array : bytes -> option (Z * bytes);
  mp_decode_map : bytes -> option (Z * bytes);
  mp_decode_int : bytes -> option (Z * bytes);
  mp_decode_bool : bytes -> option (bool * bytes);
  mp_decode_float : bytes -> option (Z * bytes);
  mp_decode_double : bytes -> option (Z * bytes);
  mp_decode_bin : bytes -> option (bytes * bytes);
}.

Section ops.
Context {MP : MsgPuck}.

(** [mp_encode_str], [mp_encode_bin]: the header followed by the payload. *)
Definition mp_encode_str (s : bytes) : bytes := mp_encode_strl (zlen s) ++ s.
Definition mp_encode_bin (s : bytes) : bytes := mp_encode_binl (zlen s) ++ s.

(** [mp_typeof( *p)]; reading [*p] at the end of the memory is undefined. *)
Definition mp_typeof_at (p : bytes) : option mp_type := mp_typeof <$> head p.

(** [k] consecutive objects are valid. *)
Fixpoint mp_skip (k : nat) (p : bytes) : option bytes :=
  match k with
  | O => Some p
  | S k => p' ← mp_check p; mp_skip k p'
  end.

(** [o] is exactly one encoded object. *)
Definition mp_object (o : bytes) : Prop := mp_check o = Some [].

End ops.

Class MsgPuckSpec {MP : MsgPuck} : Prop := {
  spec_store_u8 n : mp_store_u8 n = be 1 n;
  spec_store_u32 n : mp_store_u32 n = be 4 n;
  spec_store_u64 n : mp_store_u64 n = be 8 n;

  (** [mp_sizeof_*] is the exact size of the encoding. *)
  spec_sizeof_uint n : 0 <= n < 2 ^ 64 -> mp_sizeof_uint n = zlen (mp_encode_uint n);
  spec_sizeof_str n : 0 <= n < 2 ^ 32 -> mp_sizeof_str n = zlen (mp_encode_strl n) + n;
  spec_sizeof_array n : 0 <= n < 2 ^ 32 -> mp_sizeof_array n = zlen (mp_encode_array n);
  spec_sizeof_map n : 0 <= n < 2 ^ 32 -> mp_sizeof_map n = zlen (mp_encode_map n);
  spec_sizeof_nil : mp_sizeof_nil = zlen mp_encode_nil;
  spec_sizeof_int n : - 2 ^ 63 <= n < 0 -> mp_sizeof_int n = zlen (mp_encode_int n);
  spec_sizeof_bool b : mp_sizeof_bool b = zlen (mp_encode_bool b);
  spec_sizeof_float n : mp_sizeof_float n = zlen (mp_encode_float n);
  spec_sizeof_double n : mp_sizeof_double n = zlen (mp_encode_double n);
  spec_sizeof_bin n : 0 <= n < 2 ^ 32 -> mp_sizeof_bin n = zlen (mp_encode_binl n) + n;

  (** Sizes of the shortest encodings. *)
  spec_len_nil : zlen mp_encode_nil = 1;
  spec_len_bool b : zlen (mp_encode_bool b) = 1;
  spec_len_float n : zlen (mp_encode_float n) = 5;
  spec_len_double n : zlen (mp_encode_double n) = 9;
  spec_len_uint n : 0 <= n < 2 ^ 64 -> 1 <= zlen (mp_encode_uint n) <= 9;
  spec_len_uint7 n : 0 <= n < 128 -> zlen (mp_encode_uint n) = 1;
  spec_len_uint32 n : 0 <= n < 2 ^ 32 -> zlen (mp_encode_uint n) <= 5;
  spec_len_int n : - 2 ^ 63 <= n < 0 -> 1 <= zlen (mp_encode_int n) <= 9;
  spec_len_strl n : 0 <= n < 2 ^ 32 -> 1 <= zlen (mp_encode_strl n) <= 5;
  spec_len_strl5 n : 0 <= n < 32 -> zlen (mp_encode_strl n) = 1;
  spec_len_binl n : 0 <= n < 2 ^ 32 -> 1 <= zlen (mp_encode_binl n) <= 5;
  spec_len_array n : 0 <= n < 2 ^ 32 -> 1 <= zlen (mp_encode_array n) <= 5;
  spec_len_array4 n : 0 <= n < 16 -> zlen (mp_encode_array n) = 1;
  spec_len_map n : 0 <= n < 2 ^ 32 -> 1 <= zlen (mp_encode_map n) <= 5;
  spec_len_map4 n : 0 <= n < 16 -> zlen (mp_encode_map n) = 1;

  (** The tag of each encoding. *)
  spec_type_uint n r : 0 <= n < 2 ^ 64 -> mp_typeof_at (mp_encode_uint n ++ r) = Some MP_UINT;
  spec_type_uint32 n r : mp_typeof_at (0xce :: be 4 n ++ r) = Some MP_UINT;
  spec_type_uint64 n r : mp_typeof_at (0xcf :: be 8 n ++ r) = Some MP_UINT;
  spec_type_str n r : 0 <= n < 2 ^ 32 -> mp_typeof_at (mp_encode_strl n ++ r) = Some MP_STR;
  spec_type_array n r : 0 <= n < 2 ^ 32 -> mp_typeof_at (mp_encode_array n ++ r) = Some MP_ARRAY;
  spec_type_array32 n r : mp_typeof_at (0xdd :: be 4 n ++ r) = Some MP_ARRAY;
  spec_type_map n r : 0 <= n < 2 ^ 32 -> mp_typeof_at (mp_encode_map n ++ r) = Some MP_MAP;
  spec_type_map32 n r : mp_typeof_at (0xdf :: be 4 n ++ r) = Some MP_MAP;

  (** [mp_check] accepts what the encoders produce. *)
  spec_check_nil r : mp_check (mp_encode_nil ++ r) = Some r;
  spec_check_uint n r : 0 <= n < 2 ^ 64 -> mp_check (mp_encode_uint n ++ r) = Some r;
  spec_check_uint32 n r : mp_check (0xce :: be 4 n ++ r) = Some r;
  spec_check_int n r : - 2 ^ 63 <= n < 0 -> mp_check (mp_encode_int n ++ r) = Some r;
  spec_check_bool b r : mp_check (mp_encode_bool b ++ r) = Some r;
  spec_check_float n r : mp_check (mp_encode_float n ++ r) = Some r;
  spec_check_double n r : mp_check (mp_encode_double n ++ r) = Some r;
  spec_check_str s r : zlen s < 2 ^ 32 -> mp_check (mp_encode_strl (zlen s) ++ s ++ r) = Some r;
  spec_check_bin s r : zlen s < 2 ^ 32 -> mp_check (mp_encode_binl (zlen s) ++ s ++ r) = Some r;
  spec_check_array n p r : 0 <= n < 2 ^ 32 ->
    mp_skip (Z.to_nat n) p = Some r -> mp_check (mp_encode_array n ++ p) = Some r;
  spec_check_array32 n p r : 0 <= n < 2 ^ 32 ->
    mp_skip (Z.to_nat n) p = Some r -> mp_check (0xdd :: be 4 n ++ p) = Some r;
  spec_check_map n p r : 0 <= n < 2 ^ 32 ->
    mp_skip (Z.to_nat (2 * n)) p = Some r -> mp_check (mp_encode_map n ++ p) = Some r;
  spec_check_map32 n p r : 0 <= n < 2 ^ 32 ->
    mp_skip (Z.to_nat (2 * n)) p = Some r -> mp_check (0xdf :: be 4 n ++ p) = Some r;

  (** [mp_check] looks at one object only, which is not empty. *)
  spec_check_split p r : mp_check p = Some r ->
    exists o, p = o ++ r /\ o <> [] /\ (forall r', mp_check (o ++ r') = Some r');
  (** [mp_next] skips an object that [mp_check] accepts. *)
  spec_next p r : mp_check p = Some r -> mp_next p = Some r;

  (** Decoders invert the encoders. *)
  spec_decode_uint n r : 0 <= n < 2 ^ 64 -> mp_decode_uint (mp_encode_uint n ++ r) = Some (n, r);
  spec_decode_uint_app p r n q : mp_decode_uint p = Some (n, q) ->
    mp_decode_uint (p ++ r) = Some (n, q ++ r);
  spec_decode_uint32 n r : 0 <= n < 2 ^ 32 -> mp_decode_uint (0xce :: be 4 n ++ r) = Some (n, r);
  spec_decode_uint64 n r : 0 <= n < 2 ^ 64 -> mp_decode_uint (0xcf :: be 8 n ++ r) = Some (n, r);
  spec_decode_str s r : zlen s < 2 ^ 32 ->
    mp_decode_str (mp_encode_strl (zlen s) ++ s ++ r) = Some (s, r);
  spec_decode_array n r : 0 <= n < 2 ^ 32 -> mp_decode_array (mp_encode_array n ++ r) = Some (n, r);
  spec_decode_array32 n r : 0 <= n < 2 ^ 32 -> mp_decode_array (0xdd :: be 4 n ++ r) = Some (n, r);
  spec_decode_map n r : 0 <= n < 2 ^ 32 -> mp_decode_map (mp_encode_map n ++ r) = Some (n, r);
  spec_decode_map32 n r : 0 <= n < 2 ^ 32 -> mp_decode_map (0xdf :: be 4 n ++ r) = Some (n, r);
  spec_decode_int n r : - 2 ^ 63 <= n < 0 -> mp_decode_int (mp_encode_int n ++ r) = Some (n, r);
  spec_decode_bool b r : mp_decode_bool (mp_encode_bool b ++ r) = Some (b, r);
  spec_decode_float n r : 0 <= n < 2 ^ 32 -> mp_decode_float (mp_encode_float n ++ r) = Some (n, r);
  spec_decode_double n r : 0 <= n < 2 ^ 64 -> mp_decode_double (mp_encode_double n ++ r) = Some (n, r);
  spec_decode_bin s r : zlen s < 2 ^ 32 ->
    mp_decode_bin (mp_encode_binl (zlen s) ++ s ++ r) = Some (s, r);

  (** On checked data the decoder of the tag's type is defined and stops where
      [mp_check] does (for containers: where their elements start). *)
  spec_checked_uint p r : mp_check p = Some r -> mp_typeof_at p = Some MP_UINT ->
    exists n, mp_decode_uint p = Some (n, r) /\ 0 <= n < 2 ^ 64;
  spec_checked_str p r : mp_check p = Some r -> mp_typeof_at p = Some MP_STR ->
    exists h s, mp_decode_str p = Some (s, r) /\ p = h ++ s ++ r;
  spec_checked_array p r : mp_check p = Some r -> mp_typeof_at p = Some MP_ARRAY ->
    exists n p', mp_decode_array p = Some (n, p') /\ 0 <= n < 2 ^ 32 /\
      (exists h, p = h ++ p') /\ mp_skip (Z.to_nat n) p' = Some r;
  spec_checked_map p r : mp_check p = Some r -> mp_typeof_at p = Some MP_MAP ->
    exists n p', mp_decode_map p = Some (n, p') /\ 0 <= n < 2 ^ 32 /\
      (exists h, p = h ++ p') /\ mp_skip (Z.to_nat (2 * n)) p' = Some r;
}.
Arguments MsgPuckSpec : clear implicits.

(** ** Derived facts *)

Section derived.
Context {MP : MsgPuck} {MPS : MsgPuckSpec MP}.

Lemma mp_skip_add a b p :
  mp_skip (a + b) p = p' ← mp_skip a p; mp_skip b p'.
Proof.
  revert p; induction a as [|a IH]; intros p; simpl; [done|].
  destruct (mp_check p); simpl; auto.
Qed.

Lemma mp_skip_1 p : mp_skip 1 p = mp_check p.
Proof. simpl. by destruct (mp_check p). Qed.

Lemma mp_object_check o r : mp_object o -> mp_check (o ++ r) = Some r.
Proof.
  intros H. destruct (spec_check_split _ _ H) as (o' & E & _ & Hr).
  rewrite app_nil_r in E. subst. apply Hr.
Qed.

Lemma mp_object_intro o : (forall r, mp_check (o ++ r) = Some r) -> mp_object o.
Proof. intros H. unfold mp_object. rewrite <- (app_nil_r o) at 1. apply H. Qed.

Lemma typeof_app p r t : mp_typeof_at p = Some t -> mp_typeof_at (p ++ r) = Some t.
Proof. by destruct p. Qed.

Lemma check_typeof p r : mp_check p = Some r -> exists t, mp_typeof_at p = Some t.
Proof.
  intros H. destruct (spec_check_split _ _ H) as (o & -> & Hne & _). destruct o; [done|]. simpl. by eexists.
Qed.

Lemma mp_object_nonempty o : mp_object o -> o <> [].
Proof.
  intros H. destruct (spec_check_split _ _ H) as (o' & E & N & _).
  rewrite app_nil_r in E. by subst.
Qed.

Lemma mp_object_next o r : mp_object o -> mp_next (o ++ r) = Some r.
Proof. intros H. by apply spec_next, mp_object_check. Qed.

Lemma mp_check_object p r : mp_check p = Some r -> exists o, p = o ++ r /\ mp_object o.
Proof.
  intros H. destruct (spec_check_split _ _ H) as (o & E & _ & Hr).
  exists o. split; [done|]. by apply mp_object_intro.
Qed.

Lemma mp_skip_objects os r :
  Forall mp_object os -> mp_skip (length os) (concat os ++ r) = Some r.
Proof.
  induction 1 as [|o os Ho _ IH]; simpl; [done|].
  rewrite <- app_assoc, mp_object_check by done. done.
Qed.

Lemma mp_skip_inv k p r :
  mp_skip k p = Some r -> exists os, p = concat os ++ r /\ length os = k /\ Forall mp_object os.
Proof.
  revert p; induction k as [|k IH]; intros p H; simpl in H.
  - inv_opt. by exists [].
  - inv_opt. destruct (mp_check_object _ _ H) as (o & -> & Ho).
    destruct (IH _ H0) as (os & -> & <- & Hos).
    exists (o :: os). simpl. rewrite app_assoc. auto.
Qed.

Lemma mp_object_uint n : 0 <= n < 2 ^ 64 -> mp_object (mp_encode_uint n).
Proof. intros. apply mp_object_intro. intros. by apply spec_check_uint. Qed.

Lemma mp_object_str s : zlen s < 2 ^ 32 -> mp_object (mp_encode_str s).
Proof.
  intros. apply mp_object_intro. intros. unfold mp_encode_str.
  rewrite <- app_assoc. by apply spec_check_str.
Qed.

Lemma mp_object_bin s : zlen s < 2 ^ 32 -> mp_object (mp_encode_bin s).
Proof.
  intros. apply mp_object_intro. intros. unfold mp_encode_bin.
  rewrite <- app_assoc. by apply spec_check_bin.
Qed.

Lemma mp_object_array os :
  Forall mp_object os -> zlen os < 2 ^ 32 ->
  mp_object (mp_encode_array (zlen os) ++ concat os).
Proof.
  intros H L. apply mp_object_intro. intros r. rewrite <- app_assoc.
  apply spec_check_array; [len|]. unfold zlen. rewrite Nat2Z.id. by apply mp_skip_objects.
Qed.

Lemma mp_object_array32 os :
  Forall mp_object os -> zlen os < 2 ^ 32 ->
  mp_object (0xdd :: be 4 (zlen os) ++ concat os).
Proof.
  intros H L. apply mp_object_intro. intros r.
  change ((0xdd :: ?x) ++ r) with (0xdd :: (x ++ r)). rewrite <- app_assoc.
  apply spec_check_array32; [len|]. unfold zlen. rewrite Nat2Z.id. by apply mp_skip_objects.
Qed.

Lemma mp_object_map n os :
  Forall mp_object os -> zlen os = 2 * n -> n < 2 ^ 32 ->
  mp_object (mp_encode_map n ++ concat os).
Proof.
  intros H L1 L2. apply mp_object_intro. intros r. rewrite <- app_assoc.
  apply spec_check_map; [len|]. rewrite <- L1. unfold zlen. rewrite Nat2Z.id.
  by apply mp_skip_objects.
Qed.

Lemma mp_object_map32 n os :
  Forall mp_object os -> zlen os = 2 * n -> n < 2 ^ 32 ->
  mp_object (0xdf :: be 4 n ++ concat os).
Proof.
  intros H L1 L2. apply mp_object_intro. intros r.
  change ((0xdf :: ?x) ++ r) with (0xdf :: (x ++ r)). rewrite <- app_assoc.
  apply spec_check_map32; [len|]. rewrite <- L1. unfold zlen. rewrite Nat2Z.id.
  by apply mp_skip_objects.
Qed.

End derived.

Create HintDb mp.
#[export] Hint Resolve mp_object_uint mp_object_str mp_object_bin : mp.
