(* ===== verification/MsgpuckRef.v ===== *)
(** * A reference instance of the msgpuck interface

    The encoders and decoders of the MessagePack specification, as one tag
    table, one header decoder and a counter-driven object scanner.  The
    instance [RefPuck] satisfies [MsgPuckSpec], so the hypotheses every model
    of the development makes about msgpuck are satisfiable; the concrete
    evaluations of the other files run on it. *)

From S2P Require Import Prelude Msgpuck.

(** The argument of a tag byte: immediate, or a big-endian number of the given
    width after the tag, or no argument at all. *)
Inductive tag_arg := Imm (n : Z) | Num (width : nat) | Reserved.

Definition tag_table : list (mp_type * tag_arg) :=
  [ (MP_NIL, Imm 0); (MP_EXT, Reserved); (MP_BOOL, Imm 0); (MP_BOOL, Imm 1);
    (MP_BIN, Num 1); (MP_BIN, Num 2); (MP_BIN, Num 4);
    (MP_EXT, Num 1); (MP_EXT, Num 2); (MP_EXT, Num 4);
    (MP_FLOAT, Num 4); (MP_DOUBLE, Num 8);
    (MP_UINT, Num 1); (MP_UINT, Num 2); (MP_UINT, Num 4); (MP_UINT, Num 8);
    (MP_INT, Num 1); (MP_INT, Num 2); (MP_INT, Num 4); (MP_INT, Num 8);
    (MP_EXT, Imm 1); (MP_EXT, Imm 2); (MP_EXT, Imm 4); (MP_EXT, Imm 8); (MP_EXT, Imm 16);
    (MP_STR, Num 1); (MP_STR, Num 2); (MP_STR, Num 4);
    (MP_ARRAY, Num 2); (MP_ARRAY, Num 4); (MP_MAP, Num 2); (MP_MAP, Num 4) ].

Definition tag (b : Z) : mp_type * tag_arg :=
  if b <? 0x80 then (MP_UINT, Imm b)
  else if b <? 0x90 then (MP_MAP, Imm (b - 0x80))
  else if b <? 0xa0 then (MP_ARRAY, Imm (b - 0x90))
  else if b <? 0xc0 then (MP_STR, Imm (b - 0xa0))
  else if b <? 0xe0 then nth (Z.to_nat (b - 0xc0)) tag_table (MP_EXT, Reserved)
  else (MP_INT, Imm (b - 256)).

(** Type, argument and rest after the header of the object at [p]. *)
Definition hdr (p : bytes) : option (mp_type * Z * bytes) :=
  match p with
  | [] => None
  | b :: q =>
      match tag b with
      | (t, Imm n) => Some (t, n, q)
      | (t, Num w) =>
          if decide (w <= length q)%nat
          then Some (t, be_val (take w q), drop w q) else None
      | (_, Reserved) => None
      end
  end.

Definition drop_checked (n : nat) (p : bytes) : option bytes :=
  if decide (n <= length p)%nat then Some (drop n p) else None.

(** Skip the header and the payload; the result is the number of child objects. *)
Definition ref_step (p : bytes) : option (nat * bytes) :=
  '(t, n, q) ← hdr p;
  match t with
  | MP_STR | MP_BIN => q' ← drop_checked (Z.to_nat n) q; Some (O, q')
  | MP_EXT => q' ← drop_checked (Z.to_nat n + 1) q; Some (O, q')
  | MP_ARRAY => if decide (0 <= n < 2 ^ 32) then Some (Z.to_nat n, q) else None
  | MP_MAP => if decide (0 <= n < 2 ^ 32) then Some (Z.to_nat (2 * n), q) else None
  | MP_UINT => if decide (0 <= n < 2 ^ 64) then Some (O, q) else None
  | _ => Some (O, q)
  end.

(** [k] objects remain to be scanned. *)
Fixpoint ref_scan (fuel k : nat) (p : bytes) : option bytes :=
  match k with
  | O => Some p
  | S k =>
      match fuel with
      | O => None
      | S fuel => '(c, q) ← ref_step p; ref_scan fuel (c + k) q
      end
  end.

Definition ref_check (p : bytes) : option bytes := ref_scan (length p) 1 p.

Definition ref_uint (n : Z) : bytes :=
  if n <? 0x80 then [n] else if n <? 0x100 then 0xcc :: be 1 n
  else if n <? 0x10000 then 0xcd :: be 2 n
  else if n <? 0x100000000 then 0xce :: be 4 n else 0xcf :: be 8 n.
Definition ref_int (n : Z) : bytes :=
  if -0x20 <=? n then [256 + n] else if -0x80 <=? n then 0xd0 :: be 1 n
  else if -0x8000 <=? n then 0xd1 :: be 2 n
  else if -0x80000000 <=? n then 0xd2 :: be 4 n else 0xd3 :: be 8 n.
Definition ref_strl (n : Z) : bytes :=
  if n <? 0x20 then [0xa0 + n] else if n <? 0x100 then 0xd9 :: be 1 n
  else if n <? 0x10000 then 0xda :: be 2 n else 0xdb :: be 4 n.
Definition ref_binl (n : Z) : bytes :=
  if n <? 0x100 then 0xc4 :: be 1 n
  else if n <? 0x10000 then 0xc5 :: be 2 n else 0xc6 :: be 4 n.
Definition ref_array (n : Z) : bytes :=
  if n <? 0x10 then [0x90 + n]
  else if n <? 0x10000 then 0xdc :: be 2 n else 0xdd :: be 4 n.
Definition ref_map (n : Z) : bytes :=
  if n <? 0x10 then [0x80 + n]
  else if n <? 0x10000 then 0xde :: be 2 n else 0xdf :: be 4 n.

Definition ref_decode (t : mp_type) (p : bytes) : option (Z * bytes) :=
  '(t', n, q) ← hdr p; if decide (t' = t) then Some (n, q) else None.

Definition ref_payload (t : mp_type) (p : bytes) : option (bytes * bytes) :=
  '(n, q) ← ref_decode t p;
  q' ← drop_checked (Z.to_nat n) q; Some (take (Z.to_nat n) q, q').

Definition ref_decode_str : bytes -> option (bytes * bytes) := ref_payload MP_STR.

(** Two's complement of the width of the number. *)
Definition ref_decode_int (p : bytes) : option (Z * bytes) :=
  '(n, q) ← ref_decode MP_INT p;
  let w := Z.of_nat (length p - length q - 1) in
  Some (if (n <? 0) || (n <? 2 ^ (8 * w - 1)) then n else n - 2 ^ (8 * w), q).

Definition ref_decode_bool (p : bytes) : option (bool * bytes) :=
  '(n, q) ← ref_decode MP_BOOL p; Some (n =? 1, q).

#[export] Instance RefPuck : MsgPuck := {
  mp_store_u8 := be 1; mp_store_u32 := be 4; mp_store_u64 := be 8;
  mp_encode_nil := [0xc0]; mp_encode_uint := ref_uint; mp_encode_int := ref_int;
  mp_encode_bool b := [if b : bool then 0xc3 else 0xc2];
  mp_encode_float n := 0xca :: be 4 n; mp_encode_double n := 0xcb :: be 8 n;
  mp_encode_strl := ref_strl; mp_encode_binl := ref_binl;
  mp_encode_array := ref_array; mp_encode_map := ref_map;
  mp_sizeof_uint n := zlen (ref_uint n); mp_sizeof_str n := zlen (ref_strl n) + n;
  mp_sizeof_array n := zlen (ref_array n); mp_sizeof_map n := zlen (ref_map n);
  mp_sizeof_nil := 1; mp_sizeof_int n := zlen (ref_int n); mp_sizeof_bool _ := 1;
  mp_sizeof_float _ := 5; mp_sizeof_double _ := 9; mp_sizeof_bin n := zlen (ref_binl n) + n;
  mp_typeof b := fst (tag b);
  mp_check := ref_check; mp_next := ref_check;
  mp_decode_uint := ref_decode MP_UINT; mp_decode_str := ref_decode_str;
  mp_decode_array := ref_decode MP_ARRAY; mp_decode_map := ref_decode MP_MAP;
  mp_decode_int := ref_decode_int; mp_decode_bool := ref_decode_bool;
  mp_decode_float := ref_decode MP_FLOAT; mp_decode_double := ref_decode MP_DOUBLE;
  mp_decode_bin := ref_payload MP_BIN;
}.

(** ** The scanner *)

Lemma drop_checked_inv n p q :
  drop_checked n p = Some q -> p = take n p ++ q /\ length (take n p) = n.
Proof.
  unfold drop_checked. case_decide; intros; inv_opt.
  split; [by rewrite take_drop | len].
Qed.

Lemma drop_checked_app h r : drop_checked (length h) (h ++ r) = Some r.
Proof. unfold drop_checked. rewrite decide_True by len. by rewrite drop_app_length. Qed.

Lemma drop_checked_app' n h r : length h = n -> drop_checked n (h ++ r) = Some r.
Proof. intros <-. apply drop_checked_app. Qed.

Lemma hdr_split p t n q :
  hdr p = Some (t, n, q) ->
  exists h, p = h ++ q /\ h <> [] /\ (forall r, hdr (h ++ r) = Some (t, n, r)) /\
    mp_typeof_at p = Some t.
Proof.
  destruct p as [|b p]; [done|]. unfold hdr at 1.
  destruct (tag b) as [t' [m|w|]] eqn:E; intros H; inv_opt.
  - exists [b]. unfold mp_typeof_at. simpl. rewrite E. auto.
  - case_decide; inv_opt. exists (b :: take w p). unfold mp_typeof_at. simpl.
    rewrite take_drop, E. repeat split; try done. intros r. rewrite decide_True by len.
    rewrite take_app_length', drop_app_length' by len. done.
Qed.

Lemma ref_step_split p c q :
  ref_step p = Some (c, q) ->
  exists h, p = h ++ q /\ h <> [] /\ forall r, ref_step (h ++ r) = Some (c, r).
Proof.
  unfold ref_step at 1. intros H. apply bind_Some in H as ([[t n] q0] & Hh & H).
  destruct (hdr_split _ _ _ _ Hh) as (h & -> & Hne & Hr & _).
  assert (forall k, h ++ k ≠ []) as Hne' by (intros k; by destruct h).
  destruct t; try case_decide; inv_opt.
  all: try match goal with
    | H : drop_checked _ _ = Some _ |- _ => apply drop_checked_inv in H as [Eq Hl]; rewrite Eq, app_assoc
    end.
  all: eexists; split; [done|]; split; [by auto|]; intros r; unfold ref_step.
  all: rewrite <- ?app_assoc, Hr; simpl; rewrite ?decide_True by done; try done.
  all: by rewrite drop_checked_app'.
Qed.

Lemma ref_step_shrink p c q : ref_step p = Some (c, q) -> (length q < length p)%nat.
Proof.
  intros H. destruct (ref_step_split _ _ _ H) as (h & -> & N & _).
  destruct h; [done|]. len.
Qed.

Lemma ref_scan_fuel f k p r f' :
  ref_scan f k p = Some r -> (length p <= f')%nat -> ref_scan f' k p = Some r.
Proof.
  revert k p f'. induction f as [|f IH]; intros [|k] p f' H L; simpl in H; try by destruct f'.
  apply bind_Some in H as ([c q] & Hs & H).
  pose proof (ref_step_shrink _ _ _ Hs). destruct f' as [|f']; [lia|].
  simpl. rewrite Hs. simpl. apply IH; [done|lia].
Qed.

(** The scanner with the fuel its input needs. *)
Definition scan (k : nat) (p : bytes) : option bytes := ref_scan (length p) k p.

Lemma scan_S k p : scan (S k) p = '(c, q) ← ref_step p; scan (c + k) q.
Proof.
  unfold scan. destruct (ref_step p) as [[c q]|] eqn:Hs.
  - pose proof (ref_step_shrink _ _ _ Hs). destruct p as [|b p]; [done|].
    simpl length. cbn [ref_scan]. rewrite Hs. simpl.
    destruct (ref_scan (length q) (c + k) q) eqn:E.
    + eapply ref_scan_fuel; [done|]. simpl in *. lia.
    + destruct (ref_scan (length p) (c + k) q) eqn:E'; [|done].
      apply ref_scan_fuel with (f' := length q) in E'; [congruence|lia].
  - destruct p; [done|]. simpl. by rewrite Hs.
Qed.

Lemma scan_0 p : scan 0 p = Some p.
Proof. unfold scan. by destruct p. Qed.

Lemma scan_add a b p : scan (a + b) p = q ← scan a p; scan b q.
Proof.
  remember (length p) as n eqn:En. revert a p En.
  induction (lt_wf n) as [n _ IH]. intros [|a] p ->; [by rewrite scan_0|].
  simpl. rewrite !scan_S. destruct (ref_step p) as [[c q]|] eqn:Hs; simpl; [|done].
  rewrite Nat.add_assoc. eapply IH; [|done]. by eapply ref_step_shrink.
Qed.

Lemma scan_split k p r :
  scan k p = Some r -> exists h, p = h ++ r /\ forall r', scan k (h ++ r') = Some r'.
Proof.
  remember (length p) as n eqn:En. revert k p En.
  induction (lt_wf n) as [n _ IH]. intros [|k] p -> H.
  - rewrite scan_0 in H. inv_opt. exists []. split; [done|]. intros. apply scan_0.
  - rewrite scan_S in H. apply bind_Some in H as ([c q] & Hs & H).
    pose proof (ref_step_shrink _ _ _ Hs).
    destruct (ref_step_split _ _ _ Hs) as (h & -> & _ & Hr).
    destruct (IH (length q) ltac:(lia) _ _ eq_refl H) as (h' & -> & Hr').
    exists (h ++ h'). split; [by rewrite app_assoc|]. intros r'.
    rewrite <- app_assoc, scan_S, Hr. simpl. apply Hr'.
Qed.

Lemma mp_skip_scan k p : mp_skip k p = scan k p.
Proof.
  revert p; induction k as [|k IH]; intros p; [by rewrite scan_0|].
  change (S k) with (1 + k)%nat. rewrite scan_add. simpl.
  change (ref_check p) with (scan 1 p). destruct (scan 1 p); simpl; auto.
Qed.

Lemma ref_check_scan p : mp_check p = scan 1 p.
Proof. done. Qed.

(** ** The headers the encoders write *)

Lemma hdr_num b t w n r :
  tag b = (t, Num w) ->
  hdr (b :: be w n ++ r) = Some (t, n mod 256 ^ Z.of_nat w, r).
Proof.
  intros E. unfold hdr. rewrite E, decide_True by len.
  rewrite take_app_length', drop_app_length' by len. by rewrite be_val_be.
Qed.

Lemma hdr_num' b t w n r :
  tag b = (t, Num w) -> 0 <= n < 256 ^ Z.of_nat w ->
  hdr (b :: be w n ++ r) = Some (t, n, r).
Proof. intros E H. rewrite (hdr_num _ t) by done. by rewrite Z.mod_small. Qed.

Lemma hdr_imm b t n r : tag b = (t, Imm n) -> hdr (b :: r) = Some (t, n, r).
Proof. intros E. unfold hdr. by rewrite E. Qed.

(** Walk down the size tests of an encoder. *)
Ltac enc_cases :=
  repeat match goal with
  | |- context [?x <? ?y] => destruct (Z.ltb_spec x y)
  | |- context [?x <=? ?y] => destruct (Z.leb_spec x y)
  end.

Ltac tag_imm := unfold tag; enc_cases; try lia; repeat f_equal; lia.
Ltac hdr_tac :=
  rewrite <- ?app_comm_cons, ?app_nil_l;
  first [ apply hdr_num'; [reflexivity | simpl; lia]
        | apply hdr_imm; tag_imm ].

Lemma hdr_uint n r : 0 <= n < 2 ^ 64 -> hdr (ref_uint n ++ r) = Some (MP_UINT, n, r).
Proof. intros. unfold ref_uint. enc_cases; hdr_tac. Qed.
Lemma hdr_strl n r : 0 <= n < 2 ^ 32 -> hdr (ref_strl n ++ r) = Some (MP_STR, n, r).
Proof. intros. unfold ref_strl. enc_cases; hdr_tac. Qed.
Lemma hdr_binl n r : 0 <= n < 2 ^ 32 -> hdr (ref_binl n ++ r) = Some (MP_BIN, n, r).
Proof. intros. unfold ref_binl. enc_cases; hdr_tac. Qed.
Lemma hdr_array n r : 0 <= n < 2 ^ 32 -> hdr (ref_array n ++ r) = Some (MP_ARRAY, n, r).
Proof. intros. unfold ref_array. enc_cases; hdr_tac. Qed.
Lemma hdr_map n r : 0 <= n < 2 ^ 32 -> hdr (ref_map n ++ r) = Some (MP_MAP, n, r).
Proof. intros. unfold ref_map. enc_cases; hdr_tac. Qed.

Lemma hdr_int n r : - 2 ^ 63 <= n < 0 -> exists m, hdr (ref_int n ++ r) = Some (MP_INT, m, r).
Proof.
  intros. unfold ref_int. enc_cases; rewrite <- ?app_comm_cons, ?app_nil_l;
    eexists; first [ apply hdr_num; reflexivity | apply hdr_imm; tag_imm ].
Qed.

(** ** The laws *)

(** Objects without children and payload. *)
Lemma scan_scalar p t n r :
  hdr p = Some (t, n, r) -> t ∈ [MP_NIL; MP_INT; MP_BOOL; MP_FLOAT; MP_DOUBLE] ->
  scan 1 p = Some r.
Proof.
  intros H Ht. rewrite scan_S. unfold ref_step. rewrite H. simpl.
  rewrite !elem_of_cons in Ht. destruct_or!; subst; simpl; try apply scan_0.
  by apply elem_of_nil in Ht.
Qed.

Lemma scan_uint p n r :
  hdr p = Some (MP_UINT, n, r) -> 0 <= n < 2 ^ 64 -> scan 1 p = Some r.
Proof.
  intros H Hn. rewrite scan_S. unfold ref_step. rewrite H. simpl.
  rewrite decide_True by done. simpl. apply scan_0.
Qed.

Lemma scan_payload p t s r :
  hdr p = Some (t, zlen s, s ++ r) -> t = MP_STR \/ t = MP_BIN -> scan 1 p = Some r.
Proof.
  intros H Ht. rewrite scan_S. unfold ref_step. rewrite H. simpl.
  assert (drop_checked (Z.to_nat (zlen s)) (s ++ r) = Some r) as E.
  { apply drop_checked_app'. unfold zlen. lia. }
  destruct Ht; subst; rewrite E; simpl; apply scan_0.
Qed.

Lemma scan_array p n q r :
  hdr p = Some (MP_ARRAY, n, q) -> 0 <= n < 2 ^ 32 ->
  mp_skip (Z.to_nat n) q = Some r -> scan 1 p = Some r.
Proof.
  intros H Hn. rewrite mp_skip_scan, scan_S. unfold ref_step. rewrite H. simpl.
  rewrite decide_True by done. simpl. by rewrite Nat.add_0_r.
Qed.

Lemma scan_map p n q r :
  hdr p = Some (MP_MAP, n, q) -> 0 <= n < 2 ^ 32 ->
  mp_skip (Z.to_nat (2 * n)) q = Some r -> scan 1 p = Some r.
Proof.
  intros H Hn. rewrite mp_skip_scan, scan_S. unfold ref_step. rewrite H. simpl.
  rewrite decide_True by done. simpl. by rewrite Nat.add_0_r.
Qed.

Lemma hdr_type p t n q : hdr p = Some (t, n, q) -> mp_typeof_at p = Some t.
Proof. intros H. by destruct (hdr_split _ _ _ _ H) as (h & _ & _ & _ & E). Qed.

Lemma decode_hdr p t n q : hdr p = Some (t, n, q) -> ref_decode t p = Some (n, q).
Proof. intros H. unfold ref_decode. rewrite H. simpl. by rewrite decide_True. Qed.

(** A checked object of a given type has a header of that type. *)
Lemma checked_hdr p r t :
  mp_check p = Some r -> mp_typeof_at p = Some t ->
  exists n h q, p = h ++ q /\ hdr p = Some (t, n, q) /\
    (exists c q', ref_step p = Some (c, q') /\ scan c q' = Some r).
Proof.
  rewrite ref_check_scan, scan_S. intros H Ht.
  apply bind_Some in H as ([c q] & Hs & H). pose proof Hs as Hs'. unfold ref_step in Hs'.
  apply bind_Some in Hs' as ([[t' n] q0] & Hh & _).
  rewrite (hdr_type _ _ _ _ Hh) in Ht. injection Ht as ->.
  destruct (hdr_split _ _ _ _ Hh) as (h & E & _).
  exists n, h, q0. repeat split; try done. exists c, q. by rewrite Nat.add_0_r in H.
Qed.

Lemma ref_next p r : mp_check p = Some r -> mp_next p = Some r.
Proof. done. Qed.

Lemma ref_check_split p r : mp_check p = Some r ->
  exists o, p = o ++ r /\ o <> [] /\ (forall r', mp_check (o ++ r') = Some r').
Proof.
  intros H. destruct (scan_split 1 p r H) as (o & E & Hr). exists o.
  split; [done|]. split; [|exact Hr]. intros ->. discriminate (Hr []).
Qed.

Lemma ref_checked_uint p r : mp_check p = Some r -> mp_typeof_at p = Some MP_UINT ->
  exists n, mp_decode_uint p = Some (n, r) /\ 0 <= n < 2 ^ 64.
Proof.
  intros H Ht. destruct (checked_hdr _ _ _ H Ht) as (n & h & q & -> & Hh & c & q' & Hs & Hc).
  unfold ref_step in Hs. rewrite Hh in Hs. simpl in Hs. case_decide; inv_opt.
  rewrite scan_0 in Hc. inv_opt. exists n. split; [|done]. simpl. by apply decode_hdr.
Qed.

Lemma ref_checked_str p r : mp_check p = Some r -> mp_typeof_at p = Some MP_STR ->
  exists h s, mp_decode_str p = Some (s, r) /\ p = h ++ s ++ r.
Proof.
  intros H Ht. destruct (checked_hdr _ _ _ H Ht) as (n & h & q & -> & Hh & c & q' & Hs & Hc).
  unfold ref_step in Hs. rewrite Hh in Hs. simpl in Hs. inv_opt.
  rewrite scan_0 in Hc. inv_opt. exists h, (take (Z.to_nat n) q).
  simpl. unfold ref_decode_str, ref_payload. rewrite (decode_hdr _ _ _ _ Hh). simpl.
  match goal with H : drop_checked _ _ = Some _ |- _ => rewrite H; apply drop_checked_inv in H as [E _] end.
  split; [done|]. by rewrite <- E.
Qed.

Lemma ref_checked_array p r : mp_check p = Some r -> mp_typeof_at p = Some MP_ARRAY ->
  exists n p', mp_decode_array p = Some (n, p') /\ 0 <= n < 2 ^ 32 /\
    (exists h, p = h ++ p') /\ mp_skip (Z.to_nat n) p' = Some r.
Proof.
  intros H Ht. destruct (checked_hdr _ _ _ H Ht) as (n & h & q & -> & Hh & c & q' & Hs & Hc).
  unfold ref_step in Hs. rewrite Hh in Hs. simpl in Hs. case_decide; inv_opt.
  exists n, q'. rewrite mp_skip_scan. repeat split; try lia; eauto. simpl. by apply decode_hdr.
Qed.

Lemma ref_checked_map p r : mp_check p = Some r -> mp_typeof_at p = Some MP_MAP ->
  exists n p', mp_decode_map p = Some (n, p') /\ 0 <= n < 2 ^ 32 /\
    (exists h, p = h ++ p') /\ mp_skip (Z.to_nat (2 * n)) p' = Some r.
Proof.
  intros H Ht. destruct (checked_hdr _ _ _ H Ht) as (n & h & q & -> & Hh & c & q' & Hs & Hc).
  unfold ref_step in Hs. rewrite Hh in Hs. cbn [mbind option_bind] in Hs. case_decide; inv_opt.
  exists n, q'. rewrite mp_skip_scan. repeat split; try lia; eauto. simpl. by apply decode_hdr.
Qed.

Lemma ref_decode_app p r n q :
  mp_decode_uint p = Some (n, q) -> mp_decode_uint (p ++ r) = Some (n, q ++ r).
Proof.
  simpl. unfold ref_decode. intros H. apply bind_Some in H as ([[t m] q0] & Hh & H).
  destruct (hdr_split _ _ _ _ Hh) as (h & -> & _ & Hall & _).
  rewrite <- app_assoc, Hall. simpl. case_decide; by inv_opt.
Qed.

(** A number of [w] bytes that [ref_int] has chosen. *)
Lemma int_num b w n r :
  tag b = (MP_INT, Num w) -> (0 < w)%nat -> - 2 ^ (8 * Z.of_nat w - 1) <= n < 0 ->
  ref_decode_int (b :: be w n ++ r) = Some (n, r).
Proof.
  intros E Hw Hn. unfold ref_decode_int, ref_decode. rewrite (hdr_num _ MP_INT) by done. simpl.
  rewrite length_app, length_be. replace (S (w + length r) - length r - 1)%nat with w by lia.
  assert (256 ^ Z.of_nat w = 2 * 2 ^ (8 * Z.of_nat w - 1)) as E256.
  { change 256 with (2 ^ 8). rewrite <- Z.pow_mul_r, <- Z.pow_succ_r by lia. f_equal. lia. }
  assert (2 ^ (8 * Z.of_nat w) = 256 ^ Z.of_nat w) as -> by (change 256 with (2 ^ 8); by rewrite Z.pow_mul_r by lia).
  assert (n mod 256 ^ Z.of_nat w = n + 256 ^ Z.of_nat w) as ->.
  { symmetry. apply (Z.mod_unique _ _ (-1)); lia. }
  rewrite E256. destruct (Z.ltb_spec (n + 2 * 2 ^ (8 * Z.of_nat w - 1)) 0); [lia|].
  destruct (Z.ltb_spec (n + 2 * 2 ^ (8 * Z.of_nat w - 1)) (2 ^ (8 * Z.of_nat w - 1))); [lia|].
  simpl. do 2 f_equal. lia.
Qed.

Lemma ref_int_decode n r : - 2 ^ 63 <= n < 0 -> mp_decode_int (mp_encode_int n ++ r) = Some (n, r).
Proof.
  intros Hn. cbn [mp_decode_int mp_encode_int RefPuck]. unfold ref_int. enc_cases; rewrite <- ?app_comm_cons, ?app_nil_l.
  2-5: apply int_num; [done|lia|simpl; lia].
  unfold ref_decode_int, ref_decode. rewrite (hdr_imm _ MP_INT n) by tag_imm. simpl.
  by destruct (Z.ltb_spec n 0); [|lia].
Qed.

Ltac len_tac :=
  intros; unfold ref_uint, ref_int, ref_strl, ref_binl, ref_array, ref_map in *;
  enc_cases; len.

#[export] Instance RefPuckSpec : MsgPuckSpec RefPuck.
Proof.
  split; try (simpl; done).
  all: try (simpl; len_tac; fail).
  all: try (intros; eapply hdr_type; cbn [mp_encode_uint mp_encode_strl mp_encode_array mp_encode_map RefPuck];
    first [ by apply hdr_uint | by apply hdr_strl | by apply hdr_array | by apply hdr_map
          | apply hdr_num; reflexivity ]).
  all: intros; rewrite ?ref_check_scan.
  - apply (scan_scalar _ MP_NIL 0); [done | set_solver].
  - apply (scan_uint _ n); [by apply hdr_uint | done].
  - apply (scan_uint _ (n mod 256 ^ 4)); [by apply hdr_num|]. pose proof (Z.mod_pos_bound n (256 ^ 4)). lia.
  - destruct (hdr_int n r H) as [m Hm]. apply (scan_scalar _ MP_INT m); [done | set_solver].
  - destruct b; (eapply (scan_scalar _ MP_BOOL); [by apply hdr_imm | set_solver]).
  - apply (scan_payload _ MP_STR s); [apply hdr_strl; len | by left].
  - apply (scan_payload _ MP_BIN s); [apply hdr_binl; len | by right].
  - apply (scan_array _ n p); [by apply hdr_array | done | done].
  - apply (scan_array _ n p); [by apply hdr_num' | done | done].
  - apply (scan_map _ n p); [by apply hdr_map | done | done].
  - apply (scan_map _ n p); [by apply hdr_num' | done | done].
  - by apply ref_check_split.
  - by apply decode_hdr, hdr_uint.
  - by apply ref_decode_app.
  - by apply decode_hdr, hdr_num'.
  - by apply decode_hdr, hdr_num'.
  - simpl. unfold ref_decode_str, ref_payload. rewrite (decode_hdr _ MP_STR (zlen s) (s ++ r)) by (apply hdr_strl; len).
    simpl. rewrite drop_checked_app' by len. simpl.
    rewrite take_app_length' by len. done.
  - by apply decode_hdr, hdr_array.
  - by apply decode_hdr, hdr_num'.
  - by apply decode_hdr, hdr_map.
  - by apply decode_hdr, hdr_num'.
  - by apply ref_int_decode.
  - by destruct b.
  - by apply decode_hdr, hdr_num'.
  - by apply decode_hdr, hdr_num'.
  - simpl. unfold ref_payload. rewrite (decode_hdr _ MP_BIN (zlen s) (s ++ r)) by (apply hdr_binl; len).
    simpl. rewrite drop_checked_app' by len. simpl.
    rewrite take_app_length' by len. done.
  - by apply ref_checked_uint.
  - by apply ref_checked_str.
  - by apply ref_checked_array.
  - by apply ref_checked_map.
Qed.
