(* ===== verification/Mem.v ===== *)
(** * tnt/tnt_mem.c: the allocator

    A pointer to a memory block is a value of type [ptr].  The process
    allocator (libc's [calloc], [realloc]) may refuse any request and chooses
    the contents of the bytes it does not have to preserve: the sequence of
    its decisions is an explicit list of [answer]s, over which every theorem
    quantifies.  An operation with undefined behaviour (double free, write out
    of a block, use of a dangling pointer) is [None]. *)

From S2P Require Import Prelude.

Inductive ptr :=
  | PNull
  | PHeap (block : bytes)   (** a live block of the allocator *)
  | PUser (block : bytes)   (** a live block owned by the caller of the library *)
  | PDangling.              (** a pointer to a freed block *)

#[export] Instance ptr_eq_dec : EqDecision ptr.
Proof. solve_decision. Defined.

(** What libc answers to one allocation request: no memory, or a block whose
    unspecified bytes are those of [junk] (padded with zeros). *)
Inductive answer := Refuse | Grant (junk : bytes).

Definition malloc_state := list answer.

Definition pop (st : malloc_state) : answer * malloc_state :=
  match st with [] => (Grant [], []) | a :: st => (a, st) end.

(** An allocator takes a pointer and a size; it returns the new pointer and
    what the argument pointer has become. *)
Definition tnt_allocator_t := answer -> ptr -> nat -> option (ptr * ptr).

(** [custom_realloc] *)
Definition custom_realloc : tnt_allocator_t := fun a p size =>
  match p with
  | PNull =>
      if decide (size = 0)%nat then Some (PNull, PNull)
      else match a with
           | Refuse => Some (PNull, PNull)
           | Grant _ => Some (PHeap (replicate size 0), PNull)   (* calloc *)
           end
  | PHeap b =>
      if decide (size = 0)%nat then Some (PNull, PDangling)       (* free *)
      else match a with
           | Refuse => Some (PNull, PHeap b)
           | Grant junk => Some (PHeap (resize size 0 (b ++ junk)), PDangling)
           end
  | PUser _ | PDangling => None
  end.

(** The global [_tnt_realloc] is an argument of the functions that read it. *)
Definition tnt_mem_init (cur : tnt_allocator_t) (new : option tnt_allocator_t)
    : tnt_allocator_t * tnt_allocator_t :=
  (cur, default cur new).

Definition tnt_mem_realloc (f : tnt_allocator_t) (a : answer) (p : ptr) (size : nat)
    : option (ptr * ptr) := f a p size.

Definition tnt_mem_alloc (f : tnt_allocator_t) (a : answer) (size : nat) : option ptr :=
  fst <$> f a PNull size.

(** [tnt_mem_free]: what the freed pointer has become. *)
Definition tnt_mem_free (f : tnt_allocator_t) (p : ptr) : option ptr :=
  snd <$> f Refuse p 0%nat.

(** Accesses through a pointer. *)
Definition block_of (p : ptr) : option bytes :=
  match p with PHeap b | PUser b => Some b | _ => None end.

Definition store (p : ptr) (off : nat) (bs : bytes) : option ptr :=
  match p with
  | PHeap b => PHeap <$> splice off bs b
  | PUser b => PUser <$> splice off bs b
  | _ => None
  end.

Definition load (p : ptr) (off n : nat) : option bytes :=
  b ← block_of p; slice off n b.

#[global] Arguments store : simpl never.

(** The index of the terminating zero of the string at [bs]; reading past the
    block is undefined. *)
Fixpoint strlen (bs : bytes) : option nat :=
  match bs with
  | [] => None
  | b :: bs => if decide (b = 0) then Some O else S <$> strlen bs
  end.

(** [tnt_mem_dup] of the string at the start of the block [sz]. *)
Definition tnt_mem_dup (f : tnt_allocator_t) (a : answer) (sz : bytes) : option ptr :=
  len ← strlen sz;
  szp ← tnt_mem_alloc f a (len + 1);
  match szp with
  | PNull => Some PNull
  | _ => src ← slice 0 (len + 1) sz; store szp 0 src
  end.

(** ** Properties *)

Lemma store_heap b off bs :
  (off + length bs <= length b)%nat ->
  store (PHeap b) off bs = Some (PHeap (take off b ++ bs ++ drop (off + length bs) b)).
Proof. intros. unfold store. by rewrite splice_Some. Qed.

(** A fresh block is zeroed. *)
Lemma tnt_mem_alloc_eq a n :
  (0 < n)%nat ->
  tnt_mem_alloc custom_realloc a n =
    Some (match a with Refuse => PNull | Grant _ => PHeap (replicate n 0) end).
Proof. intros. unfold tnt_mem_alloc, custom_realloc. rewrite decide_False by lia. by destruct a. Qed.

Lemma strlen_app s r : Forall (fun b => b <> 0) s -> strlen (s ++ 0 :: r) = Some (length s).
Proof.
  induction 1 as [|b s Hb _ IH]; [done|]. simpl. rewrite decide_False by done.
  by rewrite IH.
Qed.

Lemma replicate_splice n (bs : bytes) :
  length bs = n -> splice 0 bs (replicate n 0) = Some bs.
Proof.
  intros E. rewrite splice_Some by len. simpl.
  rewrite E, drop_ge, app_nil_r; len. done.
Qed.

(** A refused allocation leaves no copy; a granted one is an exact copy of the
    string with its terminating zero, in a block of its own. *)
Lemma tnt_mem_dup_ok a s r :
  Forall (fun b => b <> 0) s ->
  tnt_mem_dup custom_realloc a (s ++ 0 :: r) =
    Some (match a with Refuse => PNull | Grant _ => PHeap (s ++ [0]) end).
Proof.
  intros H. unfold tnt_mem_dup. rewrite strlen_app by done. simpl.
  rewrite tnt_mem_alloc_eq by lia. destruct a; simpl; [done|].
  unfold slice. rewrite decide_True by (len). simpl.
  replace (take (length s + 1) (drop 0 (s ++ 0 :: r))) with (s ++ [0]).
  2: { rewrite drop_0. change (0 :: r) with ([0] ++ r). rewrite app_assoc, take_app_length'; len. done. }
  simpl. unfold store. rewrite replicate_splice by len. done.
Qed.
