(* ===== verification/Uri.v ===== *)
(** * third_party/uri.c: the URI parser

    Ragel generated uri.c in its goto style, one label for each state and one
    for each transition that has actions.  [Ragel.labels] is that code, label by
    label in the order of the source; [Ragel.run] executes it on a string.  The
    C code that the grammar attaches to transitions is an [action].  A pointer
    into the string is an offset; a subtraction from [NULL] is undefined
    ([None]). *)

From S2P Require Import Prelude Mem.

(** [enum uri_host_hint] *)
Inductive uri_host_hint := URI_NAME | URI_IPV4 | URI_IPV6 | URI_UNIX.

#[export] Instance uri_host_hint_eq_dec : EqDecision uri_host_hint.
Proof. solve_decision. Defined.

(** A pointer into the URI string and a length; [None] for [NULL], with length 0. *)
Definition range := option (nat * nat).

Definition range_len (r : range) : nat := match r with Some (_, len) => len | None => 0%nat end.

(** The host may also be the literal [URI_HOST_UNIX]. *)
Inductive host_ptr := HostAt (p : range) | HostUnix.

#[export] Instance host_ptr_eq_dec : EqDecision host_ptr.
Proof. solve_decision. Defined.

(** [struct uri] *)
Record uri := Uri {
  uri_scheme : range; uri_login : range; uri_password : range; uri_host : host_ptr; uri_service : range;
  uri_path : range; uri_query : range; uri_fragment : range;
  host_hint : uri_host_hint;
}.

(** A zeroed structure. *)
Definition zero_uri : uri := Uri None None None (HostAt None) None None None None URI_NAME.

(** "unix/" *)
Definition URI_HOST_UNIX : bytes := [117; 110; 105; 120; 47].
Definition URI_MAXHOST : nat := 1025.
Definition URI_MAXSERVICE : nat := 256.

Module Ragel.

(** Assignments to the fields. *)
Definition set_scheme x (u : uri) : uri :=
  Uri x (uri_login u) (uri_password u) (uri_host u) (uri_service u) (uri_path u) (uri_query u) (uri_fragment u) (host_hint u).
Definition set_login x (u : uri) : uri :=
  Uri (uri_scheme u) x (uri_password u) (uri_host u) (uri_service u) (uri_path u) (uri_query u) (uri_fragment u) (host_hint u).
Definition set_password x (u : uri) : uri :=
  Uri (uri_scheme u) (uri_login u) x (uri_host u) (uri_service u) (uri_path u) (uri_query u) (uri_fragment u) (host_hint u).
Definition set_host x (u : uri) : uri :=
  Uri (uri_scheme u) (uri_login u) (uri_password u) x (uri_service u) (uri_path u) (uri_query u) (uri_fragment u) (host_hint u).
Definition set_service x (u : uri) : uri :=
  Uri (uri_scheme u) (uri_login u) (uri_password u) (uri_host u) x (uri_path u) (uri_query u) (uri_fragment u) (host_hint u).
Definition set_path x (u : uri) : uri :=
  Uri (uri_scheme u) (uri_login u) (uri_password u) (uri_host u) (uri_service u) x (uri_query u) (uri_fragment u) (host_hint u).
Definition set_query x (u : uri) : uri :=
  Uri (uri_scheme u) (uri_login u) (uri_password u) (uri_host u) (uri_service u) (uri_path u) x (uri_fragment u) (host_hint u).
Definition set_fragment x (u : uri) : uri :=
  Uri (uri_scheme u) (uri_login u) (uri_password u) (uri_host u) (uri_service u) (uri_path u) (uri_query u) x (host_hint u).
Definition set_hint x (u : uri) : uri :=
  Uri (uri_scheme u) (uri_login u) (uri_password u) (uri_host u) (uri_service u) (uri_path u) (uri_query u) (uri_fragment u) x.

(** ** The actions *)

Inductive action :=
  | ASet            (** [s = p] *)
  | AScheme | ALogin | APassword | AHost | AService | APath | AQuery | AFragment
  | ASchemeTmp      (** [scheme = s; scheme_len = p - s] *)
  | ALoginTmp       (** [login = s; login_len = p - s] *)
  | AHostIPv4 | AHostIPv6
  | AUnix           (** a path: the host is [URI_HOST_UNIX] *)
  | AServiceStart | AServiceEnd.

(** The local variables [s], [login] and [scheme], and [*uri]. *)
Record vars := Vars { v_s : option nat; v_login : range; v_scheme : range; v_uri : uri }.

Definition on_uri (f : uri -> uri) (v : vars) : vars := Vars (v_s v) (v_login v) (v_scheme v) (f (v_uri v)).

(** The action [a] with [p] at offset [p]; [token] is [s] with length [p - s]. *)
Definition do_action (p : nat) (a : action) (v : vars) : option vars :=
  let token := s ← v_s v; Some (Some (s, (p - s)%nat)) in
  match a with
  | ASet => Some (Vars (Some p) (v_login v) (v_scheme v) (v_uri v))
  | AQuery => t ← token; Some (on_uri (set_query t) v)
  | AFragment => t ← token; Some (on_uri (set_fragment t) v)
  | AHost => t ← token; Some (on_uri (set_host (HostAt t)) v)
  | AHostIPv4 => t ← token; Some (on_uri (set_hint URI_IPV4 ∘ set_host (HostAt t)) v)
  | AHostIPv6 => t ← token; Some (on_uri (set_hint URI_IPV6 ∘ set_host (HostAt t)) v)
  | AUnix =>
      if decide (host_hint (v_uri v) <> URI_UNIX) then
        t ← token; Some (on_uri (set_path None ∘ set_service t ∘ set_host HostUnix ∘ set_hint URI_UNIX) v)
      else Some v
  | AService => t ← token; Some (on_uri (set_service t) v)
  | ALoginTmp => t ← token; Some (Vars (v_s v) t (v_scheme v) (v_uri v))
  | APassword => t ← token; Some (on_uri (set_password t) v)
  | ALogin => Some (on_uri (set_login (v_login v)) v)
  | ASchemeTmp => t ← token; Some (Vars (v_s v) (v_login v) t (v_uri v))
  | APath => t ← token; Some (on_uri (set_path t) v)
  | AScheme => Some (on_uri (set_scheme (v_scheme v)) v)
  | AServiceStart => Some (on_uri (set_service (Some (p, range_len (uri_service (v_uri v))))) v)
  | AServiceEnd =>
      '(off, _) ← uri_service (v_uri v);
      Some (on_uri (set_host (HostAt None) ∘ set_service (Some (off, (p - off)%nat))) v)
  end.

Fixpoint do_actions (p : nat) (l : list action) (v : vars) : option vars :=
  match l with
  | [] => Some v
  | a :: l => v ← do_action p a v; do_actions p l v
  end.

(** ** The code *)

(** Where a [goto] leads: [St n] is the label [stn], [Tr n] the label [trn]. *)
Inductive target := St (n : Z) | Tr (n : Z).

(** [Case n next]: [stn: if (++p == pe) goto _test_eofn; case n: ...], where
    [next] is the [switch] and the tests on [*p].  [Trans n l m]: [trn:], the
    actions [l], [goto stm].  [Stop n]: [stn: cs = n; goto _out]. *)
Inductive block :=
  | Case (n : Z) (next : Z -> target)
  | Trans (n : Z) (l : list action) (m : Z)
  | Stop (n : Z).

(** The statements of a state: a [switch] and tests, the first [goto] that is
    reached, and the [goto] after them. *)
Fixpoint switch (c : Z) (cases : list (Z * target)) : option target :=
  match cases with
  | [] => None
  | (k, t) :: cases => if c =? k then Some t else switch c cases
  end.
Definition in_ (lo hi c : Z) : bool := (lo <=? c) && (c <=? hi).
Definition when (b : bool) (t : target) : option target := if b then Some t else None.
Fixpoint first (l : list (option target)) (t : target) : target :=
  match l with
  | [] => t
  | Some t :: _ => t
  | None :: l => first l t
  end.

Definition labels_1 : list block := [
  Case 144 (fun c => first [switch c [(33, Tr 150); (35, Tr 151); (37, Tr 152); (47, Tr 153); (59, Tr 150); (61, Tr 150); (63, Tr 155); (64, St 204); (91, St 38); (95, Tr 150); (117, Tr 158); (126, Tr 150)];
    if c <? 48 then when (in_ 36 46 c) (Tr 150) else if c >? 57 then (if c >? 90 then when (in_ 97 122 c) (Tr 157) else when (c >=? 65) (Tr 157)) else Some (Tr 154)] (St 0));
  Stop 0;
  Trans 150 [ASet; ASet] 145;
  Case 145 (fun c => first [switch c [(33, St 145); (35, Tr 159); (37, St 6); (47, Tr 161); (58, Tr 162); (61, St 145); (63, Tr 163); (64, Tr 164); (95, St 145); (126, St 145)];
    if c <? 65 then when (in_ 36 59 c) (St 145) else if c >? 90 then when (in_ 97 122 c) (St 145) else Some (St 145)] (St 0));
  Trans 151 [APath; ASet] 146;
  Trans 159 [AHost; ASet; APath; ASet] 146;
  Trans 170 [ASet; AQuery; ASet] 146;
  Trans 172 [AQuery; ASet] 146;
  Trans 175 [ASet; AService; ASet; APath; ASet] 146;
  Trans 185 [AService; ASet; APath; ASet] 146;
  Trans 200 [AHostIPv4; AHost; ASet; APath; ASet] 146;
  Trans 209 [ASet; APath; ASet] 146
].

Definition labels_2 : list block := [
  Trans 314 [APath; ASet; AUnix; ASet] 146;
  Trans 318 [APath; AUnix; ASet] 146;
  Trans 323 [ASet; APath; AUnix; ASet] 146;
  Case 146 (fun c => first [switch c [(33, Tr 165); (37, Tr 166); (61, Tr 165); (95, Tr 165); (126, Tr 165)];
    if c <? 63 then when (in_ 36 59 c) (Tr 165) else if c >? 90 then when (in_ 97 122 c) (Tr 165) else Some (Tr 165)] (St 0));
  Trans 165 [ASet] 147;
  Case 147 (fun c => first [switch c [(33, St 147); (37, St 1); (61, St 147); (95, St 147); (126, St 147)];
    if c <? 63 then when (in_ 36 59 c) (St 147) else if c >? 90 then when (in_ 97 122 c) (St 147) else Some (St 147)] (St 0));
  Trans 166 [ASet] 1;
  Case 1 (fun c => first [switch c [(37, St 147); (117, St 2)];
    if c <? 65 then when (in_ 48 57 c) (St 147) else if c >? 70 then when (in_ 97 102 c) (St 147) else Some (St 147)] (St 0))
].

Definition labels_3 : list block := [
  Case 2 (fun c => first [if c <? 65 then when (in_ 48 57 c) (St 3) else if c >? 70 then when (in_ 97 102 c) (St 3) else Some (St 3)] (St 0));
  Case 3 (fun c => first [if c <? 65 then when (in_ 48 57 c) (St 4) else if c >? 70 then when (in_ 97 102 c) (St 4) else Some (St 4)] (St 0));
  Case 4 (fun c => first [if c <? 65 then when (in_ 48 57 c) (St 5) else if c >? 70 then when (in_ 97 102 c) (St 5) else Some (St 5)] (St 0));
  Case 5 (fun c => first [if c <? 65 then when (in_ 48 57 c) (St 147) else if c >? 70 then when (in_ 97 102 c) (St 147) else Some (St 147)] (St 0));
  Trans 152 [ASet; ASet] 6;
  Case 6 (fun c => first [switch c [(37, St 145); (117, St 7)];
    if c <? 65 then when (in_ 48 57 c) (St 145) else if c >? 70 then when (in_ 97 102 c) (St 145) else Some (St 145)] (St 0));
  Case 7 (fun c => first [if c <? 65 then when (in_ 48 57 c) (St 8) else if c >? 70 then when (in_ 97 102 c) (St 8) else Some (St 8)] (St 0));
  Case 8 (fun c => first [if c <? 65 then when (in_ 48 57 c) (St 9) else if c >? 70 then when (in_ 97 102 c) (St 9) else Some (St 9)] (St 0));
  Case 9 (fun c => first [if c <? 65 then when (in_ 48 57 c) (St 10) else if c >? 70 then when (in_ 97 102 c) (St 10) else Some (St 10)] (St 0));
  Case 10 (fun c => first [if c <? 65 then when (in_ 48 57 c) (St 145) else if c >? 70 then when (in_ 97 102 c) (St 145) else Some (St 145)] (St 0));
  Trans 161 [AHost; ASet] 148;
  Trans 177 [ASet; AService; ASet] 148;
  Trans 186 [AService; ASet] 148
].

Definition labels_4 : list block := [
  Trans 201 [AHostIPv4; AHost; ASet] 148;
  Trans 210 [ASet] 148;
  Case 148 (fun c => first [switch c [(33, St 148); (35, Tr 151); (37, St 11); (61, St 148); (63, Tr 155); (95, St 148); (126, St 148)];
    if c <? 64 then when (in_ 36 59 c) (St 148) else if c >? 90 then when (in_ 97 122 c) (St 148) else Some (St 148)] (St 0));
  Case 11 (fun c => first [switch c [(37, St 148); (117, St 12)];
    if c <? 65 then when (in_ 48 57 c) (St 148) else if c >? 70 then when (in_ 97 102 c) (St 148) else Some (St 148)] (St 0));
  Case 12 (fun c => first [if c <? 65 then when (in_ 48 57 c) (St 13) else if c >? 70 then when (in_ 97 102 c) (St 13) else Some (St 13)] (St 0));
  Case 13 (fun c => first [if c <? 65 then when (in_ 48 57 c) (St 14) else if c >? 70 then when (in_ 97 102 c) (St 14) else Some (St 14)] (St 0));
  Case 14 (fun c => first [if c <? 65 then when (in_ 48 57 c) (St 15) else if c >? 70 then when (in_ 97 102 c) (St 15) else Some (St 15)] (St 0));
  Case 15 (fun c => first [if c <? 65 then when (in_ 48 57 c) (St 148) else if c >? 70 then when (in_ 97 102 c) (St 148) else Some (St 148)] (St 0));
  Trans 155 [APath; ASet] 149;
  Trans 163 [AHost; ASet; APath; ASet] 149;
  Trans 179 [ASet; AService; ASet; APath; ASet] 149;
  Trans 188 [AService; ASet; APath; ASet] 149
].

Definition labels_5 : list block := [
  Trans 204 [AHostIPv4; AHost; ASet; APath; ASet] 149;
  Trans 212 [ASet; APath; ASet] 149;
  Trans 317 [APath; ASet; AUnix; ASet] 149;
  Trans 320 [APath; AUnix; ASet] 149;
  Trans 325 [ASet; APath; AUnix; ASet] 149;
  Case 149 (fun c => first [switch c [(33, Tr 169); (35, Tr 170); (37, Tr 171); (61, Tr 169); (95, Tr 169); (126, Tr 169)];
    if c <? 63 then when (in_ 36 59 c) (Tr 169) else if c >? 90 then when (in_ 97 122 c) (Tr 169) else Some (Tr 169)] (St 0));
  Trans 169 [ASet] 150;
  Case 150 (fun c => first [switch c [(33, St 150); (35, Tr 172); (37, St 16); (61, St 150); (95, St 150); (126, St 150)];
    if c <? 63 then when (in_ 36 59 c) (St 150) else if c >? 90 then when (in_ 97 122 c) (St 150) else Some (St 150)] (St 0));
  Trans 171 [ASet] 16
].

Definition labels_6 : list block := [
  Case 16 (fun c => first [switch c [(37, St 150); (117, St 17)];
    if c <? 65 then when (in_ 48 57 c) (St 150) else if c >? 70 then when (in_ 97 102 c) (St 150) else Some (St 150)] (St 0));
  Case 17 (fun c => first [if c <? 65 then when (in_ 48 57 c) (St 18) else if c >? 70 then when (in_ 97 102 c) (St 18) else Some (St 18)] (St 0));
  Case 18 (fun c => first [if c <? 65 then when (in_ 48 57 c) (St 19) else if c >? 70 then when (in_ 97 102 c) (St 19) else Some (St 19)] (St 0));
  Case 19 (fun c => first [if c <? 65 then when (in_ 48 57 c) (St 20) else if c >? 70 then when (in_ 97 102 c) (St 20) else Some (St 20)] (St 0));
  Case 20 (fun c => first [if c <? 65 then when (in_ 48 57 c) (St 150) else if c >? 70 then when (in_ 97 102 c) (St 150) else Some (St 150)] (St 0));
  Trans 162 [ALoginTmp; AHost] 151;
  Trans 240 [ALoginTmp; AHostIPv4; AHost] 151;
  Case 151 (fun c => first [switch c [(33, Tr 174); (35, Tr 175); (37, Tr 176); (47, Tr 177); (59, Tr 174); (61, Tr 174); (63, Tr 179); (95, Tr 174); (126, Tr 174)];
    if c <? 48 then when (in_ 36 46 c) (Tr 174) else if c >? 57 then (if c >? 90 then when (in_ 97 122 c) (Tr 180) else when (c >=? 65) (Tr 180)) else Some (Tr 178)] (St 0));
  Trans 174 [ASet] 21;
  Case 21 (fun c => first [switch c [(33, St 21); (37, St 22); (59, St 21); (61, St 21); (64, Tr 23); (95, St 21); (126, St 21)];
    if c <? 48 then when (in_ 36 46 c) (St 21) else if c >? 57 then (if c >? 90 then when (in_ 97 122 c) (St 21) else when (c >=? 65) (St 21)) else Some (St 21)] (St 0));
  Trans 176 [ASet] 22
].

Definition labels_7 : list block := [
  Case 22 (fun c => first [switch c [(37, St 21); (117, St 23)];
    if c <? 65 then when (in_ 48 57 c) (St 21) else if c >? 70 then when (in_ 97 102 c) (St 21) else Some (St 21)] (St 0));
  Case 23 (fun c => first [if c <? 65 then when (in_ 48 57 c) (St 24) else if c >? 70 then when (in_ 97 102 c) (St 24) else Some (St 24)] (St 0));
  Case 24 (fun c => first [if c <? 65 then when (in_ 48 57 c) (St 25) else if c >? 70 then when (in_ 97 102 c) (St 25) else Some (St 25)] (St 0));
  Case 25 (fun c => first [if c <? 65 then when (in_ 48 57 c) (St 26) else if c >? 70 then when (in_ 97 102 c) (St 26) else Some (St 26)] (St 0));
  Case 26 (fun c => first [if c <? 65 then when (in_ 48 57 c) (St 21) else if c >? 70 then when (in_ 97 102 c) (St 21) else Some (St 21)] (St 0));
  Trans 23 [APassword; ALogin] 27;
  Trans 164 [ALoginTmp; ALogin] 27;
  Case 27 (fun c => first [switch c [(33, Tr 28); (37, Tr 29); (47, Tr 30); (59, Tr 28); (61, Tr 28); (91, St 38); (95, Tr 28); (117, Tr 33); (126, Tr 28)];
    if c <? 48 then when (in_ 36 46 c) (Tr 28) else if c >? 57 then (if c >? 90 then when (in_ 97 122 c) (Tr 28) else when (c >=? 65) (Tr 28)) else Some (Tr 31)] (St 0));
  Trans 28 [ASet] 152;
  Case 152 (fun c => first [switch c [(33, St 152); (35, Tr 159); (37, St 28); (47, Tr 161); (58, Tr 182); (61, St 152); (63, Tr 163); (95, St 152); (126, St 152)];
    if c <? 65 then when (in_ 36 59 c) (St 152) else if c >? 90 then when (in_ 97 122 c) (St 152) else Some (St 152)] (St 0));
  Trans 29 [ASet] 28
].

Definition labels_8 : list block := [
  Case 28 (fun c => first [switch c [(37, St 152); (117, St 29)];
    if c <? 65 then when (in_ 48 57 c) (St 152) else if c >? 70 then when (in_ 97 102 c) (St 152) else Some (St 152)] (St 0));
  Case 29 (fun c => first [if c <? 65 then when (in_ 48 57 c) (St 30) else if c >? 70 then when (in_ 97 102 c) (St 30) else Some (St 30)] (St 0));
  Case 30 (fun c => first [if c <? 65 then when (in_ 48 57 c) (St 31) else if c >? 70 then when (in_ 97 102 c) (St 31) else Some (St 31)] (St 0));
  Case 31 (fun c => first [if c <? 65 then when (in_ 48 57 c) (St 32) else if c >? 70 then when (in_ 97 102 c) (St 32) else Some (St 32)] (St 0));
  Case 32 (fun c => first [if c <? 65 then when (in_ 48 57 c) (St 152) else if c >? 70 then when (in_ 97 102 c) (St 152) else Some (St 152)] (St 0));
  Trans 182 [AHost] 153;
  Trans 203 [AHostIPv4; AHost] 153;
  Case 153 (fun c => first [switch c [(35, Tr 175); (47, Tr 177); (63, Tr 179)];
    if c <? 65 then when (in_ 48 57 c) (Tr 183) else if c >? 90 then when (in_ 97 122 c) (Tr 184) else Some (Tr 184)] (St 0));
  Trans 183 [ASet] 154;
  Case 154 (fun c => first [switch c [(35, Tr 185); (47, Tr 186); (63, Tr 188)];
    when (in_ 48 57 c) (St 154)] (St 0));
  Trans 184 [ASet] 155;
  Case 155 (fun c => first [switch c [(35, Tr 185); (47, Tr 186); (63, Tr 188)];
    if c >? 90 then when (in_ 97 122 c) (St 155) else when (c >=? 65) (St 155)] (St 0));
  Trans 30 [ASet] 156
].

Definition labels_9 : list block := [
  Case 156 (fun c => first [switch c [(33, St 157); (37, St 33); (61, St 157); (95, St 157); (126, St 157)];
    if c <? 48 then when (in_ 36 46 c) (St 157) else if c >? 59 then (if c >? 90 then when (in_ 97 122 c) (St 157) else when (c >=? 64) (St 157)) else Some (St 157)] (St 0));
  Case 157 (fun c => first [switch c [(33, St 157); (37, St 33); (61, St 157); (95, St 157); (126, St 157)];
    if c <? 64 then when (in_ 36 59 c) (St 157) else if c >? 90 then when (in_ 97 122 c) (St 157) else Some (St 157)] (St 0));
  Case 33 (fun c => first [switch c [(37, St 157); (117, St 34)];
    if c <? 65 then when (in_ 48 57 c) (St 157) else if c >? 70 then when (in_ 97 102 c) (St 157) else Some (St 157)] (St 0));
  Case 34 (fun c => first [if c <? 65 then when (in_ 48 57 c) (St 35) else if c >? 70 then when (in_ 97 102 c) (St 35) else Some (St 35)] (St 0));
  Case 35 (fun c => first [if c <? 65 then when (in_ 48 57 c) (St 36) else if c >? 70 then when (in_ 97 102 c) (St 36) else Some (St 36)] (St 0));
  Case 36 (fun c => first [if c <? 65 then when (in_ 48 57 c) (St 37) else if c >? 70 then when (in_ 97 102 c) (St 37) else Some (St 37)] (St 0));
  Case 37 (fun c => first [if c <? 65 then when (in_ 48 57 c) (St 157) else if c >? 70 then when (in_ 97 102 c) (St 157) else Some (St 157)] (St 0));
  Trans 31 [ASet; ASet] 158;
  Case 158 (fun c => first [switch c [(33, St 152); (35, Tr 159); (37, St 28); (46, St 159); (47, Tr 161); (58, Tr 182); (59, St 152); (61, St 152); (63, Tr 163); (95, St 152); (126, St 152)];
    if c <? 48 then when (in_ 36 45 c) (St 152) else if c >? 57 then (if c >? 90 then when (in_ 97 122 c) (St 152) else when (c >=? 65) (St 152)) else Some (St 171)] (St 0))
].

Definition labels_10 : list block := [
  Case 159 (fun c => first [switch c [(33, St 152); (35, Tr 159); (37, St 28); (47, Tr 161); (58, Tr 182); (59, St 152); (61, St 152); (63, Tr 163); (95, St 152); (126, St 152)];
    if c <? 48 then when (in_ 36 46 c) (St 152) else if c >? 57 then (if c >? 90 then when (in_ 97 122 c) (St 152) else when (c >=? 65) (St 152)) else Some (St 160)] (St 0));
  Case 160 (fun c => first [switch c [(33, St 152); (35, Tr 159); (37, St 28); (46, St 161); (47, Tr 161); (58, Tr 182); (59, St 152); (61, St 152); (63, Tr 163); (95, St 152); (126, St 152)];
    if c <? 48 then when (in_ 36 45 c) (St 152) else if c >? 57 then (if c >? 90 then when (in_ 97 122 c) (St 152) else when (c >=? 65) (St 152)) else Some (St 169)] (St 0));
  Case 161 (fun c => first [switch c [(33, St 152); (35, Tr 159); (37, St 28); (47, Tr 161); (58, Tr 182); (59, St 152); (61, St 152); (63, Tr 163); (95, St 152); (126, St 152)];
    if c <? 48 then when (in_ 36 46 c) (St 152) else if c >? 57 then (if c >? 90 then when (in_ 97 122 c) (St 152) else when (c >=? 65) (St 152)) else Some (St 162)] (St 0));
  Case 162 (fun c => first [switch c [(33, St 152); (35, Tr 159); (37, St 28); (46, St 163); (47, Tr 161); (58, Tr 182); (59, St 152); (61, St 152); (63, Tr 163); (95, St 152); (126, St 152)];
    if c <? 48 then when (in_ 36 45 c) (St 152) else if c >? 57 then (if c >? 90 then when (in_ 97 122 c) (St 152) else when (c >=? 65) (St 152)) else Some (St 167)] (St 0));
  Case 163 (fun c => first [switch c [(33, St 152); (35, Tr 159); (37, St 28); (47, Tr 161); (58, Tr 182); (59, St 152); (61, St 152); (63, Tr 163); (95, St 152); (126, St 152)];
    if c <? 48 then when (in_ 36 46 c) (St 152) else if c >? 57 then (if c >? 90 then when (in_ 97 122 c) (St 152) else when (c >=? 65) (St 152)) else Some (St 164)] (St 0))
].

Definition labels_11 : list block := [
  Case 164 (fun c => first [switch c [(33, St 152); (35, Tr 200); (37, St 28); (47, Tr 201); (58, Tr 203); (59, St 152); (61, St 152); (63, Tr 204); (95, St 152); (126, St 152)];
    if c <? 48 then when (in_ 36 46 c) (St 152) else if c >? 57 then (if c >? 90 then when (in_ 97 122 c) (St 152) else when (c >=? 65) (St 152)) else Some (St 165)] (St 0));
  Case 165 (fun c => first [switch c [(33, St 152); (35, Tr 200); (37, St 28); (47, Tr 201); (58, Tr 203); (59, St 152); (61, St 152); (63, Tr 204); (95, St 152); (126, St 152)];
    if c <? 48 then when (in_ 36 46 c) (St 152) else if c >? 57 then (if c >? 90 then when (in_ 97 122 c) (St 152) else when (c >=? 65) (St 152)) else Some (St 166)] (St 0));
  Case 166 (fun c => first [switch c [(33, St 152); (35, Tr 200); (37, St 28); (47, Tr 201); (58, Tr 203); (61, St 152); (63, Tr 204); (95, St 152); (126, St 152)];
    if c <? 65 then when (in_ 36 59 c) (St 152) else if c >? 90 then when (in_ 97 122 c) (St 152) else Some (St 152)] (St 0));
  Case 167 (fun c => first [switch c [(33, St 152); (35, Tr 159); (37, St 28); (46, St 163); (47, Tr 161); (58, Tr 182); (59, St 152); (61, St 152); (63, Tr 163); (95, St 152); (126, St 152)];
    if c <? 48 then when (in_ 36 45 c) (St 152) else if c >? 57 then (if c >? 90 then when (in_ 97 122 c) (St 152) else when (c >=? 65) (St 152)) else Some (St 168)] (St 0));
  Case 168 (fun c => first [switch c [(33, St 152); (35, Tr 159); (37, St 28); (46, St 163); (47, Tr 161); (58, Tr 182); (61, St 152); (63, Tr 163); (95, St 152); (126, St 152)];
    if c <? 65 then when (in_ 36 59 c) (St 152) else if c >? 90 then when (in_ 97 122 c) (St 152) else Some (St 152)] (St 0))
].

Definition labels_12 : list block := [
  Case 169 (fun c => first [switch c [(33, St 152); (35, Tr 159); (37, St 28); (46, St 161); (47, Tr 161); (58, Tr 182); (59, St 152); (61, St 152); (63, Tr 163); (95, St 152); (126, St 152)];
    if c <? 48 then when (in_ 36 45 c) (St 152) else if c >? 57 then (if c >? 90 then when (in_ 97 122 c) (St 152) else when (c >=? 65) (St 152)) else Some (St 170)] (St 0));
  Case 170 (fun c => first [switch c [(33, St 152); (35, Tr 159); (37, St 28); (46, St 161); (47, Tr 161); (58, Tr 182); (61, St 152); (63, Tr 163); (95, St 152); (126, St 152)];
    if c <? 65 then when (in_ 36 59 c) (St 152) else if c >? 90 then when (in_ 97 122 c) (St 152) else Some (St 152)] (St 0));
  Case 171 (fun c => first [switch c [(33, St 152); (35, Tr 159); (37, St 28); (46, St 159); (47, Tr 161); (58, Tr 182); (59, St 152); (61, St 152); (63, Tr 163); (95, St 152); (126, St 152)];
    if c <? 48 then when (in_ 36 45 c) (St 152) else if c >? 57 then (if c >? 90 then when (in_ 97 122 c) (St 152) else when (c >=? 65) (St 152)) else Some (St 172)] (St 0));
  Case 172 (fun c => first [switch c [(33, St 152); (35, Tr 159); (37, St 28); (46, St 159); (47, Tr 161); (58, Tr 182); (61, St 152); (63, Tr 163); (95, St 152); (126, St 152)];
    if c <? 65 then when (in_ 36 59 c) (St 152) else if c >? 90 then when (in_ 97 122 c) (St 152) else Some (St 152)] (St 0));
  Case 38 (fun c => first [when (c =? 58) (Tr 45);
    if c >? 57 then when (in_ 97 102 c) (Tr 44) else when (c >=? 48) (Tr 44)] (St 0));
  Trans 44 [ASet] 39;
  Case 39 (fun c => first [when (c =? 58) (St 43);
    if c >? 57 then when (in_ 97 102 c) (St 40) else when (c >=? 48) (St 40)] (St 0));
  Case 40 (fun c => first [when (c =? 58) (St 43);
    if c >? 57 then when (in_ 97 102 c) (St 41) else when (c >=? 48) (St 41)] (St 0))
].

Definition labels_13 : list block := [
  Case 41 (fun c => first [when (c =? 58) (St 43);
    if c >? 57 then when (in_ 97 102 c) (St 42) else when (c >=? 48) (St 42)] (St 0));
  Case 42 (fun c => first [when (c =? 58) (St 43)] (St 0));
  Case 43 (fun c => first [switch c [(58, St 48); (93, Tr 52)];
    if c >? 57 then when (in_ 97 102 c) (St 44) else when (c >=? 48) (St 44)] (St 0));
  Case 44 (fun c => first [switch c [(58, St 48); (93, Tr 52)];
    if c >? 57 then when (in_ 97 102 c) (St 45) else when (c >=? 48) (St 45)] (St 0));
  Case 45 (fun c => first [switch c [(58, St 48); (93, Tr 52)];
    if c >? 57 then when (in_ 97 102 c) (St 46) else when (c >=? 48) (St 46)] (St 0));
  Case 46 (fun c => first [switch c [(58, St 48); (93, Tr 52)];
    if c >? 57 then when (in_ 97 102 c) (St 47) else when (c >=? 48) (St 47)] (St 0));
  Case 47 (fun c => first [switch c [(58, St 48); (93, Tr 52)]] (St 0));
  Case 48 (fun c => first [switch c [(58, St 53); (93, Tr 52)];
    if c >? 57 then when (in_ 97 102 c) (St 49) else when (c >=? 48) (St 49)] (St 0));
  Case 49 (fun c => first [switch c [(58, St 53); (93, Tr 52)];
    if c >? 57 then when (in_ 97 102 c) (St 50) else when (c >=? 48) (St 50)] (St 0));
  Case 50 (fun c => first [switch c [(58, St 53); (93, Tr 52)];
    if c >? 57 then when (in_ 97 102 c) (St 51) else when (c >=? 48) (St 51)] (St 0));
  Case 51 (fun c => first [switch c [(58, St 53); (93, Tr 52)];
    if c >? 57 then when (in_ 97 102 c) (St 52) else when (c >=? 48) (St 52)] (St 0));
  Case 52 (fun c => first [switch c [(58, St 53); (93, Tr 52)]] (St 0))
].

Definition labels_14 : list block := [
  Case 53 (fun c => first [switch c [(58, St 58); (93, Tr 52)];
    if c >? 57 then when (in_ 97 102 c) (St 54) else when (c >=? 48) (St 54)] (St 0));
  Case 54 (fun c => first [switch c [(58, St 58); (93, Tr 52)];
    if c >? 57 then when (in_ 97 102 c) (St 55) else when (c >=? 48) (St 55)] (St 0));
  Case 55 (fun c => first [switch c [(58, St 58); (93, Tr 52)];
    if c >? 57 then when (in_ 97 102 c) (St 56) else when (c >=? 48) (St 56)] (St 0));
  Case 56 (fun c => first [switch c [(58, St 58); (93, Tr 52)];
    if c >? 57 then when (in_ 97 102 c) (St 57) else when (c >=? 48) (St 57)] (St 0));
  Case 57 (fun c => first [switch c [(58, St 58); (93, Tr 52)]] (St 0));
  Case 58 (fun c => first [switch c [(58, St 63); (93, Tr 52)];
    if c >? 57 then when (in_ 97 102 c) (St 59) else when (c >=? 48) (St 59)] (St 0));
  Case 59 (fun c => first [switch c [(58, St 63); (93, Tr 52)];
    if c >? 57 then when (in_ 97 102 c) (St 60) else when (c >=? 48) (St 60)] (St 0));
  Case 60 (fun c => first [switch c [(58, St 63); (93, Tr 52)];
    if c >? 57 then when (in_ 97 102 c) (St 61) else when (c >=? 48) (St 61)] (St 0));
  Case 61 (fun c => first [switch c [(58, St 63); (93, Tr 52)];
    if c >? 57 then when (in_ 97 102 c) (St 62) else when (c >=? 48) (St 62)] (St 0));
  Case 62 (fun c => first [switch c [(58, St 63); (93, Tr 52)]] (St 0));
  Case 63 (fun c => first [switch c [(58, St 68); (93, Tr 52)];
    if c >? 57 then when (in_ 97 102 c) (St 64) else when (c >=? 48) (St 64)] (St 0))
].

Definition labels_15 : list block := [
  Case 64 (fun c => first [switch c [(58, St 68); (93, Tr 52)];
    if c >? 57 then when (in_ 97 102 c) (St 65) else when (c >=? 48) (St 65)] (St 0));
  Case 65 (fun c => first [switch c [(58, St 68); (93, Tr 52)];
    if c >? 57 then when (in_ 97 102 c) (St 66) else when (c >=? 48) (St 66)] (St 0));
  Case 66 (fun c => first [switch c [(58, St 68); (93, Tr 52)];
    if c >? 57 then when (in_ 97 102 c) (St 67) else when (c >=? 48) (St 67)] (St 0));
  Case 67 (fun c => first [switch c [(58, St 68); (93, Tr 52)]] (St 0));
  Case 68 (fun c => first [switch c [(58, St 73); (93, Tr 52)];
    if c >? 57 then when (in_ 97 102 c) (St 69) else when (c >=? 48) (St 69)] (St 0));
  Case 69 (fun c => first [switch c [(58, St 73); (93, Tr 52)];
    if c >? 57 then when (in_ 97 102 c) (St 70) else when (c >=? 48) (St 70)] (St 0));
  Case 70 (fun c => first [switch c [(58, St 73); (93, Tr 52)];
    if c >? 57 then when (in_ 97 102 c) (St 71) else when (c >=? 48) (St 71)] (St 0));
  Case 71 (fun c => first [switch c [(58, St 73); (93, Tr 52)];
    if c >? 57 then when (in_ 97 102 c) (St 72) else when (c >=? 48) (St 72)] (St 0));
  Case 72 (fun c => first [switch c [(58, St 73); (93, Tr 52)]] (St 0));
  Case 73 (fun c => first [switch c [(58, St 78); (93, Tr 52)];
    if c >? 57 then when (in_ 97 102 c) (St 74) else when (c >=? 48) (St 74)] (St 0));
  Case 74 (fun c => first [switch c [(58, St 78); (93, Tr 52)];
    if c >? 57 then when (in_ 97 102 c) (St 75) else when (c >=? 48) (St 75)] (St 0))
].

Definition labels_16 : list block := [
  Case 75 (fun c => first [switch c [(58, St 78); (93, Tr 52)];
    if c >? 57 then when (in_ 97 102 c) (St 76) else when (c >=? 48) (St 76)] (St 0));
  Case 76 (fun c => first [switch c [(58, St 78); (93, Tr 52)];
    if c >? 57 then when (in_ 97 102 c) (St 77) else when (c >=? 48) (St 77)] (St 0));
  Case 77 (fun c => first [switch c [(58, St 78); (93, Tr 52)]] (St 0));
  Case 78 (fun c => first [when (c =? 93) (Tr 52);
    if c >? 57 then when (in_ 97 102 c) (St 79) else when (c >=? 48) (St 79)] (St 0));
  Case 79 (fun c => first [when (c =? 93) (Tr 52);
    if c >? 57 then when (in_ 97 102 c) (St 80) else when (c >=? 48) (St 80)] (St 0));
  Case 80 (fun c => first [when (c =? 93) (Tr 52);
    if c >? 57 then when (in_ 97 102 c) (St 81) else when (c >=? 48) (St 81)] (St 0));
  Case 81 (fun c => first [when (c =? 93) (Tr 52);
    if c >? 57 then when (in_ 97 102 c) (St 82) else when (c >=? 48) (St 82)] (St 0));
  Case 82 (fun c => first [when (c =? 93) (Tr 52)] (St 0));
  Trans 52 [AHostIPv6] 173;
  Case 173 (fun c => first [switch c [(35, Tr 209); (47, Tr 210); (58, St 153); (63, Tr 212)]] (St 0));
  Trans 45 [ASet] 83;
  Case 83 (fun c => first [switch c [(58, St 84); (93, Tr 52)];
    if c >? 57 then when (in_ 97 102 c) (St 44) else when (c >=? 48) (St 44)] (St 0));
  Case 84 (fun c => first [switch c [(58, St 53); (93, Tr 52); (102, St 85)];
    if c >? 57 then when (in_ 97 101 c) (St 49) else when (c >=? 48) (St 49)] (St 0))
].

Definition labels_17 : list block := [
  Case 85 (fun c => first [switch c [(58, St 53); (93, Tr 52); (102, St 86)];
    if c >? 57 then when (in_ 97 101 c) (St 50) else when (c >=? 48) (St 50)] (St 0));
  Case 86 (fun c => first [switch c [(58, St 53); (93, Tr 52); (102, St 87)];
    if c >? 57 then when (in_ 97 101 c) (St 51) else when (c >=? 48) (St 51)] (St 0));
  Case 87 (fun c => first [switch c [(58, St 53); (93, Tr 52); (102, St 88)];
    if c >? 57 then when (in_ 97 101 c) (St 52) else when (c >=? 48) (St 52)] (St 0));
  Case 88 (fun c => first [switch c [(58, St 89); (93, Tr 52)]] (St 0));
  Case 89 (fun c => first [switch c [(58, St 58); (93, Tr 52)];
    if c >? 57 then when (in_ 97 102 c) (St 54) else when (c >=? 48) (St 90)] (St 0));
  Case 90 (fun c => first [switch c [(46, St 91); (58, St 58); (93, Tr 52)];
    if c >? 57 then when (in_ 97 102 c) (St 55) else when (c >=? 48) (St 102)] (St 0));
  Case 91 (fun c => first [when (in_ 48 57 c) (St 92)] (St 0));
  Case 92 (fun c => first [when (c =? 46) (St 93);
    when (in_ 48 57 c) (St 100)] (St 0));
  Case 93 (fun c => first [when (in_ 48 57 c) (St 94)] (St 0));
  Case 94 (fun c => first [when (c =? 46) (St 95);
    when (in_ 48 57 c) (St 98)] (St 0));
  Case 95 (fun c => first [when (in_ 48 57 c) (St 96)] (St 0));
  Case 96 (fun c => first [when (c =? 93) (Tr 52);
    when (in_ 48 57 c) (St 97)] (St 0));
  Case 97 (fun c => first [when (c =? 93) (Tr 52);
    when (in_ 48 57 c) (St 82)] (St 0));
  Case 98 (fun c => first [when (c =? 46) (St 95);
    when (in_ 48 57 c) (St 99)] (St 0))
].

Definition labels_18 : list block := [
  Case 99 (fun c => first [when (c =? 46) (St 95)] (St 0));
  Case 100 (fun c => first [when (c =? 46) (St 93);
    when (in_ 48 57 c) (St 101)] (St 0));
  Case 101 (fun c => first [when (c =? 46) (St 93)] (St 0));
  Case 102 (fun c => first [switch c [(46, St 91); (58, St 58); (93, Tr 52)];
    if c >? 57 then when (in_ 97 102 c) (St 56) else when (c >=? 48) (St 103)] (St 0));
  Case 103 (fun c => first [switch c [(46, St 91); (58, St 58); (93, Tr 52)];
    if c >? 57 then when (in_ 97 102 c) (St 57) else when (c >=? 48) (St 57)] (St 0));
  Trans 33 [ASet] 174;
  Case 174 (fun c => first [switch c [(33, St 152); (35, Tr 159); (37, St 28); (47, Tr 161); (58, Tr 182); (61, St 152); (63, Tr 163); (95, St 152); (110, St 175); (126, St 152)];
    if c <? 65 then when (in_ 36 59 c) (St 152) else if c >? 90 then when (in_ 97 122 c) (St 152) else Some (St 152)] (St 0));
  Case 175 (fun c => first [switch c [(33, St 152); (35, Tr 159); (37, St 28); (47, Tr 161); (58, Tr 182); (61, St 152); (63, Tr 163); (95, St 152); (105, St 176); (126, St 152)];
    if c <? 65 then when (in_ 36 59 c) (St 152) else if c >? 90 then when (in_ 97 122 c) (St 152) else Some (St 152)] (St 0));
  Case 176 (fun c => first [switch c [(33, St 152); (35, Tr 159); (37, St 28); (47, Tr 161); (58, Tr 182); (61, St 152); (63, Tr 163); (95, St 152); (120, St 177); (126, St 152)];
    if c <? 65 then when (in_ 36 59 c) (St 152) else if c >? 90 then when (in_ 97 122 c) (St 152) else Some (St 152)] (St 0))
].

Definition labels_19 : list block := [
  Case 177 (fun c => first [switch c [(33, St 152); (35, Tr 159); (37, St 28); (47, Tr 216); (58, Tr 182); (61, St 152); (63, Tr 163); (95, St 152); (126, St 152)];
    if c <? 65 then when (in_ 36 59 c) (St 152) else if c >? 90 then when (in_ 97 122 c) (St 152) else Some (St 152)] (St 0));
  Trans 216 [AHost; ASet] 178;
  Case 178 (fun c => first [switch c [(33, St 148); (35, Tr 151); (37, St 11); (58, St 179); (61, St 148); (63, Tr 155); (95, St 148); (126, St 148)];
    if c <? 64 then when (in_ 36 59 c) (St 148) else if c >? 90 then when (in_ 97 122 c) (St 148) else Some (St 148)] (St 0));
  Case 179 (fun c => first [switch c [(33, Tr 218); (35, Tr 151); (37, Tr 219); (47, Tr 220); (58, Tr 221); (61, Tr 218); (63, Tr 155); (95, Tr 218); (126, Tr 218)];
    if c <? 64 then when (in_ 36 59 c) (Tr 218) else if c >? 90 then when (in_ 97 122 c) (Tr 218) else Some (Tr 218)] (St 0));
  Trans 218 [ASet] 180;
  Case 180 (fun c => first [switch c [(33, St 180); (35, Tr 151); (37, St 104); (47, St 181); (58, Tr 223); (61, St 180); (63, Tr 155); (95, St 180); (126, St 180)];
    if c <? 64 then when (in_ 36 59 c) (St 180) else if c >? 90 then when (in_ 97 122 c) (St 180) else Some (St 180)] (St 0));
  Trans 219 [ASet] 104;
  Case 104 (fun c => first [switch c [(37, St 180); (117, St 105)];
    if c <? 65 then when (in_ 48 57 c) (St 180) else if c >? 70 then when (in_ 97 102 c) (St 180) else Some (St 180)] (St 0));
  Case 105 (fun c => first [if c <? 65 then when (in_ 48 57 c) (St 106) else if c >? 70 then when (in_ 97 102 c) (St 106) else Some (St 106)] (St 0))
].

Definition labels_20 : list block := [
  Case 106 (fun c => first [if c <? 65 then when (in_ 48 57 c) (St 107) else if c >? 70 then when (in_ 97 102 c) (St 107) else Some (St 107)] (St 0));
  Case 107 (fun c => first [if c <? 65 then when (in_ 48 57 c) (St 108) else if c >? 70 then when (in_ 97 102 c) (St 108) else Some (St 108)] (St 0));
  Case 108 (fun c => first [if c <? 65 then when (in_ 48 57 c) (St 180) else if c >? 70 then when (in_ 97 102 c) (St 180) else Some (St 180)] (St 0));
  Trans 226 [ASet] 181;
  Trans 220 [ASet] 181;
  Case 181 (fun c => first [switch c [(33, St 181); (35, Tr 151); (37, St 109); (58, Tr 225); (61, St 181); (63, Tr 155); (95, St 181); (126, St 181)];
    if c <? 64 then when (in_ 36 59 c) (St 181) else if c >? 90 then when (in_ 97 122 c) (St 181) else Some (St 181)] (St 0));
  Case 109 (fun c => first [switch c [(37, St 181); (117, St 110)];
    if c <? 65 then when (in_ 48 57 c) (St 181) else if c >? 70 then when (in_ 97 102 c) (St 181) else Some (St 181)] (St 0));
  Case 110 (fun c => first [if c <? 65 then when (in_ 48 57 c) (St 111) else if c >? 70 then when (in_ 97 102 c) (St 111) else Some (St 111)] (St 0));
  Case 111 (fun c => first [if c <? 65 then when (in_ 48 57 c) (St 112) else if c >? 70 then when (in_ 97 102 c) (St 112) else Some (St 112)] (St 0));
  Case 112 (fun c => first [if c <? 65 then when (in_ 48 57 c) (St 113) else if c >? 70 then when (in_ 97 102 c) (St 113) else Some (St 113)] (St 0));
  Case 113 (fun c => first [if c <? 65 then when (in_ 48 57 c) (St 181) else if c >? 70 then when (in_ 97 102 c) (St 181) else Some (St 181)] (St 0))
].

Definition labels_21 : list block := [
  Trans 225 [AUnix] 182;
  Case 182 (fun c => first [switch c [(33, St 181); (35, Tr 209); (37, St 109); (47, Tr 226); (58, Tr 225); (61, St 181); (63, Tr 212); (95, St 181); (126, St 181)];
    if c <? 64 then when (in_ 36 59 c) (St 181) else if c >? 90 then when (in_ 97 122 c) (St 181) else Some (St 181)] (St 0));
  Trans 223 [AUnix] 183;
  Trans 221 [ASet; AUnix] 183;
  Case 183 (fun c => first [switch c [(33, St 148); (35, Tr 209); (37, St 11); (47, Tr 210); (61, St 148); (63, Tr 212); (95, St 148); (126, St 148)];
    if c <? 64 then when (in_ 36 59 c) (St 148) else if c >? 90 then when (in_ 97 122 c) (St 148) else Some (St 148)] (St 0));
  Trans 178 [ASet; ASet] 184;
  Case 184 (fun c => first [switch c [(33, St 21); (35, Tr 185); (37, St 22); (47, Tr 186); (59, St 21); (61, St 21); (63, Tr 188); (64, Tr 23); (95, St 21); (126, St 21)];
    if c <? 48 then when (in_ 36 46 c) (St 21) else if c >? 57 then (if c >? 90 then when (in_ 97 122 c) (St 21) else when (c >=? 65) (St 21)) else Some (St 184)] (St 0));
  Trans 180 [ASet; ASet] 185
].

Definition labels_22 : list block := [
  Case 185 (fun c => first [switch c [(33, St 21); (35, Tr 185); (37, St 22); (47, Tr 186); (59, St 21); (61, St 21); (63, Tr 188); (64, Tr 23); (95, St 21); (126, St 21)];
    if c <? 65 then when (in_ 36 57 c) (St 21) else if c >? 90 then when (in_ 97 122 c) (St 185) else Some (St 185)] (St 0));
  Trans 153 [ASet] 186;
  Case 186 (fun c => first [switch c [(33, St 187); (35, Tr 151); (37, St 114); (61, St 187); (63, Tr 155); (95, St 187); (126, St 187)];
    if c <? 48 then when (in_ 36 46 c) (St 187) else if c >? 59 then (if c >? 90 then when (in_ 97 122 c) (St 187) else when (c >=? 64) (St 187)) else Some (St 187)] (St 0));
  Case 187 (fun c => first [switch c [(33, St 187); (35, Tr 151); (37, St 114); (61, St 187); (63, Tr 155); (95, St 187); (126, St 187)];
    if c <? 64 then when (in_ 36 59 c) (St 187) else if c >? 90 then when (in_ 97 122 c) (St 187) else Some (St 187)] (St 0));
  Case 114 (fun c => first [switch c [(37, St 187); (117, St 115)];
    if c <? 65 then when (in_ 48 57 c) (St 187) else if c >? 70 then when (in_ 97 102 c) (St 187) else Some (St 187)] (St 0));
  Case 115 (fun c => first [if c <? 65 then when (in_ 48 57 c) (St 116) else if c >? 70 then when (in_ 97 102 c) (St 116) else Some (St 116)] (St 0));
  Case 116 (fun c => first [if c <? 65 then when (in_ 48 57 c) (St 117) else if c >? 70 then when (in_ 97 102 c) (St 117) else Some (St 117)] (St 0));
  Case 117 (fun c => first [if c <? 65 then when (in_ 48 57 c) (St 118) else if c >? 70 then when (in_ 97 102 c) (St 118) else Some (St 118)] (St 0));
  Case 118 (fun c => first [if c <? 65 then when (in_ 48 57 c) (St 187) else if c >? 70 then when (in_ 97 102 c) (St 187) else Some (St 187)] (St 0))
].

Definition labels_23 : list block := [
  Trans 154 [ASet; ASet; ASet; AServiceStart] 188;
  Case 188 (fun c => first [switch c [(33, St 145); (35, Tr 159); (37, St 6); (46, St 189); (47, Tr 161); (58, Tr 162); (59, St 145); (61, St 145); (63, Tr 163); (64, Tr 164); (95, St 145); (126, St 145)];
    if c <? 48 then when (in_ 36 45 c) (St 145) else if c >? 57 then (if c >? 90 then when (in_ 97 122 c) (St 145) else when (c >=? 65) (St 145)) else Some (St 201)] (St 0));
  Case 189 (fun c => first [switch c [(33, St 145); (35, Tr 159); (37, St 6); (47, Tr 161); (58, Tr 162); (59, St 145); (61, St 145); (63, Tr 163); (64, Tr 164); (95, St 145); (126, St 145)];
    if c <? 48 then when (in_ 36 46 c) (St 145) else if c >? 57 then (if c >? 90 then when (in_ 97 122 c) (St 145) else when (c >=? 65) (St 145)) else Some (St 190)] (St 0));
  Case 190 (fun c => first [switch c [(33, St 145); (35, Tr 159); (37, St 6); (46, St 191); (47, Tr 161); (58, Tr 162); (59, St 145); (61, St 145); (63, Tr 163); (64, Tr 164); (95, St 145); (126, St 145)];
    if c <? 48 then when (in_ 36 45 c) (St 145) else if c >? 57 then (if c >? 90 then when (in_ 97 122 c) (St 145) else when (c >=? 65) (St 145)) else Some (St 199)] (St 0));
  Case 191 (fun c => first [switch c [(33, St 145); (35, Tr 159); (37, St 6); (47, Tr 161); (58, Tr 162); (59, St 145); (61, St 145); (63, Tr 163); (64, Tr 164); (95, St 145); (126, St 145)];
    if c <? 48 then when (in_ 36 46 c) (St 145) else if c >? 57 then (if c >? 90 then when (in_ 97 122 c) (St 145) else when (c >=? 65) (St 145)) else Some (St 192)] (St 0))
].

Definition labels_24 : list block := [
  Case 192 (fun c => first [switch c [(33, St 145); (35, Tr 159); (37, St 6); (46, St 193); (47, Tr 161); (58, Tr 162); (59, St 145); (61, St 145); (63, Tr 163); (64, Tr 164); (95, St 145); (126, St 145)];
    if c <? 48 then when (in_ 36 45 c) (St 145) else if c >? 57 then (if c >? 90 then when (in_ 97 122 c) (St 145) else when (c >=? 65) (St 145)) else Some (St 197)] (St 0));
  Case 193 (fun c => first [switch c [(33, St 145); (35, Tr 159); (37, St 6); (47, Tr 161); (58, Tr 162); (59, St 145); (61, St 145); (63, Tr 163); (64, Tr 164); (95, St 145); (126, St 145)];
    if c <? 48 then when (in_ 36 46 c) (St 145) else if c >? 57 then (if c >? 90 then when (in_ 97 122 c) (St 145) else when (c >=? 65) (St 145)) else Some (St 194)] (St 0));
  Case 194 (fun c => first [switch c [(33, St 145); (35, Tr 200); (37, St 6); (47, Tr 201); (58, Tr 240); (59, St 145); (61, St 145); (63, Tr 204); (64, Tr 164); (95, St 145); (126, St 145)];
    if c <? 48 then when (in_ 36 46 c) (St 145) else if c >? 57 then (if c >? 90 then when (in_ 97 122 c) (St 145) else when (c >=? 65) (St 145)) else Some (St 195)] (St 0));
  Case 195 (fun c => first [switch c [(33, St 145); (35, Tr 200); (37, St 6); (47, Tr 201); (58, Tr 240); (59, St 145); (61, St 145); (63, Tr 204); (64, Tr 164); (95, St 145); (126, St 145)];
    if c <? 48 then when (in_ 36 46 c) (St 145) else if c >? 57 then (if c >? 90 then when (in_ 97 122 c) (St 145) else when (c >=? 65) (St 145)) else Some (St 196)] (St 0));
  Case 196 (fun c => first [switch c [(33, St 145); (35, Tr 200); (37, St 6); (47, Tr 201); (58, Tr 240); (61, St 145); (63, Tr 204); (64, Tr 164); (95, St 145); (126, St 145)];
    if c <? 65 then when (in_ 36 59 c) (St 145) else if c >? 90 then when (in_ 97 122 c) (St 145) else Some (St 145)] (St 0))
].

Definition labels_25 : list block := [
  Case 197 (fun c => first [switch c [(33, St 145); (35, Tr 159); (37, St 6); (46, St 193); (47, Tr 161); (58, Tr 162); (59, St 145); (61, St 145); (63, Tr 163); (64, Tr 164); (95, St 145); (126, St 145)];
    if c <? 48 then when (in_ 36 45 c) (St 145) else if c >? 57 then (if c >? 90 then when (in_ 97 122 c) (St 145) else when (c >=? 65) (St 145)) else Some (St 198)] (St 0));
  Case 198 (fun c => first [switch c [(33, St 145); (35, Tr 159); (37, St 6); (46, St 193); (47, Tr 161); (58, Tr 162); (61, St 145); (63, Tr 163); (64, Tr 164); (95, St 145); (126, St 145)];
    if c <? 65 then when (in_ 36 59 c) (St 145) else if c >? 90 then when (in_ 97 122 c) (St 145) else Some (St 145)] (St 0));
  Case 199 (fun c => first [switch c [(33, St 145); (35, Tr 159); (37, St 6); (46, St 191); (47, Tr 161); (58, Tr 162); (59, St 145); (61, St 145); (63, Tr 163); (64, Tr 164); (95, St 145); (126, St 145)];
    if c <? 48 then when (in_ 36 45 c) (St 145) else if c >? 57 then (if c >? 90 then when (in_ 97 122 c) (St 145) else when (c >=? 65) (St 145)) else Some (St 200)] (St 0));
  Case 200 (fun c => first [switch c [(33, St 145); (35, Tr 159); (37, St 6); (46, St 191); (47, Tr 161); (58, Tr 162); (61, St 145); (63, Tr 163); (64, Tr 164); (95, St 145); (126, St 145)];
    if c <? 65 then when (in_ 36 59 c) (St 145) else if c >? 90 then when (in_ 97 122 c) (St 145) else Some (St 145)] (St 0));
  Case 201 (fun c => first [switch c [(33, St 145); (35, Tr 159); (37, St 6); (46, St 189); (47, Tr 161); (58, Tr 162); (59, St 145); (61, St 145); (63, Tr 163); (64, Tr 164); (95, St 145); (126, St 145)];
    if c <? 48 then when (in_ 36 45 c) (St 145) else if c >? 57 then (if c >? 90 then when (in_ 97 122 c) (St 145) else when (c >=? 65) (St 145)) else Some (St 202)] (St 0))
].

Definition labels_26 : list block := [
  Case 202 (fun c => first [switch c [(33, St 145); (35, Tr 159); (37, St 6); (46, St 189); (47, Tr 161); (58, Tr 162); (59, St 145); (61, St 145); (63, Tr 163); (64, Tr 164); (95, St 145); (126, St 145)];
    if c <? 48 then when (in_ 36 45 c) (St 145) else if c >? 57 then (if c >? 90 then when (in_ 97 122 c) (St 145) else when (c >=? 65) (St 145)) else Some (St 203)] (St 0));
  Case 203 (fun c => first [switch c [(33, St 145); (35, Tr 159); (37, St 6); (47, Tr 161); (58, Tr 162); (59, St 145); (61, St 145); (63, Tr 163); (64, Tr 164); (95, St 145); (126, St 145)];
    if c <? 48 then when (in_ 36 46 c) (St 145) else if c >? 57 then (if c >? 90 then when (in_ 97 122 c) (St 145) else when (c >=? 65) (St 145)) else Some (St 203)] (St 0));
  Case 204 (fun c => first [switch c [(35, Tr 151); (47, St 148); (63, Tr 155)]] (St 0));
  Trans 157 [ASet; ASet; ASet] 205;
  Case 205 (fun c => first [switch c [(33, St 145); (35, Tr 159); (37, St 6); (43, St 205); (47, Tr 161); (58, Tr 247); (59, St 145); (61, St 145); (63, Tr 163); (64, Tr 164); (95, St 145); (126, St 145)];
    if c <? 45 then when (in_ 36 44 c) (St 145) else if c >? 57 then (if c >? 90 then when (in_ 97 122 c) (St 205) else when (c >=? 65) (St 205)) else Some (St 205)] (St 0));
  Trans 247 [ASchemeTmp; ALoginTmp; AHost] 206;
  Case 206 (fun c => first [switch c [(33, Tr 174); (35, Tr 175); (37, Tr 176); (47, Tr 248); (59, Tr 174); (61, Tr 174); (63, Tr 179); (95, Tr 174); (126, Tr 174)];
    if c <? 48 then when (in_ 36 46 c) (Tr 174) else if c >? 57 then (if c >? 90 then when (in_ 97 122 c) (Tr 180) else when (c >=? 65) (Tr 180)) else Some (Tr 178)] (St 0))
].

Definition labels_27 : list block := [
  Trans 248 [AScheme; ASet; AService; ASet] 207;
  Case 207 (fun c => first [switch c [(33, St 148); (35, Tr 151); (37, St 11); (47, St 208); (61, St 148); (63, Tr 155); (95, St 148); (126, St 148)];
    if c <? 64 then when (in_ 36 59 c) (St 148) else if c >? 90 then when (in_ 97 122 c) (St 148) else Some (St 148)] (St 0));
  Case 208 (fun c => first [switch c [(33, Tr 250); (35, Tr 151); (37, Tr 251); (47, St 148); (58, St 148); (59, Tr 250); (61, Tr 250); (63, Tr 155); (64, St 148); (91, St 38); (95, Tr 250); (117, Tr 253); (126, Tr 250)];
    if c <? 48 then when (in_ 36 46 c) (Tr 250) else if c >? 57 then (if c >? 90 then when (in_ 97 122 c) (Tr 250) else when (c >=? 65) (Tr 250)) else Some (Tr 252)] (St 0));
  Trans 250 [ASet; ASet] 209;
  Case 209 (fun c => first [switch c [(33, St 209); (35, Tr 159); (37, St 119); (47, Tr 161); (58, Tr 255); (61, St 209); (63, Tr 163); (64, Tr 256); (95, St 209); (126, St 209)];
    if c <? 65 then when (in_ 36 59 c) (St 209) else if c >? 90 then when (in_ 97 122 c) (St 209) else Some (St 209)] (St 0));
  Trans 251 [ASet; ASet] 119;
  Case 119 (fun c => first [switch c [(37, St 209); (117, St 120)];
    if c <? 65 then when (in_ 48 57 c) (St 209) else if c >? 70 then when (in_ 97 102 c) (St 209) else Some (St 209)] (St 0));
  Case 120 (fun c => first [if c <? 65 then when (in_ 48 57 c) (St 121) else if c >? 70 then when (in_ 97 102 c) (St 121) else Some (St 121)] (St 0));
  Case 121 (fun c => first [if c <? 65 then when (in_ 48 57 c) (St 122) else if c >? 70 then when (in_ 97 102 c) (St 122) else Some (St 122)] (St 0))
].

Definition labels_28 : list block := [
  Case 122 (fun c => first [if c <? 65 then when (in_ 48 57 c) (St 123) else if c >? 70 then when (in_ 97 102 c) (St 123) else Some (St 123)] (St 0));
  Case 123 (fun c => first [if c <? 65 then when (in_ 48 57 c) (St 209) else if c >? 70 then when (in_ 97 102 c) (St 209) else Some (St 209)] (St 0));
  Trans 255 [ALoginTmp; AHost] 210;
  Trans 303 [ALoginTmp; AHostIPv4; AHost] 210;
  Case 210 (fun c => first [switch c [(33, Tr 257); (35, Tr 175); (37, Tr 258); (47, Tr 177); (58, St 148); (59, Tr 257); (61, Tr 257); (63, Tr 179); (64, St 148); (95, Tr 257); (126, Tr 257)];
    if c <? 48 then when (in_ 36 46 c) (Tr 257) else if c >? 57 then (if c >? 90 then when (in_ 97 122 c) (Tr 260) else when (c >=? 65) (Tr 260)) else Some (Tr 259)] (St 0));
  Trans 257 [ASet] 211;
  Case 211 (fun c => first [switch c [(33, St 211); (35, Tr 151); (37, St 124); (47, St 148); (58, St 148); (61, St 211); (63, Tr 155); (64, Tr 262); (95, St 211); (126, St 211)];
    if c <? 65 then when (in_ 36 59 c) (St 211) else if c >? 90 then when (in_ 97 122 c) (St 211) else Some (St 211)] (St 0));
  Trans 258 [ASet] 124;
  Case 124 (fun c => first [switch c [(37, St 211); (117, St 125)];
    if c <? 65 then when (in_ 48 57 c) (St 211) else if c >? 70 then when (in_ 97 102 c) (St 211) else Some (St 211)] (St 0));
  Case 125 (fun c => first [if c <? 65 then when (in_ 48 57 c) (St 126) else if c >? 70 then when (in_ 97 102 c) (St 126) else Some (St 126)] (St 0));
  Case 126 (fun c => first [if c <? 65 then when (in_ 48 57 c) (St 127) else if c >? 70 then when (in_ 97 102 c) (St 127) else Some (St 127)] (St 0))
].

Definition labels_29 : list block := [
  Case 127 (fun c => first [if c <? 65 then when (in_ 48 57 c) (St 128) else if c >? 70 then when (in_ 97 102 c) (St 128) else Some (St 128)] (St 0));
  Case 128 (fun c => first [if c <? 65 then when (in_ 48 57 c) (St 211) else if c >? 70 then when (in_ 97 102 c) (St 211) else Some (St 211)] (St 0));
  Trans 262 [APassword; ALogin] 212;
  Trans 256 [ALoginTmp; ALogin] 212;
  Case 212 (fun c => first [switch c [(33, Tr 263); (35, Tr 151); (37, Tr 264); (47, St 148); (58, St 148); (59, Tr 263); (61, Tr 263); (63, Tr 155); (64, St 148); (91, St 38); (95, Tr 263); (117, Tr 266); (126, Tr 263)];
    if c <? 48 then when (in_ 36 46 c) (Tr 263) else if c >? 57 then (if c >? 90 then when (in_ 97 122 c) (Tr 263) else when (c >=? 65) (Tr 263)) else Some (Tr 265)] (St 0));
  Trans 263 [ASet] 213;
  Case 213 (fun c => first [switch c [(33, St 213); (35, Tr 159); (37, St 129); (47, Tr 161); (58, Tr 268); (61, St 213); (63, Tr 163); (64, St 148); (95, St 213); (126, St 213)];
    if c <? 65 then when (in_ 36 59 c) (St 213) else if c >? 90 then when (in_ 97 122 c) (St 213) else Some (St 213)] (St 0));
  Trans 264 [ASet] 129;
  Case 129 (fun c => first [switch c [(37, St 213); (117, St 130)];
    if c <? 65 then when (in_ 48 57 c) (St 213) else if c >? 70 then when (in_ 97 102 c) (St 213) else Some (St 213)] (St 0));
  Case 130 (fun c => first [if c <? 65 then when (in_ 48 57 c) (St 131) else if c >? 70 then when (in_ 97 102 c) (St 131) else Some (St 131)] (St 0));
  Case 131 (fun c => first [if c <? 65 then when (in_ 48 57 c) (St 132) else if c >? 70 then when (in_ 97 102 c) (St 132) else Some (St 132)] (St 0))
].

Definition labels_30 : list block := [
  Case 132 (fun c => first [if c <? 65 then when (in_ 48 57 c) (St 133) else if c >? 70 then when (in_ 97 102 c) (St 133) else Some (St 133)] (St 0));
  Case 133 (fun c => first [if c <? 65 then when (in_ 48 57 c) (St 213) else if c >? 70 then when (in_ 97 102 c) (St 213) else Some (St 213)] (St 0));
  Trans 268 [AHost] 214;
  Trans 283 [AHostIPv4; AHost] 214;
  Case 214 (fun c => first [switch c [(33, St 148); (35, Tr 175); (37, St 11); (47, Tr 177); (61, St 148); (63, Tr 179); (64, St 148); (95, St 148); (126, St 148)];
    if c <? 58 then (if c >? 46 then when (in_ 48 57 c) (Tr 269) else when (c >=? 36) (St 148)) else if c >? 59 then (if c >? 90 then when (in_ 97 122 c) (Tr 270) else when (c >=? 65) (Tr 270)) else Some (St 148)] (St 0));
  Trans 269 [ASet] 215;
  Case 215 (fun c => first [switch c [(33, St 148); (35, Tr 185); (37, St 11); (47, Tr 186); (61, St 148); (63, Tr 188); (95, St 148); (126, St 148)];
    if c <? 58 then (if c >? 46 then when (in_ 48 57 c) (St 215) else when (c >=? 36) (St 148)) else if c >? 59 then (if c >? 90 then when (in_ 97 122 c) (St 148) else when (c >=? 64) (St 148)) else Some (St 148)] (St 0));
  Trans 270 [ASet] 216;
  Case 216 (fun c => first [switch c [(33, St 148); (35, Tr 185); (37, St 11); (47, Tr 186); (61, St 148); (63, Tr 188); (64, St 148); (95, St 148); (126, St 148)];
    if c <? 65 then when (in_ 36 59 c) (St 148) else if c >? 90 then when (in_ 97 122 c) (St 216) else Some (St 216)] (St 0));
  Trans 265 [ASet; ASet] 217
].

Definition labels_31 : list block := [
  Case 217 (fun c => first [switch c [(33, St 213); (35, Tr 159); (37, St 129); (46, St 218); (47, Tr 161); (58, Tr 268); (59, St 213); (61, St 213); (63, Tr 163); (64, St 148); (95, St 213); (126, St 213)];
    if c <? 48 then when (in_ 36 45 c) (St 213) else if c >? 57 then (if c >? 90 then when (in_ 97 122 c) (St 213) else when (c >=? 65) (St 213)) else Some (St 230)] (St 0));
  Case 218 (fun c => first [switch c [(33, St 213); (35, Tr 159); (37, St 129); (47, Tr 161); (58, Tr 268); (59, St 213); (61, St 213); (63, Tr 163); (64, St 148); (95, St 213); (126, St 213)];
    if c <? 48 then when (in_ 36 46 c) (St 213) else if c >? 57 then (if c >? 90 then when (in_ 97 122 c) (St 213) else when (c >=? 65) (St 213)) else Some (St 219)] (St 0));
  Case 219 (fun c => first [switch c [(33, St 213); (35, Tr 159); (37, St 129); (46, St 220); (47, Tr 161); (58, Tr 268); (59, St 213); (61, St 213); (63, Tr 163); (64, St 148); (95, St 213); (126, St 213)];
    if c <? 48 then when (in_ 36 45 c) (St 213) else if c >? 57 then (if c >? 90 then when (in_ 97 122 c) (St 213) else when (c >=? 65) (St 213)) else Some (St 228)] (St 0));
  Case 220 (fun c => first [switch c [(33, St 213); (35, Tr 159); (37, St 129); (47, Tr 161); (58, Tr 268); (59, St 213); (61, St 213); (63, Tr 163); (64, St 148); (95, St 213); (126, St 213)];
    if c <? 48 then when (in_ 36 46 c) (St 213) else if c >? 57 then (if c >? 90 then when (in_ 97 122 c) (St 213) else when (c >=? 65) (St 213)) else Some (St 221)] (St 0));
  Case 221 (fun c => first [switch c [(33, St 213); (35, Tr 159); (37, St 129); (46, St 222); (47, Tr 161); (58, Tr 268); (59, St 213); (61, St 213); (63, Tr 163); (64, St 148); (95, St 213); (126, St 213)];
    if c <? 48 then when (in_ 36 45 c) (St 213) else if c >? 57 then (if c >? 90 then when (in_ 97 122 c) (St 213) else when (c >=? 65) (St 213)) else Some (St 226)] (St 0))
].

Definition labels_32 : list block := [
  Case 222 (fun c => first [switch c [(33, St 213); (35, Tr 159); (37, St 129); (47, Tr 161); (58, Tr 268); (59, St 213); (61, St 213); (63, Tr 163); (64, St 148); (95, St 213); (126, St 213)];
    if c <? 48 then when (in_ 36 46 c) (St 213) else if c >? 57 then (if c >? 90 then when (in_ 97 122 c) (St 213) else when (c >=? 65) (St 213)) else Some (St 223)] (St 0));
  Case 223 (fun c => first [switch c [(33, St 213); (35, Tr 200); (37, St 129); (47, Tr 201); (58, Tr 283); (59, St 213); (61, St 213); (63, Tr 204); (64, St 148); (95, St 213); (126, St 213)];
    if c <? 48 then when (in_ 36 46 c) (St 213) else if c >? 57 then (if c >? 90 then when (in_ 97 122 c) (St 213) else when (c >=? 65) (St 213)) else Some (St 224)] (St 0));
  Case 224 (fun c => first [switch c [(33, St 213); (35, Tr 200); (37, St 129); (47, Tr 201); (58, Tr 283); (59, St 213); (61, St 213); (63, Tr 204); (64, St 148); (95, St 213); (126, St 213)];
    if c <? 48 then when (in_ 36 46 c) (St 213) else if c >? 57 then (if c >? 90 then when (in_ 97 122 c) (St 213) else when (c >=? 65) (St 213)) else Some (St 225)] (St 0));
  Case 225 (fun c => first [switch c [(33, St 213); (35, Tr 200); (37, St 129); (47, Tr 201); (58, Tr 283); (61, St 213); (63, Tr 204); (64, St 148); (95, St 213); (126, St 213)];
    if c <? 65 then when (in_ 36 59 c) (St 213) else if c >? 90 then when (in_ 97 122 c) (St 213) else Some (St 213)] (St 0));
  Case 226 (fun c => first [switch c [(33, St 213); (35, Tr 159); (37, St 129); (46, St 222); (47, Tr 161); (58, Tr 268); (59, St 213); (61, St 213); (63, Tr 163); (64, St 148); (95, St 213); (126, St 213)];
    if c <? 48 then when (in_ 36 45 c) (St 213) else if c >? 57 then (if c >? 90 then when (in_ 97 122 c) (St 213) else when (c >=? 65) (St 213)) else Some (St 227)] (St 0))
].

Definition labels_33 : list block := [
  Case 227 (fun c => first [switch c [(33, St 213); (35, Tr 159); (37, St 129); (46, St 222); (47, Tr 161); (58, Tr 268); (61, St 213); (63, Tr 163); (64, St 148); (95, St 213); (126, St 213)];
    if c <? 65 then when (in_ 36 59 c) (St 213) else if c >? 90 then when (in_ 97 122 c) (St 213) else Some (St 213)] (St 0));
  Case 228 (fun c => first [switch c [(33, St 213); (35, Tr 159); (37, St 129); (46, St 220); (47, Tr 161); (58, Tr 268); (59, St 213); (61, St 213); (63, Tr 163); (64, St 148); (95, St 213); (126, St 213)];
    if c <? 48 then when (in_ 36 45 c) (St 213) else if c >? 57 then (if c >? 90 then when (in_ 97 122 c) (St 213) else when (c >=? 65) (St 213)) else Some (St 229)] (St 0));
  Case 229 (fun c => first [switch c [(33, St 213); (35, Tr 159); (37, St 129); (46, St 220); (47, Tr 161); (58, Tr 268); (61, St 213); (63, Tr 163); (64, St 148); (95, St 213); (126, St 213)];
    if c <? 65 then when (in_ 36 59 c) (St 213) else if c >? 90 then when (in_ 97 122 c) (St 213) else Some (St 213)] (St 0));
  Case 230 (fun c => first [switch c [(33, St 213); (35, Tr 159); (37, St 129); (46, St 218); (47, Tr 161); (58, Tr 268); (59, St 213); (61, St 213); (63, Tr 163); (64, St 148); (95, St 213); (126, St 213)];
    if c <? 48 then when (in_ 36 45 c) (St 213) else if c >? 57 then (if c >? 90 then when (in_ 97 122 c) (St 213) else when (c >=? 65) (St 213)) else Some (St 231)] (St 0));
  Case 231 (fun c => first [switch c [(33, St 213); (35, Tr 159); (37, St 129); (46, St 218); (47, Tr 161); (58, Tr 268); (61, St 213); (63, Tr 163); (64, St 148); (95, St 213); (126, St 213)];
    if c <? 65 then when (in_ 36 59 c) (St 213) else if c >? 90 then when (in_ 97 122 c) (St 213) else Some (St 213)] (St 0));
  Trans 266 [ASet] 232
].

Definition labels_34 : list block := [
  Case 232 (fun c => first [switch c [(33, St 213); (35, Tr 159); (37, St 129); (47, Tr 161); (58, Tr 268); (61, St 213); (63, Tr 163); (64, St 148); (95, St 213); (110, St 233); (126, St 213)];
    if c <? 65 then when (in_ 36 59 c) (St 213) else if c >? 90 then when (in_ 97 122 c) (St 213) else Some (St 213)] (St 0));
  Case 233 (fun c => first [switch c [(33, St 213); (35, Tr 159); (37, St 129); (47, Tr 161); (58, Tr 268); (61, St 213); (63, Tr 163); (64, St 148); (95, St 213); (105, St 234); (126, St 213)];
    if c <? 65 then when (in_ 36 59 c) (St 213) else if c >? 90 then when (in_ 97 122 c) (St 213) else Some (St 213)] (St 0));
  Case 234 (fun c => first [switch c [(33, St 213); (35, Tr 159); (37, St 129); (47, Tr 161); (58, Tr 268); (61, St 213); (63, Tr 163); (64, St 148); (95, St 213); (120, St 235); (126, St 213)];
    if c <? 65 then when (in_ 36 59 c) (St 213) else if c >? 90 then when (in_ 97 122 c) (St 213) else Some (St 213)] (St 0));
  Case 235 (fun c => first [switch c [(33, St 213); (35, Tr 159); (37, St 129); (47, Tr 216); (58, Tr 268); (61, St 213); (63, Tr 163); (64, St 148); (95, St 213); (126, St 213)];
    if c <? 65 then when (in_ 36 59 c) (St 213) else if c >? 90 then when (in_ 97 122 c) (St 213) else Some (St 213)] (St 0));
  Trans 259 [ASet; ASet] 236;
  Case 236 (fun c => first [switch c [(33, St 211); (35, Tr 185); (37, St 124); (47, Tr 186); (58, St 148); (59, St 211); (61, St 211); (63, Tr 188); (64, Tr 262); (95, St 211); (126, St 211)];
    if c <? 48 then when (in_ 36 46 c) (St 211) else if c >? 57 then (if c >? 90 then when (in_ 97 122 c) (St 211) else when (c >=? 65) (St 211)) else Some (St 236)] (St 0));
  Trans 260 [ASet; ASet] 237
].

Definition labels_35 : list block := [
  Case 237 (fun c => first [switch c [(33, St 211); (35, Tr 185); (37, St 124); (47, Tr 186); (58, St 148); (61, St 211); (63, Tr 188); (64, Tr 262); (95, St 211); (126, St 211)];
    if c <? 65 then when (in_ 36 59 c) (St 211) else if c >? 90 then when (in_ 97 122 c) (St 237) else Some (St 237)] (St 0));
  Trans 252 [ASet; ASet; ASet] 238;
  Case 238 (fun c => first [switch c [(33, St 209); (35, Tr 159); (37, St 119); (46, St 239); (47, Tr 161); (58, Tr 255); (59, St 209); (61, St 209); (63, Tr 163); (64, Tr 256); (95, St 209); (126, St 209)];
    if c <? 48 then when (in_ 36 45 c) (St 209) else if c >? 57 then (if c >? 90 then when (in_ 97 122 c) (St 209) else when (c >=? 65) (St 209)) else Some (St 251)] (St 0));
  Case 239 (fun c => first [switch c [(33, St 209); (35, Tr 159); (37, St 119); (47, Tr 161); (58, Tr 255); (59, St 209); (61, St 209); (63, Tr 163); (64, Tr 256); (95, St 209); (126, St 209)];
    if c <? 48 then when (in_ 36 46 c) (St 209) else if c >? 57 then (if c >? 90 then when (in_ 97 122 c) (St 209) else when (c >=? 65) (St 209)) else Some (St 240)] (St 0));
  Case 240 (fun c => first [switch c [(33, St 209); (35, Tr 159); (37, St 119); (46, St 241); (47, Tr 161); (58, Tr 255); (59, St 209); (61, St 209); (63, Tr 163); (64, Tr 256); (95, St 209); (126, St 209)];
    if c <? 48 then when (in_ 36 45 c) (St 209) else if c >? 57 then (if c >? 90 then when (in_ 97 122 c) (St 209) else when (c >=? 65) (St 209)) else Some (St 249)] (St 0))
].

Definition labels_36 : list block := [
  Case 241 (fun c => first [switch c [(33, St 209); (35, Tr 159); (37, St 119); (47, Tr 161); (58, Tr 255); (59, St 209); (61, St 209); (63, Tr 163); (64, Tr 256); (95, St 209); (126, St 209)];
    if c <? 48 then when (in_ 36 46 c) (St 209) else if c >? 57 then (if c >? 90 then when (in_ 97 122 c) (St 209) else when (c >=? 65) (St 209)) else Some (St 242)] (St 0));
  Case 242 (fun c => first [switch c [(33, St 209); (35, Tr 159); (37, St 119); (46, St 243); (47, Tr 161); (58, Tr 255); (59, St 209); (61, St 209); (63, Tr 163); (64, Tr 256); (95, St 209); (126, St 209)];
    if c <? 48 then when (in_ 36 45 c) (St 209) else if c >? 57 then (if c >? 90 then when (in_ 97 122 c) (St 209) else when (c >=? 65) (St 209)) else Some (St 247)] (St 0));
  Case 243 (fun c => first [switch c [(33, St 209); (35, Tr 159); (37, St 119); (47, Tr 161); (58, Tr 255); (59, St 209); (61, St 209); (63, Tr 163); (64, Tr 256); (95, St 209); (126, St 209)];
    if c <? 48 then when (in_ 36 46 c) (St 209) else if c >? 57 then (if c >? 90 then when (in_ 97 122 c) (St 209) else when (c >=? 65) (St 209)) else Some (St 244)] (St 0));
  Case 244 (fun c => first [switch c [(33, St 209); (35, Tr 200); (37, St 119); (47, Tr 201); (58, Tr 303); (59, St 209); (61, St 209); (63, Tr 204); (64, Tr 256); (95, St 209); (126, St 209)];
    if c <? 48 then when (in_ 36 46 c) (St 209) else if c >? 57 then (if c >? 90 then when (in_ 97 122 c) (St 209) else when (c >=? 65) (St 209)) else Some (St 245)] (St 0));
  Case 245 (fun c => first [switch c [(33, St 209); (35, Tr 200); (37, St 119); (47, Tr 201); (58, Tr 303); (59, St 209); (61, St 209); (63, Tr 204); (64, Tr 256); (95, St 209); (126, St 209)];
    if c <? 48 then when (in_ 36 46 c) (St 209) else if c >? 57 then (if c >? 90 then when (in_ 97 122 c) (St 209) else when (c >=? 65) (St 209)) else Some (St 246)] (St 0))
].

Definition labels_37 : list block := [
  Case 246 (fun c => first [switch c [(33, St 209); (35, Tr 200); (37, St 119); (47, Tr 201); (58, Tr 303); (61, St 209); (63, Tr 204); (64, Tr 256); (95, St 209); (126, St 209)];
    if c <? 65 then when (in_ 36 59 c) (St 209) else if c >? 90 then when (in_ 97 122 c) (St 209) else Some (St 209)] (St 0));
  Case 247 (fun c => first [switch c [(33, St 209); (35, Tr 159); (37, St 119); (46, St 243); (47, Tr 161); (58, Tr 255); (59, St 209); (61, St 209); (63, Tr 163); (64, Tr 256); (95, St 209); (126, St 209)];
    if c <? 48 then when (in_ 36 45 c) (St 209) else if c >? 57 then (if c >? 90 then when (in_ 97 122 c) (St 209) else when (c >=? 65) (St 209)) else Some (St 248)] (St 0));
  Case 248 (fun c => first [switch c [(33, St 209); (35, Tr 159); (37, St 119); (46, St 243); (47, Tr 161); (58, Tr 255); (61, St 209); (63, Tr 163); (64, Tr 256); (95, St 209); (126, St 209)];
    if c <? 65 then when (in_ 36 59 c) (St 209) else if c >? 90 then when (in_ 97 122 c) (St 209) else Some (St 209)] (St 0));
  Case 249 (fun c => first [switch c [(33, St 209); (35, Tr 159); (37, St 119); (46, St 241); (47, Tr 161); (58, Tr 255); (59, St 209); (61, St 209); (63, Tr 163); (64, Tr 256); (95, St 209); (126, St 209)];
    if c <? 48 then when (in_ 36 45 c) (St 209) else if c >? 57 then (if c >? 90 then when (in_ 97 122 c) (St 209) else when (c >=? 65) (St 209)) else Some (St 250)] (St 0));
  Case 250 (fun c => first [switch c [(33, St 209); (35, Tr 159); (37, St 119); (46, St 241); (47, Tr 161); (58, Tr 255); (61, St 209); (63, Tr 163); (64, Tr 256); (95, St 209); (126, St 209)];
    if c <? 65 then when (in_ 36 59 c) (St 209) else if c >? 90 then when (in_ 97 122 c) (St 209) else Some (St 209)] (St 0))
].

Definition labels_38 : list block := [
  Case 251 (fun c => first [switch c [(33, St 209); (35, Tr 159); (37, St 119); (46, St 239); (47, Tr 161); (58, Tr 255); (59, St 209); (61, St 209); (63, Tr 163); (64, Tr 256); (95, St 209); (126, St 209)];
    if c <? 48 then when (in_ 36 45 c) (St 209) else if c >? 57 then (if c >? 90 then when (in_ 97 122 c) (St 209) else when (c >=? 65) (St 209)) else Some (St 252)] (St 0));
  Case 252 (fun c => first [switch c [(33, St 209); (35, Tr 159); (37, St 119); (46, St 239); (47, Tr 161); (58, Tr 255); (61, St 209); (63, Tr 163); (64, Tr 256); (95, St 209); (126, St 209)];
    if c <? 65 then when (in_ 36 59 c) (St 209) else if c >? 90 then when (in_ 97 122 c) (St 209) else Some (St 209)] (St 0));
  Trans 253 [ASet; ASet] 253;
  Case 253 (fun c => first [switch c [(33, St 209); (35, Tr 159); (37, St 119); (47, Tr 161); (58, Tr 255); (61, St 209); (63, Tr 163); (64, Tr 256); (95, St 209); (110, St 254); (126, St 209)];
    if c <? 65 then when (in_ 36 59 c) (St 209) else if c >? 90 then when (in_ 97 122 c) (St 209) else Some (St 209)] (St 0));
  Case 254 (fun c => first [switch c [(33, St 209); (35, Tr 159); (37, St 119); (47, Tr 161); (58, Tr 255); (61, St 209); (63, Tr 163); (64, Tr 256); (95, St 209); (105, St 255); (126, St 209)];
    if c <? 65 then when (in_ 36 59 c) (St 209) else if c >? 90 then when (in_ 97 122 c) (St 209) else Some (St 209)] (St 0));
  Case 255 (fun c => first [switch c [(33, St 209); (35, Tr 159); (37, St 119); (47, Tr 161); (58, Tr 255); (61, St 209); (63, Tr 163); (64, Tr 256); (95, St 209); (120, St 256); (126, St 209)];
    if c <? 65 then when (in_ 36 59 c) (St 209) else if c >? 90 then when (in_ 97 122 c) (St 209) else Some (St 209)] (St 0))
].

Definition labels_39 : list block := [
  Case 256 (fun c => first [switch c [(33, St 209); (35, Tr 159); (37, St 119); (47, Tr 311); (58, Tr 255); (61, St 209); (63, Tr 163); (64, Tr 256); (95, St 209); (126, St 209)];
    if c <? 65 then when (in_ 36 59 c) (St 209) else if c >? 90 then when (in_ 97 122 c) (St 209) else Some (St 209)] (St 0));
  Trans 311 [AHost; ASet] 257;
  Case 257 (fun c => first [switch c [(33, St 148); (35, Tr 151); (37, St 11); (58, St 258); (61, St 148); (63, Tr 155); (95, St 148); (126, St 148)];
    if c <? 64 then when (in_ 36 59 c) (St 148) else if c >? 90 then when (in_ 97 122 c) (St 148) else Some (St 148)] (St 0));
  Case 258 (fun c => first [switch c [(33, Tr 313); (35, Tr 314); (37, Tr 315); (47, Tr 316); (58, Tr 221); (61, Tr 313); (63, Tr 317); (95, Tr 313); (126, Tr 313)];
    if c <? 64 then when (in_ 36 59 c) (Tr 313) else if c >? 90 then when (in_ 97 122 c) (Tr 313) else Some (Tr 313)] (St 0));
  Trans 313 [ASet] 259;
  Case 259 (fun c => first [switch c [(33, St 259); (35, Tr 318); (37, St 134); (47, St 260); (58, Tr 223); (61, St 259); (63, Tr 320); (95, St 259); (126, St 259)];
    if c <? 64 then when (in_ 36 59 c) (St 259) else if c >? 90 then when (in_ 97 122 c) (St 259) else Some (St 259)] (St 0));
  Trans 315 [ASet] 134;
  Case 134 (fun c => first [switch c [(37, St 259); (117, St 135)];
    if c <? 65 then when (in_ 48 57 c) (St 259) else if c >? 70 then when (in_ 97 102 c) (St 259) else Some (St 259)] (St 0));
  Case 135 (fun c => first [if c <? 65 then when (in_ 48 57 c) (St 136) else if c >? 70 then when (in_ 97 102 c) (St 136) else Some (St 136)] (St 0))
].

Definition labels_40 : list block := [
  Case 136 (fun c => first [if c <? 65 then when (in_ 48 57 c) (St 137) else if c >? 70 then when (in_ 97 102 c) (St 137) else Some (St 137)] (St 0));
  Case 137 (fun c => first [if c <? 65 then when (in_ 48 57 c) (St 138) else if c >? 70 then when (in_ 97 102 c) (St 138) else Some (St 138)] (St 0));
  Case 138 (fun c => first [if c <? 65 then when (in_ 48 57 c) (St 259) else if c >? 70 then when (in_ 97 102 c) (St 259) else Some (St 259)] (St 0));
  Trans 324 [ASet] 260;
  Trans 316 [ASet] 260;
  Case 260 (fun c => first [switch c [(33, St 260); (35, Tr 318); (37, St 139); (58, Tr 322); (61, St 260); (63, Tr 320); (95, St 260); (126, St 260)];
    if c <? 64 then when (in_ 36 59 c) (St 260) else if c >? 90 then when (in_ 97 122 c) (St 260) else Some (St 260)] (St 0));
  Case 139 (fun c => first [switch c [(37, St 260); (117, St 140)];
    if c <? 65 then when (in_ 48 57 c) (St 260) else if c >? 70 then when (in_ 97 102 c) (St 260) else Some (St 260)] (St 0));
  Case 140 (fun c => first [if c <? 65 then when (in_ 48 57 c) (St 141) else if c >? 70 then when (in_ 97 102 c) (St 141) else Some (St 141)] (St 0));
  Case 141 (fun c => first [if c <? 65 then when (in_ 48 57 c) (St 142) else if c >? 70 then when (in_ 97 102 c) (St 142) else Some (St 142)] (St 0));
  Case 142 (fun c => first [if c <? 65 then when (in_ 48 57 c) (St 143) else if c >? 70 then when (in_ 97 102 c) (St 143) else Some (St 143)] (St 0));
  Case 143 (fun c => first [if c <? 65 then when (in_ 48 57 c) (St 260) else if c >? 70 then when (in_ 97 102 c) (St 260) else Some (St 260)] (St 0))
].

Definition labels_41 : list block := [
  Trans 322 [AUnix] 261;
  Case 261 (fun c => first [switch c [(33, St 260); (35, Tr 323); (37, St 139); (47, Tr 324); (58, Tr 322); (61, St 260); (63, Tr 325); (95, St 260); (126, St 260)];
    if c <? 64 then when (in_ 36 59 c) (St 260) else if c >? 90 then when (in_ 97 122 c) (St 260) else Some (St 260)] (St 0));
  Trans 158 [ASet; ASet; ASet] 262;
  Case 262 (fun c => first [switch c [(33, St 145); (35, Tr 159); (37, St 6); (43, St 205); (47, Tr 161); (58, Tr 247); (59, St 145); (61, St 145); (63, Tr 163); (64, Tr 164); (95, St 145); (110, St 263); (126, St 145)];
    if c <? 45 then when (in_ 36 44 c) (St 145) else if c >? 57 then (if c >? 90 then when (in_ 97 122 c) (St 205) else when (c >=? 65) (St 205)) else Some (St 205)] (St 0));
  Case 263 (fun c => first [switch c [(33, St 145); (35, Tr 159); (37, St 6); (43, St 205); (47, Tr 161); (58, Tr 247); (59, St 145); (61, St 145); (63, Tr 163); (64, Tr 164); (95, St 145); (105, St 264); (126, St 145)];
    if c <? 45 then when (in_ 36 44 c) (St 145) else if c >? 57 then (if c >? 90 then when (in_ 97 122 c) (St 205) else when (c >=? 65) (St 205)) else Some (St 205)] (St 0));
  Case 264 (fun c => first [switch c [(33, St 145); (35, Tr 159); (37, St 6); (43, St 205); (47, Tr 161); (58, Tr 247); (59, St 145); (61, St 145); (63, Tr 163); (64, Tr 164); (95, St 145); (120, St 265); (126, St 145)];
    if c <? 45 then when (in_ 36 44 c) (St 145) else if c >? 57 then (if c >? 90 then when (in_ 97 122 c) (St 205) else when (c >=? 65) (St 205)) else Some (St 205)] (St 0))
].

Definition labels_42 : list block := [
  Case 265 (fun c => first [switch c [(33, St 145); (35, Tr 159); (37, St 6); (43, St 205); (47, Tr 311); (58, Tr 247); (59, St 145); (61, St 145); (63, Tr 163); (64, Tr 164); (95, St 145); (126, St 145)];
    if c <? 45 then when (in_ 36 44 c) (St 145) else if c >? 57 then (if c >? 90 then when (in_ 97 122 c) (St 205) else when (c >=? 65) (St 205)) else Some (St 205)] (St 0))
].

Definition labels : list block :=
  labels_1 ++ labels_2 ++ labels_3 ++ labels_4 ++ labels_5 ++ labels_6 ++ labels_7 ++ labels_8 ++ labels_9 ++ labels_10 ++ labels_11 ++ labels_12 ++ labels_13 ++ labels_14 ++ labels_15 ++ labels_16 ++ labels_17 ++ labels_18 ++ labels_19 ++ labels_20 ++ labels_21 ++ labels_22 ++ labels_23 ++ labels_24 ++ labels_25 ++ labels_26 ++ labels_27 ++ labels_28 ++ labels_29 ++ labels_30 ++ labels_31 ++ labels_32 ++ labels_33 ++ labels_34 ++ labels_35 ++ labels_36 ++ labels_37 ++ labels_38 ++ labels_39 ++ labels_40 ++ labels_41 ++ labels_42.

(** The actions at the end of the string, by state. *)
Definition eof_cases : list (list Z * list action) := [
  ([150], [AQuery]);
  ([147], [AFragment]);
  ([156; 157], [AUnix]);
  ([144; 148; 178; 179; 180; 181; 204; 207; 208; 211; 212; 257], [APath]);
  ([149], [ASet; AQuery]);
  ([146], [ASet; AFragment]);
  ([173; 182; 183], [ASet; APath]);
  ([186; 187; 259; 260], [APath; AUnix]);
  ([145; 152; 158; 159; 160; 161; 162; 163; 167; 168; 169; 170; 171; 172; 174; 175; 176; 177; 189; 190; 191; 192; 193; 197; 198; 199; 200; 205; 209; 213; 217; 218; 219; 220; 221; 222; 226; 227; 228; 229; 230; 231; 232; 233; 234; 235; 238; 239; 240; 241; 242; 243; 247; 248; 249; 250; 251; 252; 253; 254; 255; 256; 262; 263; 264; 265], [AHost; ASet; APath]);
  ([154; 155; 184; 185; 215; 216; 236; 237], [AService; ASet; APath]);
  ([261], [ASet; APath; AUnix]);
  ([258], [APath; ASet; AUnix]);
  ([188; 201; 202; 203], [AHost; ASet; APath; AServiceEnd]);
  ([164; 165; 166; 194; 195; 196; 223; 224; 225; 244; 245; 246], [AHostIPv4; AHost; ASet; APath]);
  ([151; 153; 206; 210; 214], [ASet; AService; ASet; APath])
].

(** ** Execution *)

Fixpoint find_case (cs : Z) (l : list block) : option (Z -> target) :=
  match l with
  | [] => None
  | Case n next :: l => if cs =? n then Some next else find_case cs l
  | _ :: l => find_case cs l
  end.
Fixpoint find_trans (n : Z) (l : list block) : option (list action * Z) :=
  match l with
  | [] => None
  | Trans k acts m :: l => if n =? k then Some (acts, m) else find_trans n l
  | _ :: l => find_trans n l
  end.
Definition is_stop (n : Z) : bool := existsb (fun b => match b with Stop k => n =? k | _ => false end) labels.

Fixpoint find_eof (cs : Z) (l : list (list Z * list action)) : list action :=
  match l with
  | [] => []
  | (states, acts) :: l => if existsb (Z.eqb cs) states then acts else find_eof cs l
  end.
Definition eof_actions (cs : Z) : list action := find_eof cs eof_cases.

(** From a label to the next state, with the actions on the way. *)
Definition follow (t : target) : option (list action * Z) :=
  match t with St m => Some ([], m) | Tr n => find_trans n labels end.

(** [char] is signed. *)
Definition s8 (z : Z) : Z := (z + 2 ^ 7) mod 2 ^ 8 - 2 ^ 7.

(** From the state [cs] with [p] at offset [p], before the characters [str]:
    the final [cs]. *)
Fixpoint run (cs : Z) (p : nat) (str : bytes) (v : vars) : option (Z * vars) :=
  match str with
  | [] => v ← do_actions p (eof_actions cs) v; Some (cs, v)
  | c :: str =>
      next ← find_case cs labels;
      '(acts, m) ← follow (next (s8 c));
      v ← do_actions p acts v;
      if is_stop m then Some (m, v) else run m (S p) str v
  end.

Definition uri_start : Z := 144.
Definition uri_first_final : Z := 144.

End Ragel.

Definition host_len (u : uri) : nat :=
  match uri_host u with HostAt r => range_len r | HostUnix => length URI_HOST_UNIX end.

(** [uri_parse]: the result and [*uri]. *)
Definition uri_parse (mem : bytes) : option (Z * uri) :=
  n ← strlen mem;
  if decide (n = 0%nat) then Some (-1, zero_uri) else
  '(cs, v) ← Ragel.run Ragel.uri_start 0 (take n mem) (Ragel.Vars None None None zero_uri);
  let u := Ragel.v_uri v in
  let u := if decide (range_len (uri_path u) = 0%nat) then Ragel.set_path None u else u in
  let u := if decide (range_len (uri_service u) = 0%nat) then Ragel.set_service None u else u in
  if decide (URI_MAXSERVICE <= range_len (uri_service u))%nat then Some (-1, u) else
  if decide (URI_MAXHOST <= host_len u)%nat then Some (-1, u) else
  Some (if decide (Ragel.uri_first_final <= cs) then 0 else -1, u).

(** [uri_format]: what the buffer of 1024 bytes holds before the null
    character; "%.*s" of [NULL] is undefined. *)
Definition uri_format (mem : bytes) (u : uri) : option bytes :=
  host ← match uri_host u with
    | HostAt None => Some [42]
    | HostAt (Some (off, len)) => slice off len mem
    | HostUnix => Some URI_HOST_UNIX
    end;
  service ← '(off, len) ← uri_service u; slice off len mem;
  Some (take 1023 (host ++ [58] ++ service)).

(** Concrete runs. *)
Example parse_tcp : uri_parse [117; 58; 112; 64; 104; 58; 57; 57; 0]
  = Some (0, (Uri None (Some (0, 1)) (Some (2, 1)) (HostAt (Some (4, 1))) (Some (6, 2)) None None None URI_NAME)%nat).
Proof. vm_compute. reflexivity. Qed.

Example parse_unix : uri_parse [47; 116; 47; 115; 0]
  = Some (0, (Uri None None None HostUnix (Some (0, 4)) None None None URI_UNIX)%nat).
Proof. vm_compute. reflexivity. Qed.
