(* ===== verification/UriSpec.v ===== *)
(** * What the URI parser returns

    The automaton is checked by computation, edge by edge; the lemmas of the
    first part turn such a check into an invariant of [run], those of the
    second into its result on all the strings of a template. *)

From S2P Require Import Prelude Mem Uri.
Import Ragel.

(** ** Edges *)

(** All the values of a [char] but the null character. *)
Definition chars : list Z := (Z.of_nat <$> seq 1 127) ++ ((fun n => - Z.of_nat n) <$> seq 1 128).

Definition is_case (n : Z) : bool := match find_case n labels with Some _ => true | None => false end.

(** [f] holds for the state, the character, the actions and the target of
    every edge. *)
Definition all_edges (f : Z -> Z -> list action -> Z -> bool) : bool :=
  forallb (fun b => match b with
    | Case n next => forallb (fun c => match follow (next c) with Some (acts, m) => f n c acts m | None => false end) chars
    | _ => true
    end) labels.

Lemma s8_char c : is_byte c -> c <> 0 -> s8 c ∈ chars.
Proof.
  intros Hc H0. unfold is_byte in Hc. unfold chars, s8. apply elem_of_app. destruct (decide (c < 128)).
  - left. apply list_elem_of_fmap. exists (Z.to_nat c). rewrite Z.mod_small by lia. split; [lia|]. apply elem_of_seq. lia.
  - right. apply list_elem_of_fmap. exists (Z.to_nat (256 - c)). split; [|apply elem_of_seq; lia].
    replace (c + 2 ^ 7) with (c - 128 + 1 * 2 ^ 8) by lia. rewrite Z.mod_add, Z.mod_small by lia. lia.
Qed.

Lemma find_case_in n l next : find_case n l = Some next -> Case n next ∈ l.
Proof.
  induction l as [|[k f| |] l IH]; simpl; intros H; [done| | |]; try (right; by apply IH).
  destruct (Z.eqb_spec n k) as [->|_]; [injection H as ->; by left|right; by apply IH].
Qed.

Lemma all_edges_spec f n next c :
  all_edges f = true -> find_case n labels = Some next -> is_byte c -> c <> 0 ->
  exists acts m, follow (next (s8 c)) = Some (acts, m) /\ f n (s8 c) acts m = true.
Proof.
  intros Hf Hn Hc H0. apply find_case_in in Hn. unfold all_edges in Hf. rewrite forallb_forall in Hf.
  specialize (Hf (Case n next)). cbn beta iota in Hf. rewrite forallb_forall in Hf.
  specialize (Hf ltac:(by apply list_elem_of_In) (s8 c) ltac:(by apply list_elem_of_In, s8_char)).
  destruct (follow _) as [[acts m]|]; [|done]. by exists acts, m.
Qed.

(** ** An invariant of every run *)

(** The states in which [s] may be [NULL], when the string does not start with
    '#', '?' or '@', and those in which [uri->service] is known to be set. *)
Definition s_unset (cs : Z) : bool := (cs =? 144) || (cs =? 38).
Definition service_set (cs : Z) : bool := in_ 119 133 cs || in_ 188 203 cs || in_ 207 256 cs.

(** What is known: [s] is set, [uri->service] is set, it is [NULL]. *)
Record know := Know { k_s : bool; k_service : bool; k_fresh : bool }.

(** After an action; [None] when it may be undefined. *)
Definition know_action (a : action) (k : know) : option know :=
  match a with
  | ASet => Some (Know true (k_service k) (k_fresh k))
  | AScheme | ALogin => Some k
  | AServiceStart => if k_fresh k then Some (Know (k_s k) true false) else None
  | AServiceEnd => if k_service k then Some (Know (k_s k) true false) else None
  | AService => if k_s k then Some (Know true true false) else None
  | AUnix => if k_s k then Some (Know true (k_service k) false) else None
  | _ => if k_s k then Some k else None
  end.
Definition know_actions (l : list action) (k : know) : option know := foldr (fun a r k => know_action a k ≫= r) Some l k.

Definition known (cs : Z) : know := Know (negb (s_unset cs)) (service_set cs) (cs =? 144).
Definition know_le (k k' : know) : bool :=
  implb (k_s k') (k_s k) && implb (k_service k') (k_service k) && implb (k_fresh k') (k_fresh k).

(** The characters of a URI. *)
Definition uri_char (c : Z) : bool := in_ 33 126 c && negb (bool_decide (c ∈ [34; 60; 62; 92; 94; 96; 123; 124; 125])).
(** The first characters with which [s] may be used as [NULL]. *)
Definition null_start (c : Z) : bool := (c =? 35) || (c =? 63) || (c =? 64).

Definition edge_ok (cs c : Z) (acts : list action) (m : Z) : bool :=
  if (cs =? 204) || (cs =? 144) && null_start c then true else
  if is_stop m then (m <? uri_first_final) && match know_actions acts (known cs) with Some _ => true | None => false end else
  uri_char c && is_case m && negb (m =? 204) && negb (m =? 144) &&
    match know_actions acts (known cs) with Some k => know_le k (known m) | None => false end.

Definition eof_ok (cs : Z) : bool :=
  (cs =? 144) || (cs =? 204) || match know_actions (eof_actions cs) (known cs) with Some _ => true | None => false end.

Lemma edges_ok : all_edges edge_ok = true.
Proof. vm_compute. reflexivity. Qed.

Lemma eofs_ok : forallb (fun b => match b with Case n _ => eof_ok n | _ => true end) labels = true.
Proof. vm_compute. reflexivity. Qed.

(** A range of the first [p] characters. *)
Definition within (p : nat) (r : range) : Prop := match r with Some (off, len) => (off + len <= p)%nat | None => True end.

(** Every part is a range of the first [p] characters, or the literal host of
    a path. *)
Record uri_in (p : nat) (u : uri) : Prop := {
  in_parts : Forall (within p)
    [uri_scheme u; uri_login u; uri_password u; uri_service u; uri_path u; uri_query u; uri_fragment u];
  in_host : match uri_host u with HostAt r => within p r | HostUnix => host_hint u = URI_UNIX end;
}.

Record vars_ok (p : nat) (v : vars) : Prop := {
  vo_s : forall s, v_s v = Some s -> (s <= p)%nat;
  vo_login : within p (v_login v);
  vo_scheme : within p (v_scheme v);
  vo_uri : uri_in p (v_uri v);
}.

Record know_ok (k : know) (v : vars) : Prop := {
  ko_s : k_s k = true -> is_Some (v_s v);
  ko_service : k_service k = true -> is_Some (uri_service (v_uri v));
  ko_fresh : k_fresh k = true -> uri_service (v_uri v) = None;
}.

Lemma know_le_ok k k' v : know_le k k' = true -> know_ok k v -> know_ok k' v.
Proof.
  unfold know_le. destruct k as [[] [] []], k' as [[] [] []]; simpl; intros H [H1 H2 H3]; try done; split; auto; done.
Qed.

Lemma within_mono p q r : (p <= q)%nat -> within p r -> within q r.
Proof. destruct r as [[]|]; simpl; lia. Qed.

Lemma uri_in_mono p q u : (p <= q)%nat -> uri_in p u -> uri_in q u.
Proof.
  intros Hpq [H1 H2]. split.
  - eapply Forall_impl; [exact H1|]. intros r. by apply within_mono.
  - destruct (uri_host u); [by eapply within_mono|done].
Qed.

Lemma vars_ok_mono p q v : (p <= q)%nat -> vars_ok p v -> vars_ok q v.
Proof.
  intros Hpq [H1 H2 H3 H4]. split; [|by eapply within_mono..|by eapply uri_in_mono].
  intros s Hs. specialize (H1 s Hs). lia.
Qed.

Lemma do_action_ok p a v k k' :
  vars_ok p v -> know_ok k v -> know_action a k = Some k' ->
  exists v', do_action p a v = Some v' /\ vars_ok p v' /\ know_ok k' v'.
Proof.
  intros [Hs Hl Hc [Hu Hh]] [K1 K2 K3] Hk. destruct k as [ks kv kf].
  assert (ks = true -> exists s, v_s v = Some s /\ within p (Some (s, (p - s)%nat))) as Hset.
  { intros ->. destruct (K1 eq_refl) as [s E]. exists s. split; [done|]. specialize (Hs s E). simpl. lia. }
  destruct v as [s lo sc [x1 x2 x3 h x4 x5 x6 x7 hh]]. cbn in *.
  repeat match goal with H : Forall _ (_ :: _) |- _ => apply Forall_cons in H as [? H] end.
  destruct a; cbn in Hk.
  all: try (destruct ks; [|discriminate Hk]; destruct (Hset eq_refl) as (s0 & -> & Ht); cbn).
  all: try (destruct kv; [|discriminate Hk]; destruct (K2 eq_refl) as [[o n] ->]; cbn).
  all: try (destruct kf; [|discriminate Hk]; specialize (K3 eq_refl) as ->; cbn).
  all: injection Hk as <-.
  all: try (case_decide as Hhint).
  all: eexists; (split; [reflexivity|]); split; (split; cbn; try done).
  all: try (intros ? [= <-]; first [lia|specialize (Hs _ eq_refl); lia]).
  all: try (by eexists).
  all: try (split; cbn; [repeat (apply Forall_cons; split; [first [done|simpl in *; lia]|]); apply Forall_nil_2|]; done).
Qed.

Lemma do_actions_ok p l v k k' :
  vars_ok p v -> know_ok k v -> know_actions l k = Some k' ->
  exists v', do_actions p l v = Some v' /\ vars_ok p v' /\ know_ok k' v'.
Proof.
  revert v k. induction l as [|a l IH]; simpl; intros v k Hv Hk E; [injection E as <-; by exists v|].
  apply bind_Some in E as (k1 & E1 & E). destruct (do_action_ok p a v k k1 Hv Hk E1) as (v1 & -> & Hv1 & Hk1). by apply (IH v1 k1).
Qed.

(** The run from a state, when the first character is not one of [null_start]. *)
Lemma run_ok str cs p v :
  Forall (fun c => is_byte c /\ c <> 0) str -> is_case cs = true -> cs <> 204 ->
  (cs = 144 -> exists c rest, str = c :: rest /\ null_start (s8 c) = false) ->
  vars_ok p v -> know_ok (known cs) v ->
  exists cs' v', run cs p str v = Some (cs', v') /\ vars_ok (p + length str) v' /\
    (uri_first_final <= cs' -> Forall (fun c => uri_char (s8 c) = true) str).
Proof.
  revert cs p v. induction str as [|c str IH]; intros cs p v Hstr Hcs H204 H144 Hv Hk; cbn [run].
  - unfold is_case in Hcs. destruct (find_case cs labels) as [next|] eqn:E; [|done]. apply find_case_in, list_elem_of_In in E.
    pose proof eofs_ok as H. rewrite forallb_forall in H. specialize (H _ E). cbn beta iota in H. unfold eof_ok in H.
    destruct (Z.eqb_spec cs 144) as [->|_]; [by destruct (H144 eq_refl) as (? & ? & ? & _)|].
    destruct (Z.eqb_spec cs 204) as [->|_]; [done|]. cbn [orb] in H.
    destruct (know_actions (eof_actions cs) (known cs)) as [k|] eqn:Ek; [|done].
    destruct (do_actions_ok p _ v _ _ Hv Hk Ek) as (v' & -> & Hv' & _). cbn [mbind option_bind].
    exists cs, v'. split; [done|]. split; [by rewrite Nat.add_0_r|]. intros _. apply Forall_nil_2.
  - apply Forall_cons in Hstr as [[Hc H0] Hstr]. unfold is_case in Hcs. destruct (find_case cs labels) as [next|] eqn:E; [|done].
    destruct (all_edges_spec _ _ _ _ edges_ok E Hc H0) as (acts & m & Ef & He). cbn [mbind option_bind]. rewrite Ef. cbn [mbind option_bind].
    unfold edge_ok in He. destruct (Z.eqb_spec cs 204) as [->|_]; [done|].
    assert ((cs =? 144) && null_start (s8 c) = false) as Hns.
    { destruct (Z.eqb_spec cs 144) as [->|_]; [|done]. destruct (H144 eq_refl) as (? & ? & [= <- <-] & ->). done. }
    cbn [orb] in He. rewrite Hns in He. destruct (is_stop m).
    + apply andb_prop in He as [Hm He]. destruct (know_actions _ _) as [k|] eqn:Ek; [|done].
      destruct (do_actions_ok p _ v _ _ Hv Hk Ek) as (v' & -> & Hv' & _). cbn [mbind option_bind]. exists m, v'. split; [done|].
      split; [eapply vars_ok_mono; [|done]; lia|]. apply Z.ltb_lt in Hm. lia.
    + rewrite !andb_true_iff in He. destruct He as [[[[Huc Hcm] Hm204] Hm144] Hle]. destruct (know_actions acts (known cs)) as [k|] eqn:Ek; [|done].
      destruct (do_actions_ok p _ v _ _ Hv Hk Ek) as (v' & -> & Hv' & Hk'). cbn [mbind option_bind].
      destruct (IH m (S p) v' Hstr) as (cs' & v2 & -> & Hv2 & Hfin); try done.
      * intros ->. done.
      * intros ->. done.
      * eapply vars_ok_mono; [|done]. lia.
      * by eapply know_le_ok.
      * exists cs', v2. split; [done|]. split; [cbn [length]; by rewrite Nat.add_succ_r|]. intros Hf. apply Forall_cons. split; [done|by apply Hfin].
Qed.

(** ** uri_parse *)

(** The checks of lengths after the run. *)
Definition clip_path (u : uri) : uri := if decide (range_len (uri_path u) = 0%nat) then set_path None u else u.
Definition clip_service (u : uri) : uri := if decide (range_len (uri_service u) = 0%nat) then set_service None u else u.
Definition check_lengths (cs : Z) (u : uri) : Z * uri :=
  if decide (URI_MAXSERVICE <= range_len (uri_service u))%nat then (-1, u) else
  if decide (URI_MAXHOST <= host_len u)%nat then (-1, u) else (if decide (uri_first_final <= cs) then 0 else -1, u).
Definition finish (cs : Z) (u : uri) : Z * uri := check_lengths cs (clip_service (clip_path u)).

Lemma uri_parse_run str rest cs v :
  Forall (fun c => c <> 0) str -> str <> [] -> run uri_start 0 str (Vars None None None zero_uri) = Some (cs, v) ->
  uri_parse (str ++ 0 :: rest) = Some (finish cs (v_uri v)).
Proof.
  intros H0 Hne E. unfold uri_parse. rewrite strlen_app by done. cbn [mbind option_bind].
  rewrite decide_False by (by destruct str). rewrite take_app_length, E. cbn [mbind option_bind]. unfold finish, check_lengths, clip_service, clip_path.
  repeat case_decide; done.
Qed.

Lemma set_path_in p u : uri_in p u -> uri_in p (set_path None u).
Proof.
  intros [H1 H2]. split; [|done]. cbn in *. repeat apply Forall_cons in H1 as [? H1].
  repeat (apply Forall_cons; split; [done|]). apply Forall_nil_2.
Qed.

Lemma set_service_in p u : uri_in p u -> uri_in p (set_service None u).
Proof.
  intros [H1 H2]. split; [|done]. cbn in *. repeat apply Forall_cons in H1 as [? H1].
  repeat (apply Forall_cons; split; [done|]). apply Forall_nil_2.
Qed.

Lemma finish_ok p cs u :
  uri_in p u ->
  exists rc u', finish cs u = (rc, u') /\ (rc = 0 \/ rc = -1) /\ uri_in p u' /\
    (rc = 0 -> uri_first_final <= cs /\ (host_len u' < URI_MAXHOST)%nat /\ (range_len (uri_service u') < URI_MAXSERVICE)%nat) /\
    (forall off, uri_path u' <> Some (off, 0%nat) /\ uri_service u' <> Some (off, 0%nat)).
Proof.
  intros Hu. unfold finish, check_lengths. set (u1 := clip_path u).
  assert (uri_in p u1 /\ forall off, uri_path u1 <> Some (off, 0%nat)) as [Hu1 Hp1].
  { unfold u1, clip_path. case_decide as E; [split; [by apply set_path_in|done]|]. split; [done|]. intros off E'. by rewrite E' in E. }
  set (u2 := clip_service u1).
  assert (uri_in p u2 /\ forall off, uri_path u2 <> Some (off, 0%nat) /\ uri_service u2 <> Some (off, 0%nat)) as [Hu2 Hp2].
  { unfold u2, clip_service. case_decide as E; [split; [by apply set_service_in|by intros off; split; [apply Hp1|]]|].
    split; [done|]. intros off. split; [apply Hp1|]. intros E'. by rewrite E' in E. }
  clearbody u2. repeat case_decide; do 2 eexists; (split; [reflexivity|]); (split; [auto|]); (split; [done|]); (split; [|done]); intros [=].
  split; [done|lia].
Qed.

(** C33: on every string that does not start with one of three characters the
    parser is defined (with them it may subtract from [NULL]).  The result is 0
    or -1, and every part lies in the string or is the literal "unix/".  On
    success all the characters of the string are characters of a URI, the
    string is not empty, and the lengths are below the limits; empty paths and
    services are [NULL]. *)
Theorem uri_parse_correct str rest :
  Forall (fun c => is_byte c /\ c <> 0) str -> (forall c l, str = c :: l -> null_start (s8 c) = false) ->
  exists rc u, uri_parse (str ++ 0 :: rest) = Some (rc, u) /\ (rc = 0 \/ rc = -1) /\ uri_in (length str) u /\
    (rc = 0 -> Forall (fun c => uri_char (s8 c) = true) str /\ str <> [] /\
       (host_len u < URI_MAXHOST)%nat /\ (range_len (uri_service u) < URI_MAXSERVICE)%nat) /\
    (forall off, uri_path u <> Some (off, 0%nat) /\ uri_service u <> Some (off, 0%nat)).
Proof.
  intros Hstr Hstart. assert (Forall (fun c => c <> 0) str) as H0 by (eapply Forall_impl; [exact Hstr|]; by intros ? []).
  assert (vars_ok 0 (Vars None None None zero_uri)) as Hv by (repeat split; cbn; try done; by repeat constructor).
  destruct (decide (str = [])) as [->|Hne].
  { exists (-1), zero_uri. split; [reflexivity|]. split; [by right|]. split; [apply Hv|done]. }
  destruct (run_ok str uri_start 0 (Vars None None None zero_uri)) as (cs & v & E & Hv' & Hfin); try done.
  { intros _. destruct str as [|c l]; [done|]. exists c, l. split; [done|by eapply Hstart]. }
  rewrite (uri_parse_run str rest cs v H0 Hne E). destruct (finish_ok (length str) cs (v_uri v)) as (rc & u & -> & Hrc & Hu & Hok & Hnz); [apply Hv'|].
  exists rc, u. split; [done|]. split; [done|]. split; [done|]. split; [|done]. intros H. destruct (Hok H) as (Hcs & ? & ?). split; [by apply Hfin|done].
Qed.

(** ** Templates

    A template is a list of languages, each given by an automaton of its own; a
    string of the template is a concatenation.  The parser runs on all of them
    at once: a symbolic state holds, instead of offsets, the numbers of the
    boundaries between the parts. *)

Record lang := Lang { delta : nat -> Z -> option nat; final : nat -> bool }.

Fixpoint accepts (L : lang) (k : nat) (bs : bytes) : bool :=
  match bs with
  | [] => final L k
  | c :: bs => in_ 1 126 c && match delta L k c with Some k => accepts L k bs | None => false end
  end.

#[export] Instance uri_eq_dec : EqDecision uri.
Proof. solve_decision. Defined.
#[export] Instance vars_eq_dec : EqDecision vars.
Proof. solve_decision. Defined.

(** [do_action] at the boundary [q]; [None] inside of a part.  A range is a
    pair of boundaries. *)
Definition sym_action (q : option nat) (a : action) (y : vars) : option vars :=
  let token := s ← v_s y; q ← q; Some (Some (s, q)) in
  match a with
  | ASet => q ← q; Some (Vars (Some q) (v_login y) (v_scheme y) (v_uri y))
  | AQuery => t ← token; Some (on_uri (set_query t) y)
  | AFragment => t ← token; Some (on_uri (set_fragment t) y)
  | AHost => t ← token; Some (on_uri (set_host (HostAt t)) y)
  | AHostIPv4 => t ← token; Some (on_uri (set_hint URI_IPV4 ∘ set_host (HostAt t)) y)
  | AHostIPv6 => t ← token; Some (on_uri (set_hint URI_IPV6 ∘ set_host (HostAt t)) y)
  | AUnix =>
      if decide (host_hint (v_uri y) <> URI_UNIX) then
        t ← token; Some (on_uri (set_path None ∘ set_service t ∘ set_host HostUnix ∘ set_hint URI_UNIX) y)
      else Some y
  | AService => t ← token; Some (on_uri (set_service t) y)
  | ALoginTmp => t ← token; Some (Vars (v_s y) t (v_scheme y) (v_uri y))
  | APassword => t ← token; Some (on_uri (set_password t) y)
  | ALogin => Some (on_uri (set_login (v_login y)) y)
  | ASchemeTmp => t ← token; Some (Vars (v_s y) (v_login y) t (v_uri y))
  | APath => t ← token; Some (on_uri (set_path t) y)
  | AScheme => Some (on_uri (set_scheme (v_scheme y)) y)
  | AServiceStart => q ← q; match uri_service (v_uri y) with None => Some (on_uri (set_service (Some (q, q))) y) | _ => None end
  | AServiceEnd => '(o, _) ← uri_service (v_uri y); q ← q; Some (on_uri (set_host (HostAt None) ∘ set_service (Some (o, q))) y)
  end.
Definition sym_actions (q : option nat) (l : list action) (y : vars) : option vars :=
  foldr (fun a r y => sym_action q a y ≫= r) Some l y.

(** A state of the language of the part, a state of the parser, variables. *)
Definition sym := (nat * (Z * vars))%type.

Definition ascii : list Z := Z.of_nat <$> seq 1 126.

Definition sym_char (L : lang) (q : option nat) (x : sym) (c : Z) : option (list sym) :=
  let '(k, (cs, y)) := x in
  match delta L k c with
  | None => Some []
  | Some k =>
      next ← find_case cs labels;
      '(acts, m) ← follow (next c);
      y ← sym_actions q acts y;
      if is_stop m then None else Some [(k, (m, y))]
  end.
Definition sym_steps (L : lang) (q : option nat) (xs : list sym) : option (list sym) :=
  @concat sym <$> mapM (fun x => @concat sym <$> mapM (sym_char L q x) ascii) xs.

(** The states reached inside of a part. *)
Fixpoint explore (n : nat) (L : lang) (todo seen : list sym) : option (list sym) :=
  match n, todo with
  | _, [] => Some seen
  | O, _ => None
  | S n, _ =>
      next ← sym_steps L None todo;
      let new := remove_dups (filter (fun x => x ∉ seen) next) in explore n L new (new ++ seen)
  end.

Definition subset_of (xs ys : list sym) : bool := forallb (fun x => bool_decide (x ∈ ys)) xs.

Definition sym_part (L : lang) (i : nat) (xs : list (Z * vars)) : option (list (Z * vars)) :=
  start ← sym_steps L (Some i) ((fun x => (0%nat, x)) <$> xs);
  seen ← explore 100 L (remove_dups start) (remove_dups start);
  next ← sym_steps L None seen;
  if subset_of start seen && subset_of next seen
  then Some (remove_dups ((if final L 0 then xs else []) ++ (snd <$> filter (fun x => final L (fst x) = true) seen)))
  else None.

Fixpoint sym_run (i : nat) (Ls : list lang) (xs : list (Z * vars)) : option (list (Z * vars)) :=
  match Ls with
  | [] => Some xs
  | L :: Ls => xs ← sym_part L i xs; sym_run (S i) Ls xs
  end.

Definition no_vars : vars := Vars None None None zero_uri.

(** The structures in which the parser leaves the strings of a template; [None]
    if it may reject one. *)
Definition outcomes (Ls : list lang) : option (list uri) :=
  xs ← sym_run 0 Ls [(uri_start, no_vars)];
  us ← mapM (fun '(cs, y) => if decide (uri_first_final <= cs) then v_uri <$> sym_actions (Some (length Ls)) (eof_actions cs) y else None) xs;
  Some (remove_dups us).

Definition word_char (c : Z) : bool :=
  bool_decide (c ∈ [33; 36; 59; 61; 95; 126]) || in_ 38 46 c || in_ 48 57 c || in_ 65 90 c || in_ 97 122 c.
Definition hex_char (c : Z) : bool := in_ 48 57 c || in_ 65 70 c || in_ 97 102 c.

(** A word, with escapes "%xx". *)
Definition word : lang := Lang
  (fun k c => match k with
    | 0%nat | 1%nat => if word_char c then Some 1%nat else if c =? 37 then Some 2%nat else None
    | 2%nat => if hex_char c then Some 3%nat else None
    | _ => if hex_char c then Some 1%nat else None
    end)
  (fun k => (k =? 1)%nat).
Definition digits : lang := Lang (fun _ c => if in_ 48 57 c then Some 1%nat else None) (fun k => (k =? 1)%nat).
Definition lit (x : Z) : lang := Lang (fun k c => if (k =? 0)%nat && (c =? x) then Some 1%nat else None) (fun k => (k =? 1)%nat).
(** "/name/name". *)
Definition abs_path : lang := Lang
  (fun k c => match k with
    | 0%nat => if c =? 47 then Some 1%nat else None
    | 1%nat => if word_char c then Some 2%nat else None
    | _ => if word_char c then Some 2%nat else if c =? 47 then Some 1%nat else None
    end)
  (fun k => (k =? 2)%nat).

(** What the symbolic variables stand for; [off] gives the offsets of the
    boundaries. *)
Section sound.
Variable off : nat -> nat.

Definition inst_range (r : range) : range := match r with Some (i, j) => Some (off i, (off j - off i)%nat) | None => None end.
Definition inst_host (h : host_ptr) : host_ptr := match h with HostAt r => HostAt (inst_range r) | HostUnix => HostUnix end.
Definition inst_uri (u : uri) : uri :=
  Uri (inst_range (uri_scheme u)) (inst_range (uri_login u)) (inst_range (uri_password u)) (inst_host (uri_host u))
    (inst_range (uri_service u)) (inst_range (uri_path u)) (inst_range (uri_query u)) (inst_range (uri_fragment u)) (host_hint u).
Definition inst (y : vars) : vars :=
  Vars (off <$> v_s y) (inst_range (v_login y)) (inst_range (v_scheme y)) (inst_uri (v_uri y)).

(** [p] is at the boundary, if there is one. *)
Definition at_boundary (q : option nat) (p : nat) : Prop := match q with Some i => p = off i | None => True end.

Lemma sym_action_ok q p a y y' :
  at_boundary q p -> sym_action q a y = Some y' -> do_action p a (inst y) = Some (inst y').
Proof.
  intros Hq E. destruct y as [s lo sc [x1 x2 x3 h x4 x5 x6 x7 hh]].
  destruct a, s as [s|], q as [q|]; cbn in E, Hq; subst; try discriminate E.
  all: try (case_decide as Hhint; try discriminate E).
  all: try (destruct x4 as [[o n]|]; try discriminate E).
  all: injection E as <-; cbn; try done.
  all: try (case_decide; done).
  all: unfold inst, inst_uri; cbn; by rewrite Nat.sub_diag.
Qed.

Lemma sym_actions_ok q p l y y' :
  at_boundary q p -> sym_actions q l y = Some y' -> do_actions p l (inst y) = Some (inst y').
Proof.
  intros Hq. revert y. induction l as [|a l IH]; cbn; intros y E; [by injection E as <-|].
  apply bind_Some in E as (y1 & E1 & E). rewrite (sym_action_ok q p a y y1 Hq E1). by apply IH.
Qed.

Lemma mapM_elem {A B} (f : A -> option B) l k x : mapM f l = Some k -> x ∈ l -> exists y, f x = Some y /\ y ∈ k.
Proof.
  intros H Hx. apply mapM_Some in H. induction H as [|x' y' l k Hf H IH]; [by apply elem_of_nil in Hx|].
  apply elem_of_cons in Hx as [->|Hx]; [exists y'; split; [done|by left]|]. destruct (IH Hx) as (y & ? & ?). exists y. split; [done|by right].
Qed.

Lemma elem_of_concat {A} (x : A) l ls : x ∈ l -> l ∈ ls -> x ∈ concat ls.
Proof. rewrite !list_elem_of_In, in_concat. eauto. Qed.

(** One character. *)
Lemma sym_steps_ok L q p xs ys k cs y c bs :
  at_boundary q p -> sym_steps L q xs = Some ys -> (k, (cs, y)) ∈ xs -> accepts L k (c :: bs) = true ->
  exists k' m y', (k', (m, y')) ∈ ys /\ accepts L k' bs = true /\
    forall rest, run cs p (c :: rest) (inst y) = run m (S p) rest (inst y').
Proof.
  intros Hq E Hx Hacc. unfold sym_steps in E. apply fmap_Some in E as (yss & E & ->).
  destruct (mapM_elem _ _ _ _ E Hx) as (ys & Ey & Hys). apply fmap_Some in Ey as (yss' & Ey & ->).
  cbn [accepts] in Hacc. apply andb_prop in Hacc as [Hc Hacc]. unfold in_ in Hc. apply andb_prop in Hc as [H1 H2].
  apply Z.leb_le in H1, H2.
  assert (c ∈ ascii) as Hin by (apply list_elem_of_fmap; exists (Z.to_nat c); split; [lia|apply elem_of_seq; lia]).
  destruct (mapM_elem _ _ _ _ Ey Hin) as (zs & Ez & Hzs). unfold sym_char in Ez.
  destruct (delta L k c) as [k'|]; [|done]. apply bind_Some in Ez as (next & En & Ez). apply bind_Some in Ez as ([acts m] & Ef & Ez).
  apply bind_Some in Ez as (y' & Es & Ez). destruct (is_stop m) eqn:Em; [done|]. injection Ez as <-.
  exists k', m, y'. split.
  { eapply elem_of_concat; [|exact Hys]. eapply elem_of_concat; [|exact Hzs]. by left. }
  split; [done|]. intros rest. cbn [run]. rewrite En. cbn [mbind option_bind].
  assert (s8 c = c) as -> by (unfold s8; rewrite Z.mod_small by lia; lia).
  rewrite Ef. cbn [mbind option_bind]. rewrite (sym_actions_ok q p acts y y' Hq Es). cbn [mbind option_bind]. by rewrite Em.
Qed.

Lemma subset_of_ok xs ys x : subset_of xs ys = true -> x ∈ xs -> x ∈ ys.
Proof. unfold subset_of. rewrite forallb_forall. intros H Hx. apply list_elem_of_In in Hx. by apply H, bool_decide_eq_true in Hx. Qed.

(** The rest of a part. *)
Lemma sym_inside L seen next k cs y p bs rest :
  sym_steps L None seen = Some next -> subset_of next seen = true -> (k, (cs, y)) ∈ seen -> accepts L k bs = true ->
  exists k' cs' y', (k', (cs', y')) ∈ seen /\ final L k' = true /\
    run cs p (bs ++ rest) (inst y) = run cs' (p + length bs) rest (inst y').
Proof.
  intros E Hsub. revert k cs y p. induction bs as [|c bs IH]; intros k cs y p Hx Hacc.
  { exists k, cs, y. rewrite Nat.add_0_r. by repeat split. }
  destruct (sym_steps_ok L None p seen next k cs y c bs I E Hx Hacc) as (k1 & m & y1 & Hin & Hacc1 & Hrun).
  apply (subset_of_ok _ _ _ Hsub) in Hin. destruct (IH k1 m y1 (S p) Hin Hacc1) as (k2 & cs2 & y2 & ? & ? & Hrun2).
  exists k2, cs2, y2. split; [done|]. split; [done|]. cbn [app length]. by rewrite Hrun, Hrun2, Nat.add_succ_r.
Qed.

Lemma sym_part_ok L i xs ys cs y bs rest :
  sym_part L i xs = Some ys -> (cs, y) ∈ xs -> accepts L 0 bs = true ->
  exists cs' y', (cs', y') ∈ ys /\ run cs (off i) (bs ++ rest) (inst y) = run cs' (off i + length bs) rest (inst y').
Proof.
  intros E Hx Hacc. unfold sym_part in E. apply bind_Some in E as (start & E1 & E). apply bind_Some in E as (seen & _ & E).
  apply bind_Some in E as (next & E2 & E). destruct (subset_of start seen && _) eqn:Hs; [|done]. injection E as <-.
  apply andb_prop in Hs as [Hs1 Hs2]. destruct bs as [|c bs].
  { exists cs, y. cbn [accepts] in Hacc. rewrite Hacc. split; [by apply elem_of_remove_dups, elem_of_app; left|by rewrite Nat.add_0_r]. }
  assert ((0%nat, (cs, y)) ∈ (fun x => (0%nat, x)) <$> xs) as Hx0 by (apply list_elem_of_fmap; by exists (cs, y)).
  destruct (sym_steps_ok L (Some i) (off i) _ start 0 cs y c bs eq_refl E1 Hx0 Hacc) as (k1 & m & y1 & Hin & Hacc1 & Hrun).
  apply (subset_of_ok _ _ _ Hs1) in Hin.
  destruct (sym_inside L seen next k1 m y1 (S (off i)) bs rest E2 Hs2 Hin Hacc1) as (k2 & cs2 & y2 & Hin2 & Hf & Hrun2).
  exists cs2, y2. cbn [app length]. rewrite Hrun, Hrun2, Nat.add_succ_r. split; [|done].
  apply elem_of_remove_dups, elem_of_app. right. apply list_elem_of_fmap. exists (k2, (cs2, y2)). split; [done|]. by apply list_elem_of_filter.
Qed.

Lemma sym_run_ok Ls i xs ys cs y bss :
  sym_run i Ls xs = Some ys -> (cs, y) ∈ xs -> Forall2 (fun L bs => accepts L 0 bs = true) Ls bss ->
  (forall j bs, bss !! j = Some bs -> off (S (i + j)) = (off (i + j) + length bs)%nat) ->
  exists cs' y', (cs', y') ∈ ys /\ run cs (off i) (concat bss) (inst y) = run cs' (off (i + length Ls)) [] (inst y').
Proof.
  revert i xs cs y bss. induction Ls as [|L Ls IH]; intros i xs cs y bss E Hx Hacc Hoff.
  { apply Forall2_nil_inv_l in Hacc as ->. injection E as ->. exists cs, y. by rewrite Nat.add_0_r. }
  apply Forall2_cons_inv_l in Hacc as (bs & bss' & Hbs & Hacc & ->). apply bind_Some in E as (zs & E1 & E).
  destruct (sym_part_ok L i xs zs cs y bs (concat bss') E1 Hx Hbs) as (cs1 & y1 & Hin & Hrun).
  pose proof (Hoff 0%nat bs eq_refl) as H0. rewrite Nat.add_0_r in H0.
  destruct (IH (S i) zs cs1 y1 bss' E Hin Hacc) as (cs2 & y2 & Hin2 & Hrun2).
  { intros j b Hj. specialize (Hoff (S j) b Hj). by rewrite <- plus_n_Sm in Hoff. }
  exists cs2, y2. split; [done|]. cbn [concat length]. rewrite Hrun, <- H0, Hrun2. by rewrite <- plus_n_Sm.
Qed.
End sound.

(** The offsets of the boundaries of a list of parts. *)
Definition offset (bss : list bytes) (i : nat) : nat := length (concat (take i bss)).

Lemma offset_S bss j bs : bss !! j = Some bs -> offset bss (S j) = (offset bss j + length bs)%nat.
Proof. intros H. unfold offset. rewrite (take_S_r _ _ _ H), concat_app, length_app. simpl. by rewrite app_nil_r. Qed.

Lemma outcomes_ok Ls us bss :
  outcomes Ls = Some us -> Forall2 (fun L bs => accepts L 0 bs = true) Ls bss ->
  exists u cs v, u ∈ us /\ uri_first_final <= cs /\ run uri_start 0 (concat bss) no_vars = Some (cs, v) /\ v_uri v = inst_uri (offset bss) u.
Proof.
  intros E Hacc. unfold outcomes in E. apply bind_Some in E as (xs & E1 & E). apply bind_Some in E as (us' & E2 & E). injection E as <-.
  destruct (sym_run_ok (offset bss) Ls 0 _ xs uri_start no_vars bss E1) as (cs & y & Hin & Hrun); [by left|done|intros j bs; apply offset_S|].
  destruct (mapM_elem _ _ _ _ E2 Hin) as (u & Eu & Hu). cbn beta iota in Eu. case_decide as Hcs; [|done]. apply fmap_Some in Eu as (y' & Ey & ->).
  exists (v_uri y'), cs, (inst (offset bss) y'). split; [by apply elem_of_remove_dups|]. split; [done|]. split; [|done].
  change (run uri_start 0 (concat bss) no_vars) with (run uri_start (offset bss 0) (concat bss) (inst (offset bss) no_vars)).
  rewrite Hrun. cbn [run]. by rewrite (sym_actions_ok (offset bss) (Some (0 + length Ls)%nat) _ (eof_actions cs) y y' eq_refl Ey).
Qed.

(** ** The documented formats

    "[login:password@]host:port" and "[login:password@]/tmp/socket_path.sock"
    (include/tarantool/tnt_net.h). *)

Inductive address := Tcp (host port : bytes) | Sock (path : bytes).

Definition render (c : option (bytes * bytes)) (a : address) : bytes :=
  match c with Some (login, password) => login ++ [58] ++ password ++ [64] | None => [] end ++
  match a with Tcp host port => host ++ [58] ++ port | Sock path => path end.

(** Login, password and host are words, the port a number, the path starts with
    a slash and is one of words between single slashes. *)
Definition credentials_ok (c : option (bytes * bytes)) : Prop :=
  match c with Some (login, password) => accepts word 0 login = true /\ accepts word 0 password = true | None => True end.
Definition address_ok (a : address) : Prop :=
  match a with
  | Tcp host port => accepts word 0 host = true /\ accepts digits 0 port = true /\ (length host < URI_MAXHOST)%nat /\ (length port < URI_MAXSERVICE)%nat
  | Sock path => accepts abs_path 0 path = true /\ (length path < URI_MAXSERVICE)%nat
  end.

(** The text of a range. *)
Definition text (str : bytes) (r : range) : option bytes := match r with Some (off, len) => slice off len str | None => None end.

Definition address_found (str : bytes) (a : address) (u : uri) : Prop :=
  match a with
  | Tcp host port =>
      (host_hint u = URI_NAME \/ host_hint u = URI_IPV4) /\
      (exists r, uri_host u = HostAt r /\ text str r = Some host) /\
      exists off, uri_service u = Some (off, length port) /\ drop off str = port
  | Sock path => host_hint u = URI_UNIX /\ uri_host u = HostUnix /\ text str (uri_service u) = Some path
  end.

Lemma accepts_nonzero L k bs : accepts L k bs = true -> Forall (fun c => c <> 0) bs.
Proof.
  revert k. induction bs as [|c bs IH]; intros k H; [apply Forall_nil_2|]. cbn [accepts] in H. apply andb_prop in H as [Hc H].
  destruct (delta L k c) as [k'|]; [|done]. apply Forall_cons. split; [|by eapply IH]. intros ->. done.
Qed.

(** The parts of a concatenation. *)
Lemma text_part bss i bs :
  bss !! i = Some bs -> text (concat bss) (inst_range (offset bss) (Some (i, S i))) = Some bs.
Proof.
  intros H. cbn. rewrite (offset_S _ _ _ H), Nat.add_comm, Nat.add_sub. unfold offset. set (pre := concat (take i bss)).
  assert (concat bss = pre ++ bs ++ concat (drop (S i) bss)) as ->.
  { unfold pre. rewrite <- (take_drop_middle bss i bs H) at 1. by rewrite concat_app. }
  unfold slice. rewrite !length_app, decide_True by lia. by rewrite drop_app_length, take_app_length.
Qed.

Lemma drop_part bss i bs : bss !! i = Some bs -> drop (offset bss i) (concat bss) = concat (drop i bss).
Proof. intros H. unfold offset. rewrite <- (take_drop i bss) at 2. by rewrite concat_app, drop_app_length. Qed.

Lemma parsed Ls us bss :
  outcomes Ls = Some us -> Forall2 (fun L bs => accepts L 0 bs = true) Ls bss -> concat bss <> [] ->
  exists u cs, u ∈ us /\ uri_first_final <= cs /\ uri_parse (concat bss ++ [0]) = Some (finish cs (inst_uri (offset bss) u)).
Proof.
  intros E Hacc Hne. destruct (outcomes_ok Ls us bss E Hacc) as (u & cs & v & Hu & Hcs & Hrun & Hv).
  exists u, cs. split; [done|]. split; [done|]. rewrite <- Hv. apply uri_parse_run; [|done|done].
  clear -Hacc. induction Hacc as [|L bs Ls bss H _ IH]; cbn [concat]; [apply Forall_nil_2|].
  apply Forall_app. split; [by eapply accepts_nonzero|done].
Qed.

(** What the parser leaves for each of the four forms; [i] is the number of the
    first part of the address. *)
Definition tcp_uri (login password : range) (i : nat) (hint : uri_host_hint) : uri :=
  Uri None login password (HostAt (Some (i, S i))) (Some (S (S i), S (S (S i)))) (Some (S (S (S i)), S (S (S i)))) None None hint.
Definition sock_uri (login password : range) (i : nat) : uri :=
  Uri None login password HostUnix (Some (i, S i)) None None None URI_UNIX.
Definition login_langs : list lang := [word; lit 58; word; lit 64].
Definition login_range : range := Some (0%nat, 1%nat).
Definition password_range : range := Some (2%nat, 3%nat).

Lemma tcp_outcomes : outcomes [word; lit 58; digits] = Some [tcp_uri None None 0 URI_IPV4; tcp_uri None None 0 URI_NAME].
Proof. vm_compute. reflexivity. Qed.
Lemma login_tcp_outcomes : outcomes (login_langs ++ [word; lit 58; digits])
  = Some [tcp_uri login_range password_range 4 URI_IPV4; tcp_uri login_range password_range 4 URI_NAME].
Proof. vm_compute. reflexivity. Qed.
Lemma sock_outcomes : outcomes [abs_path] = Some [sock_uri None None 0].
Proof. vm_compute. reflexivity. Qed.
Lemma login_sock_outcomes : outcomes (login_langs ++ [abs_path]) = Some [sock_uri login_range password_range 4].
Proof. vm_compute. reflexivity. Qed.

Lemma inst_part bss i bs : bss !! i = Some bs -> inst_range (offset bss) (Some (i, S i)) = Some (offset bss i, length bs).
Proof. intros H. cbn. rewrite (offset_S _ _ _ H). do 2 f_equal. lia. Qed.

Lemma clip_path_empty u : range_len (uri_path u) = 0%nat -> clip_path u = set_path None u.
Proof. intros H. unfold clip_path. by rewrite decide_True. Qed.
Lemma clip_service_id u : range_len (uri_service u) <> 0%nat -> clip_service u = u.
Proof. intros H. unfold clip_service. by rewrite decide_False. Qed.
Lemma check_lengths_ok cs u :
  uri_first_final <= cs -> (host_len u < URI_MAXHOST)%nat -> (range_len (uri_service u) < URI_MAXSERVICE)%nat -> check_lengths cs u = (0, u).
Proof. intros H1 H2 H3. unfold check_lengths. rewrite decide_False by lia. rewrite decide_False by lia. by rewrite decide_True. Qed.

Lemma finish_tcp bss cs login password i hint host port :
  uri_first_final <= cs -> bss !! i = Some host -> bss !! S (S i) = Some port -> port <> [] ->
  (length host < URI_MAXHOST)%nat -> (length port < URI_MAXSERVICE)%nat ->
  finish cs (inst_uri (offset bss) (tcp_uri login password i hint)) =
    (0, Uri None (inst_range (offset bss) login) (inst_range (offset bss) password) (HostAt (inst_range (offset bss) (Some (i, S i))))
          (inst_range (offset bss) (Some (S (S i), S (S (S i))))) None None None hint).
Proof.
  intros Hcs Hh Hp Hne Hlh Hlp. unfold finish, tcp_uri, inst_uri. cbn [uri_path uri_service uri_scheme uri_login uri_password uri_host uri_query uri_fragment host_hint inst_host].
  rewrite (inst_part _ _ _ Hh), (inst_part _ _ _ Hp). rewrite clip_path_empty by (cbn; lia). rewrite clip_service_id by (by destruct port).
  by apply check_lengths_ok.
Qed.

Lemma finish_sock bss cs login password i path :
  uri_first_final <= cs -> bss !! i = Some path -> path <> [] -> (length path < URI_MAXSERVICE)%nat ->
  finish cs (inst_uri (offset bss) (sock_uri login password i)) =
    (0, Uri None (inst_range (offset bss) login) (inst_range (offset bss) password) HostUnix
          (inst_range (offset bss) (Some (i, S i))) None None None URI_UNIX).
Proof.
  intros Hcs Hp Hne Hlp. unfold finish, sock_uri, inst_uri. cbn [uri_path uri_service uri_scheme uri_login uri_password uri_host uri_query uri_fragment host_hint inst_host].
  rewrite (inst_part _ _ _ Hp). rewrite clip_path_empty by done. rewrite clip_service_id by (by destruct path).
  apply check_lengths_ok; [done| |done]. vm_compute. lia.
Qed.

(** The parts of a URI in the documented format. *)
Definition login_parts (c : option (bytes * bytes)) : list bytes :=
  match c with Some (login, password) => [login; [58]; password; [64]] | None => [] end.
Definition address_parts (a : address) : list bytes := match a with Tcp host port => [host; [58]; port] | Sock path => [path] end.

Lemma render_parts c a : concat (login_parts c ++ address_parts a) = render c a.
Proof.
  rewrite concat_app. unfold render. f_equal; [destruct c as [[]|]|destruct a]; cbn [login_parts address_parts concat]; by rewrite ?app_nil_r, <- ?app_assoc.
Qed.

Definition address_langs (a : address) : list lang := match a with Tcp _ _ => [word; lit 58; digits] | Sock _ => [abs_path] end.

Lemma render_accepts c a :
  credentials_ok c -> address_ok a ->
  Forall2 (fun L bs => accepts L 0 bs = true) (match c with Some _ => login_langs | None => [] end ++ address_langs a) (login_parts c ++ address_parts a).
Proof.
  intros Hc Ha. apply Forall2_app.
  - destruct c as [[login password]|]; [destruct Hc|]; repeat (apply Forall2_cons; split; [done|]); by apply Forall2_nil.
  - destruct a; destruct Ha as [? ?]; repeat (apply Forall2_cons; split; [by intuition|]); by apply Forall2_nil.
Qed.

Lemma accepts_nonempty L bs : accepts L 0 bs = true -> final L 0 = false -> bs <> [].
Proof. intros H H0 ->. cbn in H. congruence. Qed.

Lemma text_inv str r bs : text str r = Some bs ->
  exists off, r = Some (off, length bs) /\ (off + length bs <= length str)%nat /\ take (length bs) (drop off str) = bs.
Proof.
  unfold text, slice. destruct r as [[off len]|]; [|done]. case_decide as Hl; [|done]. intros [= <-]. exists off.
  rewrite length_take, length_drop. rewrite Nat.min_l by lia. done.
Qed.

(** What the parser finds in a URI of these formats. *)
Record uri_found (c : option (bytes * bytes)) (a : address) (u : uri) : Prop := {
  uf_login : text (render c a) (uri_login u) = fst <$> c;
  uf_password : text (render c a) (uri_password u) = snd <$> c;
  uf_address : address_found (render c a) a u;
  uf_rest : uri_scheme u = None /\ uri_path u = None /\ uri_query u = None /\ uri_fragment u = None;
}.

Lemma formats_ok c a : credentials_ok c -> address_ok a -> exists u, uri_parse (render c a ++ [0]) = Some (0, u) /\ uri_found c a u.
Proof.
  intros Hc Ha. pose proof (render_accepts c a Hc Ha) as Hacc.
  enough (exists u, uri_parse (render c a ++ [0]) = Some (0, u) /\ text (render c a) (uri_login u) = fst <$> c /\
    text (render c a) (uri_password u) = snd <$> c /\ address_found (render c a) a u /\
    uri_scheme u = None /\ uri_path u = None /\ uri_query u = None /\ uri_fragment u = None) as (u & ? & ? & ? & ? & ?) by (by exists u).
  rewrite <- render_parts. set (bss := login_parts c ++ address_parts a) in *.
  set (i := length (login_parts c)). assert (forall j, bss !! (i + j)%nat = address_parts a !! j) as Hi.
  { intros j. unfold bss, i. rewrite lookup_app_r by lia. f_equal. lia. }
  assert (outcomes (match c with Some _ => login_langs | None => [] end ++ address_langs a) =
    Some (let lo := match c with Some _ => login_range | None => None end in let pa := match c with Some _ => password_range | None => None end in
      match a with Tcp _ _ => [tcp_uri lo pa i URI_IPV4; tcp_uri lo pa i URI_NAME] | Sock _ => [sock_uri lo pa i] end)) as E.
  { destruct c as [[]|], a; [apply login_tcp_outcomes|apply login_sock_outcomes|apply tcp_outcomes|apply sock_outcomes]. }
  assert (concat bss <> []) as Hne.
  { unfold bss. rewrite concat_app. intros [_ H]%app_nil. destruct a as [h p|p]; [by destruct h|]. cbn in H. rewrite app_nil_r in H.
    destruct Ha as [Hp _]. by apply accepts_nonempty in Hp. }
  destruct (parsed _ _ _ E Hacc Hne) as (u & cs & Hu & Hcs & ->). clear E Hacc Hne.
  set (lo := match c with Some _ => login_range | None => None end) in *. set (pa := match c with Some _ => password_range | None => None end) in *.
  assert (text (concat bss) (inst_range (offset bss) lo) = fst <$> c) as Hlo by (by destruct c as [[]|]; [apply text_part|]).
  assert (text (concat bss) (inst_range (offset bss) pa) = snd <$> c) as Hpa by (by destruct c as [[]|]; [apply text_part|]).
  pose proof (Hi 0%nat) as Hi0. rewrite Nat.add_0_r in Hi0. destruct a as [host port|path].
  - destruct Ha as (Hh & Hp & Hlh & Hlp). pose proof (Hi 2%nat) as Hi2. replace (i + 2)%nat with (S (S i)) in Hi2 by lia.
    assert (exists hint, u = tcp_uri lo pa i hint /\ (hint = URI_NAME \/ hint = URI_IPV4)) as (hint & -> & Hhint).
    { apply elem_of_cons in Hu as [->|Hu]; [eauto|]. apply list_elem_of_singleton in Hu as ->. eauto. }
    rewrite (finish_tcp bss cs lo pa i hint host port) by (done || by eapply accepts_nonempty). eexists. split; [reflexivity|].
    split; [done|]. split; [done|]. split; [|done]. split; [done|]. split; [eexists; split; [reflexivity|by apply text_part]|].
    exists (offset bss (S (S i))). split; [by apply inst_part|]. rewrite (drop_part _ _ _ Hi2). unfold bss, i.
    replace (S (S (length (login_parts c)))) with (length (login_parts c) + 2)%nat by lia. rewrite drop_app_add. cbn. by rewrite app_nil_r.
  - destruct Ha as (Hp & Hlp). apply list_elem_of_singleton in Hu as ->.
    rewrite (finish_sock bss cs lo pa i path) by (done || by eapply accepts_nonempty). eexists. split; [reflexivity|].
    split; [done|]. split; [done|]. split; [|done]. split; [done|]. split; [done|]. by apply text_part.
Qed.

(** C34: a URI in one of the formats the header documents is parsed, to the
    parts it was written from: the login and the password, the host and the
    port, which goes on to the end of the string, or the path of the socket. *)
Theorem uri_parse_formats c a :
  credentials_ok c -> address_ok a -> exists u, uri_parse (render c a ++ [0]) = Some (0, u) /\ uri_found c a u.
Proof. apply formats_ok. Qed.

(** ** Examples and witnesses *)

(** "#f", "?q" and "@": [s] is [NULL]. *)
Example null_subtraction : uri_parse [35; 102; 0] = None /\ uri_parse [63; 113; 0] = None /\ uri_parse [64; 0] = None.
Proof. vm_compute. done. Qed.

(** "u:p@h:99" *)
Definition demo_uri : bytes := [117; 58; 112; 64; 104; 58; 57; 57].

Lemma uri_parse_correct_witness : exists u, uri_parse (demo_uri ++ 0 :: [7]) = Some (0, u) /\ uri_in 8 u /\ (host_len u < URI_MAXHOST)%nat.
Proof.
  destruct (uri_parse_correct demo_uri [7]) as (rc & u & E & _ & Hin & Hok & _).
  - repeat (apply Forall_cons; split; [split; [split; [discriminate|reflexivity]|discriminate]|]). apply Forall_nil_2.
  - intros c l [= <- <-]. reflexivity.
  - assert (fst <$> uri_parse (demo_uri ++ 0 :: [7]) = Some 0) as H by (vm_compute; reflexivity). rewrite E in H. injection H as ->.
    exists u. split; [exact E|]. split; [exact Hin|]. by apply Hok.
Defined.

Lemma uri_parse_formats_witness : exists u, uri_parse (demo_uri ++ [0]) = Some (0, u) /\ uri_found (Some ([117], [112])) (Tcp [104] [57; 57]) u.
Proof.
  apply (uri_parse_formats (Some ([117], [112])) (Tcp [104] [57; 57])).
  - by split.
  - split; [done|]. split; [done|]. unfold URI_MAXHOST, URI_MAXSERVICE. simpl. lia.
Defined.
