(* ===== verification/Stream.v ===== *)
(** * tnt/tnt_stream.c and include/tarantool/tnt_stream.h: the stream object

    [stream T] is [struct tnt_stream] with subclass data of type [T].  The
    function pointers of the C struct are the operations of the class [Sink]:
    what the request encoders need of any stream they write to. *)

From S2P Require Import Prelude Mem.

Record stream (T : Type) := Stream {
  st_alloc : bool;         (** allocation mark *)
  st_wrcnt : Z;            (** [uint32_t]: count of write operations *)
  st_reqid : Z;            (** [uint64_t]: request id of current operation *)
  st_data : option T;      (** subclass data; [None] is [NULL] *)
  st_mem : malloc_state;   (** the coming decisions of the allocator *)
}.
Arguments Stream {T}.
Arguments st_alloc {T}. Arguments st_wrcnt {T}. Arguments st_reqid {T}.
Arguments st_data {T}. Arguments st_mem {T}.

Section stream.
Context {T : Type}.

Definition set_reqid (n : Z) (s : stream T) : stream T :=
  Stream (st_alloc s) (st_wrcnt s) n (st_data s) (st_mem s).
Definition set_wrcnt (n : Z) (s : stream T) : stream T :=
  Stream (st_alloc s) n (st_reqid s) (st_data s) (st_mem s).
Definition set_data (d : option T) (s : stream T) : stream T :=
  Stream (st_alloc s) (st_wrcnt s) (st_reqid s) d (st_mem s).
Definition set_mem (m : malloc_state) (s : stream T) : stream T :=
  Stream (st_alloc s) (st_wrcnt s) (st_reqid s) (st_data s) m.

(** [tnt_stream_reqid]: the parameter, the local [old] and the result are
    [uint32_t]. *)
Definition tnt_stream_reqid (s : stream T) (reqid : Z) : Z * stream T :=
  let old := u32 (st_reqid s) in
  (old, set_reqid (u32 reqid) s).

(** [tnt_stream_init s]: [given] is the caller's struct, absent for [NULL]. *)
Definition tnt_stream_init (given : bool) (m : malloc_state) : option (stream T) :=
  if given then Some (Stream false 0 0 None m)
  else match pop m with
       | (Refuse, _) => None
       | (Grant _, m) => Some (Stream true 0 0 None m)
       end.

(** [tnt_stream_free]: [free] is the destructor of the subclass.  [Some None]:
    the struct itself was heap-allocated and is gone. *)
Definition tnt_stream_free (free : option (stream T -> option (stream T)))
    (s : option (stream T)) : option (option (stream T)) :=
  match s with
  | None => Some None
  | Some s =>
      s ← match free with Some f => f s | None => Some s end;
      Some (if st_alloc s then None else Some s)
  end.

(** Incrementing a [uint32_t] / [uint64_t] field. *)
Definition wrcnt_incr (s : stream T) : stream T := set_wrcnt (u32 (st_wrcnt s + 1)) s.
Definition reqid_incr (s : stream T) : stream T := set_reqid (u64 (st_reqid s + 1)) s.

End stream.

(** The allocator grants every request the stream will make. *)
Definition granted {T} (s : stream T) : Prop := Refuse ∉ st_mem s.

Lemma pop_granted m a m' : pop m = (a, m') -> Refuse ∉ m -> a <> Refuse /\ Refuse ∉ m'.
Proof. destruct m as [|[|junk] m]; simpl; intros; inv_opt; set_solver. Qed.

(** ** The writing interface of a stream

    [sk_writev s iov] is [s->writev(s, iov, |iov|)]: the [ssize_t] result and
    the new stream, or [None] for undefined behaviour.  [sk_written] is the
    byte string the stream has accepted so far. *)
Class Sink (T : Type) := {
  sk_writev : stream T -> list bytes -> option (Z * stream T);
  sk_written : stream T -> bytes;
  sk_ok : stream T -> Prop;
  (** no write on the stream will fail *)
  sk_sure : stream T -> Prop;
}.

(** What a stream promises to the encoders: a write is defined; it either
    fails with -1 or appends exactly the bytes of the io vector, in order, and
    returns their number.  It does not touch the request id. *)
Class SinkSpec (T : Type) `{Sink T} : Prop := {
  sk_writev_spec s iov : sk_ok s -> concat iov <> [] ->
    exists r s', sk_writev s iov = Some (r, s') /\ st_reqid s' = st_reqid s /\
      (sk_sure s -> r <> -1 /\ sk_sure s') /\
      (r = -1 \/
       (r = zlen (concat iov) /\ sk_ok s' /\ sk_written s' = sk_written s ++ concat iov));
  sk_reqid_ok s n : sk_ok s -> sk_ok (set_reqid n s);
  sk_reqid_sure s n : sk_sure s -> sk_sure (set_reqid n s);
  sk_reqid_written s n : sk_written (set_reqid n s) = sk_written s;
}.
Arguments SinkSpec T {_}.
