(* ===== verification/Buf.v ===== *)
(** * tnt/tnt_buf.c: the memory buffer stream

    State: [core] (the [data], [size], [alloc] and [rdoff] fields of
    [struct tnt_stream_buf]) inside [sbuf], which adds the [resize] function
    pointer, the subclass data and the [as] mark.  [tnt_object] (Object.v)
    replaces the [resize] pointer: the theorems about writing hold for every
    function that meets [ResizeSpec]. *)

From S2P Require Import Prelude Mem Stream.

Record core := Core { data : ptr; size : nat; alloc : nat; rdoff : nat }.

(** A [resize] callback: the offset in [data] of the reserved space, [None]
    for [NULL]. *)
Definition resize_fn := core -> malloc_state -> nat -> option (option nat * core * malloc_state).

Record sbuf (D : Type) := Sbuf {
  sb_core : core;
  sb_resize : resize_fn;
  sb_subdata : option D;
  sb_as : bool;           (** constructed from user's string *)
}.
Arguments Sbuf {D}. Arguments sb_core {D}. Arguments sb_resize {D}.
Arguments sb_subdata {D}. Arguments sb_as {D}.

Definition set_core {D} (c : core) (sb : sbuf D) : sbuf D :=
  Sbuf c (sb_resize sb) (sb_subdata sb) (sb_as sb).
Definition set_subdata {D} (d : option D) (sb : sbuf D) : sbuf D :=
  Sbuf (sb_core sb) (sb_resize sb) d (sb_as sb).

(** [tnt_buf_resize] *)
Definition tnt_buf_resize : resize_fn := fun sb m size_ =>
  let off := size sb in
  let nsize := (off + size_)%nat in
  let '(a, m) := pop m in
  '(nd, old) ← tnt_mem_realloc custom_realloc a (data sb) nsize;
  match nd with
  | PNull =>
      old ← tnt_mem_free custom_realloc old;
      Some (None, Core old (size sb) (alloc sb) (rdoff sb), m)
  | _ => Some (Some off, Core nd (size sb) nsize (rdoff sb), m)
  end.

(** The body of [memcpy(p, iov[i].iov_base, iov[i].iov_len); p += iov_len]
    over the io vector. *)
Fixpoint copy_iov (p : ptr) (off : nat) (iov : list bytes) : option ptr :=
  match iov with
  | [] => Some p
  | v :: iov => p ← store p off v; copy_iov p (off + length v) iov
  end.

Section buf.
Context {D : Type}.
Implicit Types (s : stream (sbuf D)).

(** [TNT_SBUF_DATA(s)] with [TNT_SBUF_SIZE(s)]: the bytes the pair denotes,
    [Some None] for a [NULL] data pointer. *)
Definition TNT_SBUF_DATA s : option (option bytes) :=
  sb ← st_data s;
  match data (sb_core sb) with
  | PNull => Some None
  | PHeap b | PUser b => Some <$> slice 0 (size (sb_core sb)) b
  | PDangling => None
  end.

(** [tnt_buf_writev] *)
Definition tnt_buf_writev s (iov : list bytes) : option (Z * stream (sbuf D)) :=
  sb ← st_data s;
  if sb_as sb then Some (-1, s) else
  let n := sum_list (length <$> iov) in
  '(p, c, m) ← sb_resize sb (sb_core sb) (st_mem s) n;
  let s := set_mem m (set_data (Some (set_core c sb)) s) in
  match p with
  | None => Some (-1, s)
  | Some off =>
      d ← copy_iov (data c) off iov;
      let c := Core d (size c + n) (alloc c) (rdoff c) in
      Some (Z.of_nat n, wrcnt_incr (set_data (Some (set_core c sb)) s))
  end.

(** [tnt_buf_write] *)
Definition tnt_buf_write s (buf : bytes) : option (Z * stream (sbuf D)) :=
  sb ← st_data s;
  if sb_as sb then Some (-1, s) else
  '(p, c, m) ← sb_resize sb (sb_core sb) (st_mem s) (length buf);
  let s := set_mem m (set_data (Some (set_core c sb)) s) in
  match p with
  | None => Some (-1, s)
  | Some off =>
      d ← store (data c) off buf;
      let c := Core d (size c + length buf) (alloc c) (rdoff c) in
      Some (zlen buf, wrcnt_incr (set_data (Some (set_core c sb)) s))
  end.

(** [tnt_buf_read]: [memcpy(sb->data + sb->rdoff, buf, size)].  The caller's
    block [buf] is the source; it is also returned, as the caller sees it
    after the call. *)
Definition tnt_buf_read s (buf : bytes) (size_ : nat)
    : option (Z * bytes * stream (sbuf D)) :=
  sb ← st_data s;
  let c := sb_core sb in
  match data c with
  | PNull => Some (0, buf, s)
  | _ =>
      if decide (size c = rdoff c) then Some (0, buf, s) else
      let avail := (size c - rdoff c)%nat in
      let n := if decide (avail < size_)%nat then avail else size_ in
      src ← slice 0 n buf;
      d ← store (data c) (rdoff c) src;
      let c := Core d (size c) (alloc c) (rdoff c + n) in
      Some (Z.of_nat n, buf, set_data (Some (set_core c sb)) s)
  end.

(** [tnt_buf_free]; [free] is the [sb->free] callback on the subclass data. *)
Definition tnt_buf_free (free : option (D -> option unit)) s : option (stream (sbuf D)) :=
  sb ← st_data s;
  _ ← (if negb (sb_as sb) && bool_decide (data (sb_core sb) <> PNull)
       then tnt_mem_free custom_realloc (data (sb_core sb)) else Some PNull);
  _ ← match free with
      | Some f => d ← sb_subdata sb; f d
      | None => Some tt
      end;
  Some (set_data None s).

(** [tnt_buf]: [given] tells whether the caller passed a stream. *)
Definition tnt_buf (given : bool) (m : malloc_state) : option (stream (sbuf D)) :=
  s ← tnt_stream_init given m;
  match pop (st_mem s) with
  | (Refuse, _) => None
  | (Grant _, m) =>
      Some (set_mem m (set_data (Some (Sbuf (Core PNull 0 0 0) tnt_buf_resize None false)) s))
  end.

(** [tnt_buf_as] on the stream [s] ([None]: a new one) over the caller's [buf]. *)
Definition tnt_buf_as (s : option (stream (sbuf D))) (buf : bytes) (buf_len : nat)
    (m : malloc_state) : option (stream (sbuf D)) :=
  s ← match s with None => tnt_buf false m | Some s => Some s end;
  sb ← st_data s;
  Some (set_data (Some (Sbuf (Core (PUser buf) buf_len buf_len (rdoff (sb_core sb)))
                             (sb_resize sb) (sb_subdata sb) true)) s).

End buf.

(** ** Invariant and contract *)

(** The bytes written so far. *)
Definition contents (c : core) : bytes :=
  match block_of (data c) with Some b => take (size c) b | None => [] end.

(** The data pointer is live, [alloc] is the size of its block and [size],
    [rdoff] are offsets in it. *)
Definition core_ok (c : core) : Prop :=
  (rdoff c <= size c <= alloc c)%nat /\
  match data c with
  | PNull => alloc c = O
  | PHeap b => length b = alloc c
  | PUser _ | PDangling => False
  end.

(** What the buffer needs of a [resize] callback: it is defined, and either
    gives up without a live block, or reserves [n] bytes at the end of the
    contents, which it preserves. *)
Class ResizeSpec (f : resize_fn) : Prop :=
  resize_spec c m n : core_ok c -> (0 < n)%nat ->
    exists p c' m', f c m n = Some (p, c', m') /\ size c' = size c /\ rdoff c' = rdoff c /\
      (Refuse ∉ m -> p <> None /\ Refuse ∉ m') /\
      match p with
      | None => data c' = PNull \/ data c' = PDangling
      | Some off => off = size c /\ core_ok c' /\ (exists b, data c' = PHeap b) /\
                    (size c + n <= alloc c')%nat /\ contents c' = contents c
      end.

(** The stream is a live buffer of its own. *)
Definition buf_ok {D} (s : stream (sbuf D)) : Prop :=
  exists sb, st_data s = Some sb /\ core_ok (sb_core sb) /\ sb_as sb = false /\
    ResizeSpec (sb_resize sb).

Definition buf_contents {D} (s : stream (sbuf D)) : bytes :=
  match st_data s with Some sb => contents (sb_core sb) | None => [] end.

(** ** Lemmas *)

#[export] Instance tnt_buf_resize_spec : ResizeSpec tnt_buf_resize.
Proof.
  intros [d sz al rd] m n [Hb Hd] Hn. unfold tnt_buf_resize, core_ok, contents in *. simpl in *.
  destruct (pop m) as [a m'] eqn:Ep. unfold tnt_mem_realloc, custom_realloc.
  destruct d as [|b|b|]; try done; rewrite decide_False by lia; destruct a as [|junk]; simpl;
    do 3 eexists; (repeat split; simpl; eauto; try (by destruct (pop_granted _ _ _ Ep ltac:(eassumption)))); len.
  - assert (sz = 0)%nat as -> by lia. done.
  - by rewrite take_resize_le, resize_app_le, resize_le by lia.
Qed.

Lemma sum_length_concat (iov : list bytes) : sum_list (length <$> iov) = length (concat iov).
Proof. induction iov as [|v iov IH]; csimpl; [done|]. rewrite IH. len. Qed.

(** Copying an io vector is storing its concatenation. *)
Lemma copy_iov_concat b off iov :
  (off + length (concat iov) <= length b)%nat ->
  copy_iov (PHeap b) off iov = store (PHeap b) off (concat iov).
Proof.
  revert b off; induction iov as [|v iov IH]; intros b off H; simpl copy_iov; simpl concat in *.
  - rewrite store_heap by done. simpl. rewrite Nat.add_0_r, take_drop. done.
  - rewrite length_app in H. rewrite !store_heap by len. simpl. rewrite IH by len.
    rewrite store_heap by len. do 2 f_equal.
    rewrite (app_assoc (take off b) v), take_app_length', drop_app_ge by len.
    rewrite <- !app_assoc, drop_drop. do 4 f_equal. len.
Qed.

(** The contents after a store at their end. *)
Lemma contents_store b n al rd bs :
  (n + length bs <= length b)%nat ->
  contents (Core (PHeap (take n b ++ bs ++ drop (n + length bs) b)) (n + length bs) al rd)
    = take n b ++ bs.
Proof. intros H. unfold contents. simpl. rewrite app_assoc, take_app_length'; len. done. Qed.

Section buf_spec.
Context {D : Type}.
Implicit Types (s : stream (sbuf D)).

(** [s'] differs from [s] at most in the buffer core and the counters. *)
Definition same_frame s s' : Prop :=
  st_reqid s' = st_reqid s /\ st_alloc s' = st_alloc s /\
  exists sb c, st_data s = Some sb /\ st_data s' = Some (set_core c sb).

(** The outcome of a write of [bs] to the stream [s]. *)
Definition write_post s (bs : bytes) (r : Z) s' : Prop :=
  same_frame s s' /\ (granted s -> r <> -1 /\ granted s') /\
  (r = -1 \/
   (r = zlen bs /\ buf_ok s' /\ buf_contents s' = buf_contents s ++ bs /\
    st_wrcnt s' = u32 (st_wrcnt s + 1))).

Lemma set_core_set_core c c' (sb : sbuf D) : set_core c (set_core c' sb) = set_core c sb.
Proof. done. Qed.

(** A write after a successful reservation. *)
Lemma buf_store_ok s sb c m (bs : bytes) b :
  st_data s = Some sb -> ResizeSpec (sb_resize sb) -> sb_as sb = false ->
  core_ok c -> data c = PHeap b -> (size c + length bs <= alloc c)%nat ->
  contents c = contents (sb_core sb) -> (granted s -> Refuse ∉ m) ->
  exists d, store (data c) (size c) bs = Some d /\
    write_post s bs (zlen bs)
      (wrcnt_incr (set_data (Some (set_core (Core d (size c + length bs) (alloc c) (rdoff c)) sb))
        (set_mem m (set_data (Some (set_core c sb)) s)))).
Proof.
  intros Hs HR Has [Hb Hd] Eb Hal Hc Hm. rewrite Eb in *. rewrite store_heap by lia.
  eexists; split; [done|]. split; [split; [done|split; [done|by eauto]]|].
  split; [intros Hg; split; [len|by apply Hm]|].
  right. split; [done|]. split; [|split; [|done]].
  - eexists. split; [done|]. simpl. repeat split; auto; simpl; len.
  - unfold buf_contents. simpl. rewrite Hs, <- Hc. rewrite contents_store by lia.
    unfold contents. by rewrite Eb.
Qed.

(** A write whose reservation fails. *)
Lemma buf_refused s sb c m (bs : bytes) :
  st_data s = Some sb -> ~ granted s ->
  write_post s bs (-1) (set_mem m (set_data (Some (set_core c sb)) s)).
Proof.
  intros Hs Hg. split; [split; [done|split; [done|by eauto]]|]. split; [done|]. by left.
Qed.

Lemma tnt_buf_writev_spec s iov :
  buf_ok s -> concat iov <> [] ->
  exists r s', tnt_buf_writev s iov = Some (r, s') /\ write_post s (concat iov) r s'.
Proof.
  intros (sb & Hs & Hc & Has & HR) Hne. unfold tnt_buf_writev. rewrite Hs. simpl. rewrite Has.
  rewrite sum_length_concat.
  destruct (HR (sb_core sb) (st_mem s) (length (concat iov))) as (p & c & m & E & Esz & Erd & Hm & Hp);
    [done | by destruct (concat iov); [|simpl; lia] |].
  rewrite E. simpl. destruct p as [off|].
  2: { do 2 eexists; split; [done|]. apply buf_refused; [done|]. intros Hg. by destruct (Hm Hg). }
  destruct Hp as (-> & Hok & [b Eb] & Hal & Hco).
  destruct (buf_store_ok s sb c m (concat iov) b) as (d & Ed & Hw); try done; [lia|by intros Hg; destruct (Hm Hg)|].
  exists (zlen (concat iov)). rewrite Eb, copy_iov_concat, <- Eb, <- Esz, Ed by
    (destruct Hok as [Hok1 Hok2]; rewrite Eb in Hok2; lia).
  eexists. split; [done|]. done.
Qed.

Lemma tnt_buf_write_spec s bs :
  buf_ok s -> bs <> [] ->
  exists r s', tnt_buf_write s bs = Some (r, s') /\ write_post s bs r s'.
Proof.
  intros (sb & Hs & Hc & Has & HR) Hne. unfold tnt_buf_write. rewrite Hs. simpl. rewrite Has.
  destruct (HR (sb_core sb) (st_mem s) (length bs)) as (p & c & m & E & Esz & Erd & Hm & Hp);
    [done | by destruct bs; [|simpl; lia] |].
  rewrite E. simpl. destruct p as [off|].
  2: { do 2 eexists; split; [done|]. apply buf_refused; [done|]. intros Hg. by destruct (Hm Hg). }
  destruct Hp as (-> & Hok & [b Eb] & Hal & Hco).
  destruct (buf_store_ok s sb c m bs b) as (d & Ed & Hw); try done; [lia|by intros Hg; destruct (Hm Hg)|].
  exists (zlen bs). rewrite <- Esz, Ed. eexists. split; [done|]. done.
Qed.

End buf_spec.

(** A buffer stream is a sink. *)
#[export] Instance sbuf_sink D : Sink (sbuf D) := {
  sk_writev := tnt_buf_writev; sk_written := buf_contents; sk_ok := buf_ok;
  sk_sure := granted
}.

#[export] Instance sbuf_sink_spec D : SinkSpec (sbuf D).
Proof.
  split; simpl; try done.
  intros s iov Hok Hne. destruct (tnt_buf_writev_spec s iov Hok Hne) as (r & s' & E & [Hr _] & Hg & H).
  exists r, s'. split; [done|]. split; [done|]. split; [done|].
  destruct H as [->|(-> & ? & ? & _)]; auto 10.
Qed.

(** ** Reading and the failure of an allocation *)

(** Overwriting bytes inside a prefix. *)
Lemma take_overwrite (off n : nat) (x b : bytes) :
  (off + length x <= n <= length b)%nat ->
  take n (take off b ++ x ++ drop (off + length x) b)
    = take off (take n b) ++ x ++ drop (off + length x) (take n b).
Proof.
  intros H. rewrite <- (take_drop n b) at 1 2.
  assert (length (take n b) = n) as E by len. revert E. generalize (take n b), (drop n b). intros p q E.
  rewrite (take_app_le p q off), (drop_app_le p q) by lia. set (D := drop _ p).
  replace (take off p ++ x ++ D ++ q) with ((take off p ++ x ++ D) ++ q) by (by rewrite <- !app_assoc).
  apply take_app_length'. unfold D. len.
Qed.

Section buf_findings.
Context {D : Type}.
Implicit Types (s : stream (sbuf D)).

(** Reading from a buffer copies the wrong way round: [tnt_buf_read]
    leaves the caller's memory as it was, overwrites the unread contents of
    the stream with the caller's bytes, and reports them as read. *)
Theorem tnt_buf_read_overwrites s sb b buf size_ :
  st_data s = Some sb -> core_ok (sb_core sb) -> data (sb_core sb) = PHeap b ->
  (rdoff (sb_core sb) < size (sb_core sb))%nat -> (size_ <= length buf)%nat ->
  exists s', let n := Nat.min (size (sb_core sb) - rdoff (sb_core sb)) size_ in
    tnt_buf_read s buf size_ = Some (Z.of_nat n, buf, s') /\
    buf_contents s' = take (rdoff (sb_core sb)) (buf_contents s) ++ take n buf ++
                      drop (rdoff (sb_core sb) + n) (buf_contents s).
Proof.
  intros Hs [Hb Hd] Ed Hlt Hbuf. unfold tnt_buf_read, buf_contents, contents. rewrite Hs. simpl.
  rewrite Ed in *. destruct (decide (size _ = rdoff _)); [lia|].
  assert ((if decide (size (sb_core sb) - rdoff (sb_core sb) < size_)%nat
    then (size (sb_core sb) - rdoff (sb_core sb))%nat else size_)
    = Nat.min (size (sb_core sb) - rdoff (sb_core sb)) size_) as -> by (case_decide; lia).
  set (k := Nat.min _ _). assert (k <= size (sb_core sb) - rdoff (sb_core sb) /\ k <= size_)%nat as [Hk1 Hk2] by (unfold k; lia).
  unfold slice. rewrite decide_True by lia. simpl. rewrite drop_0, store_heap by len.
  simpl. eexists. split; [done|]. simpl. rewrite length_take, Nat.min_l by lia.
  fold k. rewrite <- (length_take_le buf k) at 2 4 by lia. apply take_overwrite; len.
Qed.

(** After a write that the allocator refused, freeing a buffer that held
    data frees its block a second time. *)
Theorem tnt_buf_free_after_refusal s sb b bs m :
  st_data s = Some sb -> sb_as sb = false -> data (sb_core sb) = PHeap b -> bs <> [] ->
  sb_resize sb = tnt_buf_resize -> st_mem s = Refuse :: m ->
  exists s', tnt_buf_write s bs = Some (-1, s') /\ tnt_buf_free None s' = None.
Proof.
  intros Hs Has Ed Hne HR Hm. unfold tnt_buf_write. rewrite Hs. simpl. rewrite Has, HR.
  unfold tnt_buf_resize. rewrite Hm. simpl. unfold tnt_mem_realloc, custom_realloc. rewrite Ed.
  rewrite decide_False by (destruct bs; [done|simpl; lia]). simpl.
  eexists. split; [done|]. unfold tnt_buf_free. simpl. by rewrite Has.
Qed.

End buf_findings.

(** A buffer of three bytes, none of them read yet. *)
Definition sample_buf (m : malloc_state) : stream (sbuf unit) :=
  Stream false 1 0 (Some (Sbuf (Core (PHeap [1; 2; 3]) 3 3 0) tnt_buf_resize None false)) m.

Lemma tnt_buf_read_overwrites_witness :
  exists s', tnt_buf_read (sample_buf []) [7; 8; 9] 2 = Some (2, [7; 8; 9], s') /\
    buf_contents s' = [7; 8; 3].
Proof.
  destruct (tnt_buf_read_overwrites (sample_buf []) _ [1; 2; 3] [7; 8; 9] 2 eq_refl)
    as (s' & E & Hs'); simpl; try reflexivity; try lia.
  - split; simpl; [lia | reflexivity].
  - exists s'. exact (conj E Hs').
Defined.

Lemma tnt_buf_free_after_refusal_witness :
  exists s', tnt_buf_write (sample_buf [Refuse]) [4] = Some (-1, s') /\ tnt_buf_free None s' = None.
Proof.
  apply (tnt_buf_free_after_refusal (sample_buf [Refuse]) _ [1; 2; 3] [4] [] eq_refl);
    reflexivity || discriminate.
Defined.

(** An empty buffer stream, as [tnt_buf] makes it. *)
Definition empty_buf : stream (sbuf unit) :=
  Stream false 0 0 (Some (Sbuf (Core PNull 0 0 0) tnt_buf_resize None false)) [].

Lemma empty_buf_ok : buf_ok empty_buf.
Proof. eexists. split; [reflexivity|]. repeat split; simpl; try lia. apply tnt_buf_resize_spec. Qed.

(** A buffer over the caller's [bs], as [tnt_buf_as] makes it. *)
Definition user_buf (bs : bytes) : stream (sbuf unit) :=
  Stream false 0 0 (Some (Sbuf (Core (PUser bs) (length bs) (length bs) 0) tnt_buf_resize None true)) [].
