(* ===== verification/Proto.v ===== *)
(** * include/tarantool/tnt_proto.h and tnt/tnt_proto_internal.h: the protocol

    The constants of the protocol as enumerations with their codes, the header
    encoder and the length prefix.  The specification part defines a packet on
    the wire ([packet]) and the decoder a server would run ([decode_packet]);
    decoding inverts encoding. *)

From S2P Require Import Prelude Msgpuck MsgpuckRef.

(** ** Constants *)

Inductive tnt_header_key_t :=
  | TNT_CODE | TNT_SYNC | TNT_SERVER_ID | TNT_LSN | TNT_TIMESTAMP | TNT_SCHEMA_ID.

#[export] Instance tnt_header_key_t_eq_dec : EqDecision tnt_header_key_t.
Proof. solve_decision. Defined.

Definition header_key_code (k : tnt_header_key_t) : Z :=
  match k with
  | TNT_CODE => 0x00 | TNT_SYNC => 0x01 | TNT_SERVER_ID => 0x02
  | TNT_LSN => 0x03 | TNT_TIMESTAMP => 0x04 | TNT_SCHEMA_ID => 0x05
  end.
Coercion header_key_code : tnt_header_key_t >-> Z.

Inductive tnt_body_key_t :=
  | TNT_SPACE | TNT_INDEX | TNT_LIMIT | TNT_OFFSET | TNT_ITERATOR | TNT_INDEX_BASE
  | TNT_KEY | TNT_TUPLE | TNT_FUNCTION | TNT_USERNAME | TNT_SERVER_UUID
  | TNT_CLUSTER_UUID | TNT_VCLOCK | TNT_EXPRESSION | TNT_OPS | TNT_SQL_TEXT | TNT_SQL_BIND.

Definition body_key_code (k : tnt_body_key_t) : Z :=
  match k with
  | TNT_SPACE => 0x10 | TNT_INDEX => 0x11 | TNT_LIMIT => 0x12 | TNT_OFFSET => 0x13
  | TNT_ITERATOR => 0x14 | TNT_INDEX_BASE => 0x15 | TNT_KEY => 0x20 | TNT_TUPLE => 0x21
  | TNT_FUNCTION => 0x22 | TNT_USERNAME => 0x23 | TNT_SERVER_UUID => 0x24
  | TNT_CLUSTER_UUID => 0x25 | TNT_VCLOCK => 0x26 | TNT_EXPRESSION => 0x27
  | TNT_OPS => 0x28 | TNT_SQL_TEXT => 0x40 | TNT_SQL_BIND => 0x41
  end.
Coercion body_key_code : tnt_body_key_t >-> Z.

Inductive tnt_response_type_t := TNT_OK | TNT_CHUNK.

Definition response_type_code (t : tnt_response_type_t) : Z :=
  match t with TNT_OK => 0x00 | TNT_CHUNK => 0x80 end.
Coercion response_type_code : tnt_response_type_t >-> Z.

Inductive tnt_response_key_t := TNT_DATA | TNT_ERROR | TNT_METADATA | TNT_SQL_INFO.

Definition response_key_code (k : tnt_response_key_t) : Z :=
  match k with
  | TNT_DATA => 0x30 | TNT_ERROR => 0x31 | TNT_METADATA => 0x32 | TNT_SQL_INFO => 0x42
  end.
Coercion response_key_code : tnt_response_key_t >-> Z.

Inductive tnt_request_t :=
  | TNT_OP_SELECT | TNT_OP_INSERT | TNT_OP_REPLACE | TNT_OP_UPDATE | TNT_OP_DELETE
  | TNT_OP_CALL_16 | TNT_OP_AUTH | TNT_OP_EVAL | TNT_OP_UPSERT | TNT_OP_CALL
  | TNT_OP_EXECUTE | TNT_OP_PING | TNT_OP_JOIN | TNT_OP_SUBSCRIBE.

#[export] Instance tnt_request_t_eq_dec : EqDecision tnt_request_t.
Proof. solve_decision. Defined.

Definition request_code (op : tnt_request_t) : Z :=
  match op with
  | TNT_OP_SELECT => 1 | TNT_OP_INSERT => 2 | TNT_OP_REPLACE => 3 | TNT_OP_UPDATE => 4
  | TNT_OP_DELETE => 5 | TNT_OP_CALL_16 => 6 | TNT_OP_AUTH => 7 | TNT_OP_EVAL => 8
  | TNT_OP_UPSERT => 9 | TNT_OP_CALL => 10 | TNT_OP_EXECUTE => 11 | TNT_OP_PING => 64
  | TNT_OP_JOIN => 65 | TNT_OP_SUBSCRIBE => 66
  end.
Coercion request_code : tnt_request_t >-> Z.

(** The operation characters of [enum tnt_update_op_t]. *)
Inductive tnt_update_op_t :=
  | TNT_UOP_ADDITION | TNT_UOP_SUBSTRACT | TNT_UOP_AND | TNT_UOP_XOR | TNT_UOP_OR
  | TNT_UOP_DELETE | TNT_UOP_INSERT | TNT_UOP_ASSIGN | TNT_UOP_SPLICE.

Definition update_op_char (op : tnt_update_op_t) : Z :=
  match op with
  | TNT_UOP_ADDITION => 43 | TNT_UOP_SUBSTRACT => 45 | TNT_UOP_AND => 38
  | TNT_UOP_XOR => 94 | TNT_UOP_OR => 124 | TNT_UOP_DELETE => 35
  | TNT_UOP_INSERT => 33 | TNT_UOP_ASSIGN => 61 | TNT_UOP_SPLICE => 58
  end.
Coercion update_op_char : tnt_update_op_t >-> Z.

Inductive tnt_iterator_t :=
  | TNT_ITER_EQ | TNT_ITER_REQ | TNT_ITER_ALL | TNT_ITER_LT | TNT_ITER_LE | TNT_ITER_GE
  | TNT_ITER_GT | TNT_ITER_BITS_ALL_SET | TNT_ITER_BITS_ANY_SET
  | TNT_ITER_BITS_ALL_NOT_SET | TNT_ITER_OVERLAP | TNT_ITER_NEIGHBOR.

Definition iterator_code (i : tnt_iterator_t) : Z :=
  match i with
  | TNT_ITER_EQ => 0 | TNT_ITER_REQ => 1 | TNT_ITER_ALL => 2 | TNT_ITER_LT => 3
  | TNT_ITER_LE => 4 | TNT_ITER_GE => 5 | TNT_ITER_GT => 6 | TNT_ITER_BITS_ALL_SET => 7
  | TNT_ITER_BITS_ANY_SET => 8 | TNT_ITER_BITS_ALL_NOT_SET => 9 | TNT_ITER_OVERLAP => 10
  | TNT_ITER_NEIGHBOR => 11
  end.
Coercion iterator_code : tnt_iterator_t >-> Z.

Definition TNT_SCRAMBLE_SIZE : nat := 20.
Definition TNT_GREETING_SIZE : nat := 128.
Definition TNT_VERSION_SIZE : nat := 64.
Definition TNT_SALT_SIZE : nat := 44.

(** Spaces of the system and their indexes. *)
Definition tnt_vsp_space : Z := 281.
Definition tnt_vsp_index : Z := 289.
Definition tnt_vin_primary : Z := 0.

(** ** Headers *)

Definition is_call (op : Z) : bool :=
  bool_decide (op = TNT_OP_CALL) || bool_decide (op = TNT_OP_CALL_16).

(** A local array [char data[cap]] filled from its start with [bs]; running
    over its end is undefined. *)
Definition local (cap : nat) (bs : bytes) : option bytes :=
  if decide (length bs <= cap)%nat then Some bs else None.

Section proto.
Context {MP : MsgPuck}.

(** [encode_header]: the bytes from [hdr->header] to [hdr->end]. *)
Definition encode_header (code sync : Z) : option bytes :=
  local 25 (mp_encode_map 2 ++ mp_encode_uint TNT_CODE ++ mp_encode_uint (u32 code) ++
            mp_encode_uint TNT_SYNC ++ mp_encode_uint sync).

Definition mp_sizeof_luint32 (num : Z) : Z :=
  if decide (num <= UINT32_MAX) then 1 + 4 else 1 + 8.

Definition mp_encode_luint32 (num : Z) : bytes :=
  if decide (num <= UINT32_MAX)
  then mp_store_u8 0xce ++ mp_store_u32 (u32 num)
  else mp_store_u8 0xcf ++ mp_store_u64 num.

(** ** Packets: the specification *)

Definition fields := list (Z * bytes).

Definition field_bytes (f : Z * bytes) : bytes := mp_encode_uint (fst f) ++ snd f.

Definition header_map (code sync : Z) : bytes :=
  mp_encode_map 2 ++ mp_encode_uint TNT_CODE ++ mp_encode_uint code ++
  mp_encode_uint TNT_SYNC ++ mp_encode_uint sync.

Definition body_map (fs : fields) : bytes :=
  mp_encode_map (zlen fs) ++ concat (field_bytes <$> fs).

(** The length prefix counts the bytes that follow it. *)
Definition frame (payload : bytes) : bytes := mp_encode_luint32 (zlen payload) ++ payload.

Definition packet (code sync : Z) (fs : fields) : bytes :=
  frame (header_map code sync ++ body_map fs).

(** The bytes of one object. *)
Definition next_object (p : bytes) : option (bytes * bytes) :=
  r ← mp_check p; Some (take (length p - length r) p, r).

Fixpoint decode_fields (n : nat) (p : bytes) : option (fields * bytes) :=
  match n with
  | O => Some ([], p)
  | S n =>
      '(k, p) ← mp_decode_uint p;
      '(v, p) ← next_object p;
      '(fs, p) ← decode_fields n p;
      Some ((k, v) :: fs, p)
  end.

Definition decode_map (p : bytes) : option (fields * bytes) :=
  '(n, p) ← mp_decode_map p; decode_fields (Z.to_nat n) p.

(** A server that reads the stream [p]: the header fields, the body fields of
    the first packet and the rest of the stream. *)
Definition decode_packet (p : bytes) : option (fields * fields * bytes) :=
  '(n, p) ← mp_decode_uint p;
  if decide (Z.to_nat n <= length p)%nat then
    let '(payload, rest) := (take (Z.to_nat n) p, drop (Z.to_nat n) p) in
    '(hdr, q) ← decode_map payload;
    '(body, q) ← decode_map q;
    match q with [] => Some (hdr, body, rest) | _ => None end
  else None.

(** The packets of a whole stream. *)
Fixpoint decode_stream (n : nat) (p : bytes) : option (list (fields * fields) * bytes) :=
  match n with
  | O => Some ([], p)
  | S n =>
      '(hdr, body, p) ← decode_packet p;
      '(l, p) ← decode_stream n p;
      Some ((hdr, body) :: l, p)
  end.

End proto.

(** ** Properties *)

Definition field_ok {MP : MsgPuck} (f : Z * bytes) : Prop :=
  0 <= fst f < 2 ^ 64 /\ mp_object (snd f).

Section proto_spec.
Context {MP : MsgPuck} {MPS : MsgPuckSpec MP}.

Lemma request_code_bound (op : tnt_request_t) : 0 <= op < 128.
Proof. destruct op; simpl; lia. Qed.

Lemma local_Some cap bs : zlen bs <= Z.of_nat cap -> local cap bs = Some bs.
Proof. intros. unfold local. rewrite decide_True by len. done. Qed.

Lemma luint32_eq n :
  0 <= n < 2 ^ 64 ->
  mp_encode_luint32 n = if decide (n < 2 ^ 32) then 0xce :: be 4 n else 0xcf :: be 8 n.
Proof.
  intros Hn. unfold mp_encode_luint32, UINT32_MAX. rewrite !spec_store_u8.
  destruct (decide (n <= 2 ^ 32 - 1)), (decide (n < 2 ^ 32)); try lia.
  - rewrite spec_store_u32, u32_small by lia. done.
  - rewrite spec_store_u64. done.
Qed.

(** [mp_sizeof_luint32] is the size of the encoding. *)
Lemma luint32_size n : 0 <= n < 2 ^ 64 -> zlen (mp_encode_luint32 n) = mp_sizeof_luint32 n.
Proof.
  intros Hn. rewrite luint32_eq by done. unfold mp_sizeof_luint32, UINT32_MAX.
  destruct (decide (n <= 2 ^ 32 - 1)), (decide (n < 2 ^ 32)); try lia; len.
Qed.

Lemma decode_luint32 n r :
  0 <= n < 2 ^ 64 -> mp_decode_uint (mp_encode_luint32 n ++ r) = Some (n, r).
Proof.
  intros Hn. rewrite luint32_eq by done. case_decide.
  - apply spec_decode_uint32. lia.
  - by apply spec_decode_uint64.
Qed.

(** A header fits its 25 bytes. *)
Lemma encode_header_ok code sync :
  0 <= code < 128 -> 0 <= sync < 2 ^ 64 ->
  encode_header code sync = Some (header_map code sync) /\
  zlen (header_map code sync) <= 13.
Proof.
  intros Hc Hs. assert (zlen (header_map code sync) <= 13) as Hl.
  { pose proof (spec_len_map4 2). pose proof (spec_len_uint7 0). pose proof (spec_len_uint7 1).
    pose proof (spec_len_uint7 code). pose proof (spec_len_uint sync Hs).
    unfold header_map, header_key_code. unfold zlen in *. rewrite !length_app. lia. }
  split; [|lia]. unfold encode_header. rewrite u32_small by lia.
  apply (local_Some 25 (header_map code sync)). lia.
Qed.

Lemma next_object_app o r : mp_object o -> next_object (o ++ r) = Some (o, r).
Proof.
  intros Ho. unfold next_object. rewrite mp_object_check by done. simpl.
  rewrite take_app_length'; len. done.
Qed.

Lemma decode_fields_app fs r :
  Forall field_ok fs -> decode_fields (length fs) (concat (field_bytes <$> fs) ++ r) = Some (fs, r).
Proof.
  induction 1 as [|[k v] fs [Hk Hv] _ IH]; csimpl; [done|].
  unfold field_bytes at 1. simpl. rewrite <- !app_assoc, spec_decode_uint by done. simpl.
  rewrite next_object_app by done. simpl. rewrite IH. done.
Qed.

Lemma decode_body fs r :
  Forall field_ok fs -> zlen fs < 2 ^ 32 -> decode_map (body_map fs ++ r) = Some (fs, r).
Proof.
  intros Hf Hl. unfold decode_map, body_map. rewrite <- app_assoc, spec_decode_map by len. simpl.
  unfold zlen. rewrite Nat2Z.id. by apply decode_fields_app.
Qed.

Definition header_fields (code sync : Z) : fields :=
  [(TNT_CODE : Z, mp_encode_uint code); (TNT_SYNC : Z, mp_encode_uint sync)].

Lemma header_map_fields code sync : header_map code sync = body_map (header_fields code sync).
Proof. unfold header_map, body_map. simpl. unfold field_bytes. simpl. by rewrite app_nil_r, <- app_assoc. Qed.

(** Decoding a packet at the head of a stream gives its header, its body, and
    the rest of the stream. *)
Lemma decode_packet_app code sync fs r :
  0 <= code < 2 ^ 64 -> 0 <= sync < 2 ^ 64 -> Forall field_ok fs -> zlen fs < 2 ^ 32 ->
  zlen (header_map code sync ++ body_map fs) < 2 ^ 64 ->
  decode_packet (packet code sync fs ++ r) = Some (header_fields code sync, fs, r).
Proof.
  intros Hc Hs Hf Hl Hp. unfold decode_packet, packet, frame. rewrite <- app_assoc.
  set (pl := header_map code sync ++ body_map fs) in *.
  rewrite decode_luint32 by len. simpl. rewrite decide_True by len.
  unfold zlen. rewrite Nat2Z.id, take_app_length, drop_app_length. unfold pl.
  rewrite header_map_fields, decode_body; [|repeat constructor; simpl; auto with mp; lia|done].
  simpl. rewrite <- (app_nil_r (body_map fs)), decode_body by done. done.
Qed.

Lemma decode_stream_app (l : list (Z * Z * fields)) r :
  Forall (fun '(code, sync, fs) =>
    0 <= code < 2 ^ 64 /\ 0 <= sync < 2 ^ 64 /\ Forall field_ok fs /\ zlen fs < 2 ^ 32 /\
    zlen (header_map code sync ++ body_map fs) < 2 ^ 64) l ->
  decode_stream (length l) (concat ((fun '(code, sync, fs) => packet code sync fs) <$> l) ++ r)
    = Some ((fun '(code, sync, fs) => (header_fields code sync, fs)) <$> l, r).
Proof.
  induction 1 as [|[[code sync] fs] l (?&?&?&?&?) _ IH]; csimpl; [done|].
  rewrite <- app_assoc, decode_packet_app by done. simpl. rewrite IH. done.
Qed.

End proto_spec.
