(* ===== verification/Object.v ===== *)
(** * tnt/tnt_object.c: building msgpack objects

    State: a buffer stream whose [resize] is [tnt_sbuf_object_resize] and whose
    subclass data is [sbo] ([struct tnt_sbuf_object]): the stack of open
    containers, with the offset of each header in the buffer and the number of
    objects added since.  [tnt_object_container_close] writes the header of
    the innermost container. *)

From S2P Require Import Prelude Msgpuck Proto Mem Stream Buf.

(** [struct tnt_sbo_stack] *)
Record entry := Entry { e_offset : nat; e_size : Z; e_type : mp_type }.

(** [enum tnt_sbo_type] *)
Inductive tnt_sbo_type := TNT_SBO_SIMPLE | TNT_SBO_SPARSE | TNT_SBO_PACKED.

#[export] Instance tnt_sbo_type_eq_dec : EqDecision tnt_sbo_type.
Proof. solve_decision. Defined.

(** [struct tnt_sbuf_object]; [stack] is the block of [stack_alloc] entries. *)
Record sbo := Sbo {
  stack : list entry;
  stack_size : nat;
  stack_alloc : nat;
  sbo_type : tnt_sbo_type;
}.

Definition object := stream (sbuf sbo).

(** A block of entries fresh from [calloc]. *)
Definition zero_entry : entry := Entry 0 0 MP_NIL.

Definition get_sbo (s : object) : option sbo := sb ← st_data s; sb_subdata sb.

Definition put_sbo (o : sbo) (s : object) : object :=
  match st_data s with
  | Some sb => set_data (Some (set_subdata (Some o) sb)) s
  | None => s
  end.

Definition put_core (c : core) (s : object) : object :=
  match st_data s with
  | Some sb => set_data (Some (set_core c sb)) s
  | None => s
  end.

(** [tnt_sbuf_object_free] as the [sb->free] callback *)
Definition tnt_sbuf_object_free (o : sbo) : option unit := Some tt.

(** [tnt_object_type] *)
Definition tnt_object_type (s : object) (type : tnt_sbo_type) : option (Z * object) :=
  if decide (0 < st_wrcnt s) then Some (-1, s) else
  o ← get_sbo s;
  Some (0, put_sbo (Sbo (stack o) (stack_size o) (stack_alloc o) type) s).

(** [tnt_sbuf_object_grow_stack]: the new block replaces the old one, whose
    entries are not copied. *)
Definition tnt_sbuf_object_grow_stack (o : sbo) (m : malloc_state) : Z * sbo * malloc_state :=
  if decide (stack_alloc o = 128)%nat then (-1, o, m) else
  let new_stack_alloc := Z.to_nat (u8 (2 * Z.of_nat (stack_alloc o))) in
  match pop m with
  | (Refuse, m) => (-1, o, m)
  | (Grant _, m) =>
      (0, Sbo (replicate new_stack_alloc zero_entry) (stack_size o) new_stack_alloc (sbo_type o), m)
  end.

(** [tnt_sbuf_object_resize] *)
Definition tnt_sbuf_object_resize : resize_fn := fun sb m size_ =>
  if decide (alloc sb < size sb + size_)%nat then
    let newsize := (2 * alloc sb)%nat in
    let newsize := if decide (newsize < size sb + size_)%nat then (size sb + size_)%nat else newsize in
    let '(a, m) := pop m in
    '(nd, old) ← tnt_mem_realloc custom_realloc a (data sb) newsize;
    match nd with
    | PNull =>
        old ← tnt_mem_free custom_realloc old;
        Some (None, Core old (size sb) (alloc sb) (rdoff sb), m)
    | _ => Some (Some (size sb), Core nd (size sb) newsize (rdoff sb), m)
    end
  else Some (Some (size sb), sb, m).

(** [tnt_object]; [Some None] is a [NULL] result. *)
Definition tnt_object (given : bool) (m : malloc_state) : option (option object) :=
  match tnt_buf given m with
  | None => Some None
  | Some s =>
      sb ← st_data s;
      let sb := Sbuf (sb_core sb) tnt_sbuf_object_resize None (sb_as sb) in
      match pop (st_mem s) with
      | (Refuse, m) =>
          _ ← tnt_stream_free (Some (tnt_buf_free None)) (Some (set_data (Some sb) s)); Some None
      | (Grant _, m) =>
          match pop m with
          | (Refuse, m) =>
              let o := Sbo [] 0 8 TNT_SBO_SIMPLE in
              let sb := set_subdata (Some o) sb in
              _ ← tnt_stream_free (Some (tnt_buf_free (Some tnt_sbuf_object_free)))
                    (Some (set_data (Some sb) s)); Some None
          | (Grant _, m) =>
              let o := Sbo (replicate 8 zero_entry) 0 8 TNT_SBO_SIMPLE in
              let s := set_mem m (set_data (Some (set_subdata (Some o) sb)) s) in
              '(_, s) ← tnt_object_type s TNT_SBO_SIMPLE;
              Some (Some s)
          end
      end
  end.

Section ops.
Context {MP : MsgPuck}.

(** [if (sbo->stack_size > 0) sbo->stack[sbo->stack_size - 1].size += 1] *)
Definition count_object (o : sbo) : sbo :=
  if decide (0 < stack_size o)%nat then
    Sbo (alter (fun e => Entry (e_offset e) (u32 (e_size e + 1)) (e_type e))
               (stack_size o - 1)%nat (stack o))
        (stack_size o) (stack_alloc o) (sbo_type o)
  else o.

Definition counted (s : object) : option object :=
  o ← get_sbo s; Some (put_sbo (count_object o) s).

Definition tnt_object_add_nil (s : object) : option (Z * object) :=
  s ← counted s; data ← local 2 mp_encode_nil; tnt_buf_write s data.

Definition tnt_object_add_uint (s : object) (value : Z) : option (Z * object) :=
  s ← counted s; data ← local 10 (mp_encode_uint value); tnt_buf_write s data.

Definition tnt_object_add_int (s : object) (value : Z) : option (Z * object) :=
  s ← counted s;
  data ← local 10 (if decide (value < 0) then mp_encode_int value else mp_encode_uint value);
  tnt_buf_write s data.

Definition tnt_object_add_str (s : object) (str : bytes) (len : Z) : option (Z * object) :=
  s ← counted s;
  data ← local 6 (mp_encode_strl len);
  str ← slice 0 (Z.to_nat len) str;
  tnt_buf_writev s [data; str].

(** [strz] is the memory from the pointer on. *)
Definition tnt_object_add_strz (s : object) (strz : bytes) : option (Z * object) :=
  len ← strlen strz;
  tnt_object_add_str s strz (u32 (Z.of_nat len)).

Definition tnt_object_add_bin (s : object) (bin : bytes) (len : Z) : option (Z * object) :=
  s ← counted s;
  data ← local 6 (mp_encode_binl len);
  bin ← slice 0 (Z.to_nat len) bin;
  tnt_buf_writev s [data; bin].

Definition tnt_object_add_bool (s : object) (value : Z) : option (Z * object) :=
  s ← counted s; data ← local 2 (mp_encode_bool (bool_decide (value <> 0))); tnt_buf_write s data.

Definition tnt_object_add_float (s : object) (value : Z) : option (Z * object) :=
  s ← counted s; data ← local 6 (mp_encode_float value); tnt_buf_write s data.

Definition tnt_object_add_double (s : object) (value : Z) : option (Z * object) :=
  s ← counted s; data ← local 10 (mp_encode_double value); tnt_buf_write s data.

Definition mp_encode_array32 (size : Z) : bytes := mp_store_u8 0xdd ++ mp_store_u32 (u32 size).
Definition mp_encode_map32 (size : Z) : bytes := mp_store_u8 0xdf ++ mp_store_u32 (u32 size).

(** The common part of [tnt_object_add_array] and [tnt_object_add_map] between
    the count and the encoding: make room on the stack and push. *)
Definition push_container (type : mp_type) (s : object) : option (Z * object) :=
  o ← get_sbo s;
  sb ← st_data s;
  let '(rc, o, m) :=
    if decide (stack_size o = stack_alloc o) then tnt_sbuf_object_grow_stack o (st_mem s)
    else (0, o, st_mem s) in
  let s := set_mem m (put_sbo o s) in
  if decide (rc = -1) then Some (-1, s) else
  let stk := <[stack_size o := Entry (size (sb_core sb)) 0 type]> (stack o) in
  Some (0, put_sbo (Sbo stk (stack_size o + 1) (stack_alloc o) (sbo_type o)) s).

Definition tnt_object_add_array (s : object) (size_ : Z) : option (Z * object) :=
  s ← counted s;
  '(rc, s) ← push_container MP_ARRAY s;
  if decide (rc = -1) then Some (-1, s) else
  o ← get_sbo s;
  data ← local 6 (match sbo_type o with
                  | TNT_SBO_SIMPLE => mp_encode_array size_
                  | TNT_SBO_SPARSE => mp_encode_array32 0
                  | TNT_SBO_PACKED => mp_encode_array 0
                  end);
  tnt_buf_write s data.

Definition tnt_object_add_map (s : object) (size_ : Z) : option (Z * object) :=
  s ← counted s;
  '(rc, s) ← push_container MP_MAP s;
  if decide (rc = -1) then Some (-1, s) else
  o ← get_sbo s;
  data ← local 6 (match sbo_type o with
                  | TNT_SBO_SIMPLE => mp_encode_map size_
                  | TNT_SBO_SPARSE => mp_encode_map32 0
                  | TNT_SBO_PACKED => mp_encode_map 0
                  end);
  tnt_buf_write s data.

(** Overwrite the header at [offset]. *)
Definition patch (s : object) (offset : nat) (hdr : bytes) : option object :=
  sb ← st_data s;
  let c := sb_core sb in
  d ← store (data c) offset hdr;
  Some (put_core (Core d (size c) (alloc c) (rdoff c)) s).

(** The [TNT_SBO_PACKED] branch of [tnt_object_container_close]. *)
Definition close_packed (s : object) (offset : nat) (type : mp_type) (size_ : Z)
    : option (Z * object) :=
  sb ← st_data s;
  let sz := if decide (type = MP_MAP) then mp_sizeof_map (size_ / 2) else mp_sizeof_array size_ in
  let hdr := if decide (type = MP_MAP) then mp_encode_map (size_ / 2) else mp_encode_array size_ in
  '(rc, s) ←
    (if decide (1 < sz) then
       '(p, c, m) ← sb_resize sb (sb_core sb) (st_mem s) (Z.to_nat (sz - 1));
       let s := set_mem m (put_core c s) in
       match p with
       | None => Some (-1, s)
       | Some _ =>
           (* memmove(lenp + sz, lenp + 1, sb->size - offset - 1) *)
           body ← load (data c) (offset + 1) (size c - offset - 1);
           d ← store (data c) (offset + Z.to_nat sz) body;
           Some (0, put_core (Core d (size c) (alloc c) (rdoff c)) s)
       end
     else Some (0, s));
  if decide (rc = -1) then Some (-1, s) else
  s ← patch s offset hdr;
  sb ← st_data s;
  let c := sb_core sb in
  Some (0, put_core (Core (data c) (size c + Z.to_nat sz - 1) (alloc c) (rdoff c)) s).

Definition tnt_object_container_close (s : object) : option (Z * object) :=
  o ← get_sbo s;
  if decide (stack_size o = 0)%nat then Some (-1, s) else
  e ← stack o !! (stack_size o - 1)%nat;
  let size_ := e_size e in
  let type := e_type e in
  let offset := e_offset e in
  if decide (type = MP_MAP /\ size_ mod 2 <> 0) then Some (-1, s) else
  let s := put_sbo (Sbo (stack o) (stack_size o - 1) (stack_alloc o) (sbo_type o)) s in
  match sbo_type o with
  | TNT_SBO_SIMPLE => Some (0, s)
  | TNT_SBO_SPARSE =>
      s ← patch s offset (if decide (type = MP_MAP) then mp_encode_map32 (size_ / 2)
                          else mp_encode_array32 size_);
      Some (0, s)
  | TNT_SBO_PACKED => close_packed s offset type size_
  end.

(** [tnt_object_verify obj type]; [type = None] is -1. *)
Definition tnt_object_verify {D} (obj : stream (sbuf D)) (type : option mp_type) : option Z :=
  sb ← st_data obj;
  let c := sb_core sb in
  let pos := contents c in
  bad ← match type with
        | None => Some false
        | Some t => b ← block_of (data c); t' ← mp_typeof_at b; Some (bool_decide (t' <> t))
        end;
  if bad : bool then Some (-1) else
  match mp_check pos with
  | None => Some (-1)
  | Some [] => Some 0
  | Some _ => Some (-1)
  end.

Definition tnt_object_as (s : option object) (buf : bytes) (buf_len : nat) (m : malloc_state)
    : option (option object) :=
  s ← match s with None => tnt_object false m | Some s => Some (Some s) end;
  match s with
  | None => Some None
  | Some s =>
      sb ← st_data s;
      Some (Some (set_data (Some (Sbuf (Core (PUser buf) buf_len buf_len (rdoff (sb_core sb)))
                                       (sb_resize sb) (sb_subdata sb) true)) s))
  end.

Definition tnt_object_reset (s : object) : option (Z * object) :=
  sb ← st_data s;
  o ← sb_subdata sb;
  let c := sb_core sb in
  let sb := Sbuf (Core (data c) 0 (alloc c) 0) (sb_resize sb)
                 (Some (Sbo (stack o) 0 (stack_alloc o) TNT_SBO_SIMPLE)) (sb_as sb) in
  Some (0, set_wrcnt 0 (set_reqid 0 (set_data (Some sb) s))).

End ops.

(** ** The abstract builder

    What an object promises to its client: a byte string under construction
    and the list of open containers.  The operations below are list functions;
    [repr] relates them to the stream in memory. *)

Record abs := Abs {
  a_bytes : bytes;
  a_open : list entry;
  a_cap : nat;               (** entries the stack block can hold *)
  a_mode : tnt_sbo_type;
}.

Definition bump (l : list entry) : list entry :=
  alter (fun e => Entry (e_offset e) (u32 (e_size e + 1)) (e_type e)) (length l - 1)%nat l.

Section abstract.
Context {MP : MsgPuck}.

Definition a_add (bs : bytes) (a : abs) : abs :=
  Abs (a_bytes a ++ bs) (bump (a_open a)) (a_cap a) (a_mode a).

(** The header written when a container of [n] objects is opened. *)
Definition open_header (mode : tnt_sbo_type) (map : bool) (n : Z) : bytes :=
  match mode, map with
  | TNT_SBO_SIMPLE, false => mp_encode_array n
  | TNT_SBO_SIMPLE, true => mp_encode_map n
  | TNT_SBO_SPARSE, false => mp_encode_array32 0
  | TNT_SBO_SPARSE, true => mp_encode_map32 0
  | TNT_SBO_PACKED, false => mp_encode_array 0
  | TNT_SBO_PACKED, true => mp_encode_map 0
  end.

Definition a_start (map : bool) (n : Z) (a : abs) : abs :=
  Abs (a_bytes a ++ open_header (a_mode a) map n)
      (bump (a_open a) ++ [Entry (length (a_bytes a)) 0 (if map then MP_MAP else MP_ARRAY)])
      (a_cap a) (a_mode a).

End abstract.

(** The stream [s] holds the abstract object [a]. *)
Definition repr (s : object) (a : abs) : Prop :=
  exists sb o, st_data s = Some sb /\ core_ok (sb_core sb) /\ sb_as sb = false /\
    sb_resize sb = tnt_sbuf_object_resize /\ sb_subdata sb = Some o /\
    contents (sb_core sb) = a_bytes a /\
    take (stack_size o) (stack o) = a_open a /\
    length (stack o) = stack_alloc o /\ (stack_size o <= stack_alloc o)%nat /\
    stack_alloc o = a_cap a /\ sbo_type o = a_mode a.

#[export] Instance tnt_sbuf_object_resize_spec : ResizeSpec tnt_sbuf_object_resize.
Proof.
  intros [d sz al rd] m n [Hb Hd] Hn. unfold tnt_sbuf_object_resize, core_ok, contents in *.
  simpl in *. case_decide as Hal; [|].
  - destruct (pop m) as [a m'] eqn:Ep. unfold tnt_mem_realloc, custom_realloc.
    remember (if decide (al + (al + 0) < sz + n)%nat then (sz + n)%nat else (al + (al + 0))%nat) as ns.
    assert (sz + n <= ns)%nat by (subst; case_decide; lia).
    destruct d as [|b|b|]; try done; rewrite decide_False by lia; destruct a as [|junk]; simpl;
      do 3 eexists; (repeat split; simpl; eauto;
        try (by destruct (pop_granted _ _ _ Ep ltac:(eassumption)))); len.
    + assert (sz = 0)%nat as -> by lia. done.
    + by rewrite take_resize_le, resize_app_le, resize_le by lia.
  - do 3 eexists. repeat split; simpl; eauto; try lia.
    destruct d as [|b|b|]; try done; try lia; eauto.
Qed.

Lemma repr_ok s a : repr s a -> buf_ok s.
Proof.
  intros (sb & o & Hs & Hc & Has & HR & _). exists sb. rewrite HR. repeat split; try done; try apply Hc.
  apply _.
Qed.

Lemma repr_contents s a : repr s a -> buf_contents s = a_bytes a.
Proof. intros (sb & o & Hs & _ & _ & _ & _ & E & _). unfold buf_contents. by rewrite Hs. Qed.

Ltac destruct_repr H :=
  destruct H as (sb & o & Hs & Hc & Has & HR & Ho & Hb & Hop & Hsl & Hsz & Hcap & Hm).

(** What an operation preserves whatever it returns: the request id, and that
    the allocator grants every request. *)
Definition side (s s' : object) : Prop :=
  st_reqid s' = st_reqid s /\ (granted s -> granted s').

#[export] Instance side_preorder : PreOrder side.
Proof.
  split; [done|]. intros s1 s2 s3 [Hr1 Hg1] [Hr2 Hg2]. split; [congruence|auto].
Qed.

Lemma side_mem s s' : st_reqid s' = st_reqid s -> st_mem s' = st_mem s -> side s s'.
Proof. intros Hr Hm. split; [done|]. unfold granted. by rewrite Hm. Qed.

(** The call [r] on [s] fails with -1, which a granting allocator excludes, or
    its result satisfies [res] and the stream then holds [a']. *)
Definition refines (s : object) (r : option (Z * object)) (res : Z -> Prop) (a' : abs) : Prop :=
  exists z s', r = Some (z, s') /\ side s s' /\ (granted s -> z <> -1) /\
    (z = -1 \/ (res z /\ z <> -1 /\ repr s' a')).

Lemma refines_side s s1 r res a' : side s s1 -> refines s1 r res a' -> refines s r res a'.
Proof.
  intros Hs (z & s' & E & Hs' & Hg & Hz). exists z, s'. split; [done|].
  split; [by etrans|]. split; [|done]. intros. apply Hg. by apply Hs.
Qed.

(** Running a call and then, unless it failed, the rest. *)
Lemma refines_bind s r res a1 k res' a2 :
  refines s r res a1 ->
  (forall z s1, side s s1 -> res z -> repr s1 a1 -> refines s1 (k s1) res' a2) ->
  refines s ('(z, s1) ← r; if decide (z = -1) then Some (-1, s1) else k s1) res' a2.
Proof.
  intros (z & s1 & -> & Hs & Hg & Hz) Hk. simpl. destruct (decide (z = -1)) as [->|Hne].
  - exists (-1), s1. auto.
  - destruct Hz as [?|(Hres & _ & H1)]; [done|]. eapply refines_side; [done|]. by eapply Hk.
Qed.

Lemma refines_ret s z (res : Z -> Prop) a : res z -> z <> -1 -> repr s a -> refines s (Some (z, s)) res a.
Proof. intros. exists z, s. repeat split; auto. Qed.

Section refine.
Context {MP : MsgPuck} {MPS : MsgPuckSpec MP}.

Lemma counted_repr s a :
  repr s a -> exists s', counted s = Some s' /\ side s s' /\
    repr s' (Abs (a_bytes a) (bump (a_open a)) (a_cap a) (a_mode a)).
Proof.
  intros H. destruct_repr H. unfold counted, get_sbo, put_sbo. rewrite Hs. simpl. rewrite Ho. simpl.
  eexists. split; [done|]. split; [done|].
  exists (set_subdata (Some (count_object o)) sb), (count_object o).
  unfold count_object. case_decide; simpl; rewrite ?length_alter; repeat split; auto; try apply Hc.
  - rewrite take_alter_lt, Hop by lia. unfold bump. do 2 f_equal. rewrite <- Hop. len.
  - rewrite Hop. assert (stack_size o = 0)%nat as E by lia. rewrite E in Hop.
    rewrite <- Hop. done.
Qed.

Lemma same_frame_repr s s' a bs :
  repr s a -> same_frame s s' -> buf_ok s' -> buf_contents s' = buf_contents s ++ bs ->
  repr s' (Abs (a_bytes a ++ bs) (a_open a) (a_cap a) (a_mode a)).
Proof.
  intros H (_ & _ & sb' & c & Es & Es') (sb'' & Es'' & Hc' & _) Hcont.
  pose proof (repr_contents _ _ H) as E. destruct_repr H.
  rewrite Es in Hs. injection Hs as ->. rewrite Es' in Es''. injection Es'' as <-.
  exists (set_core c sb), o. simpl. repeat split; auto; try apply Hc'.
  unfold buf_contents in Hcont, E. rewrite Es' in Hcont. simpl in Hcont.
  by rewrite Hcont, E.
Qed.

Lemma write_repr s a bs :
  repr s a -> bs <> [] ->
  refines s (tnt_buf_write s bs) (fun z => z = zlen bs)
    (Abs (a_bytes a ++ bs) (a_open a) (a_cap a) (a_mode a)).
Proof.
  intros H Hne. destruct (tnt_buf_write_spec s bs (repr_ok _ _ H) Hne) as (r & s' & E & Hf & Hg & Hr).
  exists r, s'. split; [done|]. split; [split; [apply Hf|by intros; apply Hg]|]. split; [by intros; apply Hg|].
  destruct Hr as [->|(-> & Hok & Hco & _)]; [by left|right]. repeat split; [len|].
  by apply (same_frame_repr s).
Qed.

Lemma writev_repr s a iov :
  repr s a -> concat iov <> [] ->
  refines s (tnt_buf_writev s iov) (fun z => z = zlen (concat iov))
    (Abs (a_bytes a ++ concat iov) (a_open a) (a_cap a) (a_mode a)).
Proof.
  intros H Hne. destruct (tnt_buf_writev_spec s iov (repr_ok _ _ H) Hne) as (r & s' & E & Hf & Hg & Hr).
  exists r, s'. split; [done|]. split; [split; [apply Hf|by intros; apply Hg]|]. split; [by intros; apply Hg|].
  destruct Hr as [->|(-> & Hok & Hco & _)]; [by left|right]. repeat split; [len|].
  by apply (same_frame_repr s).
Qed.

Lemma zlen_nonempty {A} (bs : list A) : 1 <= zlen bs -> bs <> [].
Proof. destruct bs; unfold zlen; simpl; [lia|done]. Qed.

(** [counted] followed by one write of non-empty data. *)
Lemma scalar_repr s a cap bs :
  repr s a -> 1 <= zlen bs <= Z.of_nat cap ->
  refines s (s ← counted s; data ← local cap bs; tnt_buf_write s data)
    (fun z => z = zlen bs) (a_add bs a).
Proof.
  intros H Hl. destruct (counted_repr _ _ H) as (s' & -> & Hr & H'). simpl.
  rewrite local_Some by lia. simpl. apply (refines_side _ s'); [done|].
  apply (write_repr _ _ bs H'). apply zlen_nonempty; lia.
Qed.

Lemma payload_repr s a cap hdr (str : bytes) :
  repr s a -> 1 <= zlen hdr <= Z.of_nat cap ->
  refines s (s ← counted s; data ← local cap hdr; tnt_buf_writev s [data; str])
    (fun z => z = zlen (hdr ++ str)) (a_add (hdr ++ str) a).
Proof.
  intros H Hl. destruct (counted_repr _ _ H) as (s' & -> & Hr & H'). simpl.
  rewrite local_Some by lia. simpl. apply (refines_side _ s'); [done|].
  assert (concat [hdr; str] = hdr ++ str) as E by (simpl; by rewrite app_nil_r).
  rewrite <- E. unfold a_add. apply (writev_repr _ _ [hdr; str] H'). rewrite E.
  apply zlen_nonempty. len.
Qed.

(** ** Containers *)

Lemma contents_split c :
  core_ok c -> contents c <> [] ->
  exists rest, data c = PHeap (contents c ++ rest) /\ size c = length (contents c) /\
    alloc c = (length (contents c) + length rest)%nat.
Proof.
  intros [Hb Hd] Hne. unfold contents in *. destruct (data c) as [|b|b|] eqn:E; try done.
  exists (drop (size c) b). simpl. rewrite take_drop. repeat split; len.
Qed.

Lemma contents_length c : core_ok c -> length (contents c) = size c.
Proof.
  intros [Hb Hd]. unfold contents. destruct (data c); simpl; try done; [|len]. lia.
Qed.

Lemma push_repr s a map hdr :
  repr s a -> (length (a_open a) < a_cap a)%nat ->
  exists s', push_container (if map : bool then MP_MAP else MP_ARRAY) s = Some (0, s') /\
    side s s' /\
    repr s' (Abs (a_bytes a) (a_open a ++ [Entry (length (a_bytes a)) 0
       (if map then MP_MAP else MP_ARRAY)]) (a_cap a) (a_mode a)) /\
    (o ← get_sbo s'; Some (hdr (sbo_type o) : bytes)) = Some (hdr (a_mode a)).
Proof.
  intros H Hlt. destruct_repr H. unfold push_container, get_sbo, put_sbo. rewrite Hs. simpl. rewrite Ho. simpl.
  assert (length (a_open a) = stack_size o) as El by (rewrite <- Hop; len).
  rewrite decide_False by lia. simpl. eexists; split; [done|]. simpl.
  split; [done|]. split; [|by rewrite Hm].
  do 2 eexists. split; [done|]. simpl. repeat split; auto; try apply Hc; simpl; try lia.
  - simpl. rewrite <- Hb, contents_length, Nat.add_1_r by done.
    erewrite take_S_r by (apply list_lookup_insert_eq; lia).
    rewrite take_insert_ge by lia. by rewrite Hop.
  - simpl. by rewrite length_insert.
Qed.

Lemma start_repr s a (map : bool) n :
  repr s a -> (length (a_open a) < a_cap a)%nat -> 0 <= n < 2 ^ 32 ->
  refines s (if map then tnt_object_add_map s n else tnt_object_add_array s n)
    (fun z => z = zlen (open_header (a_mode a) map n)) (a_start map n a).
Proof.
  intros H Hlt Hn.
  set (a1 := Abs (a_bytes a) (bump (a_open a)) (a_cap a) (a_mode a)).
  assert (1 <= zlen (open_header (a_mode a) map n) <= 6) as Hl.
  { destruct (a_mode a), map; simpl; unfold mp_encode_array32, mp_encode_map32;
      rewrite ?spec_store_u8, ?spec_store_u32;
      try (pose proof (spec_len_map n Hn); lia); try (pose proof (spec_len_array n Hn); lia);
      try (rewrite spec_len_map4 by lia; lia); try (rewrite spec_len_array4 by lia; lia);
      unfold zlen; simpl; lia. }
  assert (length (bump (a_open a)) = length (a_open a)) as Elen by (unfold bump; by rewrite length_alter).
  destruct (counted_repr _ _ H) as (s1 & E1 & Hr1 & H1).
  destruct (push_repr s1 a1 map (fun m => open_header m map n) H1) as (s2 & E2 & Hr2 & H2 & Hh);
    [simpl; lia|].
  apply (refines_side _ s2); [by etrans|].
  pose proof (write_repr s2 _ (open_header (a_mode a) map n) H2) as Hw.
  cbn [a_bytes a_open a_cap a_mode a1] in Hw. fold (a_start map n a) in Hw.
  destruct map; unfold tnt_object_add_map, tnt_object_add_array; rewrite E1; simpl; rewrite E2; simpl;
    destruct (get_sbo s2) as [o|]; simpl in Hh |- *; try done; injection Hh as Hh.
  - change (local 6 (match sbo_type o with TNT_SBO_SIMPLE => _ | _ => _ end))
      with (local 6 (open_header (sbo_type o) true n)).
    rewrite Hh, local_Some by lia. apply Hw, zlen_nonempty. lia.
  - change (local 6 (match sbo_type o with TNT_SBO_SIMPLE => _ | _ => _ end))
      with (local 6 (open_header (sbo_type o) false n)).
    rewrite Hh, local_Some by lia. apply Hw, zlen_nonempty. lia.
Qed.

(** Overwriting bytes of the contents in place. *)
Lemma patch_repr s pre old new post op cap mode :
  repr s (Abs (pre ++ old ++ post) op cap mode) -> length old = length new -> old <> [] ->
  exists s', patch s (length pre) new = Some s' /\ side s s' /\
    repr s' (Abs (pre ++ new ++ post) op cap mode).
Proof.
  intros H Hl Hne. destruct_repr H. simpl in *. unfold patch. rewrite Hs. simpl.
  destruct (contents_split (sb_core sb)) as (rest & Ed & Esz & Eal); [done| |].
  { rewrite Hb. destruct old; [done|]. by destruct pre. }
  rewrite Hb in *. rewrite Ed. unfold store. rewrite <- !app_assoc, splice_app by done.
  simpl. eexists; split; [done|]. unfold put_core. rewrite Hs. split; [done|].
  exists (set_core (Core (PHeap (pre ++ new ++ post ++ rest)) (size (sb_core sb))
    (alloc (sb_core sb)) (rdoff (sb_core sb))) sb), o.
  simpl. destruct Hc as [Hc1 Hc2]. rewrite Ed in Hc2. repeat split; auto; try apply Hc1.
  - simpl. rewrite <- Hc2. len.
  - unfold contents. simpl. rewrite Esz. rewrite !app_assoc, take_app_length'; len. done.
Qed.

(** The moves of a packed close on the core: the body goes [sz - 1] bytes up,
    the header overwrites what precedes it. *)
Lemma packed_moves c pre h0 body rest hdr :
  data c = PHeap (pre ++ [h0] ++ body ++ rest) -> (1 <= length hdr <= S (length rest))%nat ->
  exists d post, load (data c) (length pre + 1) (length body) = Some body /\
    store (data c) (length pre + length hdr) body = Some d /\
    store d (length pre) hdr = Some (PHeap (pre ++ hdr ++ body ++ post)) /\
    length post = (S (length rest) - length hdr)%nat.
Proof.
  intros Ed Hl. rewrite Ed.
  set (B := pre ++ [h0] ++ body ++ rest).
  assert (length B = length pre + (1 + (length body + length rest)))%nat as EB by (unfold B; len).
  exists (PHeap (take (length pre + length hdr) B ++ body ++
    drop (length pre + length hdr + length body) B)), (drop (length pre + length hdr + length body) B).
  split; [|split; [|split]].
  - unfold load, B. cbn [block_of mbind option_bind]. rewrite app_assoc.
    replace (length pre + 1)%nat with (length (pre ++ [h0])) by len. apply slice_app.
  - rewrite store_heap by lia. done.
  - assert (take (length pre + length hdr) B = pre ++ take (length hdr) ([h0] ++ body ++ rest)) as ->.
    { unfold B. apply take_app_add. }
    unfold store. rewrite <- !app_assoc, splice_app; [done|]. len.
  - rewrite length_drop. lia.
Qed.

(** The header of a container closed with [n] counted objects. *)
Definition packed_header (ty : mp_type) (n : Z) : bytes :=
  if decide (ty = MP_MAP) then mp_encode_map (n / 2) else mp_encode_array n.

Lemma packed_header_size ty n :
  0 <= n < 2 ^ 32 ->
  (if decide (ty = MP_MAP) then mp_sizeof_map (n / 2) else mp_sizeof_array n)
    = zlen (packed_header ty n) /\ 1 <= zlen (packed_header ty n) <= 5.
Proof.
  intros Hn. unfold packed_header. case_decide.
  - assert (0 <= n / 2 < 2 ^ 32) by (split; [apply Z.div_pos|apply Z.div_lt_upper_bound]; lia).
    rewrite spec_sizeof_map by done. split; [done|]. by apply spec_len_map.
  - rewrite spec_sizeof_array by done. split; [done|]. by apply spec_len_array.
Qed.

(** The state after the moves of [packed_moves] holds the patched contents. *)
Lemma packed_moves_ok c pre h0 body rest hdr post :
  core_ok c -> data c = PHeap (pre ++ [h0] ++ body ++ rest) ->
  size c = length (pre ++ [h0] ++ body) -> (1 <= length hdr <= S (length rest))%nat ->
  length post = (S (length rest) - length hdr)%nat ->
  let c' := Core (PHeap (pre ++ hdr ++ body ++ post)) (size c + length hdr - 1) (alloc c) (rdoff c) in
  core_ok c' /\ contents c' = pre ++ hdr ++ body.
Proof.
  intros [Hc1 Hc2] Ed Esz Hl Hpost c'. rewrite Ed in Hc2. split.
  - unfold c', core_ok. simpl. autorewrite with len in *. simpl in *. lia.
  - unfold c', contents. simpl. rewrite Esz, !app_assoc, take_app_length'; len. done.
Qed.

Lemma close_packed_repr s pre h0 body op cap mode ty n :
  repr s (Abs (pre ++ [h0] ++ body) op cap mode) -> 0 <= n < 2 ^ 32 ->
  refines s (close_packed s (length pre) ty n) (fun z => z = 0)
    (Abs (pre ++ packed_header ty n ++ body) op cap mode).
Proof.
  intros H Hn. destruct (packed_header_size ty n Hn) as [Esize Hsize]. pose proof H as H0.
  destruct_repr H. cbn [a_bytes a_open a_cap a_mode] in *. unfold close_packed. rewrite Hs. simpl. rewrite Esize.
  fold (packed_header ty n). set (hdr := packed_header ty n) in *.
  destruct (decide (1 < zlen hdr)) as [Hz|Hz].
  - rewrite HR.
    destruct (tnt_sbuf_object_resize_spec (sb_core sb) (st_mem s) (Z.to_nat (zlen hdr - 1)))
      as (p & c & m & E & Es & Er & Hg & Hp); [done|lia|].
    rewrite E. simpl. destruct p as [off|].
    2: { do 2 eexists. split; [done|]. unfold put_core, side, granted. rewrite Hs. simpl.
       split; [split; [done|apply Hg]|]. split; [|by left]. intros Hm'. by destruct (Hg Hm'). }
    destruct Hp as (-> & Hok & [b Eb] & Hal & Hco). unfold put_core. rewrite Hs. simpl.
    destruct (contents_split c) as (rest & Ed & Esz' & Eal); [done|rewrite Hco, Hb; by destruct pre|].
    rewrite Hco, Hb in Ed, Esz', Eal. rewrite <- !app_assoc in Ed.
    destruct (packed_moves c pre h0 body rest hdr Ed) as (d & post & E1 & E2 & E3 & Hpost); [len|].
    replace (size c - length pre - 1)%nat with (length body) by len.
    rewrite E1. simpl. replace (Z.to_nat (zlen hdr)) with (length hdr) by len. rewrite E2. simpl.
    unfold patch. simpl. rewrite E3. simpl. do 2 eexists. split; [done|]. unfold put_core. simpl.
    split; [split; [done|apply Hg]|]. split; [done|]. right. split; [done|]. split; [done|].
    destruct (packed_moves_ok c pre h0 body rest hdr post) as [Hc' Ec']; try done; [len|].
    eexists _, o. split; [done|]. simpl. repeat split; auto; simpl; try apply Hc'; exact Ec'.
  - assert (zlen hdr = 1) as E1 by lia. simpl.
    destruct (patch_repr s pre [h0] hdr body op cap mode H0) as (s' & -> & Hr & H'); [len|done|].
    simpl. destruct H' as (sb' & o' & Hs' & Hrest). rewrite Hs'. simpl.
    do 2 eexists. split; [done|]. unfold put_core. rewrite Hs'. split; [done|]. split; [done|]. right. split; [done|].
    split; [done|]. rewrite E1. replace (size (sb_core sb') + Z.to_nat 1 - 1)%nat with (size (sb_core sb')) by lia.
    exists sb', o'. destruct sb' as [[] ? ? ?]. done.
Qed.

(** What closing makes of the header [hdr0] of a container. *)
Definition close_header (mode : tnt_sbo_type) (ty : mp_type) (n : Z) (hdr0 : bytes) : bytes :=
  match mode with
  | TNT_SBO_SIMPLE => hdr0
  | TNT_SBO_SPARSE =>
      if decide (ty = MP_MAP) then mp_encode_map32 (n / 2) else mp_encode_array32 n
  | TNT_SBO_PACKED => packed_header ty n
  end.

(** The room an opened container has for its header. *)
Definition header_room (mode : tnt_sbo_type) (hdr0 : bytes) : Prop :=
  match mode with
  | TNT_SBO_SIMPLE => True
  | TNT_SBO_SPARSE => length hdr0 = 5%nat
  | TNT_SBO_PACKED => length hdr0 = 1%nat
  end.

Lemma length_header32 b n : length (mp_store_u8 b ++ mp_store_u32 n) = 5%nat.
Proof. rewrite spec_store_u8, spec_store_u32. len. Qed.

(** The innermost container and the stream without it on the stack. *)
Lemma pop_repr s bs op e cap mode :
  repr s (Abs bs (op ++ [e]) cap mode) ->
  exists o, get_sbo s = Some o /\ stack o !! (stack_size o - 1)%nat = Some e /\
    stack_size o = S (length op) /\ sbo_type o = mode /\
    let s1 := put_sbo (Sbo (stack o) (stack_size o - 1) (stack_alloc o) (sbo_type o)) s in
    side s s1 /\ repr s1 (Abs bs op cap mode).
Proof.
  intros H. destruct_repr H. cbn [a_bytes a_open a_cap a_mode] in *. exists o. unfold get_sbo, put_sbo.
  rewrite Hs. simpl. split; [done|].
  assert (stack_size o = S (length op)) as E.
  { apply (f_equal length) in Hop. rewrite length_take, length_app in Hop. simpl in Hop. lia. }
  assert (stack o = op ++ [e] ++ drop (stack_size o) (stack o)) as Estk
    by (rewrite app_assoc, <- Hop; by rewrite take_drop).
  rewrite E. simpl. rewrite Nat.sub_0_r. repeat split; auto.
  - rewrite Estk. by rewrite lookup_app_r, Nat.sub_diag by lia.
  - eexists _, _. split; [done|]. simpl. repeat split; auto; simpl; try apply Hc; try lia.
    rewrite Estk. by rewrite take_app_length.
Qed.

(** Closing in the sparse mode overwrites the header and cannot fail. *)
Lemma close_sparse_repr s pre hdr0 body op e cap :
  repr s (Abs (pre ++ hdr0 ++ body) (op ++ [e]) cap TNT_SBO_SPARSE) ->
  e_offset e = length pre -> ~ (e_type e = MP_MAP /\ e_size e mod 2 <> 0) ->
  length hdr0 = 5%nat ->
  exists s', tnt_object_container_close s = Some (0, s') /\ side s s' /\
    repr s' (Abs (pre ++ close_header TNT_SBO_SPARSE (e_type e) (e_size e) hdr0 ++ body) op cap TNT_SBO_SPARSE).
Proof.
  intros H Eoff Hodd Hroom. destruct (pop_repr _ _ _ _ _ _ H) as (o & Eo & Ee & Esz & Em & Hside & Hpop).
  unfold tnt_object_container_close. rewrite Eo. simpl. rewrite decide_False by lia.
  rewrite Ee. simpl. rewrite decide_False by done. rewrite Em in *. rewrite Eoff.
  destruct (patch_repr _ pre hdr0 (close_header TNT_SBO_SPARSE (e_type e) (e_size e) hdr0)
    body op cap TNT_SBO_SPARSE Hpop) as (s' & E & Hr & H').
  { simpl. case_decide; unfold mp_encode_map32, mp_encode_array32; by rewrite length_header32. }
  { by destruct hdr0. }
  simpl in E. rewrite E. simpl. eexists. split; [done|]. split; [by etrans|done].
Qed.

Lemma close_repr s pre hdr0 body op e cap mode :
  repr s (Abs (pre ++ hdr0 ++ body) (op ++ [e]) cap mode) ->
  e_offset e = length pre -> 0 <= e_size e < 2 ^ 32 ->
  ~ (e_type e = MP_MAP /\ e_size e mod 2 <> 0) -> header_room mode hdr0 ->
  refines s (tnt_object_container_close s) (fun z => z = 0)
    (Abs (pre ++ close_header mode (e_type e) (e_size e) hdr0 ++ body) op cap mode).
Proof.
  intros H Eoff Hsize Hodd Hroom. destruct (decide (mode = TNT_SBO_SPARSE)) as [->|Hmode].
  { destruct (close_sparse_repr s pre hdr0 body op e cap H Eoff Hodd Hroom) as (s' & -> & Hs & H').
    apply (refines_side _ s'); [done|]. by apply refines_ret. }
  destruct (pop_repr _ _ _ _ _ _ H) as (o & Eo & Ee & Esz & Em & Hside & Hpop).
  unfold tnt_object_container_close. rewrite Eo. simpl. rewrite decide_False by lia.
  rewrite Ee. simpl. rewrite decide_False by done. rewrite Em in *. rewrite Eoff.
  apply (refines_side _ _ _ _ _ Hside). destruct mode; unfold close_header, header_room in *; [|done|].
  - by apply refines_ret.
  - destruct hdr0 as [|h0 [|]]; try discriminate Hroom.
    by apply (close_packed_repr _ pre h0 body).
Qed.

End refine.

(** ** Trees of msgpack values *)

Inductive leaf :=
  | LNil | LUint (n : Z) | LInt (n : Z) | LStr (s : bytes) | LBin (s : bytes)
  | LBool (b : bool) | LFloat (n : Z) | LDouble (n : Z).

(** An array or a map; the children of a map are its keys and values in turn. *)
Inductive tree := Leaf (l : leaf) | Node (map : bool) (ts : list tree).

Lemma tree_ind' (P : tree -> Prop) :
  (forall l, P (Leaf l)) -> (forall map ts, Forall P ts -> P (Node map ts)) -> forall t, P t.
Proof.
  intros HL HN. fix IH 1. intros [l|map ts]; [apply HL|]. apply HN.
  induction ts as [|t ts IHts]; constructor; auto.
Qed.

Definition leaf_ok (l : leaf) : Prop :=
  match l with
  | LUint n => 0 <= n < 2 ^ 64
  | LInt n => - 2 ^ 63 <= n < 2 ^ 63
  | LStr s | LBin s => zlen s < 2 ^ 32
  | _ => True
  end.

Fixpoint tree_ok (t : tree) : Prop :=
  match t with
  | Leaf l => leaf_ok l
  | Node map ts =>
      zlen ts < 2 ^ 32 /\ (map = true -> zlen ts mod 2 = 0) /\
      (fix go ts := match ts with [] => True | t :: ts => tree_ok t /\ go ts end) ts
  end.

(** Nesting depth of containers. *)
Fixpoint tree_depth (t : tree) : nat :=
  match t with
  | Leaf _ => O
  | Node _ ts => S (list_max (tree_depth <$> ts))
  end.

(** The size argument of the client: pairs for a map. *)
Definition arity (map : bool) {A} (ts : list A) : Z := if map then zlen ts / 2 else zlen ts.

Section trees.
Context {MP : MsgPuck}.

Definition leaf_bytes (l : leaf) : bytes :=
  match l with
  | LNil => mp_encode_nil
  | LUint n => mp_encode_uint n
  | LInt n => if decide (n < 0) then mp_encode_int n else mp_encode_uint n
  | LStr s => mp_encode_strl (zlen s) ++ s
  | LBin s => mp_encode_binl (zlen s) ++ s
  | LBool b => mp_encode_bool b
  | LFloat n => mp_encode_float n
  | LDouble n => mp_encode_double n
  end.

(** The header of a finished container in each packing mode. *)
Definition node_header (mode : tnt_sbo_type) (map : bool) (n : Z) : bytes :=
  match mode, map with
  | TNT_SBO_SPARSE, false => mp_encode_array32 n
  | TNT_SBO_SPARSE, true => mp_encode_map32 n
  | _, false => mp_encode_array n
  | _, true => mp_encode_map n
  end.

(** The encoding of a tree: the specification of the builder. *)
Fixpoint tree_bytes (mode : tnt_sbo_type) (t : tree) : bytes :=
  match t with
  | Leaf l => leaf_bytes l
  | Node map ts => node_header mode map (arity map ts) ++ concat (tree_bytes mode <$> ts)
  end.

(** The client's calls that build a leaf and a tree. *)
Definition add_leaf (s : object) (l : leaf) : option (Z * object) :=
  match l with
  | LNil => tnt_object_add_nil s
  | LUint n => tnt_object_add_uint s n
  | LInt n => tnt_object_add_int s n
  | LStr str => tnt_object_add_str s str (zlen str)
  | LBin bin => tnt_object_add_bin s bin (zlen bin)
  | LBool b => tnt_object_add_bool s (Z.b2z b)
  | LFloat n => tnt_object_add_float s n
  | LDouble n => tnt_object_add_double s n
  end.

(** Run the calls [f x] in turn, stopping at the first that returns -1. *)
Fixpoint seq_calls {A} (f : A -> object -> option (Z * object)) (xs : list A) (s : object)
    : option (Z * object) :=
  match xs with
  | [] => Some (0, s)
  | x :: xs => '(r, s) ← f x s; if decide (r = -1) then Some (-1, s) else seq_calls f xs s
  end.

Fixpoint add_tree (t : tree) (s : object) {struct t} : option (Z * object) :=
  match t with
  | Leaf l => add_leaf s l
  | Node map ts =>
      '(r, s) ← (if map then tnt_object_add_map s (arity map ts)
                 else tnt_object_add_array s (arity map ts));
      if decide (r = -1) then Some (-1, s) else
      '(r, s) ← seq_calls add_tree ts s;
      if decide (r = -1) then Some (-1, s) else tnt_object_container_close s
  end.

End trees.
