(* ===== verification/ObjectSpec.v ===== *)
(** * Correctness of the object builder (tnt/tnt_object.c)

    The calls that build a tree of values ([add_tree]) refine appending the
    encoding of the tree ([tree_bytes]), for every packing mode and whatever
    the allocator answers; the bytes are then a well-formed msgpack object
    that [tnt_object_verify] accepts.  The bound on the nesting depth is the
    size of the container stack: growing the stack loses its entries. *)

From S2P Require Import Prelude Msgpuck MsgpuckRef Proto Mem Stream Buf Object.

Section trees.
Context {MP : MsgPuck} {MPS : MsgPuckSpec MP}.

Lemma leaf_repr s a l :
  repr s a -> leaf_ok l -> refines s (add_leaf s l) (fun z => z = zlen (leaf_bytes l)) (a_add (leaf_bytes l) a).
Proof.
  intros H Hl. destruct l; simpl add_leaf; simpl leaf_bytes; simpl in Hl.
  - apply scalar_repr; [done|]. rewrite spec_len_nil. lia.
  - apply scalar_repr; [done|]. pose proof (spec_len_uint _ Hl). lia.
  - apply scalar_repr; [done|]. case_decide.
    + pose proof (spec_len_int n). lia.
    + pose proof (spec_len_uint n). lia.
  - unfold tnt_object_add_str. rewrite slice_all. apply payload_repr; [done|].
    pose proof (spec_len_strl (zlen s0)). len.
  - unfold tnt_object_add_bin. rewrite slice_all. apply payload_repr; [done|].
    pose proof (spec_len_binl (zlen s0)). len.
  - unfold tnt_object_add_bool. replace (bool_decide (Z.b2z b <> 0)) with b by (by destruct b).
    apply scalar_repr; [done|]. rewrite spec_len_bool. lia.
  - apply scalar_repr; [done|]. rewrite spec_len_float. lia.
  - apply scalar_repr; [done|]. rewrite spec_len_double. lia.
Qed.

(** [n] objects counted in the innermost container. *)
Definition bumps (n : nat) (l : list entry) : list entry := Nat.iter n bump l.

Lemma length_bumps n l : length (bumps n l) = length l.
Proof. induction n; simpl; [done|]. unfold bump at 1. by rewrite length_alter. Qed.

Lemma bump_last l e :
  bump (l ++ [e]) = l ++ [Entry (e_offset e) (u32 (e_size e + 1)) (e_type e)].
Proof.
  unfold bump. replace (length (l ++ [e]) - 1)%nat with (length l + 0)%nat by len.
  by rewrite alter_app_r.
Qed.

Lemma bumps_last n l off sz ty :
  0 <= sz -> sz + Z.of_nat n < 2 ^ 32 ->
  bumps n (l ++ [Entry off sz ty]) = l ++ [Entry off (sz + Z.of_nat n) ty].
Proof.
  intros Hsz Hn. unfold bumps. induction n as [|n IH]; simpl.
  - do 3 f_equal. lia.
  - rewrite IH, bump_last by lia. simpl. rewrite u32_small by lia.
    do 3 f_equal. lia.
Qed.

Lemma bumps_S n l : bumps n (bump l) = bumps (S n) l.
Proof. unfold bumps. by rewrite Nat.iter_succ_r. Qed.

(** The builder has room for [k] more open containers. *)
Definition room (k cap : nat) (mode : tnt_sbo_type) (a : abs) : Prop :=
  (length (a_open a) + k <= cap)%nat /\ a_cap a = cap /\ a_mode a = mode.

(** A list of calls, each of which refines an append, refines the appends. *)
Lemma seq_calls_repr {A} (f : A -> object -> option (Z * object)) (enc : A -> bytes) xs k cap mode :
  (forall x, x ∈ xs -> forall s a, repr s a -> room k cap mode a ->
     refines s (f x s) (fun _ => True) (a_add (enc x) a)) ->
  forall s a, repr s a -> room k cap mode a ->
  refines s (seq_calls f xs s) (fun z => z = 0)
    (Abs (a_bytes a ++ concat (enc <$> xs)) (bumps (length xs) (a_open a)) (a_cap a) (a_mode a)).
Proof.
  induction xs as [|x xs IH]; intros Hf s a H Hroom; csimpl.
  - apply refines_ret; [done|done|]. rewrite app_nil_r. by destruct a.
  - eapply refines_bind; [apply Hf; [set_solver|done|done]|].
    intros z s1 Hs _ H1. simpl in H1.
    replace (a_bytes a ++ enc x ++ concat (enc <$> xs))
      with (a_bytes (a_add (enc x) a) ++ concat (enc <$> xs)) by (simpl; by rewrite <- app_assoc).
    change (bump (bumps (length xs) (a_open a))) with (bumps (S (length xs)) (a_open a)). rewrite <- bumps_S. apply (IH ltac:(intros; apply Hf; set_solver) s1 (a_add (enc x) a) H1).
    unfold room in *. simpl. unfold bump. by rewrite length_alter.
Qed.

Lemma tree_ok_children map ts t : tree_ok (Node map ts) -> t ∈ ts -> tree_ok t.
Proof.
  intros (_ & _ & H) Ht. induction ts as [|t' ts IH]; [by apply elem_of_nil in Ht|].
  destruct H. apply elem_of_cons in Ht as [->|]; auto.
Qed.

Lemma tree_depth_children (ts : list tree) t :
  t ∈ ts -> (tree_depth t <= list_max (tree_depth <$> ts))%nat.
Proof.
  induction ts as [|t' ts IH]; intros Ht; [by apply elem_of_nil in Ht|]. csimpl.
  apply elem_of_cons in Ht as [->|Ht]; [|apply IH in Ht]; lia.
Qed.

(** The header a node is closed with is that of its encoding. *)
Lemma close_node_header mode (map : bool) (ts : list tree) hdr0 :
  (map = true -> zlen ts mod 2 = 0) -> zlen ts < 2 ^ 32 ->
  hdr0 = open_header mode map (arity map ts) ->
  close_header mode (if map then MP_MAP else MP_ARRAY) (zlen ts) hdr0
    = node_header mode map (arity map ts).
Proof.
  intros He Hl ->. unfold close_header, packed_header. destruct mode, map; simpl; done.
Qed.

Lemma open_header_room mode map n : header_room mode (open_header mode map n).
Proof.
  destruct mode, map; simpl; try done; unfold mp_encode_map32, mp_encode_array32;
    rewrite ?length_header32; try done;
    pose proof (spec_len_map4 0); pose proof (spec_len_array4 0); len.
Qed.

(** Closing a node whose children have been added. *)
Lemma close_node_repr (map : bool) (ts : list tree) s pre body op cap mode :
  zlen ts < 2 ^ 32 -> (map = true -> zlen ts mod 2 = 0) ->
  repr s (Abs (pre ++ open_header mode map (arity map ts) ++ body)
    (op ++ [Entry (length pre) (zlen ts) (if map then MP_MAP else MP_ARRAY)]) cap mode) ->
  refines s (tnt_object_container_close s) (fun z => z = 0)
    (Abs (pre ++ node_header mode map (arity map ts) ++ body) op cap mode).
Proof.
  intros Hlen Heven H.
  rewrite <- (close_node_header mode map ts (open_header mode map (arity map ts))) by done.
  apply (close_repr s pre (open_header mode map (arity map ts)) body op _ cap mode H); simpl.
  - done.
  - len.
  - destruct map; [|by intros [? _]]. intros [_ Hodd]. auto.
  - apply open_header_room.
Qed.

(** Building a tree with a stack deep enough refines appending its encoding. *)
Lemma add_tree_repr t :
  tree_ok t -> forall s a, repr s a -> (length (a_open a) + tree_depth t <= a_cap a)%nat ->
  refines s (add_tree t s) (fun _ => True) (a_add (tree_bytes (a_mode a) t) a).
Proof.
  induction t as [l|map ts IH] using tree_ind'; intros Hok s a H Hd.
  - destruct (leaf_repr s a l H Hok) as (z & s' & E & Hr & Hg & Hz). exists z, s'. naive_solver.
  - pose proof Hok as (Hlen & Heven & _). simpl add_tree.
    assert (0 <= arity map ts < 2 ^ 32) as Har.
    { unfold arity. destruct map; [|len].
      split; [apply Z.div_pos; len|]. apply Z.div_lt_upper_bound; len. }
    assert (length (bump (a_open a)) = length (a_open a)) as Eb by (unfold bump; by rewrite length_alter).
    simpl in Hd. eapply refines_bind; [apply start_repr; [done|lia|done]|].
    intros _ s1 _ _ H1. eapply refines_bind.
    { apply (seq_calls_repr add_tree (tree_bytes (a_mode a)) ts (list_max (tree_depth <$> ts))
        (a_cap a) (a_mode a)); [|done|].
      - intros t Ht s' a' H' (Hl' & Ec & Em). rewrite Forall_forall in IH. rewrite <- Em. apply IH; auto.
        + by eapply tree_ok_children.
        + pose proof (tree_depth_children ts t Ht) as Hlt. rewrite Ec.
          eapply Nat.le_trans; [apply Nat.add_le_mono_l, Hlt | exact Hl'].
      - split; [|done]. simpl. rewrite length_app, Eb. simpl. lia. }
    intros _ s2 _ _ H2. simpl in H2. rewrite bumps_last in H2 by len.
    rewrite Z.add_0_l, <- app_assoc in H2.
    destruct (close_node_repr map ts s2 (a_bytes a) _ _ _ _ Hlen Heven H2) as (z3 & s3 & E3 & Hr3 & Hg3 & Hz3).
    exists z3, s3. unfold a_add. simpl. naive_solver.
Qed.

End trees.

(** ** The client program *)

(** [tnt_object(); tnt_object_type(mode)] and the calls that add a tree;
    [Some None] when [tnt_object] returns [NULL]. *)
Definition make_tree {MP : MsgPuck} (mode : tnt_sbo_type) (t : tree) (given : bool) (m : malloc_state)
    : option (option (Z * object)) :=
  s ← tnt_object given m;
  match s with
  | None => Some None
  | Some s => '(_, s) ← tnt_object_type s mode; r ← add_tree t s; Some (Some r)
  end.

Section program.
Context {MP : MsgPuck} {MPS : MsgPuckSpec MP}.

Lemma tnt_stream_init_ok {T} given m :
  match tnt_stream_init (T := T) given m with
  | Some s => (Refuse ∉ m -> granted s) /\ st_data s = None /\ st_wrcnt s = 0
  | None => ~ (Refuse ∉ m)
  end.
Proof.
  destruct given; simpl; [done|]. destruct (pop m) as [a m'] eqn:E.
  pose proof (pop_granted _ _ _ E). destruct a; simpl; naive_solver.
Qed.

(** A new buffer: empty, or [NULL] when the allocator refused. *)
Lemma tnt_buf_ok {D} given m :
  match tnt_buf (D := D) given m with
  | Some s => (Refuse ∉ m -> granted s) /\ st_wrcnt s = 0 /\
      st_data s = Some (Sbuf (Core PNull 0 0 0) tnt_buf_resize None false)
  | None => ~ (Refuse ∉ m)
  end.
Proof.
  unfold tnt_buf. pose proof (tnt_stream_init_ok (T := sbuf D) given m) as H.
  destruct (tnt_stream_init given m) as [s|]; simpl; [|done].
  destruct (pop (st_mem s)) as [a m'] eqn:E. pose proof (pop_granted _ _ _ E) as Hp. unfold granted in *.
  destruct a; simpl; naive_solver.
Qed.

(** Nothing has been allocated for the data yet. *)
Definition fresh (s : object) : Prop :=
  exists sb o, st_data s = Some sb /\ sb_core sb = Core PNull 0 0 0 /\ sb_as sb = false /\
    sb_resize sb = tnt_sbuf_object_resize /\ sb_subdata sb = Some o.

(** A new object holds the empty abstract object. *)
Lemma tnt_object_ok given m :
  exists r, tnt_object given m = Some r /\
    match r with
    | Some s => (Refuse ∉ m -> granted s) /\ st_wrcnt s = 0 /\ repr s (Abs [] [] 8 TNT_SBO_SIMPLE) /\ fresh s
    | None => ~ (Refuse ∉ m)
    end.
Proof.
  unfold tnt_object. pose proof (tnt_buf_ok (D := sbo) given m) as H.
  destruct (tnt_buf given m) as [s|]; [|by exists None].
  destruct H as (Hg & Hw & Hd). unfold tnt_stream_free, tnt_buf_free, granted in *. rewrite Hd. simpl.
  destruct (pop (st_mem s)) as [[|j1] m1] eqn:E1; pose proof (pop_granted _ _ _ E1) as Hp1; simpl.
  - eexists; split; [done|]. intros Hm. by destruct (Hp1 (Hg Hm)).
  - destruct (pop m1) as [[|j2] m2] eqn:E2; pose proof (pop_granted _ _ _ E2) as Hp2; simpl.
    + eexists; split; [done|]. intros Hm. destruct (Hp1 (Hg Hm)) as [_ Hm1]. by destruct (Hp2 Hm1).
    + unfold tnt_object_type. simpl. rewrite Hw, decide_False by lia. simpl.
      eexists; split; [done|]. simpl. split; [|split; [done|]].
      { intros Hm. apply Hp2, Hp1, Hg, Hm. }
      split; [|by do 2 eexists].
      do 2 eexists. split; [done|]. simpl. repeat split; auto; simpl; lia.
Qed.

Lemma object_type_repr s a mode :
  st_wrcnt s = 0 -> repr s a ->
  exists s', tnt_object_type s mode = Some (0, s') /\ side s s' /\
    repr s' (Abs (a_bytes a) (a_open a) (a_cap a) mode).
Proof.
  intros Hw (sb & o & Hs & Hc & Has & HR & Ho & Hb & Hop & Hsl & Hsz & Hcap & Hm).
  unfold tnt_object_type, get_sbo, put_sbo. rewrite Hw, decide_False by lia. rewrite Hs. simpl.
  rewrite Ho. simpl. eexists; split; [done|]. split; [by apply side_mem|].
  do 2 eexists. split; [done|]. simpl. repeat split; auto; apply Hc.
Qed.

(** Every tree encodes to one msgpack object. *)
Lemma node_object mode (map : bool) os :
  Forall mp_object os -> zlen os < 2 ^ 32 -> (map = true -> zlen os mod 2 = 0) ->
  mp_object (node_header mode map (arity map os) ++ concat os).
Proof.
  intros Ho Hl He. assert (0 <= zlen os) by len.
  assert (map = true -> zlen os = 2 * (zlen os / 2)) as Hhalf.
  { intros E. specialize (He E). apply Z.div_exact; lia. }
  assert (zlen os / 2 < 2 ^ 32) by (apply Z.div_lt_upper_bound; lia).
  unfold arity, node_header, mp_encode_array32, mp_encode_map32.
  rewrite !spec_store_u8, !spec_store_u32. rewrite !u32_small by (destruct map; [|lia]; split; [apply Z.div_pos; lia|done]).
  destruct mode, map; try (by apply mp_object_array); try (by apply mp_object_array32);
    try (by apply mp_object_map; [|auto|]); by apply mp_object_map32; [|auto|].
Qed.

Lemma leaf_object l : leaf_ok l -> mp_object (leaf_bytes l).
Proof.
  destruct l; simpl; intros H; try (by apply mp_object_uint); try (by apply mp_object_str);
    try (by apply mp_object_bin); apply mp_object_intro; intros r.
  - apply spec_check_nil.
  - case_decide; [apply spec_check_int|apply spec_check_uint]; lia.
  - apply spec_check_bool.
  - apply spec_check_float.
  - apply spec_check_double.
Qed.

Lemma tree_object mode t : tree_ok t -> mp_object (tree_bytes mode t).
Proof.
  induction t as [l|map ts IH] using tree_ind'; intros Hok; [by apply leaf_object|].
  pose proof Hok as (Hl & He & _). simpl.
  replace (arity map ts) with (arity map (tree_bytes mode <$> ts)) by (unfold arity, zlen; by rewrite length_fmap).
  apply node_object; unfold zlen in *; rewrite ?length_fmap; auto.
  apply Forall_fmap, Forall_forall. intros t Ht. rewrite Forall_forall in IH.
  apply IH; [done|]. by eapply tree_ok_children.
Qed.

Lemma verify_object {D} (s : stream (sbuf D)) sb :
  st_data s = Some sb -> mp_object (contents (sb_core sb)) -> tnt_object_verify s None = Some 0.
Proof. intros Hs Ho. unfold tnt_object_verify. rewrite Hs. simpl. by rewrite Ho. Qed.

(** C1: The object builder is correct for every packing mode: for every tree
    of msgpack values that nests at most eight containers, and whatever the
    allocator answers, the calls [tnt_object], [tnt_object_type],
    [tnt_object_add_*] and [tnt_object_container_close] that build it are
    defined (no write out of the buffer); when none of them fails the buffer
    holds exactly the encoding of the tree and [tnt_object_verify] accepts it;
    and none of them fails when the allocator grants every request. *)
Theorem make_tree_correct mode t given m :
  tree_ok t -> (tree_depth t <= 8)%nat ->
  exists r, make_tree mode t given m = Some r /\
    (Refuse ∉ m -> exists z s, r = Some (z, s) /\ z <> -1) /\
    match r with
    | Some (z, s) =>
        z = -1 \/ (buf_contents s = tree_bytes mode t /\ tnt_object_verify s None = Some 0)
    | None => True
    end.
Proof.
  intros Hok Hd. unfold make_tree. destruct (tnt_object_ok given m) as (r & -> & Hr). simpl.
  destruct r as [s|]; [|exists None; naive_solver].
  destruct Hr as (Hg & Hw & H & _).
  destruct (object_type_repr s _ mode Hw H) as (s1 & -> & Hs1 & H1). simpl.
  destruct (add_tree_repr t Hok s1 _ H1 Hd) as (z & s2 & -> & Hs2 & Hg2 & Hz). simpl.
  eexists; split; [done|]. split.
  - intros Hm. exists z, s2. split; [done|]. apply Hg2, Hs1, Hg, Hm.
  - destruct Hz as [->|(_ & _ & H2)]; [by left|right].
    pose proof (repr_contents _ _ H2) as E. simpl in E. split; [done|].
    destruct H2 as (sb & o & Hsb & _). apply (verify_object _ sb Hsb).
    unfold buf_contents in E. rewrite Hsb in E. rewrite E. by apply tree_object.
Qed.

End program.

(** [nest n]: an empty array inside [n] arrays of one element. *)
Fixpoint nest (n : nat) : tree :=
  match n with O => Node false [] | S n => Node false [nest n] end.

(** The outcome of the client program: result, contents, verdict. *)
Definition tree_outcome {MP : MsgPuck} (mode : tnt_sbo_type) (t : tree) : option (Z * bytes * option Z) :=
  match make_tree mode t false [] with
  | Some (Some (z, s)) => Some (z, buf_contents s, tnt_object_verify s None)
  | _ => None
  end.

Definition sample_tree : tree :=
  Node true [Leaf (LUint 1); Node false [Leaf LNil; Leaf (LStr [104; 105])]].

Lemma make_tree_correct_witness :
  tree_bytes (MP := RefPuck) TNT_SBO_PACKED sample_tree = [0x81; 1; 0x92; 0xc0; 0xa2; 104; 105] /\
  exists r, make_tree (MP := RefPuck) TNT_SBO_PACKED sample_tree false [] = Some r /\
    (Refuse ∉ ([] : malloc_state) -> exists z s, r = Some (z, s) /\ z <> -1) /\
    match r with
    | Some (z, s) => z = -1 \/
        (buf_contents s = tree_bytes (MP := RefPuck) TNT_SBO_PACKED sample_tree /\
         tnt_object_verify s None = Some 0)
    | None => True
    end.
Proof.
  split; [reflexivity|]. apply (make_tree_correct TNT_SBO_PACKED sample_tree false []).
  - simpl. unfold zlen. simpl. repeat split; intros; reflexivity || lia.
  - simpl. lia.
Defined.

(** Nesting a ninth container makes the stack of open containers grow, and
    growing loses its entries: building nine nested arrays in the packed or the
    sparse mode reports success but leaves the outer headers unwritten, so the
    result is not the encoding of the tree and [tnt_object_verify] rejects it;
    the simple mode, which does not use the stack entries, is not affected. *)
Theorem ninth_container_corrupted mode :
  match tree_outcome (MP := RefPuck) mode (nest 8) with
  | Some (z, bs, v) =>
      z <> -1 /\
      (mode <> TNT_SBO_SIMPLE <-> bs <> tree_bytes (MP := RefPuck) mode (nest 8)) /\
      (mode <> TNT_SBO_SIMPLE <-> v = Some (-1))
  | None => False
  end.
Proof. destruct mode; vm_compute; intuition discriminate. Qed.
