(* ===== verification/Request.v ===== *)
(** * tnt/tnt_request.c: request objects

    [request] is [struct tnt_request]; a request is set up field by field and
    written to a stream by [tnt_request_writeout].  The encoder fills a local
    array [char header\[128\]] and an io vector whose entries point into that
    array or at the client's bytes: both are modelled ([wr]), with [None] for
    a byte of the array that has not been written.

    The key and the tuple are pointers into the client's memory; the model
    keeps the bytes they denote when they are set (the client must not change
    or free that memory before the request is written). *)

From S2P Require Import Prelude Msgpuck MsgpuckRef Mem Stream Buf Proto Object.

Record request := Request {
  hdr_sync : Z;              (** [uint64_t] *)
  hdr_type : Z;              (** [enum tnt_request_t]; 0 until it is set *)
  space_id : Z;              (** [uint32_t], as the next three *)
  index_id : Z;
  offset : Z;
  limit : Z;
  iterator : Z;              (** [enum tnt_iterator_t] *)
  key : option bytes;        (** from [key] to [key_end]; [None] is [NULL] *)
  key_object : option object;
  tuple : option bytes;
  tuple_object : option object;
  index_base : Z;            (** [int] *)
  req_alloc : bool;
}.

Definition set_sync n r := Request n (hdr_type r) (space_id r) (index_id r) (offset r) (limit r)
  (iterator r) (key r) (key_object r) (tuple r) (tuple_object r) (index_base r) (req_alloc r).
Definition set_type n r := Request (hdr_sync r) n (space_id r) (index_id r) (offset r) (limit r)
  (iterator r) (key r) (key_object r) (tuple r) (tuple_object r) (index_base r) (req_alloc r).
Definition set_key_bytes k r := Request (hdr_sync r) (hdr_type r) (space_id r) (index_id r) (offset r)
  (limit r) (iterator r) k (key_object r) (tuple r) (tuple_object r) (index_base r) (req_alloc r).
Definition set_tuple_bytes t r := Request (hdr_sync r) (hdr_type r) (space_id r) (index_id r) (offset r)
  (limit r) (iterator r) (key r) (key_object r) t (tuple_object r) (index_base r) (req_alloc r).
Definition set_objects k t r := Request (hdr_sync r) (hdr_type r) (space_id r) (index_id r) (offset r)
  (limit r) (iterator r) (key r) k (tuple r) t (index_base r) (req_alloc r).

(** ** Setting a request up *)

(** [tnt_request_init]; [None] is [NULL]. *)
Definition tnt_request_init (given : bool) (a : answer) : option request :=
  match given, a with
  | false, Refuse => None
  | _, _ => Some (Request 0 0 0 0 0 UINT32_MAX 0 None None None None 0 (negb given))
  end.

(** [TNT_REQUEST_CUSTOM(NM, CNM)] *)
Definition tnt_request_custom (op : tnt_request_t) (given : bool) (a : answer) : option request :=
  set_type op <$> tnt_request_init given a.

Definition tnt_request_select := tnt_request_custom TNT_OP_SELECT.
Definition tnt_request_insert := tnt_request_custom TNT_OP_INSERT.
Definition tnt_request_replace := tnt_request_custom TNT_OP_REPLACE.
Definition tnt_request_update := tnt_request_custom TNT_OP_UPDATE.
Definition tnt_request_delete := tnt_request_custom TNT_OP_DELETE.
Definition tnt_request_call := tnt_request_custom TNT_OP_CALL.
Definition tnt_request_call_16 := tnt_request_custom TNT_OP_CALL_16.
Definition tnt_request_auth := tnt_request_custom TNT_OP_AUTH.
Definition tnt_request_eval := tnt_request_custom TNT_OP_EVAL.
Definition tnt_request_upsert := tnt_request_custom TNT_OP_UPSERT.
Definition tnt_request_ping := tnt_request_custom TNT_OP_PING.

(** [tnt_request_free]: [Some None] when the struct itself was freed. *)
Definition tnt_request_free (r : request) : option (option request) :=
  let free := tnt_stream_free (Some (tnt_buf_free (Some tnt_sbuf_object_free))) in
  _ ← match key_object r with Some o => free (Some o) | None => Some None end;
  _ ← match tuple_object r with Some o => free (Some o) | None => Some None end;
  let r := set_objects None None r in
  Some (if req_alloc r then None else Some r).

Definition tnt_request_set_space (r : request) (space : Z) : Z * request :=
  (0, Request (hdr_sync r) (hdr_type r) (u32 space) (index_id r) (offset r) (limit r) (iterator r)
        (key r) (key_object r) (tuple r) (tuple_object r) (index_base r) (req_alloc r)).

Definition tnt_request_set_index (r : request) (index : Z) : Z * request :=
  (0, Request (hdr_sync r) (hdr_type r) (space_id r) (u32 index) (offset r) (limit r) (iterator r)
        (key r) (key_object r) (tuple r) (tuple_object r) (index_base r) (req_alloc r)).

Definition tnt_request_set_offset (r : request) (offset : Z) : Z * request :=
  (0, Request (hdr_sync r) (hdr_type r) (space_id r) (index_id r) (u32 offset) (limit r) (iterator r)
        (key r) (key_object r) (tuple r) (tuple_object r) (index_base r) (req_alloc r)).

Definition tnt_request_set_limit (r : request) (limit : Z) : Z * request :=
  (0, Request (hdr_sync r) (hdr_type r) (space_id r) (index_id r) (offset r) (u32 limit) (iterator r)
        (key r) (key_object r) (tuple r) (tuple_object r) (index_base r) (req_alloc r)).

Definition tnt_request_set_iterator (r : request) (iterator : Z) : Z * request :=
  (0, Request (hdr_sync r) (hdr_type r) (space_id r) (index_id r) (offset r) (limit r) iterator
        (key r) (key_object r) (tuple r) (tuple_object r) (index_base r) (req_alloc r)).

(** The argument is [uint32_t], the field [int]. *)
Definition tnt_request_set_index_base (r : request) (index_base : Z) : Z * request :=
  (0, Request (hdr_sync r) (hdr_type r) (space_id r) (index_id r) (offset r) (limit r) (iterator r)
        (key r) (key_object r) (tuple r) (tuple_object r) (s32 index_base) (req_alloc r)).

Definition tnt_request_set_key {D} (r : request) (s : stream (sbuf D)) : option (Z * request) :=
  data ← TNT_SBUF_DATA s; Some (0, set_key_bytes data r).

(** [func]: the memory from the pointer on, [None] for [NULL]. *)
Definition tnt_request_set_func (r : request) (func : option bytes) (flen : Z) : option (Z * request) :=
  if negb (is_call (hdr_type r)) then Some (-1, r) else
  match func with
  | None => Some (-1, r)
  | Some func => k ← slice 0 (Z.to_nat flen) func; Some (0, set_key_bytes (Some k) r)
  end.

Definition tnt_request_set_funcz (r : request) (func : option bytes) : option (Z * request) :=
  if negb (is_call (hdr_type r)) then Some (-1, r) else
  match func with
  | None => Some (-1, r)
  | Some func => n ← strlen func; k ← slice 0 n func; Some (0, set_key_bytes (Some k) r)
  end.

Definition tnt_request_set_expr (r : request) (expr : option bytes) (elen : Z) : option (Z * request) :=
  if decide (hdr_type r <> TNT_OP_EVAL) then Some (-1, r) else
  match expr with
  | None => Some (-1, r)
  | Some expr => k ← slice 0 (Z.to_nat elen) expr; Some (0, set_key_bytes (Some k) r)
  end.

Definition tnt_request_set_exprz (r : request) (expr : option bytes) : option (Z * request) :=
  if decide (hdr_type r <> TNT_OP_EVAL) then Some (-1, r) else
  match expr with
  | None => Some (-1, r)
  | Some expr => n ← strlen expr; k ← slice 0 n expr; Some (0, set_key_bytes (Some k) r)
  end.

Definition tnt_request_set_ops {D} (r : request) (s : stream (sbuf D)) : option (Z * request) :=
  if decide (hdr_type r = TNT_OP_UPDATE) then
    data ← TNT_SBUF_DATA s; Some (0, set_tuple_bytes data r)
  else if decide (hdr_type r = TNT_OP_UPSERT) then
    data ← TNT_SBUF_DATA s; Some (0, set_key_bytes data r)
  else Some (-1, r).

Definition tnt_request_set_tuple {D} (r : request) (s : stream (sbuf D)) : option (Z * request) :=
  data ← TNT_SBUF_DATA s; Some (0, set_tuple_bytes data r).

(** ** Writing a request *)

(** An [iovec]: [len] bytes of the local array at [off], or client's bytes. *)
Inductive iovec := InHeader (off len : nat) | Ext (bs : bytes).

Definition iov_len (i : iovec) : nat :=
  match i with InHeader _ n => n | Ext bs => length bs end.

(** The locals of the encoder. *)
Record wr := Wr {
  header : list (option Z);   (** [char header\[128\]] *)
  pos : nat;
  begin : nat;
  iov : list iovec;           (** [v] up to [v_sz] *)
  nd : Z;
}.

(** [pos = mp_encode_*(pos, ...)] *)
Definition emit (bs : bytes) (w : wr) : option wr :=
  h ← splice (pos w) (Some <$> bs) (header w);
  Some (Wr h (pos w + length bs) (begin w) (iov w) (nd w)).

(** [v[v_sz].iov_base = ..; v[v_sz++].iov_len = ..]; the array has 10 entries. *)
Definition push_iov (i : iovec) (w : wr) : option wr :=
  if decide (length (iov w) < 10)%nat
  then Some (Wr (header w) (pos w) (begin w) (iov w ++ [i]) (nd w)) else None.

(** The pending header bytes, then the client's bytes. *)
Definition push_client (bs : bytes) (w : wr) : option wr :=
  w ← push_iov (InHeader (begin w) (pos w - begin w)) w;
  w ← push_iov (Ext bs) (Wr (header w) (pos w) (pos w) (iov w) (nd w));
  Some (Wr (header w) (pos w) (begin w) (iov w) (nd w + 1)).

(** The bytes an entry points at; [None] when one of them is not initialised. *)
Definition iov_bytes (h : list (option Z)) (i : iovec) : option bytes :=
  match i with
  | InHeader off n => bs ← slice off n h; mapM id bs
  | Ext bs => Some bs
  end.

Section ops.
Context {MP : MsgPuck}.

(** [if (c) { encode key; encode value; nd += 1; }] *)
Definition emit_if (c : bool) (k value : Z) (w : wr) : option wr :=
  if c then
    w ← emit (mp_encode_uint k) w;
    w ← emit (mp_encode_uint value) w;
    Some (Wr (header w) (pos w) (begin w) (iov w) (nd w + 1))
  else Some w.

(** The [if (req->key)] block; [Some None] is its [return -1]. *)
Definition emit_key (r : request) (w : wr) : option (option wr) :=
  match key r with
  | None => Some (Some w)
  | Some k =>
      let tp := hdr_type r in
      w ← (if decide (tp = TNT_OP_EVAL) then
             w ← emit (mp_encode_uint TNT_EXPRESSION) w;
             Some <$> emit (mp_encode_strl (u32 (zlen k))) w
           else if is_call tp then
             w ← emit (mp_encode_uint TNT_FUNCTION) w;
             Some <$> emit (mp_encode_strl (u32 (zlen k))) w
           else if decide (tp = TNT_OP_SELECT \/ tp = TNT_OP_UPDATE \/ tp = TNT_OP_DELETE) then
             Some <$> emit (mp_encode_uint TNT_KEY) w
           else if decide (tp = TNT_OP_UPSERT) then Some <$> emit (mp_encode_uint TNT_OPS) w
           else Some None);
      match w with
      | None => Some None
      | Some w => Some <$> push_client k w
      end
  end.

Definition emit_tuple (r : request) (w : wr) : option wr :=
  match tuple r with
  | None => Some w
  | Some t => w ← emit (mp_encode_uint TNT_TUPLE) w; push_client t w
  end.

(** From [assert(mp_sizeof_map(nd) == 1)] to the call of [writev]: the io
    vector as the stream sees it.  [map] is the place of the body's map header. *)
Definition close_iov (map : nat) (w : wr) : option (list bytes) :=
  if decide (mp_sizeof_map (nd w) <> 1) then None else
  w ← (if decide (pos w <> begin w)
       then push_iov (InHeader (begin w) (pos w - begin w)) w else Some w);
  h ← splice map (Some <$> mp_encode_map (nd w)) (header w);
  match iov w with
  | InHeader base n :: rest =>
      let plen := sum_list (iov_len <$> rest) in
      let hlen := Z.to_nat (mp_sizeof_luint32 (Z.of_nat plen)) in
      if decide (base < hlen)%nat then None else
      h ← splice (base - hlen) (Some <$> mp_encode_luint32 (Z.of_nat plen)) h;
      mapM (iov_bytes h) (InHeader (base - hlen) (n + hlen) :: rest)
  | _ => None
  end.

(** The body of [tnt_request_writeout] between the choice of the sync id and
    the call of [writev]; [Some None] is [return -1]. *)
Definition request_iov (r : request) : option (option (list bytes)) :=
  let tp := hdr_type r in
  let w := Wr (replicate 128 None) 9 9 [InHeader 9 0] 0 in
  w ← emit (mp_encode_map 2) w;
  w ← emit (mp_encode_uint TNT_CODE) w;
  w ← emit (mp_encode_uint (hdr_type r)) w;
  w ← emit (mp_encode_uint TNT_SYNC) w;
  w ← emit (mp_encode_uint (hdr_sync r)) w;
  let map := pos w in
  let w := Wr (header w) (pos w + 1) (begin w) (iov w) (nd w) in
  let select := bool_decide (tp = TNT_OP_SELECT) in
  let update := bool_decide (tp = TNT_OP_UPDATE) in
  let upsert := bool_decide (tp = TNT_OP_UPSERT) in
  w ← emit_if (bool_decide (tp < TNT_OP_CALL_16) || upsert) TNT_SPACE (space_id r) w;
  w ← emit_if (bool_decide (index_id r <> 0) && (select || update || bool_decide (tp = TNT_OP_DELETE)))
        TNT_INDEX (index_id r) w;
  w ← emit_if select TNT_LIMIT (limit r) w;
  w ← emit_if (bool_decide (offset r <> 0) && select) TNT_OFFSET (offset r) w;
  w ← emit_if (bool_decide (iterator r <> 0) && select) TNT_ITERATOR (iterator r) w;
  w ← emit_key r w;
  match w with
  | None => Some None
  | Some w =>
      w ← emit_tuple r w;
      w ← emit_if (bool_decide (index_base r <> 0) && (update || upsert))
            TNT_INDEX_BASE (u64 (index_base r)) w;
      Some <$> close_iov map w
  end.

(** The stream with the sync id of the request chosen: [sync] is the pointer
    argument, [None] for [NULL]. *)
Definition take_sync {T} (s : stream T) (sync : option Z) : stream T :=
  if decide (sync = Some INT64_MAX /\ Z.land (st_reqid s) INT64_MAX = INT64_MAX)
  then set_reqid 0 s else s.

(** [tnt_request_writeout]: result, stream, request, value of [*sync]. *)
Definition tnt_request_writeout {T} `{Sink T} (s : stream T) (r : request) (sync : option Z)
    : option (Z * stream T * request * option Z) :=
  let s := take_sync s sync in
  let r := set_sync (st_reqid s) r in
  let s := reqid_incr s in
  v ← request_iov r;
  match v with
  | None => Some (-1, s, r, sync)
  | Some v =>
      '(rv, s) ← sk_writev s v;
      if decide (rv = -1) then Some (-1, s, r, sync)
      else Some (0, s, r, (fun _ => hdr_sync r) <$> sync)
  end.

(** [tnt_request_compile]; the result is [int64_t]. *)
Definition tnt_request_compile {T} `{Sink T} (s : stream T) (r : request)
    : option (Z * stream T * request) :=
  '(rc, s, r, sync) ← tnt_request_writeout s r (Some INT64_MAX);
  if decide (rc = -1) then Some (-1, s, r) else Some (s64 (default 0 sync), s, r).

End ops.
