(* ===== verification/RequestSpec.v ===== *)
(** * Correctness of the request encoder (tnt/tnt_request.c)

    [request_fields] is the body a request stands for.  The encoder never
    leaves its 128-byte array nor its io vector, sends only bytes it has
    written, and what it sends is the [packet] of these fields; a server that
    decodes the stream gets them back.  Sync ids are consecutive and
    [tnt_request_compile] returns them without ambiguity. *)

From S2P Require Import Prelude Msgpuck MsgpuckRef Mem Stream Buf Proto Object Request.

(** ** The fields of a request: the specification *)

Section fields.
Context {MP : MsgPuck}.

Definition field_if (c : bool) (k v : Z) : fields := if c then [(k, mp_encode_uint v)] else [].

(** The key field of each request type that has one. *)
Definition key_field (tp : Z) (k : bytes) : option (Z * bytes) :=
  if decide (tp = TNT_OP_EVAL) then Some (TNT_EXPRESSION : Z, mp_encode_str k)
  else if is_call tp then Some (TNT_FUNCTION : Z, mp_encode_str k)
  else if decide (tp = TNT_OP_SELECT \/ tp = TNT_OP_UPDATE \/ tp = TNT_OP_DELETE) then Some (TNT_KEY : Z, k)
  else if decide (tp = TNT_OP_UPSERT) then Some (TNT_OPS : Z, k)
  else None.

Definition key_fields (r : request) : option fields :=
  match key r with
  | None => Some []
  | Some k => (fun f => [f]) <$> key_field (hdr_type r) k
  end.

Definition tuple_fields (r : request) : fields :=
  match tuple r with None => [] | Some t => [(TNT_TUPLE : Z, t)] end.

(** The body of a request, [None] when its type cannot have a key. *)
Definition request_fields (r : request) : option fields :=
  let tp := hdr_type r in
  let select := bool_decide (tp = TNT_OP_SELECT) in
  let update := bool_decide (tp = TNT_OP_UPDATE) in
  let upsert := bool_decide (tp = TNT_OP_UPSERT) in
  kf ← key_fields r;
  Some (field_if (bool_decide (tp < TNT_OP_CALL_16) || upsert) TNT_SPACE (space_id r) ++
        field_if (bool_decide (index_id r <> 0) && (select || update || bool_decide (tp = TNT_OP_DELETE)))
          TNT_INDEX (index_id r) ++
        field_if select TNT_LIMIT (limit r) ++
        field_if (bool_decide (offset r <> 0) && select) TNT_OFFSET (offset r) ++
        field_if (bool_decide (iterator r <> 0) && select) TNT_ITERATOR (iterator r) ++
        kf ++ tuple_fields r ++
        field_if (bool_decide (index_base r <> 0) && (update || upsert)) TNT_INDEX_BASE (u64 (index_base r))).

End fields.

(** The fields of a request are in the range of their C types, and its strings
    are shorter than 4 GB, the limit of msgpack. *)
Record request_ok (r : request) : Prop := {
  ok_type : 0 <= hdr_type r < 128;
  ok_space : 0 <= space_id r < 2 ^ 32;
  ok_index : 0 <= index_id r < 2 ^ 32;
  ok_offset : 0 <= offset r < 2 ^ 32;
  ok_limit : 0 <= limit r < 2 ^ 32;
  ok_iterator : 0 <= iterator r < 128;
  ok_key : forall k, key r = Some k -> zlen k < 2 ^ 32;
  ok_tuple : forall t, tuple r = Some t -> zlen t < 2 ^ 32;
}.

(** ** The local array *)

(** Fill the missing byte. *)
Definition fill (b : Z) (l : list (option Z)) : bytes := default b <$> l.

(** A closed piece: header bytes and the client's bytes that follow them. *)
Definition piece : Type := list (option Z) * bytes.

Definition pieces_hdr (ps : list piece) : list (option Z) := concat (fst <$> ps).
Definition pieces_flat (ps : list piece) : list (option Z) := concat ((fun p => fst p ++ (Some <$> snd p)) <$> ps).

(** The io vector of the closed pieces from array offset [off]. *)
Fixpoint pieces_iov (off : nat) (ps : list piece) : list iovec :=
  match ps with
  | [] => []
  | (h, e) :: ps => InHeader off (length h) :: Ext e :: pieces_iov (off + length h) ps
  end.

(** The array bytes up to the first client's bytes. *)
Definition first_hdr (ps : list piece) (cur : list (option Z)) : list (option Z) :=
  match ps with [] => cur | (h, _) :: _ => h end.

(** [w] has emitted [fl] (array and client's bytes in order) with [n] fields;
    at most [p] bytes of the array and [k] pieces are used.  The array bytes
    are [P] and then initialised ones. *)
Definition rep (w : wr) (P fl : list (option Z)) (n : Z) (p k : nat) : Prop :=
  exists ps cur Q, header w = replicate 9 None ++ pieces_hdr ps ++ cur ++ replicate (128 - pos w) None /\
    begin w = (9 + length (pieces_hdr ps))%nat /\ pos w = (begin w + length cur)%nat /\
    (pos w <= p)%nat /\ iov w = InHeader 9 0 :: pieces_iov 9 ps /\ (length ps <= k)%nat /\
    nd w = n /\ fl = pieces_flat ps ++ cur /\
    P `prefix_of` first_hdr ps cur /\ pieces_hdr ps ++ cur = P ++ (Some <$> Q).

Lemma length_pieces_iov off ps : length (pieces_iov off ps) = (2 * length ps)%nat.
Proof. revert off; induction ps as [|[h e] ps IH]; intros off; simpl; [done|]. rewrite IH. lia. Qed.

Lemma pieces_iov_app off ps h e :
  pieces_iov off (ps ++ [(h, e)]) =
    pieces_iov off ps ++ [InHeader (off + length (pieces_hdr ps)) (length h); Ext e].
Proof.
  revert off; induction ps as [|[h' e'] ps IH]; intros off; unfold pieces_hdr; csimpl.
  - by rewrite Nat.add_0_r.
  - rewrite IH. unfold pieces_hdr. len. by rewrite Nat.add_assoc.
Qed.

Lemma pieces_hdr_app ps h e : pieces_hdr (ps ++ [(h, e)]) = pieces_hdr ps ++ h.
Proof. unfold pieces_hdr. rewrite fmap_app, concat_app. simpl. by rewrite app_nil_r. Qed.

Lemma pieces_flat_app ps h e : pieces_flat (ps ++ [(h, e)]) = pieces_flat ps ++ h ++ (Some <$> e).
Proof. unfold pieces_flat. rewrite fmap_app, concat_app. simpl. by rewrite app_nil_r. Qed.

(** Writing over the unused part of the array. *)
Lemma splice_free w (ps : list piece) (cur l : list (option Z)) :
  header w = replicate 9 None ++ pieces_hdr ps ++ cur ++ replicate (128 - pos w) None ->
  begin w = (9 + length (pieces_hdr ps))%nat -> pos w = (begin w + length cur)%nat ->
  (pos w + length l <= 128)%nat ->
  splice (pos w) l (header w)
    = Some (replicate 9 None ++ pieces_hdr ps ++ (cur ++ l) ++ replicate (128 - (pos w + length l)) None).
Proof.
  intros Eh Eb Ep Hb. set (pre := replicate 9 None ++ pieces_hdr ps ++ cur).
  assert (header w = pre ++ replicate (length l) None ++ replicate (128 - (pos w + length l)) None) as ->.
  { rewrite Eh. unfold pre. rewrite <- replicate_add, <- !app_assoc. do 4 f_equal. lia. }
  assert (pos w = length pre) as Ep' by (unfold pre; len).
  rewrite Ep', splice_app by len. unfold pre. by rewrite <- !app_assoc.
Qed.

Lemma emit_rep w P fl n p k bs :
  rep w P fl n p k -> (p + length bs <= 128)%nat ->
  exists w', emit bs w = Some w' /\ rep w' P (fl ++ (Some <$> bs)) n (p + length bs) k.
Proof.
  intros (ps & cur & Q & Eh & Eb & Ep & Hp & Ei & Hk & En & Ef & HP & EQ) Hb. unfold emit.
  assert (length (Some <$> bs) = length bs) as Lb by apply length_fmap.
  rewrite (splice_free w ps cur (Some <$> bs) Eh Eb Ep) by lia. simpl. eexists; split; [done|].
  exists ps, (cur ++ (Some <$> bs)), (Q ++ bs). rewrite Lb. simpl. repeat split; try done; try len.
  - rewrite Ef. by rewrite app_assoc.
  - destruct ps as [|[h e] ps]; simpl in *; [by apply prefix_app_r|done].
  - by rewrite fmap_app, app_assoc, EQ, <- app_assoc.
Qed.

(** [pos++]: a byte left to be written later; no client's bytes yet. *)
Lemma skip_rep w fl n p :
  rep w [] fl n p 0 -> (p + 1 <= 128)%nat ->
  rep (Wr (header w) (pos w + 1) (begin w) (iov w) (nd w)) (fl ++ [None]) (fl ++ [None]) n (p + 1) 0.
Proof.
  intros (ps & cur & Q & Eh & Eb & Ep & Hp & Ei & Hk & En & Ef & HP & EQ) Hb.
  destruct ps as [|]; [|simpl in Hk; lia]. unfold pieces_flat, pieces_hdr in *. simpl in *. subst fl.
  exists [], (cur ++ [None]), []. unfold pieces_flat, pieces_hdr. simpl.
  repeat split; try done; try len; [|by rewrite app_nil_r].
  rewrite Eh, <- app_assoc. repeat f_equal.
  change ([None] ++ replicate (128 - (pos w + 1)) None) with (replicate (S (128 - (pos w + 1))) (None : option Z)).
  f_equal. lia.
Qed.

Lemma rep_weaken w P fl n p k p' k' :
  rep w P fl n p k -> (p <= p')%nat -> (k <= k')%nat -> rep w P fl n p' k'.
Proof.
  intros (ps & cur & Q & Eh & Eb & Ep & Hp & Ei & Hk & En & Ef & HP & EQ) H1 H2.
  exists ps, cur, Q. repeat split; try done; lia.
Qed.

Lemma push_client_rep w P fl n p k bs :
  rep w P fl n p k -> (k <= 3)%nat ->
  exists w', push_client bs w = Some w' /\ rep w' P (fl ++ (Some <$> bs)) (n + 1) p (k + 1).
Proof.
  intros (ps & cur & Q & Eh & Eb & Ep & Hp & Ei & Hk & En & Ef & HP & EQ) Hb.
  assert (length (iov w) <= 7)%nat as Hi by (rewrite Ei; simpl; rewrite length_pieces_iov; lia).
  unfold push_client, push_iov. rewrite decide_True by lia. simpl. rewrite decide_True by len.
  simpl. eexists; split; [done|].
  exists (ps ++ [(cur, bs)]), [], Q. simpl.
  rewrite pieces_hdr_app, pieces_flat_app, pieces_iov_app.
  repeat split; try done; try (len; done).
  - rewrite Eh. by rewrite <- !app_assoc.
  - rewrite Ei. simpl. rewrite <- app_assoc. simpl. repeat f_equal; lia.
  - rewrite Ef. by rewrite app_nil_r, <- app_assoc.
  - by destruct ps as [|[h e] ps].
  - by rewrite app_nil_r.
Qed.

Lemma rep_count w P fl n p k :
  rep w P fl n p k -> rep (Wr (header w) (pos w) (begin w) (iov w) (nd w + 1)) P fl (n + 1) p k.
Proof.
  intros (ps & cur & Q & Eh & Eb & Ep & Hp & Ei & Hk & En & Ef & HP & EQ).
  exists ps, cur, Q. simpl. repeat split; try done. lia.
Qed.

(** ** The fields as emitted *)

Section encode.
Context {MP : MsgPuck} {MPS : MsgPuckSpec MP}.

(** [w] has emitted the prefix [P] and the fields [fs]. *)
Definition sent (w : wr) (P : list (option Z)) (fs : fields) (p k : nat) : Prop :=
  rep w P (P ++ (Some <$> concat (field_bytes <$> fs))) (zlen fs) p k.

Lemma emit_if_sent c k v w P fs p q :
  sent w P fs p q -> 0 <= k < 128 -> 0 <= v < 2 ^ 64 -> (p + 10 <= 128)%nat ->
  exists w', emit_if c k v w = Some w' /\ sent w' P (fs ++ field_if c k v) (p + 10) q.
Proof.
  intros H Hk Hv Hp. pose proof (spec_len_uint7 k Hk) as L1. pose proof (spec_len_uint v Hv) as L2.
  unfold zlen in L1, L2. unfold emit_if, field_if. destruct c.
  2: { eexists; split; [done|]. rewrite app_nil_r. eapply rep_weaken; [exact H|lia|lia]. }
  destruct (emit_rep _ _ _ _ _ _ (mp_encode_uint k) H) as (w1 & -> & H1); [lia|]. simpl.
  destruct (emit_rep _ _ _ _ _ _ (mp_encode_uint v) H1) as (w2 & -> & H2); [lia|]. simpl.
  eexists; split; [done|]. unfold sent. rewrite fmap_app, concat_app, fmap_app. simpl.
  unfold field_bytes at 2. simpl. rewrite app_nil_r, fmap_app, !app_assoc.
  apply (rep_weaken _ _ _ _ _ q (p + 10) q) in H2; [|lia|lia].
  unfold zlen. rewrite length_app, Nat2Z.inj_add. by apply rep_count.
Qed.

Lemma push_client_sent w P fs hd bs k p q :
  rep w P (P ++ (Some <$> concat (field_bytes <$> fs)) ++ (Some <$> mp_encode_uint k ++ hd)) (zlen fs) p q ->
  (q <= 3)%nat ->
  exists w', push_client bs w = Some w' /\ sent w' P (fs ++ [(k, hd ++ bs)]) p (q + 1).
Proof.
  intros H Hq. destruct (push_client_rep _ _ _ _ _ _ bs H Hq) as (w' & -> & H'). eexists; split; [done|].
  unfold sent. rewrite fmap_app, concat_app, fmap_app. simpl. unfold field_bytes at 2. simpl.
  rewrite app_nil_r. unfold zlen in *. rewrite length_app, Nat2Z.inj_add. simpl.
  rewrite !fmap_app in *. rewrite <- !app_assoc in *. exact H'.
Qed.

Lemma body_key_bound (f : tnt_body_key_t) : 0 <= f < 128.
Proof. destruct f; simpl; lia. Qed.

(** A field whose value ends with client's bytes. *)
Lemma client_field (f : tnt_body_key_t) hd bs w P fs p q :
  sent w P fs p q -> (length hd <= 5)%nat -> (p + 6 <= 128)%nat -> (q <= 3)%nat ->
  exists w1 w2 w3, emit (mp_encode_uint f) w = Some w1 /\ emit hd w1 = Some w2 /\
    push_client bs w2 = Some w3 /\ sent w3 P (fs ++ [(f : Z, hd ++ bs)]) (p + 6) (q + 1).
Proof.
  intros H Hhd Hp Hq. pose proof (spec_len_uint7 f (body_key_bound f)) as L1. unfold zlen in L1.
  destruct (emit_rep _ _ _ _ _ _ (mp_encode_uint f) H) as (w1 & E1 & H1); [lia|].
  destruct (emit_rep _ _ _ _ _ _ hd H1) as (w2 & E2 & H2); [lia|].
  destruct (push_client_sent w2 P fs hd bs f (p + 6) q) as (w3 & E3 & H3); [|done|eauto 10].
  rewrite fmap_app, !app_assoc. eapply rep_weaken; [exact H2|lia|lia].
Qed.

Lemma client_field0 (f : tnt_body_key_t) bs w P fs p q :
  sent w P fs p q -> (p + 6 <= 128)%nat -> (q <= 3)%nat ->
  exists w1 w3, emit (mp_encode_uint f) w = Some w1 /\
    push_client bs w1 = Some w3 /\ sent w3 P (fs ++ [(f : Z, bs)]) (p + 6) (q + 1).
Proof.
  intros H Hp Hq. pose proof (spec_len_uint7 f (body_key_bound f)) as L1. unfold zlen in L1.
  destruct (emit_rep _ _ _ _ _ _ (mp_encode_uint f) H) as (w1 & E1 & H1); [lia|].
  destruct (push_client_sent w1 P fs [] bs f (p + 6) q) as (w3 & E3 & H3); [|done|eauto 10].
  rewrite app_nil_r, app_assoc. eapply rep_weaken; [exact H1|lia|lia].
Qed.

Lemma emit_key_sent r w P fs p q :
  sent w P fs p q -> request_ok r -> (p + 6 <= 128)%nat -> (q <= 3)%nat ->
  match key_fields r with
  | Some kf => exists w', emit_key r w = Some (Some w') /\ sent w' P (fs ++ kf) (p + 6) (q + 1)
  | None => emit_key r w = Some None
  end.
Proof.
  intros H Hr Hp Hq. unfold key_fields, key_field, emit_key. pose proof (ok_key r Hr) as Hkl.
  destruct (key r) as [k|]; simpl.
  2: { eexists; split; [done|]. rewrite app_nil_r. eapply rep_weaken; [exact H|lia|lia]. }
  specialize (Hkl k eq_refl). assert (0 <= zlen k < 2 ^ 32) as Hk by (split; [len|done]).
  rewrite u32_small by done. pose proof (spec_len_strl _ Hk) as L.
  assert (length (mp_encode_strl (zlen k)) <= 5)%nat as L' by (unfold zlen in L at 2 3; lia).
  simpl. destruct (decide (hdr_type r = 8)); [|destruct (is_call (hdr_type r)); [|
    destruct (decide (hdr_type r = 1 \/ _)); [|destruct (decide (hdr_type r = 9)); [|done]]]].
  - destruct (client_field TNT_EXPRESSION (mp_encode_strl (zlen k)) k w P fs p q) as (w1 & w2 & w3 & E1 & E2 & E3 & H');
      try done. simpl in E1 |- *. rewrite E1. simpl. rewrite E2. simpl. rewrite E3. eauto.
  - destruct (client_field TNT_FUNCTION (mp_encode_strl (zlen k)) k w P fs p q) as (w1 & w2 & w3 & E1 & E2 & E3 & H');
      try done. simpl in E1 |- *. rewrite E1. simpl. rewrite E2. simpl. rewrite E3. eauto.
  - destruct (client_field0 TNT_KEY k w P fs p q) as (w1 & w3 & E1 & E3 & H'); try done.
    simpl in E1 |- *. rewrite E1. simpl. rewrite E3. eauto.
  - destruct (client_field0 TNT_OPS k w P fs p q) as (w1 & w3 & E1 & E3 & H'); try done.
    simpl in E1 |- *. rewrite E1. simpl. rewrite E3. eauto.
Qed.

Lemma emit_tuple_sent r w P fs p q :
  sent w P fs p q -> (p + 6 <= 128)%nat -> (q <= 3)%nat ->
  exists w', emit_tuple r w = Some w' /\ sent w' P (fs ++ tuple_fields r) (p + 6) (q + 1).
Proof.
  intros H Hp Hq. unfold emit_tuple, tuple_fields. destruct (tuple r) as [t|].
  - destruct (client_field0 TNT_TUPLE t w P fs p q) as (w1 & w3 & E1 & E3 & H'); try done.
    simpl in E1 |- *. rewrite E1. simpl. rewrite E3. eauto.
  - eexists; split; [done|]. rewrite app_nil_r. eapply rep_weaken; [exact H|lia|lia].
Qed.

(** ** Closing the io vector *)

Lemma fill_app b l1 l2 : fill b (l1 ++ l2) = fill b l1 ++ fill b l2.
Proof. apply fmap_app. Qed.

Lemma length_fill b l : length (fill b l) = length l.
Proof. apply length_fmap. Qed.

Lemma fill_Some b bs : fill b (Some <$> bs) = bs.
Proof. unfold fill. rewrite <- list_fmap_compose. induction bs as [|x bs IH]; csimpl; [done|]. by rewrite IH. Qed.

Lemma mapM_Some_fmap (bs : bytes) : mapM id (Some <$> bs) = Some bs.
Proof. apply mapM_Some. induction bs; csimpl; by constructor. Qed.

(** An entry that points at initialised bytes. *)
Lemma iov_bytes_header pre (bs : bytes) post :
  iov_bytes (pre ++ (Some <$> bs) ++ post) (InHeader (length pre) (length bs)) = Some bs.
Proof.
  simpl. rewrite <- (length_fmap Some bs) at 1. rewrite slice_app. exact (mapM_Some_fmap bs).
Qed.

Lemma pieces_iov_bytes b pre ps post :
  exists l, mapM (iov_bytes (pre ++ (Some <$> fill b (pieces_hdr ps)) ++ post)) (pieces_iov (length pre) ps)
    = Some l /\ concat l = fill b (pieces_flat ps).
Proof.
  revert pre; induction ps as [|[h e] ps IH]; intros pre.
  - by exists [].
  - change (pieces_iov (length pre) ((h, e) :: ps))
      with (InHeader (length pre) (length h) :: Ext e :: pieces_iov (length pre + length h) ps).
    change (pieces_hdr ((h, e) :: ps)) with (h ++ pieces_hdr ps).
    change (pieces_flat ((h, e) :: ps)) with ((h ++ (Some <$> e)) ++ pieces_flat ps).
    destruct (IH (pre ++ (Some <$> fill b h))) as (l & El & Ec).
    assert (length (fill b h) = length h) as Lh by apply length_fmap.
    rewrite length_app, length_fmap, Lh in El.
    exists (fill b h :: e :: l).
    assert (pre ++ (Some <$> fill b (h ++ pieces_hdr ps)) ++ post
      = (pre ++ (Some <$> fill b h)) ++ (Some <$> fill b (pieces_hdr ps)) ++ post) as Eapp
      by (by rewrite fill_app, fmap_app, <- !app_assoc).
    split.
    + rewrite Eapp. apply mapM_Some in El. apply mapM_Some.
      constructor; [|constructor; [done|exact El]].
      rewrite <- app_assoc, <- Lh. apply iov_bytes_header.
    + simpl. rewrite Ec, !fill_app, fill_Some. by rewrite <- app_assoc.
Qed.

Lemma pieces_iov_len off ps :
  sum_list (iov_len <$> pieces_iov off ps) = length (pieces_flat ps).
Proof.
  revert off; induction ps as [|[h e] ps IH]; intros off; unfold pieces_flat; csimpl; [done|].
  rewrite IH. unfold pieces_flat. rewrite !length_app, length_fmap. lia.
Qed.

(** The entries after the first, with the pending bytes, after the map byte of
    the array has been patched. *)
Lemma rest_iov_bytes b pre ps cur post :
  let h := pre ++ (Some <$> fill b (pieces_hdr ps ++ cur)) ++ post in
  let rest := pieces_iov (length pre) ps ++
    (if decide (cur = []) then [] else [InHeader (length pre + length (pieces_hdr ps)) (length cur)]) in
  (exists l, mapM (iov_bytes h) rest = Some l /\ concat l = fill b (pieces_flat ps ++ cur)) /\
  sum_list (iov_len <$> rest) = length (pieces_flat ps ++ cur).
Proof.
  intros h rest. split.
  - destruct (pieces_iov_bytes b pre ps ((Some <$> fill b cur) ++ post)) as (l & El & Ec).
    assert (h = pre ++ (Some <$> fill b (pieces_hdr ps)) ++ (Some <$> fill b cur) ++ post) as Eh
      by (unfold h; by rewrite fill_app, fmap_app, <- !app_assoc).
    rewrite <- Eh in El. unfold rest. rewrite fill_app. case_decide as Hc.
    + exists l. rewrite app_nil_r, Hc. unfold fill at 2. simpl. rewrite app_nil_r. done.
    + exists (l ++ [fill b cur]). split.
      * apply mapM_Some. apply mapM_Some in El. apply Forall2_app; [done|]. constructor; [|done].
        pose proof (iov_bytes_header (pre ++ (Some <$> fill b (pieces_hdr ps))) (fill b cur) post) as E.
        rewrite length_app, length_fmap, !length_fill in E. rewrite Eh, app_assoc. exact E.
      * rewrite concat_app, Ec. simpl. by rewrite app_nil_r.
  - unfold rest. rewrite !length_app, <- (pieces_iov_len (length pre) ps).
    generalize (pieces_iov (length pre) ps). intros l. induction l as [|i l IH]; csimpl; [|lia].
    case_decide as Hc; csimpl; [by subst|lia].
Qed.

(** The array with the map byte written. *)
Lemma patch_map_byte (A Q : bytes) (hd post : list (option Z)) b :
  hd = (Some <$> A) ++ [None] ++ (Some <$> Q) ->
  splice (9 + length A) [Some b] (replicate 9 None ++ hd ++ post)
    = Some (replicate 9 None ++ (Some <$> fill b hd) ++ post).
Proof.
  intros ->. set (pre := replicate 9 None ++ (Some <$> A) : list (option Z)).
  replace (9 + length A)%nat with (length pre) by (unfold pre; rewrite length_app, length_fmap; done).
  replace (replicate 9 None ++ ((Some <$> A) ++ [None] ++ (Some <$> Q)) ++ post)
    with (pre ++ [None] ++ (Some <$> Q) ++ post) by (unfold pre; by rewrite <- !app_assoc).
  rewrite splice_app by done. f_equal. unfold pre.
  rewrite !fill_app, !fill_Some. rewrite !fmap_app, <- !app_assoc. done.
Qed.

(** The length prefix goes right before the header. *)
Lemma put_prefix (lu : bytes) (tl : list (option Z)) :
  (length lu <= 9)%nat ->
  splice (9 - length lu) (Some <$> lu) (replicate 9 None ++ tl)
    = Some (replicate (9 - length lu) None ++ (Some <$> lu) ++ tl).
Proof.
  intros Hl. replace (replicate 9 (None : option Z))
    with (replicate (9 - length lu) (None : option Z) ++ replicate (length lu) None)
    by (rewrite <- replicate_add; f_equal; lia).
  rewrite <- app_assoc. rewrite <- (length_replicate (9 - length lu) (None : option Z)) at 1.
  rewrite splice_app by (by rewrite length_replicate, length_fmap). done.
Qed.

(** What is sent is the frame of the emitted bytes. *)
Lemma close_rep w A B n p k :
  rep w ((Some <$> A) ++ [None]) (((Some <$> A) ++ [None]) ++ (Some <$> B)) n p k -> (k <= 3)%nat ->
  0 <= n < 16 -> zlen A + zlen B + 1 < 2 ^ 64 ->
  exists v, close_iov (9 + length A) w = Some v /\ concat v = frame (A ++ mp_encode_map n ++ B).
Proof.
  intros (ps & cur & Q & Eh & Eb & Ep & Hp & Ei & Hk & En & Ef & HP & EQ) Hk3 Hn Hl.
  pose proof (spec_len_map4 n Hn) as Hm. unfold close_iov. rewrite En.
  rewrite spec_sizeof_map, Hm by lia. rewrite decide_False by (intros []; done).
  destruct (mp_encode_map n) as [|b [|]] eqn:Emap; try (unfold zlen in Hm; simpl in Hm; lia). clear Hm.
  set (rest := pieces_iov 9 ps ++
    (if decide (cur = []) then [] else [InHeader (9 + length (pieces_hdr ps)) (length cur)])).
  assert (exists w', (if decide (pos w <> begin w)
    then push_iov (InHeader (begin w) (pos w - begin w)) w else Some w) = Some w' /\
    header w' = header w /\ nd w' = n /\ iov w' = InHeader 9 0 :: rest) as (w' & -> & Eh' & En' & Ei').
  { unfold rest. assert (pos w = begin w <-> cur = []) as Hcur.
    { rewrite Ep. split; [destruct cur; [done|simpl; lia]|intros ->; simpl; lia]. }
    destruct (decide (pos w <> begin w)) as [Hne|He], (decide (cur = [])); try tauto.
    - unfold push_iov. rewrite decide_True by (rewrite Ei; simpl; rewrite length_pieces_iov; lia).
      eexists; split; [done|]. split; [done|]. split; [done|]. simpl. rewrite Ei, Ep, Eb. simpl. repeat f_equal. lia.
    - eexists; split; [done|]. split; [done|]. split; [done|]. rewrite Ei. by rewrite app_nil_r. }
  cbn [mbind option_bind]. rewrite Eh', Eh, En', Emap, (app_assoc (pieces_hdr ps)).
  assert (pieces_hdr ps ++ cur = (Some <$> A) ++ [None] ++ (Some <$> Q)) as Ehd by (by rewrite EQ, <- app_assoc).
  pose proof (patch_map_byte A Q _ (replicate (128 - pos w) None) b Ehd) as Epm.
  change (Some <$> [b]) with [Some b]. rewrite Epm.
  cbn [mbind option_bind]. rewrite Ei'. set (post := replicate (128 - pos w) None).
  set (plen := sum_list (iov_len <$> rest)).
  assert (plen = length (A ++ [b] ++ B)) as Eplen.
  { unfold plen, rest. pose proof (rest_iov_bytes b (replicate 9 None) ps cur []) as [_ E].
    rewrite length_replicate in E. rewrite E, <- Ef, !length_app, !length_fmap. simpl. lia. }
  set (lu := mp_encode_luint32 (Z.of_nat plen)).
  assert (Z.of_nat plen < 2 ^ 64) as Hplen by (rewrite Eplen; len).
  assert (zlen lu = mp_sizeof_luint32 (Z.of_nat plen)) as Elu by (apply luint32_size; lia).
  assert (length lu <= 9)%nat as Hlu.
  { revert Elu. unfold mp_sizeof_luint32, zlen. case_decide; lia. }
  rewrite <- Elu. unfold zlen. rewrite Nat2Z.id, decide_False by lia.
  rewrite put_prefix by done. cbn [mbind option_bind].
  pose proof (iov_bytes_header (replicate (9 - length lu) None) lu
    ((Some <$> fill b (pieces_hdr ps ++ cur)) ++ post)) as E0.
  pose proof (rest_iov_bytes b (replicate (9 - length lu) None ++ (Some <$> lu)) ps cur post)
    as [(l & El & Ec) _].
  rewrite length_app, length_fmap, length_replicate, Nat.sub_add in El by done.
  rewrite length_replicate in E0. rewrite <- app_assoc in El. fold rest in El.
  exists (lu :: l). split.
  - apply mapM_Some. apply mapM_Some in El. constructor; [exact E0|exact El].
  - simpl. rewrite Ec, <- Ef, !fill_app, !fill_Some. unfold frame, lu. rewrite Eplen.
    rewrite <- app_assoc. done.
Qed.

(** ** The encoder *)

Lemma field_if_len c k v :
  0 <= k < 128 -> 0 <= v < 2 ^ 64 ->
  zlen (field_if c k v) <= 1 /\ zlen (concat (field_bytes <$> field_if c k v)) <= 10.
Proof.
  intros Hk Hv. unfold field_if. destruct c; [|done].
  pose proof (spec_len_uint7 k Hk). pose proof (spec_len_uint v Hv).
  split; [done|]. simpl. unfold field_bytes. simpl. rewrite app_nil_r. len.
Qed.

(** A field with a value that ends with the client's bytes. *)
Definition client_value (k : bytes) (f : Z * bytes) : Prop :=
  exists (key : tnt_body_key_t) hd, f = (key : Z, hd ++ k) /\ zlen hd <= 5.

Lemma key_field_client tp k f :
  zlen k < 2 ^ 32 -> key_field tp k = Some f -> client_value k f.
Proof.
  intros Hk. assert (0 <= zlen k < 2 ^ 32) as Hk' by (split; [len|done]).
  pose proof (spec_len_strl _ Hk') as [_ Hs]. unfold key_field, mp_encode_str, client_value.
  assert (zlen ([] : bytes) <= 5) as H0 by done.
  case_decide; [|destruct (is_call tp); [|case_decide; [|case_decide; [|done]]]]; intros E;
    injection E as <-.
  - by exists TNT_EXPRESSION, (mp_encode_strl (zlen k)).
  - by exists TNT_FUNCTION, (mp_encode_strl (zlen k)).
  - by exists TNT_KEY, [].
  - by exists TNT_OPS, [].
Qed.

Lemma client_value_len k f :
  zlen k < 2 ^ 32 -> client_value k f -> zlen (concat (field_bytes <$> [f])) < 2 ^ 32 + 6.
Proof.
  intros Hk (key & hd & -> & Hhd). pose proof (spec_len_uint7 key (body_key_bound key)).
  simpl. unfold field_bytes. simpl. rewrite app_nil_r. len.
Qed.

Lemma key_fields_len r kf :
  request_ok r -> key_fields r = Some kf ->
  zlen kf <= 1 /\ zlen (concat (field_bytes <$> kf)) < 2 ^ 32 + 6.
Proof.
  intros Hr. unfold key_fields. pose proof (ok_key r Hr) as Hk.
  destruct (key r) as [k|]; [|intros; inv_opt; split; done].
  destruct (key_field (hdr_type r) k) as [f|] eqn:E; [|done]. intros Ekf. simpl in Ekf. inv_opt.
  split; [done|]. apply (client_value_len k); [auto|]. eapply key_field_client; [|exact E]. auto.
Qed.

Lemma tuple_fields_len r :
  request_ok r -> zlen (tuple_fields r) <= 1 /\ zlen (concat (field_bytes <$> tuple_fields r)) < 2 ^ 32 + 6.
Proof.
  intros Hr. unfold tuple_fields. pose proof (ok_tuple r Hr) as Hk.
  destruct (tuple r) as [t|]; [|done]. split; [done|]. apply (client_value_len t); [auto|].
  exists TNT_TUPLE, []. done.
Qed.

Lemma header_emitted (r : request) :
  request_ok r -> 0 <= hdr_sync r < 2 ^ 64 ->
  exists w, (w ← emit (mp_encode_map 2) (Wr (replicate 128 None) 9 9 [InHeader 9 0] 0);
    w ← emit (mp_encode_uint TNT_CODE) w;
    w ← emit (mp_encode_uint (hdr_type r)) w;
    w ← emit (mp_encode_uint TNT_SYNC) w;
    emit (mp_encode_uint (hdr_sync r)) w) = Some w /\
  pos w = (9 + length (header_map (hdr_type r) (hdr_sync r)))%nat /\
  rep w [] (Some <$> header_map (hdr_type r) (hdr_sync r)) 0 22 0.
Proof.
  intros Hr Hs. pose proof (ok_type r Hr) as Ht.
  pose proof (spec_len_map4 2). pose proof (spec_len_uint7 0). pose proof (spec_len_uint7 1).
  pose proof (spec_len_uint7 (hdr_type r)). pose proof (spec_len_uint (hdr_sync r) Hs).
  set (w0 := Wr (replicate 128 None) 9 9 [InHeader 9 0] 0).
  assert (rep w0 [] [] 0 9 0) as H0'.
  { exists [], [], []. simpl. repeat split; try done; apply prefix_nil. }
  unfold zlen in *.
  destruct (emit_rep _ _ _ _ _ _ (mp_encode_map 2) H0') as (w1 & E1 & K1); [lia|].
  destruct (emit_rep _ _ _ _ _ _ (mp_encode_uint TNT_CODE) K1) as (w2 & E2 & K2); [simpl; lia|].
  destruct (emit_rep _ _ _ _ _ _ (mp_encode_uint (hdr_type r)) K2) as (w3 & E3 & K3); [simpl; lia|].
  destruct (emit_rep _ _ _ _ _ _ (mp_encode_uint TNT_SYNC) K3) as (w4 & E4 & K4); [simpl; lia|].
  destruct (emit_rep _ _ _ _ _ _ (mp_encode_uint (hdr_sync r)) K4) as (w5 & E5 & K5); [simpl; lia|].
  assert (rep w5 [] (Some <$> header_map (hdr_type r) (hdr_sync r)) 0 22 0) as H5'.
  { unfold header_map. rewrite !fmap_app. rewrite <- !app_assoc in K5. simpl app in K5.
    eapply rep_weaken; [exact K5|simpl; lia|lia]. }
  exists w5. rewrite E1. simpl in E2 |- *. rewrite E2. simpl. rewrite E3. simpl in E4 |- *. rewrite E4. simpl.
  rewrite E5. split; [done|]. split; [|done].
  destruct H5' as (ps & cur & Q & _ & Eb & Ep & _ & _ & Hk & _ & Ef & _).
  destruct ps; [|simpl in Hk; lia]. rewrite Ep, Eb. unfold pieces_flat, pieces_hdr in *. simpl in *.
  subst cur. rewrite length_fmap. lia.
Qed.

(** At most [n] fields whose encoding has at most [m] bytes. *)
Definition small (fs : fields) (n m : Z) : Prop :=
  zlen fs <= n /\ zlen (concat (field_bytes <$> fs)) <= m.

Lemma small_app fs1 fs2 n1 n2 m1 m2 :
  small fs1 n1 m1 -> small fs2 n2 m2 -> small (fs1 ++ fs2) (n1 + n2) (m1 + m2).
Proof. intros [] []. unfold small. rewrite fmap_app, concat_app. len. Qed.

Lemma small_if c (k : tnt_body_key_t) v : 0 <= v < 2 ^ 64 -> small (field_if c k v) 1 10.
Proof. intros. apply field_if_len; [apply body_key_bound|done]. Qed.

Lemma fields_small r c1 c2 c3 c4 c5 c6 kf :
  request_ok r -> key_fields r = Some kf ->
  small (field_if c1 TNT_SPACE (space_id r) ++ field_if c2 TNT_INDEX (index_id r) ++
    field_if c3 TNT_LIMIT (limit r) ++ field_if c4 TNT_OFFSET (offset r) ++
    field_if c5 TNT_ITERATOR (iterator r) ++ kf ++ tuple_fields r ++
    field_if c6 TNT_INDEX_BASE (u64 (index_base r))) 8 (2 ^ 34).
Proof.
  intros Hr Hk. pose proof (key_fields_len r kf Hr Hk). pose proof (tuple_fields_len r Hr).
  pose proof Hr as [? ? ? ? ? ? _ _].
  assert (small kf 1 (2 ^ 32 + 6)) by (split; lia).
  assert (small (tuple_fields r) 1 (2 ^ 32 + 6)) by (split; lia).
  assert (small (field_if c1 TNT_SPACE (space_id r) ++ field_if c2 TNT_INDEX (index_id r) ++
    field_if c3 TNT_LIMIT (limit r) ++ field_if c4 TNT_OFFSET (offset r) ++
    field_if c5 TNT_ITERATOR (iterator r) ++ kf ++ tuple_fields r ++
    field_if c6 TNT_INDEX_BASE (u64 (index_base r)))
    (1 + (1 + (1 + (1 + (1 + (1 + (1 + 1)))))))
    (10 + (10 + (10 + (10 + (10 + (2 ^ 32 + 6 + (2 ^ 32 + 6 + 10)))))))) as [].
  { repeat apply small_app; try done; apply small_if; try lia. apply u64_bound. }
  split; lia.
Qed.

(** The five numeric fields. *)
Lemma numeric_fields_sent r w P c1 c2 c3 c4 c5 p q :
  request_ok r -> sent w P [] p q -> (p + 50 <= 128)%nat ->
  exists w', (w ← emit_if c1 TNT_SPACE (space_id r) w;
    w ← emit_if c2 TNT_INDEX (index_id r) w;
    w ← emit_if c3 TNT_LIMIT (limit r) w;
    w ← emit_if c4 TNT_OFFSET (offset r) w;
    emit_if c5 TNT_ITERATOR (iterator r) w) = Some w' /\
  sent w' P (field_if c1 TNT_SPACE (space_id r) ++ field_if c2 TNT_INDEX (index_id r) ++
    field_if c3 TNT_LIMIT (limit r) ++ field_if c4 TNT_OFFSET (offset r) ++
    field_if c5 TNT_ITERATOR (iterator r)) (p + 50) q.
Proof.
  intros [Ht Hsp Hix Hof Hli Hit _ _] H Hp.
  destruct (emit_if_sent c1 TNT_SPACE (space_id r) _ _ _ _ _ H) as (w1 & -> & K1); [done|lia|lia|].
  destruct (emit_if_sent c2 TNT_INDEX (index_id r) _ _ _ _ _ K1) as (w2 & E2 & K2); [done|lia|lia|].
  destruct (emit_if_sent c3 TNT_LIMIT (limit r) _ _ _ _ _ K2) as (w3 & E3 & K3); [done|lia|lia|].
  destruct (emit_if_sent c4 TNT_OFFSET (offset r) _ _ _ _ _ K3) as (w4 & E4 & K4); [done|lia|lia|].
  destruct (emit_if_sent c5 TNT_ITERATOR (iterator r) _ _ _ _ _ K4) as (w5 & E5 & K5); [done|lia|lia|].
  exists w5. cbn [mbind option_bind]. rewrite E2. cbn [mbind option_bind]. rewrite E3.
  cbn [mbind option_bind]. rewrite E4. cbn [mbind option_bind]. split; [done|].
  replace (p + 50)%nat with (p + 10 + 10 + 10 + 10 + 10)%nat by lia.
  rewrite app_nil_l, <- !app_assoc in K5. exact K5.
Qed.

(** Closing after the fields [fs] have been emitted. *)
Lemma close_sent w A fs p k :
  sent w ((Some <$> A) ++ [None]) fs p k -> (k <= 3)%nat -> zlen fs < 16 ->
  zlen A + zlen (concat (field_bytes <$> fs)) + 1 < 2 ^ 64 ->
  exists v, close_iov (9 + length A) w = Some v /\ concat v = frame (A ++ body_map fs).
Proof. intros H Hk Hn Hl. apply (close_rep _ _ _ _ _ _ H); [lia|len|done]. Qed.

Lemma request_iov_spec (r : request) :
  request_ok r -> 0 <= hdr_sync r < 2 ^ 64 ->
  match request_fields r with
  | Some fs => exists v, request_iov r = Some (Some v) /\
      concat v = packet (hdr_type r) (hdr_sync r) fs
  | None => request_iov r = Some None
  end.
Proof.
  intros Hr Hs. destruct (header_emitted r Hr Hs) as (w & E & Ep & H).
  unfold request_iov, request_fields. set (hm := header_map (hdr_type r) (hdr_sync r)) in *.
  inv_opt. rewrite H0. cbn [mbind option_bind]. rewrite H1. cbn [mbind option_bind].
  rewrite H2. cbn [mbind option_bind]. rewrite H3. cbn [mbind option_bind].
  rewrite H4. cbn [mbind option_bind]. clear H0 H1 H2 H3 H4.
  apply skip_rep in H; [|lia]. set (w0 := Wr (header w) (pos w + 1) (begin w) (iov w) (nd w)) in *.
  set (P := (Some <$> hm) ++ [None]) in *.
  assert (sent w0 P [] 23 0) as S0 by (unfold sent; simpl; by rewrite app_nil_r).
  set (c1 := bool_decide (hdr_type r < TNT_OP_CALL_16) || _).
  set (c2 := bool_decide (index_id r <> 0) && _). set (c3 := bool_decide (hdr_type r = TNT_OP_SELECT)).
  set (c4 := bool_decide (offset r <> 0) && _). set (c5 := bool_decide (iterator r <> 0) && _).
  set (c6 := bool_decide (index_base r <> 0) && _).
  destruct (numeric_fields_sent r w0 P c1 c2 c3 c4 c5 23 0 Hr S0) as (w1 & E1 & S1); [lia|]. inv_opt.
  rewrite H0. cbn [mbind option_bind]. rewrite H1. cbn [mbind option_bind].
  rewrite H2. cbn [mbind option_bind]. rewrite H3. cbn [mbind option_bind].
  rewrite H4. cbn [mbind option_bind]. clear H0 H1 H2 H3 H4.
  pose proof (emit_key_sent r w1 P _ (23 + 50) 0 S1 Hr ltac:(lia) ltac:(lia)) as Hkey.
  destruct (key_fields r) as [kf|] eqn:Ekf; cbn [mbind option_bind]; [|by rewrite Hkey].
  destruct Hkey as (w2 & -> & S2). cbn [mbind option_bind].
  destruct (emit_tuple_sent r w2 P _ _ _ S2) as (w3 & -> & S3); [lia|lia|]. cbn [mbind option_bind].
  destruct (emit_if_sent c6 TNT_INDEX_BASE (u64 (index_base r)) w3 P _ _ _ S3) as (w4 & -> & S4);
    [done|apply u64_bound|lia|]. cbn [mbind option_bind].
  rewrite <- !app_assoc in S4. rewrite Ep.
  destruct (fields_small r c1 c2 c3 c4 c5 c6 kf Hr Ekf) as [Hn Hl].
  destruct (encode_header_ok (hdr_type r) (hdr_sync r) (ok_type r Hr) Hs) as [_ Hh].
  destruct (close_sent w4 hm _ _ _ S4) as (v & Ev & Ec); [lia|lia|fold hm in Hh; lia|].
  rewrite Ev. exists v. by rewrite Ec.
Qed.

(** ** Well-formed requests *)

Lemma tnt_request_custom_ok op given a r :
  tnt_request_custom op given a = Some r -> request_ok r /\ hdr_type r = op.
Proof.
  unfold tnt_request_custom, tnt_request_init, UINT32_MAX. pose proof (request_code_bound op).
  destruct given, a; simpl; intros; inv_opt; (split; [|done]); split; simpl; done || lia.
Qed.

(** The operations that set a field. *)
Inductive setter :=
  | SetSpace (n : Z) | SetIndex (n : Z) | SetOffset (n : Z) | SetLimit (n : Z)
  | SetIterator (i : tnt_iterator_t) | SetIndexBase (n : Z)
  | SetKey (s : object) | SetTuple (s : object) | SetOps (s : object)
  | SetFunc (f : option bytes) (n : Z) | SetFuncz (f : option bytes)
  | SetExpr (e : option bytes) (n : Z) | SetExprz (e : option bytes).

Definition run_setter (st : setter) (r : request) : option (Z * request) :=
  match st with
  | SetSpace n => Some (tnt_request_set_space r n)
  | SetIndex n => Some (tnt_request_set_index r n)
  | SetOffset n => Some (tnt_request_set_offset r n)
  | SetLimit n => Some (tnt_request_set_limit r n)
  | SetIterator i => Some (tnt_request_set_iterator r i)
  | SetIndexBase n => Some (tnt_request_set_index_base r n)
  | SetKey s => tnt_request_set_key r s
  | SetTuple s => tnt_request_set_tuple r s
  | SetOps s => tnt_request_set_ops r s
  | SetFunc f n => tnt_request_set_func r f n
  | SetFuncz f => tnt_request_set_funcz r f
  | SetExpr e n => tnt_request_set_expr r e n
  | SetExprz e => tnt_request_set_exprz r e
  end.

(** No argument denotes 4 GB or more. *)
Definition setter_small (st : setter) : Prop :=
  match st with
  | SetKey s | SetTuple s | SetOps s => forall d, TNT_SBUF_DATA s = Some (Some d) -> zlen d < 2 ^ 32
  | SetFunc (Some f) _ | SetFuncz (Some f) | SetExpr (Some f) _ | SetExprz (Some f) => zlen f < 2 ^ 32
  | _ => True
  end.

Lemma set_key_bytes_ok k r :
  request_ok r -> (forall b, k = Some b -> zlen b < 2 ^ 32) -> request_ok (set_key_bytes k r).
Proof. intros [] Hk. by split. Qed.

Lemma set_tuple_bytes_ok k r :
  request_ok r -> (forall b, k = Some b -> zlen b < 2 ^ 32) -> request_ok (set_tuple_bytes k r).
Proof. intros [] Hk. by split. Qed.

Lemma slice_len {A} off n (bs x : list A) : slice off n bs = Some x -> zlen x <= zlen bs.
Proof. unfold slice. case_decide; intros; inv_opt. len. Qed.

Lemma run_setter_ok st r rc r' :
  request_ok r -> setter_small st -> run_setter st r = Some (rc, r') -> request_ok r'.
Proof.
  intros Hr Hst. pose proof Hr as [].
  destruct st; simpl in *; unfold tnt_request_set_key, tnt_request_set_tuple, tnt_request_set_ops,
    tnt_request_set_func, tnt_request_set_funcz, tnt_request_set_expr, tnt_request_set_exprz;
    repeat case_decide; repeat case_match; intros; inv_opt; try done;
    try (apply set_key_bytes_ok; [done|intros ? [= <-] || intros ? ->; eauto using slice_len, Z.le_lt_trans]);
    try (apply set_tuple_bytes_ok; [done|intros ? ->; auto]);
    try (split; simpl; auto using u32_bound; done).
  split; simpl; auto. destruct i; simpl; lia.
Qed.

(** ** Writing requests to a stream *)

(** The sync id the next request takes. *)
Definition next_sync {T} (s : stream T) (sync : option Z) : Z := st_reqid (take_sync s sync).

Lemma next_sync_bound {T} (s : stream T) sync :
  0 <= st_reqid s < 2 ^ 64 -> 0 <= next_sync s sync < 2 ^ 64.
Proof. unfold next_sync, take_sync. case_decide; simpl; lia. Qed.

(** [Z.land n INT64_MAX] is the low 63 bits. *)
Lemma land_INT64_MAX n : Z.land n INT64_MAX = n mod 2 ^ 63.
Proof. unfold INT64_MAX. rewrite <- Z.land_ones by lia. done. Qed.

(** Never the id whose signed value is the error code. *)
Lemma compile_sync_not_error {T} (s : stream T) :
  0 <= st_reqid s < 2 ^ 64 -> s64 (next_sync s (Some INT64_MAX)) <> -1.
Proof.
  intros Hs. unfold next_sync, take_sync. rewrite land_INT64_MAX. unfold INT64_MAX.
  case_decide as H; simpl; [done|]. unfold s64. intros E.
  assert (st_reqid s = 2 ^ 64 - 1) as E'.
  { pose proof (Z.div_mod (st_reqid s + 2 ^ 63) (2 ^ 64) ltac:(lia)).
    pose proof (Z.mod_pos_bound (st_reqid s + 2 ^ 63) (2 ^ 64) ltac:(lia)).
    assert ((st_reqid s + 2 ^ 63) / 2 ^ 64 < 2) by (apply Z.div_lt_upper_bound; lia).
    assert (0 <= (st_reqid s + 2 ^ 63) / 2 ^ 64) by (apply Z.div_pos; lia). lia. }
  apply H. split; [done|]. by rewrite E'.
Qed.

Section sink.
Context {T : Type} {SK : Sink T} {SKS : SinkSpec T}.

Lemma take_sync_ok (s : stream T) sync :
  sk_ok s -> sk_ok (reqid_incr (take_sync s sync)) /\
  sk_written (reqid_incr (take_sync s sync)) = sk_written s /\
  (sk_sure s -> sk_sure (reqid_incr (take_sync s sync))) /\
  st_reqid (reqid_incr (take_sync s sync)) = u64 (next_sync s sync + 1).
Proof.
  intros Hs. unfold next_sync, take_sync, reqid_incr.
  case_decide; simpl; repeat split; auto using sk_reqid_ok, sk_reqid_sure;
    by rewrite ?sk_reqid_written.
Qed.

(** The outcome of writing [r] with sync id [n]. *)
Lemma writeout_spec (s : stream T) (r : request) sync :
  sk_ok s -> request_ok r -> 0 <= st_reqid s < 2 ^ 64 ->
  let n := next_sync s sync in
  exists rc s' sync', tnt_request_writeout s r sync = Some (rc, s', set_sync n r, sync') /\
    st_reqid s' = u64 (n + 1) /\
    match request_fields r with
    | None => rc = -1 /\ sk_written s' = sk_written s
    | Some fs =>
        (sk_sure s -> rc <> -1 /\ sk_sure s') /\
        (rc = -1 \/
         (rc = 0 /\ sync' = (fun _ => n) <$> sync /\ sk_ok s' /\
          sk_written s' = sk_written s ++ packet (hdr_type r) n fs))
    end.
Proof.
  intros Hs Hr Hq n. pose proof (next_sync_bound s sync Hq) as Hn. fold n in Hn.
  destruct (take_sync_ok s sync Hs) as (Hs1 & Hw1 & Hf1 & Hr1). fold n in Hr1.
  assert (request_ok (set_sync n r)) as Hr' by (by destruct Hr).
  pose proof (request_iov_spec (set_sync n r) Hr' Hn) as Hiov.
  assert (request_fields (set_sync n r) = request_fields r) as Ef by done. rewrite Ef in Hiov.
  unfold tnt_request_writeout. fold (next_sync s sync). fold n.
  destruct (request_fields r) as [fs|].
  - destruct Hiov as (v & Ev & Ec). rewrite Ev. cbn [mbind option_bind]. simpl in Ec.
    destruct (sk_writev_spec (reqid_incr (take_sync s sync)) v Hs1) as (rv & s2 & E & Er & Hfit & Hres).
    { rewrite Ec. unfold packet, frame. intros E0. apply (f_equal (@length Z)) in E0.
      rewrite length_app in E0. pose proof (luint32_size (zlen (header_map (hdr_type r) n ++ body_map fs))).
      unfold mp_encode_luint32, zlen in *. case_decide; rewrite spec_store_u8 in E0; simpl in E0; lia. }
    rewrite E. cbn [mbind option_bind]. rewrite Ec in *. destruct (decide (rv = -1)) as [->|Hne].
    + do 3 eexists. split; [done|]. split; [congruence|]. split; [|by left].
      intros Hsure. by destruct (Hfit (Hf1 Hsure)).
    + do 3 eexists. split; [done|]. split; [congruence|]. split; [by intros Hsure; destruct (Hfit (Hf1 Hsure))|]. right.
      destruct Hres as [?|(_ & Hok & Hw)]; [done|]. rewrite Hw, Hw1. auto.
  - rewrite Hiov. cbn [mbind option_bind]. do 3 eexists. split; [done|]. done.
Qed.

Lemma compile_spec (s : stream T) (r : request) :
  sk_ok s -> request_ok r -> 0 <= st_reqid s < 2 ^ 64 ->
  let n := next_sync s (Some INT64_MAX) in
  exists z s', tnt_request_compile s r = Some (z, s', set_sync n r) /\ st_reqid s' = u64 (n + 1) /\
    match request_fields r with
    | None => z = -1 /\ sk_written s' = sk_written s
    | Some fs =>
        (sk_sure s -> z <> -1 /\ sk_sure s') /\
        (z = -1 \/
         (z = s64 n /\ z <> -1 /\ sk_ok s' /\
          sk_written s' = sk_written s ++ packet (hdr_type r) n fs))
    end.
Proof.
  intros Hs Hr Hq n.
  destruct (writeout_spec s r (Some INT64_MAX) Hs Hr Hq) as (rc & s' & sync' & E & Er & H).
  fold n in E, Er, H. unfold tnt_request_compile. rewrite E. cbn [mbind option_bind].
  pose proof (compile_sync_not_error s Hq) as Hne. fold n in Hne.
  destruct (request_fields r) as [fs|].
  - destruct H as [Hfit [->|(-> & -> & Hok & Hw)]].
    + rewrite decide_True by done. do 2 eexists. split; [done|]. split; [done|]. split; [|by left].
      intros Hf. by destruct (Hfit Hf).
    + rewrite decide_False by done. do 2 eexists. split; [done|]. simpl. split; [done|].
      split; [by intros Hsure; destruct (Hfit Hsure)|]. right. auto.
  - destruct H as [-> Hw]. rewrite decide_True by done. do 2 eexists. split; [done|]. done.
Qed.

(** ** Pipelining *)

(** The values of the key and of the tuple are msgpack objects (a function
    name and an expression are sent as strings). *)
Definition request_valid (r : request) : Prop :=
  (forall k, key r = Some k -> hdr_type r = TNT_OP_EVAL \/ is_call (hdr_type r) = true \/ mp_object k) /\
  (forall t, tuple r = Some t -> mp_object t).

Lemma field_if_ok c (k : tnt_body_key_t) v :
  0 <= v < 2 ^ 64 -> Forall field_ok (field_if c k v).
Proof.
  intros Hv. pose proof (body_key_bound k). unfold field_if, field_ok.
  destruct c; repeat constructor; simpl; auto with mp; lia.
Qed.

Lemma key_fields_ok r kf :
  request_ok r -> request_valid r -> key_fields r = Some kf -> Forall field_ok kf.
Proof.
  intros Hr [Hk _]. unfold key_fields, key_field. pose proof (ok_key r Hr) as Hl.
  destruct (key r) as [k|]; [|intros; inv_opt; constructor].
  specialize (Hk k eq_refl). specialize (Hl k eq_refl).
  assert (mp_object (mp_encode_str k)) by auto with mp.
  destruct (decide (hdr_type r = TNT_OP_EVAL)) as [E|E]; [|destruct (is_call (hdr_type r)) eqn:Ec;
    [|destruct (decide (hdr_type r = TNT_OP_SELECT \/ _)); [|case_decide; [|done]]]];
    intros ?; simpl in *; inv_opt; constructor; try constructor; simpl; try lia; try done;
    by destruct Hk as [?|[?|?]].
Qed.

Lemma tuple_fields_ok r : request_valid r -> Forall field_ok (tuple_fields r).
Proof.
  intros [_ Ht]. unfold tuple_fields. destruct (tuple r) as [t|]; [|constructor].
  constructor; [|constructor]. split; simpl; [lia|auto].
Qed.

Lemma fields_valid r c1 c2 c3 c4 c5 c6 kf :
  request_ok r -> Forall field_ok kf -> Forall field_ok (tuple_fields r) ->
  Forall field_ok (field_if c1 TNT_SPACE (space_id r) ++ field_if c2 TNT_INDEX (index_id r) ++
    field_if c3 TNT_LIMIT (limit r) ++ field_if c4 TNT_OFFSET (offset r) ++
    field_if c5 TNT_ITERATOR (iterator r) ++ kf ++ tuple_fields r ++
    field_if c6 TNT_INDEX_BASE (u64 (index_base r))).
Proof.
  intros [? ? ? ? ? ? _ _] Hk Ht.
  repeat (apply Forall_app; split); try done; apply field_if_ok; try lia. apply u64_bound.
Qed.

Lemma request_fields_ok r fs :
  request_ok r -> request_valid r -> request_fields r = Some fs ->
  Forall field_ok fs /\ small fs 8 (2 ^ 34).
Proof.
  intros Hr Hv. unfold request_fields. destruct (key_fields r) as [kf|] eqn:Ekf; [|done].
  cbn [mbind option_bind]. intros [= <-]. split; [|by apply fields_small].
  apply fields_valid; eauto using key_fields_ok, tuple_fields_ok.
Qed.

(** The client that compiles requests in turn, until one fails. *)
Fixpoint compile_all (rs : list request) (s : stream T) : option (Z * stream T) :=
  match rs with
  | [] => Some (0, s)
  | r :: rs =>
      '(z, s, _) ← tnt_request_compile s r;
      if decide (z = -1) then Some (-1, s) else compile_all rs s
  end.

(** What the server is to see: the requests with consecutive sync ids. *)
Fixpoint expected (rs : list request) (n : Z) : option (list (fields * fields)) :=
  match rs with
  | [] => Some []
  | r :: rs =>
      fs ← request_fields r; l ← expected rs (n + 1);
      Some ((header_fields (hdr_type r) n, fs) :: l)
  end.


Lemma next_sync_small (s : stream T) sync :
  0 <= st_reqid s < INT64_MAX -> next_sync s sync = st_reqid s.
Proof.
  unfold INT64_MAX. intros H. unfold next_sync, take_sync. rewrite land_INT64_MAX, Z.mod_small by lia.
  unfold INT64_MAX. by rewrite decide_False by lia.
Qed.

Lemma packet_size (r : request) n fs :
  request_ok r -> small fs 8 (2 ^ 34) -> 0 <= n < 2 ^ 64 ->
  zlen (header_map (hdr_type r) n ++ body_map fs) < 2 ^ 64.
Proof.
  intros Hr [Hc Hl] Hn. destruct (encode_header_ok (hdr_type r) n (ok_type r Hr) Hn) as [_ Hh].
  assert (0 <= zlen fs) by len. pose proof (spec_len_map (zlen fs) ltac:(lia)).
  unfold body_map. unfold zlen in *. rewrite !length_app. lia.
Qed.

(** C2: Compiling a request is correct: for every well-formed request and any
    stream, [tnt_request_compile] is defined (the 128-byte header array and the
    io vector are never overrun, no uninitialised byte is sent); when it
    returns -1 the client is told, and a stream that accepts all writes never
    makes it fail unless the type of the request forbids a key; otherwise it
    returns the sync id as a signed number different from -1, and has appended
    to the stream one packet, from which a server decodes the request type, the
    sync id and exactly the fields of the request. *)
Theorem request_compile_correct (s : stream T) (r : request) :
  sk_ok s -> request_ok r -> request_valid r -> 0 <= st_reqid s < 2 ^ 64 ->
  let n := next_sync s (Some INT64_MAX) in
  exists z s', tnt_request_compile s r = Some (z, s', set_sync n r) /\
    match request_fields r with
    | None => z = -1 /\ sk_written s' = sk_written s
    | Some fs =>
        (sk_sure s -> z <> -1) /\
        (z = -1 \/
         (z = s64 n /\ z <> -1 /\
          exists pkt, sk_written s' = sk_written s ++ pkt /\
            forall rest, decode_packet (pkt ++ rest) = Some (header_fields (hdr_type r) n, fs, rest)))
    end.
Proof.
  intros Hs Hr Hv Hq n. destruct (compile_spec s r Hs Hr Hq) as (z & s' & E & _ & H). fold n in E, H.
  exists z, s'. split; [done|]. destruct (request_fields r) as [fs|] eqn:Ef; [|done].
  destruct H as [Hsure Hz]. split; [intros Hs'; by apply Hsure|].
  destruct Hz as [?|(? & ? & _ & Hw)]; [by left|right]. split; [done|]. split; [done|].
  exists (packet (hdr_type r) n fs). split; [done|]. intros rest.
  destruct (request_fields_ok r fs Hr Hv Ef) as [Hok Hsm]. pose proof (next_sync_bound s (Some INT64_MAX) Hq).
  destruct Hsm as [Hc Hl]. pose proof (ok_type r Hr).
  apply decode_packet_app; try done; [lia|lia|]. by apply packet_size.
Qed.

Lemma compile_all_spec rs (s : stream T) l :
  sk_ok s -> Forall (fun r => request_ok r /\ request_valid r) rs ->
  0 <= st_reqid s -> st_reqid s + zlen rs <= INT64_MAX -> expected rs (st_reqid s) = Some l ->
  exists z s', compile_all rs s = Some (z, s') /\ (sk_sure s -> z <> -1) /\
    (z = -1 \/
     exists bs, sk_ok s' /\ sk_written s' = sk_written s ++ bs /\ length l = length rs /\
       forall r, decode_stream (length l) (bs ++ r) = Some (l, r)).
Proof.
  intros Hs Hrs Hq. revert s l Hs Hq.
  induction Hrs as [|r rs [Hr Hv] _ IH]; intros s l Hs Hq Hmax Hl; simpl in Hl.
  - inv_opt. exists 0, s. split; [done|]. split; [done|]. right. exists []. split; [done|]. by rewrite app_nil_r.
  - unfold INT64_MAX in Hmax. unfold zlen in Hmax. simpl length in Hmax.
    destruct (request_fields r) as [fs|] eqn:Ef; [|done]. cbn [mbind option_bind] in Hl.
    destruct (expected rs (st_reqid s + 1)) as [l'|] eqn:El; [|done]. simpl in Hl. inv_opt.
    destruct (compile_spec s r Hs Hr ltac:(lia)) as (z & s1 & E & Er & H).
    rewrite next_sync_small in E, Er, H by (unfold INT64_MAX; lia). rewrite Ef in H.
    simpl. rewrite E. cbn [mbind option_bind]. destruct H as [Hsure Hz].
    destruct (decide (z = -1)) as [->|Hne].
    { exists (-1), s1. split; [done|]. split; [|by left]. intros Hs'. by destruct (Hsure Hs'). }
    destruct Hz as [?|(_ & _ & Hok & Hw)]; [done|]. rewrite u64_small in Er by lia.
    destruct (IH s1 l' Hok) as (z' & s2 & E' & Hsure' & Hz'); [lia| | |].
    { rewrite Er. unfold zlen, INT64_MAX. lia. }
    { by rewrite Er. }
    exists z', s2. split; [done|]. split; [intros Hs'; by apply Hsure', Hsure|].
    destruct Hz' as [?|(bs & Hok2 & Hw' & Hlen & Hd)]; [by left|right].
    exists (packet (hdr_type r) (st_reqid s) fs ++ bs). rewrite Hw', Hw, <- app_assoc.
    split; [done|]. split; [done|]. split; [simpl; by rewrite Hlen|]. intros rest. simpl.
    destruct (request_fields_ok r fs Hr Hv Ef) as [Hok' Hsm]. pose proof Hsm as [Hc Hl].
    pose proof (ok_type r Hr).
    rewrite <- app_assoc, decode_packet_app; try done; try lia; [|apply packet_size; done || lia].
    simpl. rewrite Hd. done.
Qed.

(** C3: Pipelining: compiling any sequence of well-formed requests onto one
    stream produces a byte stream from which the server decodes all of them, in
    order, with consecutive sync ids and their fields intact (or a write has
    failed, which the last result tells and an accepting stream excludes). *)
Theorem pipeline_decodes rs (s : stream T) l :
  sk_ok s -> sk_written s = [] -> Forall (fun r => request_ok r /\ request_valid r) rs ->
  0 <= st_reqid s -> st_reqid s + zlen rs <= INT64_MAX -> expected rs (st_reqid s) = Some l ->
  exists z s', compile_all rs s = Some (z, s') /\ (sk_sure s -> z <> -1) /\
    (z = -1 \/ decode_stream (length rs) (sk_written s') = Some (l, [])).
Proof.
  intros Hs H0 Hrs Hq Hmax Hl.
  destruct (compile_all_spec rs s l Hs Hrs Hq Hmax Hl) as (z & s' & E & Hsure & Hz).
  exists z, s'. split; [done|]. split; [done|]. destruct Hz as [?|(bs & _ & Hw & Hlen & Hd)]; [by left|right].
  rewrite Hw, H0, <- Hlen. simpl. rewrite <- (app_nil_r bs). apply Hd.
Qed.

End sink.
End encode.

(** ** The theorems at work: an insert and a select *)

Definition sample_insert : request :=
  set_tuple_bytes (Some [0x91; 7]) (snd (tnt_request_set_space (set_type TNT_OP_INSERT
    (Request 0 0 0 0 0 UINT32_MAX 0 None None None None 0 true)) 512)).

Definition sample_select : request :=
  set_key_bytes (Some [0x91; 7]) (set_type TNT_OP_SELECT
    (Request 0 0 0 0 0 UINT32_MAX 0 None None None None 0 true)).

Definition sample_pipeline : list (fields * fields) :=
  [ ([(0, [2]); (1, [0])], [(0x10, [0xcd; 2; 0]); (0x21, [0x91; 7])]);
    ([(0, [1]); (1, [1])], [(0x10, [0]); (0x12, [0xce; 255; 255; 255; 255]); (0x20, [0x91; 7])]) ].

Lemma sample_requests_ok :
  Forall (fun r => request_ok r /\ request_valid (MP := RefPuck) r) [sample_insert; sample_select].
Proof. repeat apply Forall_cons_2; try apply Forall_nil_2; split.
  all: split; simpl; unfold UINT32_MAX, u32; intros; simplify_eq; unfold zlen; simpl; try lia.
  all: first [ done | right; right; reflexivity ].
Qed.

Lemma request_compile_correct_witness :
  exists s' pkt, tnt_request_compile (MP := RefPuck) empty_buf sample_insert = Some (0, s', set_sync 0 sample_insert) /\
    buf_contents s' = pkt /\
    forall rest, decode_packet (MP := RefPuck) (pkt ++ rest) =
      Some ([(0, [2]); (1, [0])], [(0x10, [0xcd; 2; 0]); (0x21, [0x91; 7])], rest).
Proof.
  pose proof sample_requests_ok as H. apply Forall_cons in H as [[H1 H2] _].
  destruct (request_compile_correct (MP := RefPuck) (SK := sbuf_sink unit) empty_buf sample_insert empty_buf_ok H1 H2)
    as (z & s' & E & Hsure & Hz); [simpl; lia|].
  destruct Hz as [Hz|(Hz & _ & pkt & Hw & Hd)].
  - exfalso. revert Hz. apply Hsure. intros Hr. by apply elem_of_nil in Hr.
  - exists s', pkt. subst z. split; [exact E|]. split; [exact Hw|exact Hd].
Defined.

Lemma pipeline_decodes_witness :
  exists s', compile_all (MP := RefPuck) [sample_insert; sample_select] empty_buf = Some (0, s') /\
    decode_stream (MP := RefPuck) 2 (buf_contents s') = Some (sample_pipeline, []).
Proof.
  destruct (pipeline_decodes (MP := RefPuck) (SK := sbuf_sink unit) [sample_insert; sample_select] empty_buf sample_pipeline
    empty_buf_ok eq_refl sample_requests_ok) as (z & s' & E & Hsure & Hz);
    [simpl; lia | unfold INT64_MAX; simpl; unfold zlen; simpl; lia | reflexivity |].
  destruct Hz as [Hz|Hd].
  - exfalso. revert Hz. apply Hsure. intros Hr. by apply elem_of_nil in Hr.
  - exists s'. split; [|exact Hd]. rewrite E. vm_compute in E. injection E as <- _. reflexivity.
Defined.
