(* ===== verification/Commands.v ===== *)
(** * The direct commands: tnt_select.c, tnt_insert.c, tnt_delete.c,
    tnt_update.c, tnt_call.c, tnt_execute.c, tnt_ping.c

    Each command checks its arguments, encodes header and body in local
    arrays, computes the length prefix and hands one io vector to the stream.
    The second half models the builder of update operations
    ([tnt_update_container] and [tnt_update_*]). *)

From S2P Require Import Prelude Msgpuck MsgpuckRef Mem Stream Buf Proto Object.

Section commands.
Context {MP : MsgPuck} {T : Type} {SK : Sink T}.
Context {D : Type}.
Implicit Types (s : stream T) (key tuple ops args : stream (sbuf D)).

(** The end of every command: the size of [v\[1\]], [v\[2\]], ... is encoded in
    [char len_prefix\[9\]], which becomes [v\[0\]]. *)
Definition send_package s (v : list bytes) : option (Z * stream T) :=
  let package_len := Z.of_nat (sum_list (length <$> v)) in
  len_prefix ← local 9 (mp_encode_luint32 package_len);
  sk_writev s (len_prefix :: v).

(** [iov_base = TNT_SBUF_DATA(s); iov_len = TNT_SBUF_SIZE(s)] *)
Definition sbuf_iov (o : stream (sbuf D)) : option bytes := default [] <$> TNT_SBUF_DATA o.

(** [encode_header(&hdr, op, s->reqid++)] *)
Definition start_package s (op : tnt_request_t) : option (bytes * stream T) :=
  hdr ← encode_header op (st_reqid s); Some (hdr, reqid_incr s).

Definition tnt_select s (space index limit offset iterator : Z) key : option (Z * stream T) :=
  bad ← tnt_object_verify key (Some MP_ARRAY);
  if decide (bad <> 0) then Some (-1, s) else
  '(hdr, s) ← start_package s TNT_OP_SELECT;
  body ← local 64 (mp_encode_map 6 ++
    mp_encode_uint TNT_SPACE ++ mp_encode_uint space ++
    mp_encode_uint TNT_INDEX ++ mp_encode_uint index ++
    mp_encode_uint TNT_LIMIT ++ mp_encode_uint limit ++
    mp_encode_uint TNT_OFFSET ++ mp_encode_uint offset ++
    mp_encode_uint TNT_ITERATOR ++ mp_encode_uint iterator ++
    mp_encode_uint TNT_KEY);
  data ← sbuf_iov key;
  send_package s [hdr; body; data].

Definition tnt_store_base s (space : Z) tuple (op : tnt_request_t) : option (Z * stream T) :=
  bad ← tnt_object_verify tuple (Some MP_ARRAY);
  if decide (bad <> 0) then Some (-1, s) else
  '(hdr, s) ← start_package s op;
  body ← local 64 (mp_encode_map 2 ++
    mp_encode_uint TNT_SPACE ++ mp_encode_uint space ++ mp_encode_uint TNT_TUPLE);
  data ← sbuf_iov tuple;
  send_package s [hdr; body; data].

Definition tnt_insert s space tuple := tnt_store_base s space tuple TNT_OP_INSERT.
Definition tnt_replace s space tuple := tnt_store_base s space tuple TNT_OP_REPLACE.

Definition tnt_delete s (space index : Z) key : option (Z * stream T) :=
  bad ← tnt_object_verify key (Some MP_ARRAY);
  if decide (bad <> 0) then Some (-1, s) else
  '(hdr, s) ← start_package s TNT_OP_DELETE;
  body ← local 64 (mp_encode_map 3 ++
    mp_encode_uint TNT_SPACE ++ mp_encode_uint space ++
    mp_encode_uint TNT_INDEX ++ mp_encode_uint index ++
    mp_encode_uint TNT_KEY);
  data ← sbuf_iov key;
  send_package s [hdr; body; data].

(** The last two commands put two objects in the body: the local array [body]
    is sent in two parts. *)
Definition tnt_update s (space index : Z) key ops : option (Z * stream T) :=
  bad ← tnt_object_verify key (Some MP_ARRAY);
  if decide (bad <> 0) then Some (-1, s) else
  bad ← tnt_object_verify ops (Some MP_ARRAY);
  if decide (bad <> 0) then Some (-1, s) else
  '(hdr, s) ← start_package s TNT_OP_UPDATE;
  let body1 := mp_encode_map 4 ++
    mp_encode_uint TNT_SPACE ++ mp_encode_uint space ++
    mp_encode_uint TNT_INDEX ++ mp_encode_uint index ++
    mp_encode_uint TNT_KEY in
  let body2 := mp_encode_uint TNT_TUPLE in
  _ ← local 64 (body1 ++ body2);
  data ← sbuf_iov key;
  odata ← sbuf_iov ops;
  send_package s [hdr; body1; data; body2; odata].

Definition tnt_upsert s (space : Z) tuple ops : option (Z * stream T) :=
  bad ← tnt_object_verify tuple (Some MP_ARRAY);
  if decide (bad <> 0) then Some (-1, s) else
  bad ← tnt_object_verify ops (Some MP_ARRAY);
  if decide (bad <> 0) then Some (-1, s) else
  '(hdr, s) ← start_package s TNT_OP_UPSERT;
  let body1 := mp_encode_map 3 ++
    mp_encode_uint TNT_SPACE ++ mp_encode_uint space ++
    mp_encode_uint TNT_TUPLE in
  let body2 := mp_encode_uint TNT_OPS in
  _ ← local 64 (body1 ++ body2);
  data ← sbuf_iov tuple;
  odata ← sbuf_iov ops;
  send_package s [hdr; body1; data; body2; odata].

(** [proc]: the memory from the pointer on, [None] for [NULL]. *)
Definition tnt_rpc_base s (proc : option bytes) (proc_len : Z) args (op : tnt_request_t)
    : option (Z * stream T) :=
  match proc with
  | None => Some (-1, s)
  | Some proc =>
      if decide (proc_len = 0) then Some (-1, s) else
      bad ← tnt_object_verify args (Some MP_ARRAY);
      if decide (bad <> 0) then Some (-1, s) else
      let fld : Z := if is_call op then TNT_FUNCTION else TNT_EXPRESSION in
      '(hdr, s) ← start_package s op;
      let body1 := mp_encode_map 2 ++ mp_encode_uint fld ++ mp_encode_strl (u32 proc_len) in
      let body2 := mp_encode_uint TNT_TUPLE in
      _ ← local 64 (body1 ++ body2);
      name ← slice 0 (Z.to_nat proc_len) proc;
      data ← sbuf_iov args;
      send_package s [hdr; body1; name; body2; data]
  end.

Definition tnt_call s proc proc_len args := tnt_rpc_base s proc proc_len args TNT_OP_CALL.
Definition tnt_call_16 s proc proc_len args := tnt_rpc_base s proc proc_len args TNT_OP_CALL_16.
Definition tnt_eval s proc proc_len args := tnt_rpc_base s proc proc_len args TNT_OP_EVAL.

Definition tnt_execute s (expr : option bytes) (elen : Z) (params : stream (sbuf D))
    : option (Z * stream T) :=
  match expr with
  | None => Some (-1, s)
  | Some expr =>
      if decide (elen = 0) then Some (-1, s) else
      bad ← tnt_object_verify params (Some MP_ARRAY);
      if decide (bad <> 0) then Some (-1, s) else
      '(hdr, s) ← start_package s TNT_OP_EXECUTE;
      let body1 := mp_encode_map 2 ++ mp_encode_uint TNT_SQL_TEXT ++ mp_encode_strl (u32 elen) in
      let body2 := mp_encode_uint TNT_SQL_BIND in
      _ ← local 64 (body1 ++ body2);
      text ← slice 0 (Z.to_nat elen) expr;
      data ← sbuf_iov params;
      send_package s [hdr; body1; text; body2; data]
  end.

Definition tnt_ping s : option (Z * stream T) :=
  '(hdr, s) ← start_package s TNT_OP_PING;
  body ← local 2 (mp_encode_map 0);
  send_package s [hdr; body].

End commands.

(** ** Update operations *)

Section update.
Context {MP : MsgPuck}.
Context {D : Type}.
Implicit Types (ops : object) (val : stream (sbuf D)).

Definition tnt_update_op_len (op : Z) : Z :=
  if decide (op = TNT_UOP_ADDITION \/ op = TNT_UOP_SUBSTRACT \/ op = TNT_UOP_AND \/
             op = TNT_UOP_XOR \/ op = TNT_UOP_OR \/ op = TNT_UOP_DELETE \/
             op = TNT_UOP_INSERT \/ op = TNT_UOP_ASSIGN) then 3
  else if decide (op = TNT_UOP_SPLICE) then 5
  else -1.

(** Open the sparse array the operations go to. *)
Definition open_container ops : option (Z * object) :=
  '(_, ops) ← tnt_object_type ops TNT_SBO_SPARSE; tnt_object_add_array ops 0.

(** [Some None] is a [NULL] result. *)
Definition tnt_update_container (given : bool) (m : malloc_state) : option (option object) :=
  ops ← tnt_object given m;
  match ops with
  | None => Some None
  | Some ops =>
      '(rc, ops) ← open_container ops;
      if decide (rc = -1) then
        _ ← tnt_stream_free (Some (tnt_buf_free (Some tnt_sbuf_object_free))) (Some ops); Some None
      else Some (Some ops)
  end.

(** [opob->stack->size = ops->wrcnt - 1], then close. *)
Definition tnt_update_container_close ops : option (Z * object) :=
  o ← get_sbo ops;
  e ← stack o !! 0%nat;
  let stk := <[0%nat := Entry (e_offset e) (u32 (st_wrcnt ops - 1)) (e_type e)]> (stack o) in
  let ops := put_sbo (Sbo stk (stack_size o) (stack_alloc o) (sbo_type o)) ops in
  '(_, ops) ← tnt_object_container_close ops;
  Some (0, ops).

Definition tnt_update_container_reset ops : option (Z * object) :=
  '(_, ops) ← tnt_object_reset ops;
  '(rc, ops) ← open_container ops;
  if decide (rc = -1) then
    ops' ← tnt_stream_free (Some (tnt_buf_free (Some tnt_sbuf_object_free))) (Some ops);
    Some (-1, default ops ops')
  else Some (0, ops).

Definition tnt_update_op ops (op fieldno : Z) (opdata : bytes) : option (Z * object) :=
  body ← local 64 (mp_encode_array (u32 (tnt_update_op_len op)) ++ mp_encode_str [op] ++
                   mp_encode_uint fieldno);
  tnt_buf_writev ops [body; opdata].

Definition tnt_update_bit ops (fieldno op value : Z) : option (Z * object) :=
  if decide (op <> 38 /\ op <> 94 /\ op <> 124) then Some (-1, ops) else
  body ← local 10 (mp_encode_uint value);
  tnt_update_op ops op fieldno body.

Definition tnt_update_arith_int ops (fieldno op value : Z) : option (Z * object) :=
  if decide (op <> 43 /\ op <> 45) then Some (-1, ops) else
  body ← local 10 (if decide (0 <= value) then mp_encode_uint value else mp_encode_int value);
  tnt_update_op ops op fieldno body.

Definition tnt_update_arith_float ops (fieldno op value : Z) : option (Z * object) :=
  if decide (op <> 43 /\ op <> 45) then Some (-1, ops) else
  body ← local 10 (mp_encode_float value);
  tnt_update_op ops op fieldno body.

Definition tnt_update_arith_double ops (fieldno op value : Z) : option (Z * object) :=
  if decide (op <> 43 /\ op <> 45) then Some (-1, ops) else
  body ← local 10 (mp_encode_double value);
  tnt_update_op ops op fieldno body.

Definition tnt_update_delete ops (fieldno fieldcount : Z) : option (Z * object) :=
  body ← local 10 (mp_encode_uint fieldcount);
  tnt_update_op ops TNT_UOP_DELETE fieldno body.

Definition tnt_update_insert ops (fieldno : Z) val : option (Z * object) :=
  bad ← tnt_object_verify val None;
  if decide (bad <> 0) then Some (-1, ops) else
  data ← sbuf_iov val;
  tnt_update_op ops TNT_UOP_INSERT fieldno data.

Definition tnt_update_assign ops (fieldno : Z) val : option (Z * object) :=
  bad ← tnt_object_verify val None;
  if decide (bad <> 0) then Some (-1, ops) else
  data ← sbuf_iov val;
  tnt_update_op ops TNT_UOP_ASSIGN fieldno data.

(** The three parts are encoded into a heap block of the computed size. *)
Definition tnt_update_splice ops (fieldno position offset : Z) (buffer : bytes) (buffer_len : Z)
    : option (Z * object) :=
  let buf_size := Z.to_nat (mp_sizeof_uint position + mp_sizeof_uint offset +
                            mp_sizeof_str (u32 buffer_len)) in
  let '(a, m) := pop (st_mem ops) in
  buf ← tnt_mem_alloc custom_realloc a buf_size;
  let ops := set_mem m ops in
  match buf with
  | PNull => Some (-1, ops)
  | _ =>
      payload ← slice 0 (Z.to_nat (u32 buffer_len)) buffer;
      let e1 := mp_encode_uint position in
      let e2 := mp_encode_uint offset in
      buf ← store buf 0 e1;
      buf ← store buf (length e1) e2;
      buf ← store buf (length e1 + length e2) (mp_encode_str payload);
      data ← load buf 0 buf_size;
      '(retval, ops) ← tnt_update_op ops TNT_UOP_SPLICE fieldno data;
      _ ← tnt_mem_free custom_realloc buf;
      Some (retval, ops)
  end.

End update.
