(* ===== verification/CommandsSpec.v ===== *)
(** * Correctness of the direct commands

    Every command sends the packet of the fields it stands for
    ([command_fields]), rejects arguments that are not msgpack arrays without
    touching the stream, and agrees with the request objects of Request.v. *)

From S2P Require Import Prelude Msgpuck MsgpuckRef Mem Stream Buf Proto Object Request RequestSpec Commands.

(** The object's buffer holds [bs]. *)
Definition holds {D} (o : stream (sbuf D)) (bs : bytes) : Prop := TNT_SBUF_DATA o = Some (Some bs).

Section verify.
Context {MP : MsgPuck} {MPS : MsgPuckSpec MP}.
Context {D : Type}.
Implicit Types (o : stream (sbuf D)).

Lemma holds_inv o bs :
  holds o bs -> exists sb b, st_data o = Some sb /\ block_of (data (sb_core sb)) = Some b /\
    contents (sb_core sb) = bs /\ bs = take (size (sb_core sb)) b.
Proof.
  unfold holds, TNT_SBUF_DATA, contents. destruct (st_data o) as [sb|]; [|done]. simpl.
  destruct (data (sb_core sb)) as [|b|b|] eqn:Ed; try done; simpl; unfold slice; case_decide; try done;
    simpl; intros [= <-]; exists sb, b; rewrite Ed, drop_0; done.
Qed.

Lemma typeof_take (bs b : bytes) n t :
  bs = take n b -> mp_typeof_at bs = Some t -> mp_typeof_at b = Some t.
Proof. intros ->. destruct n, b; simpl; done. Qed.

(** [tnt_object_verify] tells whether the buffer is one object of the type. *)
Lemma verify_holds o bs t t' :
  holds o bs -> mp_object bs -> mp_typeof_at bs = Some t ->
  tnt_object_verify o (Some t') = Some (if decide (t = t') then 0 else -1).
Proof.
  intros Hh Ho Ht. destruct (holds_inv o bs Hh) as (sb & b & Hs & Hb & Hc & Htk).
  unfold tnt_object_verify. rewrite Hs. cbn [mbind option_bind]. rewrite Hb. cbn [mbind option_bind].
  rewrite (typeof_take bs b _ t Htk Ht). cbn [mbind option_bind]. rewrite Hc, Ho.
  destruct (decide (t = t')) as [->|].
  - rewrite bool_decide_eq_false_2 by (by intros []). done.
  - by rewrite bool_decide_eq_true_2.
Qed.

Lemma verify_any o bs : holds o bs -> mp_object bs -> tnt_object_verify o None = Some 0.
Proof.
  intros Hh Ho. destruct (holds_inv o bs Hh) as (sb & b & Hs & Hb & Hc & _).
  unfold tnt_object_verify. rewrite Hs. simpl. by rewrite Hc, Ho.
Qed.

(** The bytes are exactly one msgpack array: a valid object, nothing after it. *)
Definition one_array (bs : bytes) : Prop := mp_check bs = Some [] /\ mp_typeof_at bs = Some MP_ARRAY.

Lemma one_array_verify o bs : holds o bs -> one_array bs -> tnt_object_verify o (Some MP_ARRAY) = Some 0.
Proof. intros Hh [Ho Ht]. by rewrite (verify_holds o bs MP_ARRAY). Qed.

Lemma not_one_array_verify o bs :
  holds o bs -> bs <> [] -> ~ one_array bs -> tnt_object_verify o (Some MP_ARRAY) = Some (-1).
Proof.
  intros Hh Hne Hno. destruct (holds_inv o bs Hh) as (sb & b & Hs & Hb & Hc & Htk).
  assert (exists t, mp_typeof_at bs = Some t) as [t Ht] by (destruct bs; [done|by eexists]).
  unfold tnt_object_verify. rewrite Hs. cbn [mbind option_bind]. rewrite Hb. cbn [mbind option_bind].
  rewrite (typeof_take bs b _ t Htk Ht). cbn [mbind option_bind].
  case_bool_decide as Et; [done|]. subst t. rewrite Hc.
  destruct (mp_check bs) as [[|]|] eqn:Ec; try done. by destruct Hno.
Qed.

Lemma sbuf_iov_holds o bs : holds o bs -> sbuf_iov o = Some bs.
Proof. unfold sbuf_iov, holds. by intros ->. Qed.

(** An array argument. *)
Definition array_arg o (bs : bytes) : Prop :=
  holds o bs /\ mp_object bs /\ mp_typeof_at bs = Some MP_ARRAY /\ zlen bs < 2 ^ 32.

Lemma array_arg_verify o bs : array_arg o bs -> tnt_object_verify o (Some MP_ARRAY) = Some 0.
Proof. intros (Hh & Ho & Ht & _). by rewrite (verify_holds o bs MP_ARRAY). Qed.

End verify.

Section commands.
Context {MP : MsgPuck} {MPS : MsgPuckSpec MP}.
Context {T : Type} {SK : Sink T} {SKS : SinkSpec T}.
Context {D : Type}.

(** ** Sending a packet *)

(** [res] is the outcome of writing the packet of [fs] with the next sync id. *)
Definition emits (s : stream T) (res : option (Z * stream T)) (code : Z) (fs : fields) : Prop :=
  exists iov, res = sk_writev (reqid_incr s) iov /\ concat iov = packet code (st_reqid s) fs /\ concat iov <> [].

(** ... and what that comes to on a stream that keeps its promises. *)
Definition sends (s : stream T) (res : option (Z * stream T)) (code : Z) (fs : fields) : Prop :=
  exists r s', res = Some (r, s') /\ st_reqid s' = u64 (st_reqid s + 1) /\
    (sk_sure s -> r <> -1 /\ sk_sure s') /\
    (r = -1 \/
     (r = zlen (packet code (st_reqid s) fs) /\ sk_ok s' /\
      sk_written s' = sk_written s ++ packet code (st_reqid s) fs)).

Lemma emits_sends s res code fs : sk_ok s -> emits s res code fs -> sends s res code fs.
Proof.
  intros Hs (iov & -> & Ec & Hne).
  destruct (sk_writev_spec (reqid_incr s) iov (sk_reqid_ok _ _ Hs) Hne) as (r & s' & E & Er & Hsure & H).
  unfold reqid_incr in *. rewrite sk_reqid_written, Ec in H. exists r, s'. split; [done|]. split; [done|].
  split; [|done]. intros Hs'. by apply Hsure, sk_reqid_sure.
Qed.

Lemma send_package_eq (s : stream T) (v : list bytes) :
  zlen (concat v) < 2 ^ 64 ->
  exists prefix, send_package s v = sk_writev s (prefix :: v) /\ prefix = mp_encode_luint32 (zlen (concat v)) /\ prefix <> [].
Proof.
  intros Hl. unfold send_package. rewrite sum_length_concat. fold (zlen (concat v)).
  assert (zlen (mp_encode_luint32 (zlen (concat v))) <= 9 /\ 1 <= zlen (mp_encode_luint32 (zlen (concat v)))) as [L1 L2].
  { rewrite luint32_size by len. unfold mp_sizeof_luint32. case_decide; lia. }
  rewrite (local_Some 9) by done. cbn [mbind option_bind]. eexists. split; [done|]. split; [done|].
  intros E. rewrite E in L2. unfold zlen in L2. simpl in L2. lia.
Qed.

Lemma start_ok (s : stream T) (op : tnt_request_t) :
  0 <= st_reqid s < 2 ^ 64 ->
  start_package s op = Some (header_map op (st_reqid s), reqid_incr s).
Proof.
  intros Hq. unfold start_package.
  by destruct (encode_header_ok op (st_reqid s) (request_code_bound op) Hq) as [-> _].
Qed.

(** A package whose parts after the length are a header and a body map. *)
Lemma send_fields (s : stream T) (op : tnt_request_t) (fs : fields) (parts : list bytes) :
  0 <= st_reqid s < 2 ^ 64 -> concat parts = body_map fs -> zlen (body_map fs) < 2 ^ 63 ->
  emits s (send_package (reqid_incr s) (header_map op (st_reqid s) :: parts)) op fs.
Proof.
  intros Hq Hp Hl.
  destruct (encode_header_ok op (st_reqid s) (request_code_bound op) Hq) as [_ Hh].
  assert (concat (header_map op (st_reqid s) :: parts) = header_map op (st_reqid s) ++ body_map fs) as Ec
    by (simpl; by rewrite Hp).
  destruct (send_package_eq (reqid_incr s) (header_map op (st_reqid s) :: parts)) as (prefix & -> & Ep & Hne).
  { rewrite Ec. unfold zlen in *. rewrite length_app. lia. }
  eexists. split; [done|]. rewrite Ec in Ep. unfold packet, frame. rewrite <- Ep, <- Ec. split; [done|]. simpl. by destruct prefix.
Qed.

(** ** The commands as data *)

Inductive command :=
  | CSelect (space index limit offset iterator : Z) (key : stream (sbuf D)) (kb : bytes)
  | CInsert (space : Z) (tuple : stream (sbuf D)) (tb : bytes)
  | CReplace (space : Z) (tuple : stream (sbuf D)) (tb : bytes)
  | CDelete (space index : Z) (key : stream (sbuf D)) (kb : bytes)
  | CUpdate (space index : Z) (key ops : stream (sbuf D)) (kb ob : bytes)
  | CUpsert (space : Z) (tuple ops : stream (sbuf D)) (tb ob : bytes)
  | CCall (proc : bytes) (args : stream (sbuf D)) (ab : bytes)
  | CCall16 (proc : bytes) (args : stream (sbuf D)) (ab : bytes)
  | CEval (expr : bytes) (args : stream (sbuf D)) (ab : bytes)
  | CExecute (expr : bytes) (params : stream (sbuf D)) (pb : bytes)
  | CPing.

Definition run_command (c : command) (s : stream T) : option (Z * stream T) :=
  match c with
  | CSelect sp ix li off it key _ => tnt_select s sp ix li off it key
  | CInsert sp tuple _ => tnt_insert s sp tuple
  | CReplace sp tuple _ => tnt_replace s sp tuple
  | CDelete sp ix key _ => tnt_delete s sp ix key
  | CUpdate sp ix key ops _ _ => tnt_update s sp ix key ops
  | CUpsert sp tuple ops _ _ => tnt_upsert s sp tuple ops
  | CCall proc args _ => tnt_call s (Some proc) (zlen proc) args
  | CCall16 proc args _ => tnt_call_16 s (Some proc) (zlen proc) args
  | CEval expr args _ => tnt_eval s (Some expr) (zlen expr) args
  | CExecute expr params _ => tnt_execute s (Some expr) (zlen expr) params
  | CPing => tnt_ping s
  end.

Definition command_op (c : command) : tnt_request_t :=
  match c with
  | CSelect _ _ _ _ _ _ _ => TNT_OP_SELECT
  | CInsert _ _ _ => TNT_OP_INSERT
  | CReplace _ _ _ => TNT_OP_REPLACE
  | CDelete _ _ _ _ => TNT_OP_DELETE
  | CUpdate _ _ _ _ _ _ => TNT_OP_UPDATE
  | CUpsert _ _ _ _ _ => TNT_OP_UPSERT
  | CCall _ _ _ => TNT_OP_CALL
  | CCall16 _ _ _ => TNT_OP_CALL_16
  | CEval _ _ _ => TNT_OP_EVAL
  | CExecute _ _ _ => TNT_OP_EXECUTE
  | CPing => TNT_OP_PING
  end.

Definition num (k : tnt_body_key_t) (v : Z) : Z * bytes := (k : Z, mp_encode_uint v).
Definition obj (k : tnt_body_key_t) (v : bytes) : Z * bytes := (k : Z, v).

(** The body each command stands for. *)
Definition command_fields (c : command) : fields :=
  match c with
  | CSelect sp ix li off it _ kb =>
      [num TNT_SPACE sp; num TNT_INDEX ix; num TNT_LIMIT li; num TNT_OFFSET off;
       num TNT_ITERATOR it; obj TNT_KEY kb]
  | CInsert sp _ tb | CReplace sp _ tb => [num TNT_SPACE sp; obj TNT_TUPLE tb]
  | CDelete sp ix _ kb => [num TNT_SPACE sp; num TNT_INDEX ix; obj TNT_KEY kb]
  | CUpdate sp ix _ _ kb ob => [num TNT_SPACE sp; num TNT_INDEX ix; obj TNT_KEY kb; obj TNT_TUPLE ob]
  | CUpsert sp _ _ tb ob => [num TNT_SPACE sp; obj TNT_TUPLE tb; obj TNT_OPS ob]
  | CCall proc _ ab | CCall16 proc _ ab => [obj TNT_FUNCTION (mp_encode_str proc); obj TNT_TUPLE ab]
  | CEval expr _ ab => [obj TNT_EXPRESSION (mp_encode_str expr); obj TNT_TUPLE ab]
  | CExecute expr _ pb => [obj TNT_SQL_TEXT (mp_encode_str expr); obj TNT_SQL_BIND pb]
  | CPing => []
  end.

Definition is_u32 (n : Z) : Prop := 0 <= n < 2 ^ 32.
Definition name_ok (s : bytes) : Prop := 0 < zlen s < 2 ^ 32.

Definition command_ok (c : command) : Prop :=
  match c with
  | CSelect sp ix li off it key kb =>
      is_u32 sp /\ is_u32 ix /\ is_u32 li /\ is_u32 off /\ is_u32 it /\ array_arg key kb
  | CInsert sp tuple tb | CReplace sp tuple tb => is_u32 sp /\ array_arg tuple tb
  | CDelete sp ix key kb => is_u32 sp /\ is_u32 ix /\ array_arg key kb
  | CUpdate sp ix key ops kb ob => is_u32 sp /\ is_u32 ix /\ array_arg key kb /\ array_arg ops ob
  | CUpsert sp tuple ops tb ob => is_u32 sp /\ array_arg tuple tb /\ array_arg ops ob
  | CCall p args ab | CCall16 p args ab | CEval p args ab | CExecute p args ab =>
      name_ok p /\ array_arg args ab
  | CPing => True
  end.

(** Sizes of the pieces of a body. *)
Lemma uint32_len n : is_u32 n -> zlen (mp_encode_uint n) <= 5.
Proof. apply spec_len_uint32. Qed.

Lemma key_len (k : tnt_body_key_t) : zlen (mp_encode_uint k) = 1.
Proof. apply spec_len_uint7, body_key_bound. Qed.

Lemma map_len n : 0 <= n < 16 -> zlen (mp_encode_map n) = 1.
Proof. apply spec_len_map4. Qed.

Lemma str_len (n : Z) : 0 < n < 2 ^ 32 -> zlen (mp_encode_strl n) <= 5.
Proof. intros. apply spec_len_strl. lia. Qed.

(** Bound the length of a concatenation of encoded pieces. *)
Ltac sizes :=
  cbn [command_fields]; unfold body_map, field_bytes, num, obj, mp_encode_str; cbn [concat fmap list_fmap fst snd];
  rewrite ?app_nil_r, ?zlen_app, ?key_len;
  repeat match goal with
  | H : is_u32 ?n |- _ => pose proof (uint32_len n H); clear H
  | H : name_ok ?p |- _ => pose proof (str_len _ H); unfold name_ok in H
  | H : array_arg _ _ |- _ => destruct H as (_ & _ & _ & H)
  end;
  repeat match goal with |- context [zlen (mp_encode_map ?n)] =>
    pose proof (map_len n ltac:(unfold zlen; simpl; lia)); generalize dependent (zlen (mp_encode_map n)); intros end;
  lia.

(** Run the checks and the encodings of a command up to the write. *)
Ltac run_to_write :=
  repeat first
    [ match goal with H : array_arg ?o ?b |- context [tnt_object_verify ?o _] =>
        rewrite (array_arg_verify o b H); cbn [mbind option_bind]; rewrite decide_False by (intros []; done) end
    | match goal with H : name_ok ?p |- context [decide (zlen ?p = 0)] =>
        rewrite (decide_False (P := zlen p = 0)) by (unfold name_ok in H; lia) end
    | match goal with H : name_ok ?p |- context [u32 (zlen ?p)] =>
        rewrite (u32_small (zlen p)) by (unfold name_ok in H; lia) end
    | rewrite start_ok by done; cbn [mbind option_bind]
    | rewrite (local_Some 64) by sizes; cbn [mbind option_bind]
    | rewrite (local_Some 2) by sizes; cbn [mbind option_bind]
    | rewrite slice_all; cbn [mbind option_bind]
    | match goal with H : array_arg ?o ?b |- context [sbuf_iov ?o] =>
        rewrite (sbuf_iov_holds o b (proj1 H)); cbn [mbind option_bind] end ].

Lemma run_command_emits (c : command) (s : stream T) :
  0 <= st_reqid s < 2 ^ 64 -> command_ok c ->
  emits s (run_command c s) (command_op c) (command_fields c).
Proof.
  intros Hq Hc. destruct c; simpl in Hc; destruct_and? Hc; cbn [run_command command_op];
    unfold tnt_select, tnt_insert, tnt_replace, tnt_store_base, tnt_delete, tnt_update, tnt_upsert,
      tnt_call, tnt_call_16, tnt_eval, tnt_rpc_base, tnt_execute, tnt_ping;
    change (is_call TNT_OP_CALL) with true; change (is_call TNT_OP_CALL_16) with true;
    change (is_call TNT_OP_EVAL) with false; cbv iota;
    run_to_write; (apply send_fields; [done| |sizes]);
    simpl; unfold body_map; simpl; unfold field_bytes, mp_encode_str; simpl;
    rewrite ?app_nil_r, <- ?app_assoc; done.
Qed.

Lemma run_command_sends (c : command) (s : stream T) :
  sk_ok s -> 0 <= st_reqid s < 2 ^ 64 -> command_ok c ->
  sends s (run_command c s) (command_op c) (command_fields c).
Proof. intros Hs Hq Hc. apply emits_sends; [done|]. by apply run_command_emits. Qed.

Lemma array_arg_field (k : tnt_body_key_t) (o : stream (sbuf D)) b : array_arg o b -> field_ok (obj k b).
Proof. intros (_ & Ho & _). pose proof (body_key_bound k). split; simpl; [lia|done]. Qed.

Lemma num_field (k : tnt_body_key_t) n : is_u32 n -> field_ok (num k n).
Proof. intros Hn. pose proof (body_key_bound k). unfold is_u32 in Hn. split; simpl; [lia|]. apply mp_object_uint. lia. Qed.

Lemma name_field (k : tnt_body_key_t) p : name_ok p -> field_ok (obj k (mp_encode_str p)).
Proof. intros [_ Hp]. pose proof (body_key_bound k). split; simpl; [lia|auto with mp]. Qed.

Lemma command_fields_ok (c : command) :
  command_ok c -> Forall field_ok (command_fields c) /\
  zlen (command_fields c) < 16 /\ zlen (body_map (command_fields c)) < 2 ^ 63.
Proof.
  intros Hc. destruct c; simpl in Hc; destruct_and? Hc;
    (split; [repeat apply Forall_cons_2; eauto using num_field, array_arg_field, name_field; apply Forall_nil_2
           | split; [done|sizes]]).
Qed.

(** C5: Every direct command is correct: with arguments in the range of their C
    types and array arguments that are msgpack arrays, [tnt_select],
    [tnt_insert], [tnt_replace], [tnt_delete], [tnt_update], [tnt_upsert],
    [tnt_call], [tnt_call_16], [tnt_eval], [tnt_execute] and [tnt_ping] are
    defined (their local buffers are never overrun), take the next sync id,
    and either the stream refuses the write or they append one packet, report
    its size, and a server decodes from it the command, the sync id and exactly
    the command's fields. *)
Theorem command_correct (c : command) (s : stream T) :
  sk_ok s -> 0 <= st_reqid s < 2 ^ 64 -> command_ok c ->
  exists r s', run_command c s = Some (r, s') /\ st_reqid s' = u64 (st_reqid s + 1) /\
    (sk_sure s -> r <> -1) /\
    (r = -1 \/
     exists pkt, r = zlen pkt /\ sk_written s' = sk_written s ++ pkt /\
       forall rest, decode_packet (pkt ++ rest) =
         Some (header_fields (command_op c) (st_reqid s), command_fields c, rest)).
Proof.
  intros Hs Hq Hc. destruct (run_command_sends c s Hs Hq Hc) as (r & s' & E & Er & Hsure & Hr).
  exists r, s'. split; [done|]. split; [done|]. split; [intros Hs'; by apply Hsure|].
  destruct Hr as [?|(-> & _ & Hw)]; [by left|right]. eexists. split; [done|]. split; [done|].
  intros rest. destruct (command_fields_ok c Hc) as (Hf & Hn & Hl).
  destruct (encode_header_ok (command_op c) (st_reqid s) (request_code_bound _) Hq) as [_ Hh].
  pose proof (request_code_bound (command_op c)).
  apply decode_packet_app; try done; [lia|lia|]. rewrite zlen_app. lia.
Qed.

(** The object arguments of a command, in the order they are checked. *)
Definition command_args (c : command) : list (stream (sbuf D)) :=
  match c with
  | CSelect _ _ _ _ _ o _ | CInsert _ o _ | CReplace _ o _ | CDelete _ _ o _ => [o]
  | CUpdate _ _ o1 o2 _ _ | CUpsert _ o1 o2 _ _ => [o1; o2]
  | CCall _ o _ | CCall16 _ o _ | CEval _ o _ | CExecute _ o _ => [o]
  | CPing => []
  end.

Lemma failed_verify_rejects (c : command) (s : stream T) pre o post v :
  command_args c = pre ++ o :: post ->
  Forall (fun o' => tnt_object_verify o' (Some MP_ARRAY) = Some 0) pre ->
  tnt_object_verify o (Some MP_ARRAY) = Some v -> v <> 0 ->
  run_command c s = Some (-1, s).
Proof.
  intros Ha Hpre Hv Hne. destruct c; simpl in Ha;
    (destruct pre as [|o1 [|o2 pre]]; simpl in Ha; simplify_eq; try (destruct pre; discriminate));
    try (apply Forall_cons in Hpre as [Hv1 _]); simpl;
    unfold tnt_select, tnt_insert, tnt_replace, tnt_store_base, tnt_delete, tnt_update, tnt_upsert,
      tnt_call, tnt_call_16, tnt_eval, tnt_rpc_base, tnt_execute;
    try (case_decide; [done|]); rewrite ?Hv1; cbn [mbind option_bind];
    try (rewrite (decide_False (P := 0 <> 0)) by (intros []; done));
    rewrite Hv; cbn [mbind option_bind]; by rewrite (decide_True (P := v <> 0)).
Qed.

(** C12: A command one of whose object arguments holds some bytes that are not
    exactly one msgpack array (no valid object, an object of another type, or
    an array with more bytes after it), the arguments before it being arrays,
    returns -1 and leaves the stream as it was: nothing is written and no sync
    id is consumed. *)
Theorem command_rejects (c : command) (s : stream T) pre o post bs :
  command_args c = pre ++ o :: post ->
  Forall (fun o' => exists b, holds o' b /\ one_array b) pre ->
  holds o bs -> bs <> [] -> ~ one_array bs ->
  run_command c s = Some (-1, s).
Proof.
  intros Ha Hpre Ho Hne Hno. apply (failed_verify_rejects c s pre o post (-1) Ha); [|by eapply not_one_array_verify|done].
  eapply Forall_impl; [exact Hpre|]. intros o' (b & Hh & H1). by eapply one_array_verify.
Qed.

(** ** The same commands through request objects *)

Definition with_space sp r := snd (tnt_request_set_space r sp).
Definition with_index ix r := snd (tnt_request_set_index r ix).

(** The calls of the request API that make the request of a command; there is
    no request constructor for SQL. *)
Definition request_of (c : command) : option request :=
  match c with
  | CSelect sp ix li off it key _ =>
      r ← tnt_request_select true (Grant []);
      let r := with_index ix (with_space sp r) in
      let r := snd (tnt_request_set_limit r li) in
      let r := snd (tnt_request_set_offset r off) in
      let r := snd (tnt_request_set_iterator r it) in
      snd <$> tnt_request_set_key r key
  | CInsert sp tuple _ =>
      r ← tnt_request_insert true (Grant []); snd <$> tnt_request_set_tuple (with_space sp r) tuple
  | CReplace sp tuple _ =>
      r ← tnt_request_replace true (Grant []); snd <$> tnt_request_set_tuple (with_space sp r) tuple
  | CDelete sp ix key _ =>
      r ← tnt_request_delete true (Grant []);
      snd <$> tnt_request_set_key (with_index ix (with_space sp r)) key
  | CUpdate sp ix key ops _ _ =>
      r ← tnt_request_update true (Grant []);
      '(_, r) ← tnt_request_set_key (with_index ix (with_space sp r)) key;
      snd <$> tnt_request_set_ops r ops
  | CUpsert sp tuple ops _ _ =>
      r ← tnt_request_upsert true (Grant []);
      '(_, r) ← tnt_request_set_tuple (with_space sp r) tuple;
      snd <$> tnt_request_set_ops r ops
  | CCall proc args _ =>
      r ← tnt_request_call true (Grant []);
      '(_, r) ← tnt_request_set_func r (Some proc) (zlen proc);
      snd <$> tnt_request_set_tuple r args
  | CCall16 proc args _ =>
      r ← tnt_request_call_16 true (Grant []);
      '(_, r) ← tnt_request_set_func r (Some proc) (zlen proc);
      snd <$> tnt_request_set_tuple r args
  | CEval expr args _ =>
      r ← tnt_request_eval true (Grant []);
      '(_, r) ← tnt_request_set_expr r (Some expr) (zlen expr);
      snd <$> tnt_request_set_tuple r args
  | CExecute _ _ _ => None
  | CPing => tnt_request_ping true (Grant [])
  end.

(** The optional fields with the value a server assumes when they are absent. *)
Definition default_fields : list (Z * bytes) := [num TNT_INDEX 0; num TNT_OFFSET 0; num TNT_ITERATOR 0].

Definition essential (fs : list (Z * bytes)) : list (Z * bytes) :=
  filter (fun f => f ∉ default_fields) fs.

Lemma uint_inj n m : is_u32 n -> is_u32 m -> mp_encode_uint n = mp_encode_uint m -> n = m.
Proof.
  unfold is_u32. intros Hn Hm E. pose proof (spec_decode_uint n [] ltac:(lia)) as E1.
  rewrite E, spec_decode_uint in E1 by lia. by injection E1.
Qed.

Lemma essential_optional (k : tnt_body_key_t) n fs :
  is_u32 n -> k = TNT_INDEX \/ k = TNT_OFFSET \/ k = TNT_ITERATOR ->
  essential (num k n :: fs) = (if decide (n = 0) then [] else [num k n]) ++ essential fs.
Proof.
  intros Hn Hk. unfold essential. rewrite filter_cons. destruct (decide (n = 0)) as [->|Hne].
  - rewrite decide_False; [done|]. intros H. apply H. unfold default_fields.
    destruct Hk as [E|[E|E]]; rewrite E; set_solver.
  - rewrite decide_True; [done|]. unfold default_fields, num. intros H.
    rewrite !elem_of_cons in H. assert (is_u32 0) by (unfold is_u32; lia).
    destruct H as [E|[E|[E|H]]]; [ | | |by apply elem_of_nil in H]; apply (f_equal snd) in E;
      by apply uint_inj in E.
Qed.

Lemma essential_other (f : Z * bytes) fs :
  fst f <> TNT_INDEX -> fst f <> TNT_OFFSET -> fst f <> TNT_ITERATOR ->
  essential (f :: fs) = f :: essential fs.
Proof.
  intros H1 H2 H3. unfold essential. rewrite filter_cons, decide_True; [done|]. unfold default_fields.
  rewrite !elem_of_cons, elem_of_nil. destruct f as [k v]. simpl fst in *. intros [E|[E|[E|[]]]];
    injection E as E1 E2; contradiction.
Qed.

Lemma set_key_holds (r : request) (o : stream (sbuf D)) b :
  array_arg o b -> tnt_request_set_key r o = Some (0, set_key_bytes (Some b) r).
Proof. intros (Hh & _). unfold tnt_request_set_key. unfold holds in Hh. by rewrite Hh. Qed.

Lemma set_tuple_holds (r : request) (o : stream (sbuf D)) b :
  array_arg o b -> tnt_request_set_tuple r o = Some (0, set_tuple_bytes (Some b) r).
Proof. intros (Hh & _). unfold tnt_request_set_tuple. unfold holds in Hh. by rewrite Hh. Qed.

(** The commands the request API can express, with an iterator it knows. *)
Definition expressible (c : command) : Prop :=
  match c with
  | CSelect _ _ _ _ it _ _ => it < 128
  | CExecute _ _ _ => False
  | _ => True
  end.

Lemma set_func_ok (r : request) p :
  is_call (hdr_type r) = true -> tnt_request_set_func r (Some p) (zlen p) = Some (0, set_key_bytes (Some p) r).
Proof. intros H. unfold tnt_request_set_func. by rewrite H, slice_all. Qed.

Lemma set_expr_ok (r : request) p :
  hdr_type r = TNT_OP_EVAL -> tnt_request_set_expr r (Some p) (zlen p) = Some (0, set_key_bytes (Some p) r).
Proof. intros H. unfold tnt_request_set_expr. rewrite H, decide_False by auto. by rewrite slice_all. Qed.

Lemma set_ops_ok (r : request) (o : stream (sbuf D)) b :
  array_arg o b ->
  tnt_request_set_ops r o =
    if decide (hdr_type r = TNT_OP_UPDATE) then Some (0, set_tuple_bytes (Some b) r)
    else if decide (hdr_type r = TNT_OP_UPSERT) then Some (0, set_key_bytes (Some b) r)
    else Some (-1, r).
Proof. intros (Hh & _). unfold tnt_request_set_ops. unfold holds in Hh. by rewrite Hh. Qed.

Lemma array_arg_small (o : stream (sbuf D)) b : array_arg o b -> zlen b < 2 ^ 32.
Proof. intros (_ & _ & _ & H). exact H. Qed.

Lemma name_ok_small p : name_ok p -> zlen p < 2 ^ 32.
Proof. by intros []. Qed.

(** Run the calls of the request API. *)
Ltac request_steps :=
  repeat first
    [ match goal with
      | H : array_arg ?o ?b |- context [tnt_request_set_key _ ?o] => rewrite (set_key_holds _ o b H)
      | H : array_arg ?o ?b |- context [tnt_request_set_tuple _ ?o] => rewrite (set_tuple_holds _ o b H)
      | H : array_arg ?o ?b |- context [tnt_request_set_ops _ ?o] => rewrite (set_ops_ok _ o b H)
      end
    | rewrite set_func_ok by done | rewrite set_expr_ok by done ];
  unfold tnt_request_ping; simpl.

(** The request of a command is well formed. *)
Lemma request_of_ok c r :
  command_ok c -> expressible c -> request_of c = Some r -> request_ok r /\ hdr_type r = command_op c.
Proof.
  intros Hc He. destruct c; simpl in Hc, He; destruct_and? Hc; try done; unfold request_of; repeat (progress request_steps);
    intros [= <-]; (split; [|done]); unfold is_u32, UINT32_MAX in *;
    (split; simpl; rewrite ?u32_small by lia; try lia; intros ? ?; simplify_eq;
      eauto using array_arg_small, name_ok_small).
Qed.

Lemma perm_last2 (f a b : Z * bytes) : [f; b; a] ≡ₚ [f; a; b].
Proof. constructor. apply Permutation_swap. Qed.

(** Its fields are those of the direct command but for the order and the
    optional fields with their default value. *)
Lemma request_of_fields c :
  command_ok c -> expressible c ->
  exists r fs, request_of c = Some r /\ request_fields r = Some fs /\ fs ≡ₚ essential (command_fields c).
Proof.
  intros Hc He. destruct c; simpl in Hc, He; destruct_and? Hc; try done;
    unfold request_of; repeat (progress request_steps);
    eexists _, _; (split; [reflexivity|]; split; [reflexivity|]);
    cbn [command_fields]; rewrite ?essential_other by done; rewrite ?essential_optional by auto;
    rewrite ?essential_other by done; rewrite ?essential_optional by auto;
    rewrite ?essential_other by done; simpl; rewrite ?u32_small by done; unfold field_if; simpl;
    repeat case_bool_decide; repeat case_decide; try done; try contradiction; simpl.
  apply perm_last2.
Qed.

Lemma request_of_valid c r :
  command_ok c -> expressible c -> request_of c = Some r -> request_valid r.
Proof.
  intros Hc He. destruct c; simpl in Hc, He; destruct_and? Hc; try done; unfold request_of;
    repeat (progress request_steps); intros [= <-];
    (split; simpl; intros ? ?; simplify_eq; auto;
     match goal with H : array_arg _ ?b |- context [mp_object ?b] => pose proof (proj1 (proj2 H)); auto end).
Qed.

(** C6: The direct commands and the request objects agree: sent with the same
    sync id, the request built by the request API for a command and the command
    itself are decoded by the server to the same header and to the same body
    fields, up to their order and to the index, offset and iterator fields that
    the direct command sends explicitly when they are zero. *)
Theorem command_request_equiv c (s : stream T) :
  sk_ok s -> 0 <= st_reqid s < INT64_MAX -> command_ok c -> expressible c ->
  exists r z1 s1 z2 s2 r2, request_of c = Some r /\
    run_command c s = Some (z1, s1) /\ tnt_request_compile s r = Some (z2, s2, r2) /\
    (sk_sure s -> z1 <> -1 /\ z2 <> -1) /\
    (z1 = -1 \/ z2 = -1 \/
     exists p1 p2 h body1 body2,
       sk_written s1 = sk_written s ++ p1 /\ sk_written s2 = sk_written s ++ p2 /\
       decode_packet p1 = Some (h, body1, []) /\ decode_packet p2 = Some (h, body2, []) /\
       body2 ≡ₚ essential body1).
Proof.
  intros Hs Hq Hc He. assert (0 <= st_reqid s < 2 ^ 64) as Hq' by (unfold INT64_MAX in Hq; lia).
  destruct (request_of_fields c Hc He) as (r & fs & Er & Ef & Hperm).
  destruct (request_of_ok c r Hc He Er) as [Hr Ht]. pose proof (request_of_valid c r Hc He Er) as Hv.
  destruct (run_command_sends c s Hs Hq' Hc) as (z1 & s1 & E1 & _ & Hsure1 & H1).
  destruct (compile_spec s r Hs Hr Hq') as (z2 & s2 & E2 & _ & H2).
  rewrite next_sync_small in E2, H2 by done. rewrite Ef in H2. destruct H2 as [Hsure2 H2].
  exists r, z1, s1, z2, s2, (set_sync (st_reqid s) r). split; [done|]. split; [done|]. split; [done|].
  split; [intros Hs'; split; [by apply Hsure1|by apply Hsure2]|].
  destruct H1 as [->|(_ & _ & Hw1)]; [by left|right]. destruct H2 as [->|(_ & _ & _ & Hw2)]; [by left|right].
  rewrite Ht in Hw2. do 5 eexists. split; [exact Hw1|]. split; [exact Hw2|].
  pose proof (request_code_bound (command_op c)) as Hcode.
  destruct (request_fields_ok r fs Hr Hv Ef) as [Hok Hsm]. pose proof (packet_size r (st_reqid s) fs Hr Hsm Hq') as Hps.
  rewrite Ht in Hps. destruct Hsm as [Hn _]. destruct (command_fields_ok c Hc) as (Hf & Hn' & Hl).
  destruct (encode_header_ok (command_op c) (st_reqid s) Hcode Hq') as [_ Hh].
  split; [|split; [|exact Hperm]]; rewrite <- (app_nil_r (packet _ _ _)); apply decode_packet_app;
    try done; try lia. rewrite zlen_app. lia.
Qed.

End commands.

(** ** The theorems at work *)

Definition sample_tuple : stream (sbuf unit) := user_buf [0x91; 7].

Lemma sample_tuple_arg : array_arg (MP := RefPuck) sample_tuple [0x91; 7].
Proof. repeat split; reflexivity. Qed.

Definition sample_command : command (D := unit) := CSelect 512 0 10 0 6 sample_tuple [0x91; 7].

Lemma sample_command_ok : command_ok (MP := RefPuck) sample_command.
Proof. pose proof sample_tuple_arg. simpl. unfold is_u32. repeat split; (lia || apply H). Qed.

Lemma empty_buf_sure : sk_sure empty_buf.
Proof. intros H. by apply elem_of_nil in H. Qed.

Lemma command_correct_witness :
  exists s' pkt, run_command (MP := RefPuck) sample_command empty_buf = Some (zlen pkt, s') /\
    buf_contents s' = pkt /\
    decode_packet (MP := RefPuck) pkt =
      Some ([(0, [1]); (1, [0])],
            [(0x10, [0xcd; 2; 0]); (0x11, [0]); (0x12, [10]); (0x13, [0]); (0x14, [6]); (0x20, [0x91; 7])], []).
Proof.
  destruct (command_correct (MP := RefPuck) (SK := sbuf_sink unit) sample_command empty_buf empty_buf_ok)
    as (r & s' & E & _ & Hsure & Hr); [simpl; lia | apply sample_command_ok |].
  destruct Hr as [Hr|(pkt & -> & Hw & Hd)].
  - exfalso. revert Hr. apply Hsure, empty_buf_sure.
  - exists s', pkt. split; [exact E|]. split; [exact Hw|]. rewrite <- (app_nil_r pkt). apply Hd.
Defined.

(** The second argument of the update is an integer; the tuple of the insert is
    followed by another array; the key of the delete is cut short. *)
Lemma command_rejects_witness :
  run_command (MP := RefPuck) (CUpdate 512 0 sample_tuple (user_buf [7]) [0x91; 7] [7]) empty_buf = Some (-1, empty_buf) /\
  run_command (MP := RefPuck) (CInsert 512 (user_buf [0x91; 7; 0x90]) []) empty_buf = Some (-1, empty_buf) /\
  run_command (MP := RefPuck) (CDelete 512 0 (user_buf [0x92; 7]) []) empty_buf = Some (-1, empty_buf).
Proof.
  split; [|split].
  - apply (command_rejects (MP := RefPuck) (SK := sbuf_sink unit) (CUpdate 512 0 sample_tuple (user_buf [7]) [0x91; 7] [7]) empty_buf
      [sample_tuple] (user_buf [7]) [] [7]); [reflexivity | | reflexivity | discriminate | by intros [_ ?]].
    apply Forall_cons_2; [exists [0x91; 7]; repeat split | apply Forall_nil_2].
  - apply (command_rejects (MP := RefPuck) (SK := sbuf_sink unit) (CInsert 512 (user_buf [0x91; 7; 0x90]) []) empty_buf
      [] (user_buf [0x91; 7; 0x90]) [] [0x91; 7; 0x90]); [reflexivity | apply Forall_nil_2 | reflexivity | discriminate | by intros [? _]].
  - apply (command_rejects (MP := RefPuck) (SK := sbuf_sink unit) (CDelete 512 0 (user_buf [0x92; 7]) []) empty_buf
      [] (user_buf [0x92; 7]) [] [0x92; 7]); [reflexivity | apply Forall_nil_2 | reflexivity | discriminate | by intros [? _]].
Defined.

Lemma command_request_equiv_witness :
  exists r z1 s1 z2 s2 r2, request_of sample_command = Some r /\
    run_command (MP := RefPuck) sample_command empty_buf = Some (z1, s1) /\
    tnt_request_compile (MP := RefPuck) empty_buf r = Some (z2, s2, r2) /\
    z1 <> -1 /\ z2 <> -1 /\
    exists p1 p2 h body1 body2, buf_contents s1 = p1 /\ buf_contents s2 = p2 /\
      decode_packet (MP := RefPuck) p1 = Some (h, body1, []) /\
      decode_packet (MP := RefPuck) p2 = Some (h, body2, []) /\
      body2 ≡ₚ essential (MP := RefPuck) body1.
Proof.
  destruct (command_request_equiv (MP := RefPuck) (SK := sbuf_sink unit) sample_command empty_buf empty_buf_ok)
    as (r & z1 & s1 & z2 & s2 & r2 & Er & E1 & E2 & Hsure & H);
    [unfold INT64_MAX; simpl; lia | apply sample_command_ok | simpl; lia |].
  destruct (Hsure empty_buf_sure) as [N1 N2].
  exists r, z1, s1, z2, s2, r2. split; [exact Er|]. split; [exact E1|]. split; [exact E2|].
  split; [exact N1|]. split; [exact N2|].
  destruct H as [H|[H|H]]; [contradiction | contradiction | exact H].
Defined.
