(* ===== verification/UpdateSpec.v ===== *)
(** * Correctness of the update-operation builder (tnt/tnt_update.c)

    A client opens a container, adds operations and closes it.  Whatever the
    allocator answers the program is defined, and when no call fails the buffer
    holds the msgpack array of exactly these operations, the argument that
    [tnt_update] and [tnt_upsert] accept. *)

From S2P Require Import Prelude Msgpuck MsgpuckRef Mem Stream Buf Proto Object ObjectSpec.
From S2P Require Import Request RequestSpec Commands CommandsSpec.

Section update.
Context {MP : MsgPuck} {MPS : MsgPuckSpec MP}.
Context {D : Type}.

(** The calls that add one operation. *)
Inductive upd :=
  | UBit (fieldno op value : Z)
  | UArithInt (fieldno op value : Z)
  | UArithFloat (fieldno op value : Z)
  | UArithDouble (fieldno op value : Z)
  | UDelete (fieldno fieldcount : Z)
  | UInsert (fieldno : Z) (val : stream (sbuf D)) (vb : bytes)
  | UAssign (fieldno : Z) (val : stream (sbuf D)) (vb : bytes)
  | USplice (fieldno position offset : Z) (buffer : bytes).

Definition run_upd (u : upd) (ops : object) : option (Z * object) :=
  match u with
  | UBit f op v => tnt_update_bit ops f op v
  | UArithInt f op v => tnt_update_arith_int ops f op v
  | UArithFloat f op v => tnt_update_arith_float ops f op v
  | UArithDouble f op v => tnt_update_arith_double ops f op v
  | UDelete f n => tnt_update_delete ops f n
  | UInsert f val _ => tnt_update_insert ops f val
  | UAssign f val _ => tnt_update_assign ops f val
  | USplice f p o b => tnt_update_splice ops f p o b (zlen b)
  end.

(** The encoding of an operation: an array of the operator, the field and its
    arguments. *)
Definition op_bytes (n op fieldno : Z) (args : bytes) : bytes :=
  mp_encode_array n ++ mp_encode_str [op] ++ mp_encode_uint fieldno ++ args.

Definition upd_bytes (u : upd) : bytes :=
  match u with
  | UBit f op v => op_bytes 3 op f (mp_encode_uint v)
  | UArithInt f op v => op_bytes 3 op f (if decide (0 <= v) then mp_encode_uint v else mp_encode_int v)
  | UArithFloat f op v => op_bytes 3 op f (mp_encode_float v)
  | UArithDouble f op v => op_bytes 3 op f (mp_encode_double v)
  | UDelete f n => op_bytes 3 TNT_UOP_DELETE f (mp_encode_uint n)
  | UInsert f _ vb => op_bytes 3 TNT_UOP_INSERT f vb
  | UAssign f _ vb => op_bytes 3 TNT_UOP_ASSIGN f vb
  | USplice f p o b => op_bytes 5 TNT_UOP_SPLICE f (mp_encode_uint p ++ mp_encode_uint o ++ mp_encode_str b)
  end.

Definition arith_op (op : Z) : Prop := op = TNT_UOP_ADDITION \/ op = TNT_UOP_SUBSTRACT.
Definition bit_op (op : Z) : Prop := op = TNT_UOP_AND \/ op = TNT_UOP_XOR \/ op = TNT_UOP_OR.

Definition upd_ok (u : upd) : Prop :=
  match u with
  | UBit f op v => is_u32 f /\ bit_op op /\ 0 <= v < 2 ^ 64
  | UArithInt f op v => is_u32 f /\ arith_op op /\ - 2 ^ 63 <= v < 2 ^ 63
  | UArithFloat f op _ | UArithDouble f op _ => is_u32 f /\ arith_op op
  | UDelete f n => is_u32 f /\ is_u32 n
  | UInsert f val vb | UAssign f val vb => is_u32 f /\ holds val vb /\ mp_object vb
  | USplice f p o b => is_u32 f /\ is_u32 p /\ is_u32 o /\ zlen b < 2 ^ 32
  end.

(** ** One operation *)

(** A call that appends [bs] in one write. *)
Definition appends (s : object) (r : option (Z * object)) (bs : bytes) : Prop :=
  forall a, repr s a -> exists z s', r = Some (z, s') /\ side s s' /\ (granted s -> z <> -1) /\
    (z = -1 \/ (z <> -1 /\ st_wrcnt s' = u32 (st_wrcnt s + 1) /\
      repr s' (Abs (a_bytes a ++ bs) (a_open a) (a_cap a) (a_mode a)))).

Lemma writev_appends s iov : concat iov <> [] -> appends s (tnt_buf_writev s iov) (concat iov).
Proof.
  intros Hne a H. destruct (tnt_buf_writev_spec s iov (repr_ok _ _ H) Hne) as (r & s' & E & Hf & Hg & Hr).
  exists r, s'. split; [done|]. split; [split; [apply Hf|by intros; apply Hg]|].
  split; [by intros; apply Hg|]. destruct Hr as [->|(-> & Hok & Hco & Hw)]; [by left|right].
  split; [len|]. split; [done|]. by apply (same_frame_repr s).
Qed.

Lemma update_op_len_ok (op : Z) :
  arith_op op \/ bit_op op \/ op = TNT_UOP_DELETE \/ op = TNT_UOP_INSERT \/ op = TNT_UOP_ASSIGN ->
  tnt_update_op_len op = 3.
Proof.
  unfold tnt_update_op_len, arith_op, bit_op. intros H. rewrite decide_True; [done|]. tauto.
Qed.

Lemma update_op_appends s op f args n :
  is_u32 f -> tnt_update_op_len op = n -> 0 <= n < 16 ->
  appends s (tnt_update_op s op f args) (op_bytes n op f args).
Proof.
  intros Hf Hn Hb. unfold tnt_update_op. rewrite Hn, u32_small by lia.
  pose proof (spec_len_array4 n Hb) as L1. pose proof (uint32_len f Hf) as L2.
  assert (zlen (mp_encode_str [op]) = 2) as L3.
  { unfold mp_encode_str. rewrite zlen_app. change (zlen [op]) with 1. rewrite spec_len_strl5 by lia. done. }
  rewrite (local_Some 64) by (rewrite !zlen_app; lia). cbn [mbind option_bind].
  assert (concat [mp_encode_array n ++ mp_encode_str [op] ++ mp_encode_uint f; args] = op_bytes n op f args) as E
    by (simpl; unfold op_bytes; by rewrite app_nil_r, <- !app_assoc).
  rewrite <- E. apply writev_appends. rewrite E. unfold op_bytes.
  apply zlen_nonempty. rewrite !zlen_app. assert (0 <= zlen (mp_encode_uint f) /\ 0 <= zlen args) by len. lia.
Qed.

(** ** The splice buffer *)

Lemma store_next pre (bs : bytes) k :
  store (PHeap (pre ++ replicate (length bs + k) 0)) (length pre) bs
    = Some (PHeap ((pre ++ bs) ++ replicate k 0)).
Proof.
  unfold store. rewrite replicate_add. rewrite splice_app by len. simpl. by rewrite <- app_assoc.
Qed.

(** The block of the computed size is filled exactly. *)
Lemma splice_buffer e1 e2 e3 :
  (buf ← store (PHeap (replicate (length e1 + (length e2 + (length e3 + 0))) 0)) 0 e1;
   buf ← store buf (length e1) e2;
   buf ← store buf (length e1 + length e2) e3;
   Some buf) = Some (PHeap (e1 ++ e2 ++ e3)).
Proof.
  pose proof (store_next [] e1 (length e2 + (length e3 + 0))) as E1. simpl in E1. rewrite E1. simpl.
  rewrite store_next. cbn [mbind option_bind]. rewrite <- (length_app e1 e2), store_next.
  cbn [mbind option_bind]. by rewrite app_nil_r, <- app_assoc.
Qed.

Lemma repr_set_mem s m a : repr s a -> repr (set_mem m s) a.
Proof. intros (sb & o & H). exists sb, o. exact H. Qed.

Lemma splice_appends s f p o b :
  upd_ok (USplice f p o b) -> appends s (run_upd (USplice f p o b) s) (upd_bytes (USplice f p o b)).
Proof.
  intros (Hf & Hp & Ho & Hb) a H. simpl run_upd. simpl upd_bytes. unfold tnt_update_splice.
  assert (0 <= zlen b < 2 ^ 32) as Hb' by (split; [len|done]). rewrite u32_small by done.
  rewrite slice_all. unfold is_u32 in *.
  set (e1 := mp_encode_uint p). set (e2 := mp_encode_uint o). set (e3 := mp_encode_str b).
  assert (Z.to_nat (mp_sizeof_uint p + mp_sizeof_uint o + mp_sizeof_str (zlen b))
    = (length e1 + (length e2 + (length e3 + 0)))%nat) as ->.
  { rewrite !spec_sizeof_uint, spec_sizeof_str by lia. unfold e1, e2, e3, mp_encode_str.
    unfold zlen. rewrite length_app. lia. }
  pose proof (spec_len_uint p ltac:(lia)) as L1. fold e1 in L1.
  destruct (pop (st_mem s)) as [[|junk] m] eqn:Epop; pose proof (pop_granted _ _ _ Epop) as Hpop.
  - rewrite tnt_mem_alloc_eq by (unfold zlen in L1; lia). simpl.
    do 2 eexists. split; [done|]. split; [split; [done|]|].
    + intros Hg. by destruct (Hpop Hg).
    + split; [|by left]. intros Hg. by destruct (Hpop Hg).
  - rewrite tnt_mem_alloc_eq by (unfold zlen in L1; lia). cbn [mbind option_bind]. fold e3.
    pose proof (splice_buffer e1 e2 e3) as Hsb.
    destruct (store (PHeap (replicate _ 0)) 0 e1) as [b1|]; [|done]. cbn [mbind option_bind] in Hsb |- *.
    destruct (store b1 _ e2) as [b2|]; [|done]. cbn [mbind option_bind] in Hsb |- *.
    destruct (store b2 _ e3) as [b3|]; [|done]. cbn [mbind option_bind] in Hsb |- *.
    injection Hsb as ->. unfold load. cbn [mbind option_bind block_of].
    assert (slice 0 (length e1 + (length e2 + (length e3 + 0))) (e1 ++ e2 ++ e3) = Some (e1 ++ e2 ++ e3)) as ->.
    { rewrite <- (slice_all (e1 ++ e2 ++ e3)). f_equal. len. }
    cbn [mbind option_bind].
    destruct (update_op_appends (set_mem m s) TNT_UOP_SPLICE f (e1 ++ e2 ++ e3) 5 Hf eq_refl ltac:(lia) a)
      as (z & s' & -> & Hside & Hg & Hz); [by apply repr_set_mem|].
    cbn [mbind option_bind]. exists z, s'. split; [done|].
    assert (side s (set_mem m s)) as Hs by (split; [done|]; intros Hg'; by apply Hpop).
    split; [by etrans|]. split; [intros Hg'; by apply Hg, Hs|done].
Qed.

Ltac op_body := rewrite (local_Some 10); cbn [mbind option_bind]; [apply update_op_appends; auto using update_op_len_ok|].

Lemma upd_appends s u : upd_ok u -> appends s (run_upd u s) (upd_bytes u).
Proof.
  intros Hu. destruct u; [| | | | | | |by apply splice_appends]; simpl in Hu; simpl run_upd; simpl upd_bytes;
    unfold tnt_update_bit, tnt_update_arith_int, tnt_update_arith_float, tnt_update_arith_double,
      tnt_update_delete, tnt_update_insert, tnt_update_assign.
  - destruct Hu as (Hf & Hop & Hv). rewrite decide_False by (unfold bit_op in Hop; simpl in Hop; tauto).
    op_body; [lia|]. pose proof (spec_len_uint value). lia.
  - destruct Hu as (Hf & Hop & Hv). rewrite decide_False by (unfold arith_op in Hop; simpl in Hop; tauto).
    op_body; [lia|]. pose proof (spec_len_uint value). pose proof (spec_len_int value). case_decide; lia.
  - destruct Hu as (Hf & Hop). rewrite decide_False by (unfold arith_op in Hop; simpl in Hop; tauto).
    op_body; [lia|]. rewrite spec_len_float. lia.
  - destruct Hu as (Hf & Hop). rewrite decide_False by (unfold arith_op in Hop; simpl in Hop; tauto).
    op_body; [lia|]. rewrite spec_len_double. lia.
  - destruct Hu as (Hf & Hn). op_body; [lia|]. pose proof (uint32_len fieldcount Hn). lia.
  - destruct Hu as (Hf & Hh & Ho). rewrite (verify_any val vb Hh Ho). cbn [mbind option_bind].
    rewrite decide_False by (intros []; done). rewrite (sbuf_iov_holds val vb Hh). cbn [mbind option_bind].
    apply update_op_appends; auto using update_op_len_ok; lia.
  - destruct Hu as (Hf & Hh & Ho). rewrite (verify_any val vb Hh Ho). cbn [mbind option_bind].
    rewrite decide_False by (intros []; done). rewrite (sbuf_iov_holds val vb Hh). cbn [mbind option_bind].
    apply update_op_appends; auto using update_op_len_ok; lia.
Qed.

(** ** The container *)

Lemma write_wrcnt (s : object) bs z s' :
  tnt_buf_write s bs = Some (z, s') -> z <> -1 -> st_wrcnt s' = u32 (st_wrcnt s + 1).
Proof.
  unfold tnt_buf_write. intros H Hz. destruct (st_data s) as [sb|]; [|done]. simpl in H.
  destruct (sb_as sb); [by inv_opt|]. inv_opt. destruct x as [[[off|] c] m]; simpl in H0; [|by inv_opt].
  destruct (store (data c) off bs); [|done]. simpl in H0. by inv_opt.
Qed.

Lemma counted_wrcnt s s' : counted s = Some s' -> st_wrcnt s' = st_wrcnt s.
Proof. unfold counted. intros. inv_opt. unfold put_sbo. by destruct (st_data s). Qed.

Lemma push_wrcnt ty s z s' : push_container ty s = Some (z, s') -> st_wrcnt s' = st_wrcnt s.
Proof.
  unfold push_container, put_sbo. intros H. inv_opt. destruct (if decide _ then _ else _) as [[rc o] m].
  destruct (decide (rc = -1)); inv_opt; simpl; by destruct (st_data s).
Qed.

Lemma add_array_wrcnt s n z s' :
  tnt_object_add_array s n = Some (z, s') -> z <> -1 -> st_wrcnt s' = u32 (st_wrcnt s + 1).
Proof.
  unfold tnt_object_add_array. intros H Hz. inv_opt. destruct x0 as [rc s2]. simpl in H1.
  destruct (decide (rc = -1)); [by inv_opt|]. inv_opt.
  rewrite <- (counted_wrcnt _ _ H), <- (push_wrcnt _ _ _ _ H0). by eapply write_wrcnt.
Qed.

(** An open container that [bs] has been added to by [n] operations. *)
Definition collecting (s : object) (bs : bytes) (n : Z) : Prop :=
  repr s (Abs (mp_encode_array32 0 ++ bs) [Entry 0 0 MP_ARRAY] 8 TNT_SBO_SPARSE) /\
  st_wrcnt s = n + 1.

Lemma open_container_spec s :
  repr s (Abs [] [] 8 TNT_SBO_SIMPLE) -> st_wrcnt s = 0 ->
  exists z s', open_container s = Some (z, s') /\ side s s' /\ (granted s -> z <> -1) /\
    (z = -1 \/ (z <> -1 /\ collecting s' [] 0)).
Proof.
  intros H Hw. unfold open_container.
  destruct (object_type_repr s _ TNT_SBO_SPARSE Hw H) as (s1 & E1 & Hs1 & H1). rewrite E1.
  cbn [mbind option_bind a_bytes a_open a_cap] in *.
  destruct (start_repr s1 _ false 0 H1) as (z & s2 & E2 & Hs2 & Hg2 & Hz2); [simpl; lia|lia|].
  exists z, s2. split; [done|]. split; [by etrans|]. split; [intros Hg; by apply Hg2, Hs1|].
  destruct Hz2 as [?|(_ & Hne & H2)]; [by left|right]. split; [done|]. split.
  - unfold a_start in H2. simpl in H2. rewrite app_nil_r. exact H2.
  - rewrite (add_array_wrcnt _ _ _ _ E2 Hne). unfold tnt_object_type in E1.
    case_decide; [inv_opt; lia|]. inv_opt. unfold put_sbo. destruct (st_data s); simpl; by rewrite Hw.
Qed.

(** An object that can be freed: its data pointer is not dangling. *)
Definition freeable (s : object) : Prop :=
  exists sb o, st_data s = Some sb /\ sb_subdata sb = Some o /\
    (data (sb_core sb) = PNull \/ exists b, data (sb_core sb) = PHeap b).

Lemma freeable_free s :
  freeable s -> exists r, tnt_stream_free (Some (tnt_buf_free (Some tnt_sbuf_object_free))) (Some s) = Some r.
Proof.
  intros (sb & o & Hs & Ho & Hd). unfold tnt_stream_free, tnt_buf_free. rewrite Hs. simpl. rewrite Ho.
  destruct (sb_as sb); simpl; [by eexists|].
  destruct Hd as [->|[b ->]]; simpl; by eexists.
Qed.

Lemma fresh_put_sbo s o : fresh s -> fresh (put_sbo o s).
Proof.
  intros (sb & o' & Hs & Hc & Ha & HR & Ho). unfold put_sbo. rewrite Hs.
  by exists (set_subdata (Some o) sb), o.
Qed.

Lemma fresh_write s bs z s' : fresh s -> bs <> [] -> tnt_buf_write s bs = Some (z, s') -> freeable s'.
Proof.
  intros (sb & o & Hs & Hc & Ha & HR & Ho) Hne. unfold tnt_buf_write. rewrite Hs. simpl. rewrite Ha, HR, Hc.
  unfold tnt_sbuf_object_resize. simpl. assert (0 < length bs)%nat by (destruct bs; [done|simpl; lia]).
  rewrite decide_True by lia. destruct (pop (st_mem s)) as [a m]. unfold tnt_mem_realloc, custom_realloc.
  rewrite (decide_True (P := (0 < length bs)%nat)), (decide_False (P := length bs = 0%nat)) by lia. destruct a as [|junk]; simpl.
  - intros [= <- <-]. by exists (set_core (Core PNull 0 0 0) sb), o; auto.
  - unfold store. destruct (splice _ _ _) as [d|]; [|done]. simpl. intros [= <- <-].
    exists (set_core (Core (PHeap d) (length bs) (length bs) 0) sb), o. simpl. eauto.
Qed.

Lemma fresh_set_mem s m : fresh s -> fresh (set_mem m s).
Proof. done. Qed.

Lemma fresh_freeable s : fresh s -> freeable s.
Proof. intros (sb & o & Hs & Hc & _ & _ & Ho). exists sb, o. rewrite Hc. auto. Qed.

Lemma push_fresh ty s z s' : fresh s -> push_container ty s = Some (z, s') -> fresh s'.
Proof.
  unfold push_container. intros Hf H. inv_opt. destruct (if decide _ then _ else _) as [[rc o] m].
  destruct (decide (rc = -1)); inv_opt; auto using fresh_put_sbo, fresh_set_mem.
Qed.

(** The failure of opening a container leaves nothing dangling. *)
Lemma open_container_freeable s z s' : fresh s -> open_container s = Some (z, s') -> freeable s'.
Proof.
  intros Hf. unfold open_container, tnt_object_type, tnt_object_add_array, counted. intros H.
  apply bind_Some in H as ([z1 s1] & E1 & H).
  assert (fresh s1) as Hf1 by (case_decide; inv_opt; auto using fresh_put_sbo).
  apply bind_Some in H as (s2 & E2 & H).
  assert (fresh s2) as Hf2 by (inv_opt; auto using fresh_put_sbo).
  apply bind_Some in H as ([z3 s3] & E3 & H).
  pose proof (push_fresh _ _ _ _ Hf2 E3) as Hf3.
  destruct (decide (z3 = -1)); [inv_opt; by apply fresh_freeable|].
  inv_opt. eapply fresh_write; [exact Hf3| |eassumption].
  unfold local in H0. case_decide; inv_opt. unfold mp_encode_array32. rewrite spec_store_u8.
  apply zlen_nonempty. destruct (sbo_type x); [rewrite spec_len_array4 by lia; lia|len|rewrite spec_len_array4 by lia; lia].
Qed.

(** Adding operations in turn. *)
Lemma collect_all us s bs n :
  Forall upd_ok us -> collecting s bs n -> 0 <= n -> n + zlen us < UINT32_MAX ->
  exists z s', seq_calls run_upd us s = Some (z, s') /\ side s s' /\ (granted s -> z <> -1) /\
    (z = -1 \/ (z = 0 /\ collecting s' (bs ++ concat (upd_bytes <$> us)) (n + zlen us))).
Proof.
  unfold UINT32_MAX. intros Hus. revert s bs n.
  induction Hus as [|u us Hu _ IH]; intros s bs n [H Hw] Hn Hmax; csimpl.
  - exists 0, s. split; [done|]. split; [done|]. split; [done|]. right. split; [done|].
    rewrite app_nil_r. split; [done|]. unfold zlen. simpl. lia.
  - unfold zlen in Hmax. simpl in Hmax.
    destruct (upd_appends s u Hu _ H) as (z & s1 & E & Hs1 & Hg1 & Hz). rewrite E. cbn [mbind option_bind].
    destruct (decide (z = -1)) as [->|Hne]; [exists (-1), s1; auto|].
    destruct Hz as [?|(_ & Hw1 & H1)]; [done|]. simpl in H1. rewrite <- app_assoc in H1.
    destruct (IH s1 (bs ++ upd_bytes u) (n + 1)) as (z' & s2 & E' & Hs2 & Hg2 & Hz2); [|lia|unfold zlen; lia|].
    { split; [exact H1|]. rewrite Hw1, Hw. by rewrite u32_small by lia. }
    exists z', s2. split; [done|]. split; [by etrans|]. split; [intros Hg; by apply Hg2, Hs1|].
    destruct Hz2 as [?|[? H2]]; [by left|right]. split; [done|].
    rewrite <- app_assoc in H2. unfold zlen in *. simpl.
    replace (n + Z.of_nat (S (length us))) with (n + 1 + Z.of_nat (length us)) by lia. exact H2.
Qed.

(** The size of the outer array is patched from the number of writes. *)
Lemma container_close_spec s bs n :
  collecting s bs n -> 0 <= n < 2 ^ 32 - 1 ->
  exists s', tnt_update_container_close s = Some (0, s') /\
    repr s' (Abs (mp_encode_array32 n ++ bs) [] 8 TNT_SBO_SPARSE).
Proof.
  intros [(sb & o & Hs & Hc & Has & HR & Ho & Hb & Hop & Hsl & Hsz & Hcap & Hm) Hw] Hn.
  cbn [a_bytes a_open a_cap a_mode] in *. unfold tnt_update_container_close, get_sbo, put_sbo.
  rewrite Hs. cbn [mbind option_bind]. rewrite Ho. cbn [mbind option_bind].
  assert (stack_size o = 1%nat) as Esz by (apply (f_equal length) in Hop; rewrite length_take in Hop; simpl in Hop; lia).
  rewrite Esz in Hop. destruct (stack o) as [|e stk] eqn:Estk; [done|]. simpl in Hop. injection Hop as ->.
  cbn [mbind option_bind lookup list_lookup e_offset e_type]. rewrite Hw, u32_small by lia.
  set (s1 := set_data _ s).
  assert (repr s1 (Abs ([] ++ mp_encode_array32 0 ++ bs) ([] ++ [Entry 0 n MP_ARRAY]) 8 TNT_SBO_SPARSE)) as H1.
  { eexists _, _. split; [reflexivity|]. cbn [set_subdata sb_core sb_as sb_resize sb_subdata].
    repeat split; auto; try apply Hc; simpl; try lia.
    rewrite Esz. simpl. do 2 f_equal. f_equal. lia. }
  destruct (close_sparse_repr s1 [] (mp_encode_array32 0) bs [] (Entry 0 n MP_ARRAY) 8 H1)
    as (s2 & E2 & _ & H2); simpl; try done.
  { by intros [? _]. }
  { apply length_header32. }
  rewrite E2. cbn [mbind option_bind]. by exists s2.
Qed.

(** The client: open a container, add the operations, close it. *)
Definition make_ops (us : list upd) (given : bool) (m : malloc_state) : option (option (Z * object)) :=
  c ← tnt_update_container given m;
  match c with
  | None => Some None
  | Some ops =>
      '(r, ops) ← seq_calls run_upd us ops;
      if decide (r = -1) then Some (Some (-1, ops)) else
      '(r, ops) ← tnt_update_container_close ops; Some (Some (r, ops))
  end.

Lemma upd_object u : upd_ok u -> mp_object (upd_bytes u).
Proof.
  assert (forall n op f args os, 0 <= n -> zlen os = n - 2 -> concat os = args -> Forall mp_object os ->
    is_u32 f -> n < 16 -> mp_object (op_bytes n op f args)) as Hgen.
  { intros n op f args os Hn Hl Hc Hos Hf Hb. unfold op_bytes, is_u32 in *.
    replace (mp_encode_str [op] ++ mp_encode_uint f ++ args)
      with (concat (mp_encode_str [op] :: mp_encode_uint f :: os)) by (simpl; by rewrite Hc).
    replace n with (zlen (mp_encode_str [op] :: mp_encode_uint f :: os)) by (unfold zlen in *; simpl; lia).
    apply mp_object_array; [|unfold zlen in *; simpl; lia].
    repeat apply Forall_cons_2; [apply mp_object_str; done|apply mp_object_uint; lia|done]. }
  assert (forall op f a, is_u32 f -> mp_object a -> mp_object (op_bytes 3 op f a)) as Hone.
  { intros op f a Hf Ha. apply (Hgen 3 op f a [a]); try done; [simpl; by rewrite app_nil_r|by apply Forall_singleton]. }
  intros Hu. destruct u; simpl in Hu; destruct_and? Hu; simpl upd_bytes; try (apply Hone; [done|]); try done.
  - by apply mp_object_uint.
  - case_decide; [apply mp_object_uint; lia|]. apply mp_object_intro; intros; apply spec_check_int. lia.
  - apply mp_object_intro; intros; apply spec_check_float.
  - apply mp_object_intro; intros; apply spec_check_double.
  - apply mp_object_uint. unfold is_u32 in *. lia.
  - apply (Hgen _ _ _ _ [mp_encode_uint position; mp_encode_uint offset; mp_encode_str buffer]); try done.
    { simpl. by rewrite app_nil_r. }
    unfold is_u32 in *. repeat apply Forall_cons_2; try apply Forall_nil_2; try (apply mp_object_uint; lia).
    by apply mp_object_str.
Qed.

(** The bytes of the finished container. *)
Definition ops_bytes (us : list upd) : bytes := mp_encode_array32 (zlen us) ++ concat (upd_bytes <$> us).

Lemma ops_object us :
  Forall upd_ok us -> zlen us < 2 ^ 32 -> mp_object (ops_bytes us) /\ mp_typeof_at (ops_bytes us) = Some MP_ARRAY.
Proof.
  intros Hus Hl. unfold ops_bytes, mp_encode_array32. rewrite spec_store_u8, spec_store_u32, u32_small by len.
  split; [|apply spec_type_array32].
  assert (zlen us = zlen (upd_bytes <$> us)) as -> by (unfold zlen; by rewrite length_fmap).
  apply mp_object_array32; [|unfold zlen in *; by rewrite length_fmap].
  apply Forall_fmap. eapply Forall_impl; [exact Hus|]. apply upd_object.
Qed.

Lemma repr_holds s a : repr s a -> a_bytes a <> [] -> holds s (a_bytes a).
Proof.
  intros (sb & o & Hs & [Hb Hd] & _ & _ & _ & Hc & _) Hne. unfold holds, TNT_SBUF_DATA. rewrite Hs. simpl.
  unfold contents in Hc. destruct (data (sb_core sb)) as [|b|b|]; simpl in *; try done.
  unfold slice. rewrite decide_True by lia. by rewrite drop_0, Hc.
Qed.

(** C7: The builder of update operations is correct: for every list of
    operations with arguments in range, and whatever the allocator answers, the
    calls [tnt_update_container], [tnt_update_bit], [tnt_update_arith_*],
    [tnt_update_delete], [tnt_update_insert], [tnt_update_assign],
    [tnt_update_splice] and [tnt_update_container_close] are defined (their
    buffers are filled exactly); when none fails the stream holds the msgpack
    array of exactly these operations, whose size was patched from the number
    of writes, and is accepted as the operations of an update; and none fails
    when the allocator grants every request. *)
Theorem update_container_correct us given m :
  Forall upd_ok us -> zlen us < UINT32_MAX ->
  exists r, make_ops us given m = Some r /\
    (Refuse ∉ m -> exists s, r = Some (0, s)) /\
    match r with
    | Some (z, s) => z = -1 \/
        (z = 0 /\ buf_contents s = ops_bytes us /\ tnt_object_verify s (Some MP_ARRAY) = Some 0)
    | None => True
    end.
Proof.
  intros Hus Hl. assert (zlen us < 2 ^ 32) as Hl' by (unfold UINT32_MAX in Hl; lia).
  unfold make_ops, tnt_update_container. destruct (tnt_object_ok given m) as (r & -> & Hr).
  cbn [mbind option_bind]. destruct r as [s|]; [|exists None; naive_solver].
  destruct Hr as (Hg & Hw & H & Hf). destruct (open_container_spec s H Hw) as (z & s1 & E1 & Hs1 & Hg1 & Hz1).
  pose proof (open_container_freeable s z s1 Hf E1) as Hfree. rewrite E1.
  cbn [mbind option_bind]. destruct (decide (z = -1)) as [->|Hne].
  - destruct (freeable_free s1 Hfree) as [x Ex]. unfold object in *. rewrite Ex. exists None. split; [done|]. split; [|done].
    intros Hm. by destruct (Hg1 (Hg Hm)).
  - destruct Hz1 as [?|[_ H1]]; [done|].
    destruct (collect_all us s1 [] 0 Hus H1) as (z2 & s2 & E2 & Hs2 & Hg2 & Hz2); [lia|lia|].
    cbn [mbind option_bind]. rewrite E2. cbn [mbind option_bind]. destruct (decide (z2 = -1)) as [->|Hne2].
    { eexists. split; [done|]. split; [|by left]. intros Hm. by destruct (Hg2 (proj2 Hs1 (Hg Hm))). }
    destruct Hz2 as [?|[_ H2]]; [done|]. simpl in H2.
    destruct (container_close_spec s2 _ _ H2) as (s3 & -> & H3); [unfold UINT32_MAX in Hl; len|].
    cbn [mbind option_bind]. eexists. split; [done|]. split; [intros _; by eexists|]. right. split; [done|].
    fold (ops_bytes us) in H3. destruct (ops_object us Hus Hl') as [Hobj Hty].
    split; [apply (repr_contents _ _ H3)|].
    rewrite (verify_holds s3 (ops_bytes us) MP_ARRAY); try done.
    apply (repr_holds _ _ H3). by apply mp_object_nonempty.
Qed.

End update.

(** ** The theorem at work: [{'+', 1, -5}], [{'=', 2, \[7\]}] and [{':', 3, 0, 1, "a"}] *)

Definition sample_updates : list (upd (D := unit)) :=
  [UArithInt 1 43 (-5); UAssign 2 sample_tuple [0x91; 7]; USplice 3 0 1 [97]].

Lemma sample_updates_ok : Forall (upd_ok (MP := RefPuck)) sample_updates.
Proof.
  unfold sample_updates, upd_ok, is_u32, arith_op. repeat apply Forall_cons_2; try apply Forall_nil_2;
    repeat split; simpl; try lia; try reflexivity; try (by left).
Qed.

Lemma update_container_correct_witness :
  exists s, make_ops (MP := RefPuck) sample_updates false [] = Some (Some (0, s)) /\
    buf_contents s = [0xdd; 0; 0; 0; 3; 0x93; 0xa1; 43; 1; 0xfb; 0x93; 0xa1; 61; 2; 0x91; 7;
                      0x95; 0xa1; 58; 3; 0; 1; 0xa1; 97] /\
    tnt_object_verify (MP := RefPuck) s (Some MP_ARRAY) = Some 0.
Proof.
  destruct (update_container_correct (MP := RefPuck) sample_updates false []) as (r & E & Hr & H);
    [apply sample_updates_ok | reflexivity |].
  destruct Hr as (s & ->); [by intros H0; apply elem_of_nil in H0|].
  exists s. split; [exact E|]. destruct H as [H|(_ & Hb & Hv)]; [discriminate H|].
  split; [rewrite Hb; reflexivity | exact Hv].
Defined.
