(* ===== verification/Reply.v ===== *)
(** * tnt/tnt_reply.c: parsing replies

    [reply] is [struct tnt_reply]; a pair of pointers into the reply's buffer
    (a field and its end) is the byte string between them.  The parsers take
    the bytes from the pointer to the end of the region they were given;
    reading outside that region is undefined, as is a shift of a 64-bit value
    by 64 or more.  The second half is [tnt_buf_reply] of tnt/tnt_buf.c. *)

From S2P Require Import Prelude Msgpuck MsgpuckRef Mem Stream Buf Proto.

Record reply := Reply {
  r_alloc : bool;
  bitmap : Z;                 (** [uint64_t], as the three numbers below *)
  r_buf : ptr;
  buf_size : Z;
  code : Z;
  sync : Z;
  schema_id : Z;
  error : option bytes;       (** [None] is [NULL], as below *)
  rdata : option bytes;
  metadata : option bytes;
  sqlinfo : option bytes;
}.

(** [memset(r, 0, ...); r->alloc = alloc] *)
Definition zero_reply (alloc : bool) : reply := Reply alloc 0 PNull 0 0 0 0 None None None None.

(** [tnt_reply_init]; [None] is [NULL]. *)
Definition tnt_reply_init (given : bool) (a : answer) : option reply :=
  match given, a with
  | false, Refuse => None
  | _, _ => Some (zero_reply (negb given))
  end.

(** [tnt_reply_free]: [Some None] when the struct itself was freed. *)
Definition tnt_reply_free (r : reply) : option (option reply) :=
  r ← match r_buf r with
      | PNull => Some r
      | b => _ ← tnt_mem_free custom_realloc b;
             Some (Reply (r_alloc r) (bitmap r) PNull (buf_size r) (code r) (sync r) (schema_id r)
                     (error r) (rdata r) (metadata r) (sqlinfo r))
      end;
  Some (if r_alloc r then None else Some r).

Definition TNT_REPLY_IPROTO_HDR_SIZE : nat := 5.

(** [1ULL << key] *)
Definition shl1 (k : Z) : option Z := if decide (0 <= k < 64) then Some (Z.shiftl 1 k) else None.

Section parse.
Context {MP : MsgPuck}.

(** [tnt_reply_len]: return code and [*len]. *)
Definition tnt_reply_len (buf : bytes) : option (Z * Z) :=
  let size := zlen buf in
  let hdr := Z.of_nat TNT_REPLY_IPROTO_HDR_SIZE in
  if decide (size < hdr) then Some (1, hdr - size) else
  t ← mp_typeof_at buf;
  if decide (t <> MP_UINT) then Some (-1, 0) else
  '(length, _) ← mp_decode_uint buf;
  if decide (size < u64 (length + hdr)) then Some (1, u64 (u64 (length + hdr) - size))
  else Some (0, u64 (length + hdr)).

(** The locals of the header loop. *)
Record hdr_acc := HdrAcc { h_sync : Z; h_code : Z; h_schema : Z; h_bitmap : Z }.

(** The loop of [tnt_reply_hdr0]; [Some None] is its [return -1]. *)
Fixpoint hdr0_loop (n : nat) (p : bytes) (h : hdr_acc) : option (option (hdr_acc * bytes)) :=
  match n with
  | O => Some (Some (h, p))
  | S n =>
      t ← mp_typeof_at p;
      if decide (t <> MP_UINT) then Some None else
      '(key, p) ← mp_decode_uint p;
      let key := u32 key in
      t ← mp_typeof_at p;
      if decide (t <> MP_UINT) then Some None else
      if decide (key = TNT_SYNC) then
        '(v, p) ← mp_decode_uint p; b ← shl1 key;
        hdr0_loop n p (HdrAcc v (h_code h) (h_schema h) (Z.lor (h_bitmap h) b))
      else if decide (key = TNT_CODE) then
        '(v, p) ← mp_decode_uint p; b ← shl1 key;
        hdr0_loop n p (HdrAcc (h_sync h) v (h_schema h) (Z.lor (h_bitmap h) b))
      else if decide (key = TNT_SCHEMA_ID) then
        '(v, p) ← mp_decode_uint p; b ← shl1 key;
        hdr0_loop n p (HdrAcc (h_sync h) (h_code h) v (Z.lor (h_bitmap h) b))
      else Some None
  end.

(** [if (r) { r->sync = sync; ... }] *)
Definition put_hdr (h : hdr_acc) (r : reply) : reply :=
  Reply (r_alloc r) (h_bitmap h) (r_buf r) (buf_size r) (Z.land (h_code h) (Z.shiftl 1 15 - 1))
    (h_sync h) (h_schema h) (error r) (rdata r) (metadata r) (sqlinfo r).

(** [tnt_reply_hdr0]: return code, reply, [*off] when it is set. *)
Definition tnt_reply_hdr0 (r : option reply) (buf : bytes) : option (Z * option reply * option Z) :=
  match mp_check buf with
  | None => Some (-1, r, None)
  | Some _ =>
      t ← mp_typeof_at buf;
      if decide (t <> MP_MAP) then Some (-1, r, None) else
      '(n, p) ← mp_decode_map buf;
      res ← hdr0_loop (Z.to_nat n) p (HdrAcc 0 0 0 0);
      match res with
      | None => Some (-1, r, None)
      | Some (h, p) => Some (0, put_hdr h <$> r, Some (zlen buf - zlen p))
      end
  end.

(** The locals of the body loop. *)
Record body_acc := BodyAcc {
  b_error : option bytes; b_data : option bytes; b_metadata : option bytes;
  b_sqlinfo : option bytes; b_bitmap : Z;
}.

(** [x = p; mp_next(&p); x_end = p] *)
Definition take_next (p : bytes) : option (bytes * bytes) :=
  p' ← mp_next p; Some (take (length p - length p') p, p').

(** One round of the body loop after the key; [Some None] is [return -1]. *)
Definition body0_field (key : Z) (p : bytes) (b : body_acc) : option (option (body_acc * bytes)) :=
  if decide (key = TNT_ERROR) then
    t ← mp_typeof_at p;
    if decide (t <> MP_STR) then Some None else
    '(s, p) ← mp_decode_str p;
    Some (Some (BodyAcc (Some s) (b_data b) (b_metadata b) (b_sqlinfo b) (b_bitmap b), p))
  else if decide (key = TNT_DATA) then
    t ← mp_typeof_at p;
    if decide (t <> MP_ARRAY) then Some None else
    '(v, p) ← take_next p;
    Some (Some (BodyAcc (b_error b) (Some v) (b_metadata b) (b_sqlinfo b) (b_bitmap b), p))
  else if decide (key = TNT_METADATA) then
    t ← mp_typeof_at p;
    if decide (t <> MP_ARRAY) then Some None else
    '(v, p) ← take_next p;
    Some (Some (BodyAcc (b_error b) (b_data b) (Some v) (b_sqlinfo b) (b_bitmap b), p))
  else if decide (key = TNT_SQL_INFO) then
    t ← mp_typeof_at p;
    if decide (t <> MP_MAP) then Some None else
    '(v, p) ← take_next p;
    Some (Some (BodyAcc (b_error b) (b_data b) (b_metadata b) (Some v) (b_bitmap b), p))
  else
    p ← mp_next p; Some (Some (b, p)).

Fixpoint body0_loop (n : nat) (p : bytes) (b : body_acc) : option (option (body_acc * bytes)) :=
  match n with
  | O => Some (Some (b, p))
  | S n =>
      '(key, p) ← mp_decode_uint p;
      let key := u32 key in
      res ← body0_field key p b;
      match res with
      | None => Some None
      | Some (b, p) =>
          bit ← shl1 key;
          body0_loop n p (BodyAcc (b_error b) (b_data b) (b_metadata b) (b_sqlinfo b)
                            (Z.lor (b_bitmap b) bit))
      end
  end.

(** [if (r) { r->error = error; ... }] *)
Definition put_body (b : body_acc) (r : reply) : reply :=
  Reply (r_alloc r) (Z.lor (bitmap r) (b_bitmap b)) (r_buf r) (buf_size r) (code r) (sync r)
    (schema_id r) (b_error b) (b_data b) (b_metadata b) (b_sqlinfo b).

Definition tnt_reply_body0 (r : option reply) (buf : bytes) : option (Z * option reply * option Z) :=
  match mp_check buf with
  | None => Some (-1, r, None)
  | Some _ =>
      t ← mp_typeof_at buf;
      if decide (t <> MP_MAP) then Some (-1, r, None) else
      '(n, p) ← mp_decode_map buf;
      res ← body0_loop (Z.to_nat n) p (BodyAcc None None None None 0);
      match res with
      | None => Some (-1, r, None)
      | Some (b, p) => Some (0, put_body b <$> r, Some (zlen buf - zlen p))
      end
  end.

(** A receive callback: the [ssize_t] result and the [size] bytes of the
    destination after the call. *)
Definition tnt_reply_t (S : Type) := S -> nat -> option (Z * bytes * S).

Section from.
Context {S : Type} (rcv : tnt_reply_t S).

(** [tnt_reply_from]: return code, reply, state of the callback, allocator. *)
Definition tnt_reply_from (r : reply) (ptr : S) (m : malloc_state)
    : option (Z * reply * S * malloc_state) :=
  let alloc := r_alloc r in
  let rollback ptr m (b : Mem.ptr) : option (Z * reply * S * malloc_state) :=
    _ ← match b with PNull => Some PNull | _ => tnt_mem_free custom_realloc b end;
    Some (-1, zero_reply alloc, ptr, m) in
  '(rc, len_bytes, ptr) ← rcv ptr TNT_REPLY_IPROTO_HDR_SIZE;
  if decide (rc = -1) then rollback ptr m PNull else
  t ← mp_typeof_at len_bytes;
  if decide (t <> MP_UINT) then rollback ptr m PNull else
  '(size, _) ← mp_decode_uint len_bytes;
  let '(a, m) := pop m in
  b ← tnt_mem_alloc custom_realloc a (Z.to_nat size);
  match b with
  | PNull => rollback ptr m PNull
  | _ =>
      '(rc, bs, ptr) ← rcv ptr (Z.to_nat size);
      b ← store b 0 bs;
      if decide (rc = -1) then rollback ptr m b else
      let r := Reply alloc 0 b size 0 0 0 None None None None in
      '(rc, r, hdr_length) ← tnt_reply_hdr0 (Some r) bs;
      if decide (rc <> 0) then rollback ptr m b else
      r ← r;
      let hdr_length := default 0 hdr_length in
      if decide (size = hdr_length) then Some (0, r, ptr, m) else
      '(rc, r, _) ← tnt_reply_body0 (Some r) (drop (Z.to_nat hdr_length) bs);
      if decide (rc <> 0) then rollback ptr m b else
      r ← r; Some (0, r, ptr, m)
  end.

End from.

(** [tnt_reply_cb]: the state is [ptr\[0\]] and the offset [*ptr\[1\]]. *)
Definition tnt_reply_cb : tnt_reply_t (bytes * nat) := fun '(src, off) size =>
  bs ← slice off size src; Some (Z.of_nat size, bs, (src, (off + size)%nat)).

(** [tnt_reply]: return code, reply, [*off] when it is set, allocator. *)
Definition tnt_reply (r : option reply) (buf : bytes) (m : malloc_state)
    : option (Z * option reply * option Z * malloc_state) :=
  '(rc, length) ← tnt_reply_len buf;
  if decide (rc = 1) then Some (1, r, Some length, m)
  else if decide (rc <> 0) then Some (-1, r, None, m)
  else match r with
       | None => Some (0, None, Some length, m)
       | Some r =>
           '(rc, r, ptr, m) ← tnt_reply_from tnt_reply_cb r (buf, 0%nat) m;
           Some (rc, Some r, Some (Z.of_nat (snd ptr)), m)
       end.

(** [tnt_reply0] *)
Definition tnt_reply0 (r : option reply) (buf : bytes) : option (Z * option reply * option Z) :=
  '(rc, len) ← tnt_reply_len buf;
  if decide (rc = 1) then Some (1, r, Some len)
  else if decide (rc <> 0) then Some (-1, r, None)
  else match r with
       | None => Some (0, None, Some len)
       | Some _ =>
           let data_length := (Z.to_nat len - TNT_REPLY_IPROTO_HDR_SIZE)%nat in
           data ← slice TNT_REPLY_IPROTO_HDR_SIZE data_length buf;
           '(rc, r, hdr_length) ← tnt_reply_hdr0 r data;
           if decide (rc <> 0) then Some (-1, r, None) else
           let hdr_length := Z.to_nat (default 0 hdr_length) in
           if decide (data_length <> hdr_length) then
             '(rc, r, _) ← tnt_reply_body0 r (drop hdr_length data);
             if decide (rc <> 0) then Some (-1, r, None) else Some (0, r, Some len)
           else Some (0, r, Some len)
       end.

(** [tnt_buf_reply]: the parser runs on the unread bytes. *)
Definition tnt_buf_reply {D} (s : stream (sbuf D)) (r : option reply)
    : option (Z * stream (sbuf D) * option reply) :=
  sb ← st_data s;
  let c := sb_core sb in
  match data c with
  | PNull => Some (-1, s, r)
  | d =>
      if decide (size c = rdoff c) then Some (1, s, r) else
      unread ← load d (rdoff c) (size c - rdoff c);
      '(rc, r, off, m) ← tnt_reply r unread (st_mem s);
      let s := set_mem m s in
      if decide (rc = 0) then
        let c := Core d (size c) (alloc c) (rdoff c + Z.to_nat (default 0 off)) in
        Some (rc, set_data (Some (set_core c sb)) s, r)
      else Some (rc, s, r)
  end.

End parse.
