(* ===== verification/ReplySpec.v ===== *)
(** * Correctness of the reply parser (tnt/tnt_reply.c) *)

From S2P Require Import Prelude Msgpuck MsgpuckRef Mem Stream Buf Proto RequestSpec Reply.

Section reply.
Context {MP : MsgPuck} {MPS : MsgPuckSpec MP}.

(** ** The header on arbitrary bytes *)

Lemma mp_skip_S n p r :
  mp_skip (S n) p = Some r -> exists q, mp_check p = Some q /\ mp_skip n q = Some r.
Proof. simpl. destruct (mp_check p) as [q|]; [|done]. simpl. eauto. Qed.

Lemma shl1_small k : 0 <= k < 64 -> shl1 k = Some (2 ^ k).
Proof. intros. unfold shl1. rewrite decide_True by done. by rewrite Z.shiftl_1_l. Qed.

Lemma hdr0_loop_safe n p h r :
  mp_skip (2 * n) p = Some r ->
  exists res, hdr0_loop n p h = Some res /\
    match res with Some (_, p') => p' = r | None => True end.
Proof.
  revert p h; induction n as [|n IH]; intros p h H; [simpl in H; inv_opt; by eexists|].
  replace (2 * S n)%nat with (S (S (2 * n))) in H by lia.
  apply mp_skip_S in H as (q & Hq & H). apply mp_skip_S in H as (q' & Hq' & H).
  simpl hdr0_loop. destruct (check_typeof _ _ Hq) as [t1 E1]. rewrite E1. cbn [mbind option_bind].
  case_decide as Ht1; [by eexists|]. subst t1.
  destruct (spec_checked_uint _ _ Hq E1) as (k & -> & Hk). cbn [mbind option_bind].
  destruct (check_typeof _ _ Hq') as [t2 E2]. rewrite E2. cbn [mbind option_bind].
  case_decide as Ht2; [by eexists|]. subst t2.
  destruct (spec_checked_uint _ _ Hq' E2) as (v & -> & Hv). cbn [mbind option_bind].
  case_decide as K1; [rewrite K1, shl1_small by (simpl; lia); exact (IH _ _ H)|].
  case_decide as K2; [rewrite K2, shl1_small by (simpl; lia); exact (IH _ _ H)|].
  case_decide as K3; [rewrite K3, shl1_small by (simpl; lia); exact (IH _ _ H)|]. by eexists.
Qed.

(** The outcomes of parsing a header. *)
Lemma hdr0_result r buf :
  exists rc r' off, tnt_reply_hdr0 r buf = Some (rc, r', off) /\
    ((rc = -1 /\ r' = r /\ off = None) \/
     (rc = 0 /\ exists k h rest, r' = put_hdr h <$> r /\ off = Some k /\ 0 <= k <= zlen buf /\
        rest = drop (Z.to_nat k) buf /\ mp_check buf = Some rest)).
Proof.
  unfold tnt_reply_hdr0. destruct (mp_check buf) as [rest|] eqn:Ec; [|by eauto 10].
  destruct (check_typeof _ _ Ec) as [t E]. rewrite E. cbn [mbind option_bind].
  case_decide as Ht; [by eauto 10|]. subst t.
  destruct (spec_checked_map _ _ Ec E) as (n & p & -> & Hn & _ & Hskip). cbn [mbind option_bind].
  replace (Z.to_nat (2 * n)) with (2 * Z.to_nat n)%nat in Hskip by lia.
  destruct (hdr0_loop_safe _ _ (HdrAcc 0 0 0 0) _ Hskip) as (res & -> & Hres). cbn [mbind option_bind].
  destruct res as [[h p']|]; [|by eauto 10]. subst p'.
  destruct (spec_check_split _ _ Ec) as (o & -> & _). do 3 eexists. split; [done|]. right. split; [done|].
  assert (zlen (o ++ rest) - zlen rest = zlen o) as -> by len.
  exists (zlen o), h, rest. repeat split; try done; try len.
  unfold zlen. by rewrite Nat2Z.id, drop_app_length.
Qed.

(** C9: Parsing a reply header is safe on arbitrary bytes: whatever the buffer
    holds, [tnt_reply_hdr0] never reads outside it nor shifts too far; it
    returns -1 and leaves the reply as it was, or returns 0, fills the header
    fields, and the offset it reports is the end of the first msgpack object of
    the buffer. *)
Theorem reply_hdr0_safe r buf :
  exists rc r' off, tnt_reply_hdr0 r buf = Some (rc, r', off) /\
    ((rc = -1 /\ r' = r /\ off = None) \/
     (rc = 0 /\ exists k h rest, r' = put_hdr h <$> r /\ off = Some k /\ 0 <= k <= zlen buf /\
        rest = drop (Z.to_nat k) buf /\ mp_check buf = Some rest)).
Proof. apply hdr0_result. Qed.

(** ** What a server sends *)

Definition hdr_field : Type := tnt_header_key_t * Z.

Definition hdr_field_ok (f : hdr_field) : Prop :=
  (fst f = TNT_SYNC \/ fst f = TNT_CODE \/ fst f = TNT_SCHEMA_ID) /\ 0 <= snd f < 2 ^ 64.

Definition hdr_pair (f : hdr_field) : Z * bytes := (header_key_code (fst f), mp_encode_uint (snd f)).

Definition hdr_bytes (fs : list hdr_field) : bytes := body_map (hdr_pair <$> fs).

(** The effect of one header field. *)
Definition hdr_step (h : hdr_acc) (f : hdr_field) : hdr_acc :=
  let bm := Z.lor (h_bitmap h) (2 ^ header_key_code (fst f)) in
  match fst f with
  | TNT_SYNC => HdrAcc (snd f) (h_code h) (h_schema h) bm
  | TNT_CODE => HdrAcc (h_sync h) (snd f) (h_schema h) bm
  | TNT_SCHEMA_ID => HdrAcc (h_sync h) (h_code h) (snd f) bm
  | _ => h
  end.

Lemma hdr0_loop_fields fs h r :
  Forall hdr_field_ok fs ->
  hdr0_loop (length fs) (concat (field_bytes <$> (hdr_pair <$> fs)) ++ r) h
    = Some (Some (foldl hdr_step h fs, r)).
Proof.
  intros Hfs. revert h. induction Hfs as [|[k v] fs [Hk Hv] _ IH]; intros h; [done|].
  cbn [length hdr0_loop fmap list_fmap concat]. unfold field_bytes at 1 2 3, hdr_pair at 1 2 3.
  cbn [fst snd] in *. rewrite <- !app_assoc.
  assert (0 <= header_key_code k < 2 ^ 64) as Hk64 by (destruct k; simpl; lia).
  rewrite spec_type_uint by done. cbn [mbind option_bind]. rewrite decide_False by (intros []; done).
  rewrite spec_decode_uint by done. cbn [mbind option_bind].
  rewrite spec_type_uint by done. cbn [mbind option_bind]. rewrite decide_False by (intros []; done).
  rewrite spec_decode_uint by done. cbn [mbind option_bind].
  destruct Hk as [E|[E|E]]; subst k; rewrite u32_small by (simpl; lia); simpl; rewrite <- IH; done.
Qed.

Lemma hdr_pairs_ok fs : Forall hdr_field_ok fs -> Forall field_ok (hdr_pair <$> fs).
Proof.
  intros H. apply Forall_fmap. eapply Forall_impl; [exact H|]. intros [k v] [Hk Hv].
  split; simpl in *; [destruct k; simpl; lia|by apply mp_object_uint].
Qed.

(** A map of fields is one object. *)
Lemma body_map_object fs : Forall field_ok fs -> zlen fs < 2 ^ 31 -> mp_object (body_map fs).
Proof.
  intros Hfs Hl. unfold body_map.
  assert (concat (field_bytes <$> fs) = concat (concat ((fun f => [mp_encode_uint (fst f); snd f]) <$> fs))) as ->.
  { clear. induction fs as [|f fs IH]; csimpl; [done|]. rewrite IH. unfold field_bytes. by rewrite app_assoc. }
  apply mp_object_map; [| |len].
  - clear Hl. induction Hfs as [|[k v] fs [Hk Hv] _ IH]; csimpl; [constructor|].
    repeat apply Forall_cons_2; [by apply mp_object_uint|done|exact IH].
  - unfold zlen. clear. induction fs as [|f fs IH]; csimpl; [done|]. lia.
Qed.

Lemma body_map_type fs rest : zlen fs < 2 ^ 31 -> mp_typeof_at (body_map fs ++ rest) = Some MP_MAP.
Proof. intros. unfold body_map. rewrite <- app_assoc. apply spec_type_map. len. Qed.

Lemma body_map_decode fs rest :
  zlen fs < 2 ^ 31 ->
  mp_decode_map (body_map fs ++ rest) = Some (zlen fs, concat (field_bytes <$> fs) ++ rest).
Proof. intros. unfold body_map. rewrite <- app_assoc. apply spec_decode_map. len. Qed.

(** The header of the map and its fields. *)
Lemma body_map_size fs rest :
  zlen (body_map fs ++ rest) - zlen rest = zlen (body_map fs).
Proof. len. Qed.

Lemma hdr0_fields r fs rest :
  Forall hdr_field_ok fs -> zlen fs < 2 ^ 31 ->
  tnt_reply_hdr0 r (hdr_bytes fs ++ rest)
    = Some (0, put_hdr (foldl hdr_step (HdrAcc 0 0 0 0) fs) <$> r, Some (zlen (hdr_bytes fs))).
Proof.
  intros Hfs Hl. unfold tnt_reply_hdr0.
  assert (zlen (hdr_pair <$> fs) = zlen fs) as El by (unfold zlen; by rewrite length_fmap).
  rewrite mp_object_check by (apply body_map_object; [by apply hdr_pairs_ok|lia]).
  unfold hdr_bytes. rewrite body_map_type by lia.
  cbn [mbind option_bind]. rewrite decide_False by (intros []; done).
  rewrite body_map_decode by lia. cbn [mbind option_bind]. rewrite El.
  rewrite to_nat_zlen, hdr0_loop_fields by done. cbn [mbind option_bind].
  by rewrite body_map_size.
Qed.

(** ** Bodies *)

(** The fields a server puts in a body, with the type the client expects. *)
Inductive body_field :=
  | BError (msg : bytes) | BData (v : bytes) | BMetadata (v : bytes) | BOther (k : Z) (v : bytes).

Definition body_pair (f : body_field) : Z * bytes :=
  match f with
  | BError msg => (TNT_ERROR : Z, mp_encode_str msg)
  | BData v => (TNT_DATA : Z, v)
  | BMetadata v => (TNT_METADATA : Z, v)
  | BOther k v => (k, v)
  end.

Definition body_field_ok (f : body_field) : Prop :=
  match f with
  | BError msg => zlen msg < 2 ^ 32
  | BData v | BMetadata v => mp_object v /\ mp_typeof_at v = Some MP_ARRAY
  | BOther k v => 0 <= k < 64 /\ k <> TNT_ERROR /\ k <> TNT_DATA /\ k <> TNT_METADATA /\ mp_object v
  end.

Definition body_step (b : body_acc) (f : body_field) : body_acc :=
  let bm := Z.lor (b_bitmap b) (2 ^ fst (body_pair f)) in
  match f with
  | BError msg => BodyAcc (Some msg) (b_data b) (b_metadata b) (b_sqlinfo b) bm
  | BData v => BodyAcc (b_error b) (Some v) (b_metadata b) (b_sqlinfo b) bm
  | BMetadata v => BodyAcc (b_error b) (b_data b) (Some v) (b_sqlinfo b) bm
  | BOther _ _ => BodyAcc (b_error b) (b_data b) (b_metadata b) (b_sqlinfo b) bm
  end.

Lemma body_pair_ok f : body_field_ok f -> field_ok (body_pair f) /\ 0 <= fst (body_pair f) < 64.
Proof.
  destruct f; simpl; intros H; destruct_and? H; (split; [split; simpl; try lia; auto with mp|simpl; lia]).
Qed.

Lemma take_next_object v r : mp_object v -> take_next (v ++ r) = Some (v, r).
Proof.
  intros Hv. unfold take_next. rewrite mp_object_next by done. simpl.
  rewrite take_app_length'; len. done.
Qed.

Lemma body0_field_ok f r b :
  body_field_ok f ->
  body0_field (fst (body_pair f)) (snd (body_pair f) ++ r) b
    = Some (Some (BodyAcc (b_error (body_step b f)) (b_data (body_step b f)) (b_metadata (body_step b f))
                    (b_sqlinfo (body_step b f)) (b_bitmap b), r)).
Proof.
  intros Hf. unfold body0_field. destruct f as [msg|v|v|k v]; simpl in Hf.
  - rewrite decide_True by done. simpl. unfold mp_encode_str. rewrite <- app_assoc.
    rewrite spec_type_str by len. simpl. rewrite spec_decode_str by done. done.
  - destruct Hf as [Ho Ht]. rewrite decide_False, decide_True by done. simpl.
    rewrite (typeof_app _ _ _ Ht). simpl. by rewrite take_next_object.
  - destruct Hf as [Ho Ht]. rewrite decide_False, decide_False, decide_True by done. simpl.
    rewrite (typeof_app _ _ _ Ht). simpl. by rewrite take_next_object.
  - destruct Hf as (Hk & H1 & H2 & H3 & Ho). simpl fst. simpl snd.
    rewrite decide_False, decide_False, decide_False, decide_False by (try done; simpl; lia).
    rewrite mp_object_next by done. by destruct b.
Qed.

Lemma body0_loop_fields fs b r :
  Forall body_field_ok fs ->
  body0_loop (length fs) (concat (field_bytes <$> (body_pair <$> fs)) ++ r) b
    = Some (Some (foldl body_step b fs, r)).
Proof.
  intros Hfs. revert b. induction Hfs as [|f fs Hf _ IH]; intros b; [done|].
  destruct (body_pair_ok f Hf) as [[Hk Hv] Hk64].
  cbn [length body0_loop fmap list_fmap concat]. unfold field_bytes at 1. rewrite <- !app_assoc.
  rewrite spec_decode_uint by done. cbn [mbind option_bind]. rewrite u32_small by lia.
  rewrite body0_field_ok by done. cbn [mbind option_bind]. rewrite shl1_small by done.
  cbn [mbind option_bind b_error b_data b_metadata b_sqlinfo b_bitmap].
  simpl foldl. rewrite <- IH. by destruct f.
Qed.

Definition reply_body (fs : list body_field) : bytes := body_map (body_pair <$> fs).

Lemma body0_fields r fs rest :
  Forall body_field_ok fs -> zlen fs < 2 ^ 31 ->
  tnt_reply_body0 r (reply_body fs ++ rest)
    = Some (0, put_body (foldl body_step (BodyAcc None None None None 0) fs) <$> r, Some (zlen (reply_body fs))).
Proof.
  intros Hfs Hl. unfold tnt_reply_body0, reply_body.
  assert (zlen (body_pair <$> fs) = zlen fs) as El by (unfold zlen; by rewrite length_fmap).
  rewrite mp_object_check.
  2: { apply body_map_object; [|lia]. apply Forall_fmap. eapply Forall_impl; [exact Hfs|].
       intros f Hf. by apply body_pair_ok. }
  rewrite body_map_type by lia.
  cbn [mbind option_bind]. rewrite decide_False by (intros []; done).
  rewrite body_map_decode by lia. cbn [mbind option_bind]. rewrite El.
  rewrite to_nat_zlen, body0_loop_fields by done. cbn [mbind option_bind].
  by rewrite body_map_size.
Qed.

(** ** Whole replies *)

Definition reply_payload (hs : list hdr_field) (body : option (list body_field)) : bytes :=
  hdr_bytes hs ++ match body with Some fs => reply_body fs | None => [] end.

(** The reply a client must get, field by field, from what the server sent:
    the value of a header key is the one sent last, or 0; the code is the low 15
    bits of it; each body field is the one sent last, or absent; the bitmap has
    the bit of every key.  The numbers are those of the protocol.  A reply
    without body leaves the body fields of [r] as they were. *)
Definition header_value (k : tnt_header_key_t) (hs : list hdr_field) : Z :=
  default 0 (last (omap (fun f => if decide (fst f = k) then Some (snd f) else None) hs)).

Definition header_bit (f : hdr_field) : Z :=
  match fst f with TNT_CODE => 2 ^ 0x00 | TNT_SYNC => 2 ^ 0x01 | TNT_SCHEMA_ID => 2 ^ 0x05 | _ => 0 end.

Definition body_bit (f : body_field) : Z :=
  match f with BData _ => 2 ^ 0x30 | BError _ => 2 ^ 0x31 | BMetadata _ => 2 ^ 0x32 | BOther k _ => 2 ^ k end.

Definition sent_error (f : body_field) : option bytes := match f with BError msg => Some msg | _ => None end.
Definition sent_data (f : body_field) : option bytes := match f with BData v => Some v | _ => None end.
Definition sent_metadata (f : body_field) : option bytes := match f with BMetadata v => Some v | _ => None end.

Definition bits_of {A} (bit : A -> Z) (l : list A) : Z := foldr Z.lor 0 (bit <$> l).

Definition expected_reply (r : reply) (hs : list hdr_field) (body : option (list body_field)) : reply := {|
  r_alloc := r_alloc r;
  bitmap := Z.lor (bits_of header_bit hs) (match body with Some fs => bits_of body_bit fs | None => 0 end);
  r_buf := r_buf r;
  buf_size := buf_size r;
  code := header_value TNT_CODE hs mod 2 ^ 15;
  sync := header_value TNT_SYNC hs;
  schema_id := header_value TNT_SCHEMA_ID hs;
  error := match body with Some fs => last (omap sent_error fs) | None => error r end;
  rdata := match body with Some fs => last (omap sent_data fs) | None => rdata r end;
  metadata := match body with Some fs => last (omap sent_metadata fs) | None => metadata r end;
  sqlinfo := match body with Some _ => None | None => sqlinfo r end;
|}.

(** What the loops of the parsers leave. *)
Definition parsed_reply (r : reply) (hs : list hdr_field) (body : option (list body_field)) : reply :=
  let r := put_hdr (foldl hdr_step (HdrAcc 0 0 0 0) hs) r in
  match body with
  | Some fs => put_body (foldl body_step (BodyAcc None None None None 0) fs) r
  | None => r
  end.

Lemma bits_of_snoc {A} (bit : A -> Z) l x : bits_of bit (l ++ [x]) = Z.lor (bits_of bit l) (bit x).
Proof.
  unfold bits_of. rewrite fmap_app, foldr_app. simpl. rewrite Z.lor_0_r.
  induction (bit <$> l) as [|y l' IH]; simpl; [done|]. by rewrite IH, Z.lor_assoc.
Qed.

Lemma last_omap_snoc {A B} (f : A -> option B) l x :
  last (omap f (l ++ [x])) = match f x with Some v => Some v | None => last (omap f l) end.
Proof. rewrite omap_app. cbn. destruct (f x); [by rewrite last_snoc|by rewrite app_nil_r]. Qed.

(** The header loop keeps the last value of each key and every bit. *)
Lemma hdr_steps_values hs :
  Forall hdr_field_ok hs ->
  foldl hdr_step (HdrAcc 0 0 0 0) hs =
    HdrAcc (header_value TNT_SYNC hs) (header_value TNT_CODE hs) (header_value TNT_SCHEMA_ID hs) (bits_of header_bit hs).
Proof.
  induction hs as [|[k v] hs IH] using rev_ind; [done|]. intros [Hh [[Hk _] _]%Forall_cons]%Forall_app.
  rewrite foldl_snoc, IH by done. unfold header_value. rewrite !last_omap_snoc, bits_of_snoc. cbn [fst snd] in *.
  unfold hdr_step, header_bit. destruct Hk as [-> | [-> | ->]]; done.
Qed.

Lemma body_steps_values fs :
  Forall body_field_ok fs ->
  foldl body_step (BodyAcc None None None None 0) fs =
    BodyAcc (last (omap sent_error fs)) (last (omap sent_data fs)) (last (omap sent_metadata fs)) None (bits_of body_bit fs).
Proof.
  induction fs as [|f fs IH] using rev_ind; [done|]. intros [Hf _]%Forall_app.
  rewrite foldl_snoc, IH by done. rewrite !last_omap_snoc, bits_of_snoc. by destruct f.
Qed.

Definition server_reply_ok (hs : list hdr_field) (body : option (list body_field)) : Prop :=
  Forall hdr_field_ok hs /\ zlen hs < 2 ^ 31 /\
  match body with Some fs => Forall body_field_ok fs /\ zlen fs < 2 ^ 31 | None => True end /\
  zlen (reply_payload hs body) < 2 ^ 32.

Lemma parsed_expected r hs body : server_reply_ok hs body -> parsed_reply r hs body = expected_reply r hs body.
Proof.
  intros (Hh & _ & Hb & _). unfold parsed_reply, expected_reply, put_hdr.
  rewrite hdr_steps_values by done. cbn [h_sync h_code h_schema h_bitmap].
  change (Z.shiftl 1 15 - 1) with (Z.ones 15). rewrite Z.land_ones by lia.
  destruct body as [fs|]; [|by rewrite Z.lor_0_r]. destruct Hb as [Hf _]. unfold put_body. by rewrite body_steps_values.
Qed.

Lemma body_map_nonempty fs : zlen fs < 2 ^ 31 -> 1 <= zlen (body_map fs).
Proof.
  intros Hl. unfold body_map. rewrite zlen_app. pose proof (spec_len_map (zlen fs) ltac:(len)).
  assert (0 <= zlen (concat (field_bytes <$> fs))) by len. lia.
Qed.

Lemma hdr_bytes_nonempty hs : zlen hs < 2 ^ 31 -> 1 <= zlen (hdr_bytes hs).
Proof. intros. apply body_map_nonempty. unfold zlen in *. by rewrite length_fmap. Qed.

(** The two parsers on a payload, as both [tnt_reply] and [tnt_reply0] call them. *)
Lemma payload_hdr r hs body :
  server_reply_ok hs body ->
  tnt_reply_hdr0 (Some r) (reply_payload hs body)
    = Some (0, Some (put_hdr (foldl hdr_step (HdrAcc 0 0 0 0) hs) r), Some (zlen (hdr_bytes hs))).
Proof. intros (Hh & Hl & _). unfold reply_payload. by rewrite hdr0_fields. Qed.

Lemma payload_body r hs body :
  server_reply_ok hs body ->
  match body with
  | None => zlen (reply_payload hs body) = zlen (hdr_bytes hs)
  | Some fs => zlen (reply_payload hs body) <> zlen (hdr_bytes hs) /\
      tnt_reply_body0 (Some r) (drop (length (hdr_bytes hs)) (reply_payload hs body))
        = Some (0, Some (put_body (foldl body_step (BodyAcc None None None None 0) fs) r),
                Some (zlen (reply_body fs)))
  end.
Proof.
  intros (_ & _ & Hb & _). unfold reply_payload. destruct body as [fs|]; [|by rewrite app_nil_r].
  destruct Hb as [Hf Hl]. split.
  - pose proof (body_map_nonempty (body_pair <$> fs) ltac:(unfold zlen in *; by rewrite length_fmap)).
    unfold reply_body. rewrite zlen_app. lia.
  - rewrite drop_app_length, <- (app_nil_r (reply_body fs)), body0_fields by done. by rewrite app_nil_r.
Qed.

Lemma frame_eq pl : zlen pl < 2 ^ 32 -> frame pl = (0xce :: be 4 (zlen pl)) ++ pl.
Proof. intros. unfold frame. rewrite luint32_eq by len. by rewrite decide_True. Qed.

Lemma frame_len pl : zlen pl < 2 ^ 32 -> zlen (frame pl) = zlen pl + 5.
Proof. intros. rewrite frame_eq, zlen_app by done. unfold zlen at 1. simpl. lia. Qed.

Lemma reply_len_full pl rest :
  zlen pl < 2 ^ 32 -> tnt_reply_len (frame pl ++ rest) = Some (0, zlen (frame pl)).
Proof.
  intros Hl. unfold tnt_reply_len, TNT_REPLY_IPROTO_HDR_SIZE.
  assert (zlen (frame pl ++ rest) = zlen pl + 5 + zlen rest) as Es by (rewrite zlen_app, frame_len; lia).
  assert (0 <= zlen pl /\ 0 <= zlen rest) as [H1 H2] by len.
  rewrite Es, decide_False by lia. rewrite frame_eq, <- !app_assoc by done.
  change ((0xce :: be 4 (zlen pl)) ++ pl ++ rest) with (0xce :: be 4 (zlen pl) ++ pl ++ rest).
  rewrite spec_type_uint32. cbn [mbind option_bind]. rewrite decide_False by (intros []; done).
  rewrite spec_decode_uint32 by lia. cbn [mbind option_bind]. rewrite !u64_small by lia.
  rewrite decide_False by lia. do 2 f_equal. rewrite zlen_app. unfold zlen at 2. simpl. lia.
Qed.

(** C11: Partial replies: for every proper prefix of a framed reply, both
    parsers return 1 ("need more bytes") without touching the reply, the buffer
    or the allocator, and the offset they report is exactly the number of bytes
    missing to complete the 5-byte length, or, once that is there, to complete
    the whole reply. *)
Theorem reply_incomplete r pl k m :
  zlen pl < 2 ^ 32 -> (k < length (frame pl))%nat ->
  let need := if decide (k < 5)%nat then 5 - Z.of_nat k else zlen (frame pl) - Z.of_nat k in
  tnt_reply0 r (take k (frame pl)) = Some (1, r, Some need) /\
  tnt_reply r (take k (frame pl)) m = Some (1, r, Some need, m).
Proof.
  intros Hl Hk need. assert (tnt_reply_len (take k (frame pl)) = Some (1, need)) as E.
  { pose proof (frame_len pl Hl) as Hf. unfold tnt_reply_len, TNT_REPLY_IPROTO_HDR_SIZE.
    assert (zlen (take k (frame pl)) = Z.of_nat k) as Ek by (unfold zlen; rewrite length_take; lia).
    rewrite Ek. unfold need. destruct (decide (k < 5)%nat) as [Hk5|Hk5].
    - rewrite decide_True by lia. done.
    - rewrite decide_False by lia.
      assert (take k (frame pl) = 0xce :: be 4 (zlen pl) ++ take (k - 5) pl) as ->.
      { rewrite frame_eq by done. rewrite take_app_ge by (simpl; lia). done. }
      rewrite spec_type_uint32. cbn [mbind option_bind]. rewrite decide_False by (intros []; done).
      assert (0 <= zlen pl) by len. rewrite spec_decode_uint32 by lia. cbn [mbind option_bind].
      assert (Z.of_nat k < zlen (frame pl)) by (unfold zlen; lia).
      rewrite (u64_small (zlen pl + Z.of_nat 5)) by lia. rewrite decide_True by lia.
      rewrite u64_small by lia. do 2 f_equal. lia. }
  unfold tnt_reply0, tnt_reply. rewrite E. done.
Qed.

(** A fresh reply that owns the payload. *)
Definition owning (alloc : bool) (pl : bytes) : reply :=
  Reply alloc 0 (PHeap pl) (zlen pl) 0 0 0 None None None None.

(** [tnt_reply_from] on a callback that first delivers the length of a framed
    reply, then the payload or a failure. *)
Lemma reply_from_full {S} (rcv : tnt_reply_t S) r hs body p0 p1 p2 rc1 rc2 bs m :
  server_reply_ok hs body ->
  let pl := reply_payload hs body in
  rcv p0 TNT_REPLY_IPROTO_HDR_SIZE = Some (rc1, 0xce :: be 4 (zlen pl), p1) -> rc1 <> -1 ->
  rcv p1 (length pl) = Some (rc2, bs, p2) -> (length bs <= length pl)%nat -> (rc2 <> -1 -> bs = pl) ->
  tnt_reply_from rcv r p0 m =
    match pop m with
    | (Refuse, m) => Some (-1, zero_reply (r_alloc r), p1, m)
    | (Grant _, m) =>
        if decide (rc2 = -1) then Some (-1, zero_reply (r_alloc r), p2, m)
        else Some (0, expected_reply (owning (r_alloc r) pl) hs body, p2, m)
    end.
Proof.
  intros Hok pl E1 Hrc1 E2 Hbs Hpay. pose proof Hok as (_ & Hhl & _ & Hl). fold pl in Hl. assert (0 <= zlen pl) by len.
  pose proof (spec_type_uint32 (zlen pl) []) as Et. rewrite app_nil_r in Et.
  pose proof (spec_decode_uint32 (zlen pl) [] ltac:(lia)) as Ed. rewrite app_nil_r in Ed.
  unfold tnt_reply_from. rewrite E1. cbn [mbind option_bind]. rewrite decide_False by done.
  rewrite Et. cbn [mbind option_bind]. rewrite decide_False by (intros []; done). rewrite Ed. cbn [mbind option_bind].
  assert (1 <= zlen pl) as Hpl.
  { unfold pl, reply_payload. rewrite zlen_app. pose proof (hdr_bytes_nonempty hs Hhl). destruct body; len. }
  destruct (pop m) as [a m']. rewrite tnt_mem_alloc_eq by lia. cbn [mbind option_bind].
  destruct a as [|junk]; [done|]. cbn [mbind option_bind]. rewrite to_nat_zlen, E2. cbn [mbind option_bind].
  rewrite store_heap by (rewrite length_replicate; lia). cbn [mbind option_bind]. case_decide as Hrc2; [done|].
  rewrite (Hpay Hrc2). replace (take 0 _ ++ pl ++ _) with pl
    by (simpl; rewrite drop_ge by (rewrite length_replicate; lia); by rewrite app_nil_r).
  fold (owning (r_alloc r) pl). pose proof (payload_hdr (owning (r_alloc r) pl) hs body Hok) as Eh. fold pl in Eh. rewrite Eh.
  cbn [mbind option_bind]. rewrite decide_False by (intros []; done). cbn [mbind option_bind from_option id].
  pose proof (payload_body (put_hdr (foldl hdr_step (HdrAcc 0 0 0 0) hs) (owning (r_alloc r) pl)) hs body Hok) as Hbody.
  rewrite <- parsed_expected by done. unfold parsed_reply. fold pl in Hbody. rewrite to_nat_zlen. destruct body as [fs|]; [|by rewrite decide_True].
  destruct Hbody as [Hne Hb]. rewrite decide_False by done. rewrite Hb. cbn [mbind option_bind].
  by rewrite decide_False by (intros []; done).
Qed.

Lemma reply_full r hs body rest m :
  server_reply_ok hs body ->
  let pl := reply_payload hs body in
  tnt_reply (Some r) (frame pl ++ rest) m =
    match pop m with
    | (Refuse, m) => Some (-1, Some (zero_reply (r_alloc r)), Some 5, m)
    | (Grant _, m) => Some (0, Some (expected_reply (owning (r_alloc r) pl) hs body), Some (zlen (frame pl)), m)
    end.
Proof.
  intros Hok pl. pose proof Hok as (_ & _ & _ & Hl). fold pl in Hl.
  unfold tnt_reply. rewrite reply_len_full by done. cbn [mbind option_bind]. rewrite decide_False by done.
  rewrite decide_False by (intros []; done).
  pose proof (frame_eq pl Hl) as Ef. assert (length (0xce :: be 4 (zlen pl)) = 5%nat) as HL by done.
  remember (0xce :: be 4 (zlen pl)) as L eqn:EL.
  rewrite Ef, <- app_assoc.
  pose proof (slice_app [] L (pl ++ rest)) as E1. rewrite HL in E1. simpl app in E1. simpl length in E1.
  pose proof (slice_app L pl rest) as E2. rewrite HL in E2.
  rewrite (reply_from_full tnt_reply_cb r hs body _ (L ++ pl ++ rest, 5%nat) (L ++ pl ++ rest, (5 + length pl)%nat) 5 (zlen pl) pl m Hok);
    [|unfold tnt_reply_cb, TNT_REPLY_IPROTO_HDR_SIZE; fold pl; by rewrite <- EL, E1|done|fold pl; unfold tnt_reply_cb; by rewrite E2|done|done].
  destruct (pop m) as [[|junk] m']; [done|]. rewrite decide_False by (unfold zlen; lia). cbn [mbind option_bind snd].
  do 3 f_equal. rewrite zlen_app. unfold zlen. by rewrite HL, Nat2Z.inj_add.
Qed.

Lemma reply0_full r hs body rest :
  server_reply_ok hs body ->
  tnt_reply0 (Some r) (frame (reply_payload hs body) ++ rest) =
    Some (0, Some (expected_reply r hs body), Some (zlen (frame (reply_payload hs body)))).
Proof.
  intros Hok. pose proof Hok as (_ & Hhl & _ & Hl). pose proof (payload_hdr r hs body Hok) as Eh.
  pose proof (payload_body (put_hdr (foldl hdr_step (HdrAcc 0 0 0 0) hs) r) hs body Hok) as Hbody.
  rewrite <- parsed_expected by done. unfold parsed_reply. set (pl := reply_payload hs body) in *.
  unfold tnt_reply0. rewrite reply_len_full by done. cbn [mbind option_bind]. rewrite decide_False by done.
  rewrite decide_False by (intros []; done). unfold TNT_REPLY_IPROTO_HDR_SIZE.
  rewrite to_nat_zlen. pose proof (frame_eq pl Hl) as Ef.
  assert (length (0xce :: be 4 (zlen pl)) = 5%nat) as HL by done.
  revert Ef HL. generalize (0xce :: be 4 (zlen pl)). intros L Ef HL. rewrite Ef, <- app_assoc.
  assert (length (L ++ pl) - 5 = length pl)%nat as -> by len.
  pose proof (slice_app L pl rest) as E2. rewrite HL in E2. rewrite E2. cbn [mbind option_bind].
  rewrite Eh. cbn [mbind option_bind]. rewrite decide_False by (intros []; done).
  cbn [mbind option_bind from_option id]. rewrite to_nat_zlen.
  destruct body as [fs|].
  - destruct Hbody as [Hne Hb]. rewrite decide_True by (unfold zlen in Hne; lia). rewrite Hb.
    cbn [mbind option_bind]. rewrite decide_False by (intros []; done). done.
  - rewrite decide_False by (unfold zlen in Hbody; lia). done.
Qed.

(** C4: Whole replies: from a buffer that starts with a framed server reply
    (any sequence of sync, code and schema-id header fields; no body, or any
    sequence of error, data, metadata and other body fields with keys below 64),
    [tnt_reply0] returns 0 with the end of the reply as offset and exactly the
    fields that were sent: sync, schema id and the 15 bits of the code are the
    last ones sent or 0, error, data and metadata the last ones sent or absent,
    no SQL information, and the bitmap has the protocol's bit of each key;
    [tnt_reply] does the same on a copy of the payload, or, when that copy
    cannot be allocated, returns -1 with a zeroed reply. *)
Theorem reply_roundtrip r hs body rest m :
  server_reply_ok hs body ->
  let pl := reply_payload hs body in
  tnt_reply0 (Some r) (frame pl ++ rest) =
    Some (0, Some (expected_reply r hs body), Some (zlen (frame pl))) /\
  tnt_reply (Some r) (frame pl ++ rest) m =
    match pop m with
    | (Refuse, m) => Some (-1, Some (zero_reply (r_alloc r)), Some 5, m)
    | (Grant _, m) => Some (0, Some (expected_reply (owning (r_alloc r) pl) hs body), Some (zlen (frame pl)), m)
    end.
Proof. intros Hok pl. split; [by apply reply0_full|by apply reply_full]. Qed.

(** ** Replies from a buffer stream *)

Section buffer.
Context {D : Type}.
Implicit Types (s : stream (sbuf D)).

(** [s] is a live buffer whose unread bytes are [bs]. *)
Definition unread s (bs : bytes) : Prop :=
  exists sb b, st_data s = Some sb /\ core_ok (sb_core sb) /\ data (sb_core sb) = PHeap b /\
    slice (rdoff (sb_core sb)) (size (sb_core sb) - rdoff (sb_core sb)) b = Some bs.

Lemma unread_length s sb bs :
  unread s bs -> st_data s = Some sb -> length bs = (size (sb_core sb) - rdoff (sb_core sb))%nat.
Proof.
  intros (sb' & b & Hs & [Hc Hd] & Ed & Hu) Hs'. rewrite Hs in Hs'. injection Hs' as <-.
  unfold slice in Hu. case_decide; [|done]. injection Hu as <-. rewrite length_take, length_drop. lia.
Qed.

(** Reading one complete reply. *)
Lemma buf_reply_one s r hs body rest :
  unread s (frame (reply_payload hs body) ++ rest) -> server_reply_ok hs body -> granted s ->
  exists s', tnt_buf_reply s (Some r) =
      Some (0, s', Some (expected_reply (owning (r_alloc r) (reply_payload hs body)) hs body)) /\
    granted s' /\ unread s' rest.
Proof.
  intros Hu Hok Hg. pose proof Hu as (sb & b & Hs & Hc & Ed & Hsl).
  pose proof Hok as (_ & _ & _ & Hl). set (pl := reply_payload hs body) in *.
  pose proof (unread_length s sb _ Hu Hs) as Hlen. rewrite length_app in Hlen.
  pose proof (frame_len pl Hl) as Hfl. assert (0 <= zlen pl) by len.
  unfold tnt_buf_reply. rewrite Hs. cbn [mbind option_bind]. rewrite Ed.
  rewrite decide_False by (unfold zlen in Hfl; lia).
  unfold load. cbn [mbind option_bind block_of]. rewrite Hsl. cbn [mbind option_bind].
  pose proof (reply_full r hs body rest (st_mem s) Hok) as Er. cbv zeta in Er. fold pl in Er. rewrite Er.
  destruct (pop (st_mem s)) as [a m] eqn:Epop. destruct (pop_granted _ _ _ Epop Hg) as [Ha Hm].
  destruct a as [|junk]; [done|]. cbn [mbind option_bind]. rewrite decide_True by done.
  cbn [from_option id]. rewrite to_nat_zlen. eexists. split; [reflexivity|]. split; [done|].
  eexists _, b. split; [reflexivity|]. simpl. destruct Hc as [Hc1 Hc2]. rewrite Ed in Hc2.
  split; [split; simpl; [lia|done]|]. split; [done|].
  unfold slice in Hsl |- *. rewrite decide_True in Hsl by lia. rewrite decide_True by lia.
  injection Hsl as Hsl. f_equal. rewrite <- drop_drop.
  replace (size (sb_core sb) - (rdoff (sb_core sb) + length (frame pl)))%nat
    with (size (sb_core sb) - rdoff (sb_core sb) - length (frame pl))%nat by lia.
  rewrite <- skipn_firstn_comm, Hsl. apply drop_app_length.
Qed.

(** Reading with incomplete data changes nothing. *)
Lemma buf_reply_partial s r pl k :
  unread s (take k (frame pl)) -> zlen pl < 2 ^ 32 -> (k < length (frame pl))%nat ->
  tnt_buf_reply s r = Some (1, s, r).
Proof.
  intros Hu Hl Hk. pose proof Hu as (sb & b & Hs & Hc & Ed & Hsl).
  unfold tnt_buf_reply. rewrite Hs. cbn [mbind option_bind]. rewrite Ed.
  case_decide as He; [done|]. unfold load. cbn [mbind option_bind block_of]. rewrite Hsl.
  cbn [mbind option_bind]. destruct (reply_incomplete r pl k (st_mem s) Hl Hk) as [_ ->].
  cbn [mbind option_bind]. rewrite decide_False by done. by destruct s.
Qed.

(** The client that reads up to [n] replies. *)
Fixpoint read_replies (n : nat) s : option (list reply * Z * stream (sbuf D)) :=
  match n with
  | O => Some ([], 0, s)
  | S n =>
      '(rc, s, r) ← tnt_buf_reply s (Some (zero_reply false));
      if decide (rc <> 0) then Some ([], rc, s) else
      r ← r;
      '(l, rc, s) ← read_replies n s;
      Some (r :: l, rc, s)
  end.

Definition server_reply : Type := list hdr_field * option (list body_field).

Definition reply_frame (x : server_reply) : bytes := frame (reply_payload (fst x) (snd x)).

Lemma read_replies_spec (l : list server_reply) s rest n :
  unread s (concat (reply_frame <$> l) ++ rest) -> granted s ->
  Forall (fun x => server_reply_ok (fst x) (snd x)) l -> (length l <= n)%nat ->
  exists s', unread s' rest /\ granted s' /\
    read_replies n s =
      '(l', rc, s'') ← read_replies (n - length l) s';
      Some (((fun x => expected_reply (owning false (reply_payload (fst x) (snd x))) (fst x) (snd x)) <$> l) ++ l', rc, s'').
Proof.
  intros Hu Hg Hl. revert s n Hu Hg. induction Hl as [|[hs body] l Hok _ IH]; intros s n Hu Hg Hn; csimpl.
  - exists s. rewrite Nat.sub_0_r. split; [done|]. split; [done|].
    destruct (read_replies n s) as [[[l' rc] s']|]; done.
  - destruct n as [|n]; [simpl in Hn; lia|]. csimpl in Hu. unfold reply_frame at 1 in Hu. simpl in Hu.
    rewrite <- app_assoc in Hu.
    destruct (buf_reply_one s (zero_reply false) hs body _ Hu Hok Hg) as (s1 & E & Hg1 & Hu1).
    destruct (IH s1 n Hu1 Hg1) as (s' & Hu' & Hg' & E'); [simpl in Hn; lia|].
    exists s'. split; [done|]. split; [done|]. simpl read_replies. rewrite E. cbn [mbind option_bind].
    rewrite decide_False by (intros []; done). cbn [mbind option_bind]. rewrite E'. simpl minus.
    unfold server_reply in *. match goal with |- context [read_replies ?x s'] => destruct (read_replies x s') as [[[l1 rc] s2]|] end; simpl; reflexivity.
Qed.

(** C8: Reading replies from a buffer stream: when its unread bytes are a
    sequence of framed server replies followed by an incomplete one (possibly
    empty), repeated [read_reply] calls deliver exactly these replies, in order,
    and then report 1 ("need more") with the incomplete bytes still unread. *)
Theorem buffer_replies_in_order (l : list server_reply) s pl k :
  unread s (concat (reply_frame <$> l) ++ take k (frame pl)) -> granted s ->
  Forall (fun x => server_reply_ok (fst x) (snd x)) l -> zlen pl < 2 ^ 32 -> (k < length (frame pl))%nat ->
  exists s', read_replies (S (length l)) s =
      Some ((fun x => expected_reply (owning false (reply_payload (fst x) (snd x))) (fst x) (snd x)) <$> l, 1, s') /\
    unread s' (take k (frame pl)).
Proof.
  intros Hu Hg Hl Hpl Hk.
  destruct (read_replies_spec l s _ (S (length l)) Hu Hg Hl) as (s' & Hu' & _ & E); [lia|].
  exists s'. split; [|done]. rewrite E. replace (S (length l) - length l)%nat with 1%nat by lia.
  simpl read_replies. rewrite (buf_reply_partial s' _ pl k Hu' Hpl Hk). cbn [mbind option_bind].
  rewrite decide_True by done. cbn [mbind option_bind]. by rewrite app_nil_r.
Qed.

End buffer.

(** ** The two parsers on arbitrary bytes *)

(** The reply with a payload buffer of its own. *)
Definition with_buf (pl : bytes) (r : reply) : reply :=
  Reply (r_alloc r) (bitmap r) (PHeap pl) (zlen pl) (code r) (sync r) (schema_id r)
    (error r) (rdata r) (metadata r) (sqlinfo r).

(** The parsers treat the buffer fields of the reply as opaque. *)
Lemma hdr0_with_buf pl r buf :
  tnt_reply_hdr0 (Some (with_buf pl r)) buf =
    '(rc, r', off) ← tnt_reply_hdr0 (Some r) buf; Some (rc, option_map (with_buf pl) r', off).
Proof.
  unfold tnt_reply_hdr0. destruct (mp_check buf); [|done].
  destruct (mp_typeof_at buf); [|done]. cbn [mbind option_bind]. case_decide; [done|].
  destruct (mp_decode_map buf) as [[n p]|]; [|done]. cbn [mbind option_bind].
  destruct (hdr0_loop _ _ _) as [[[h q]|]|]; done.
Qed.

Lemma body0_with_buf pl r buf :
  tnt_reply_body0 (Some (with_buf pl r)) buf =
    '(rc, r', off) ← tnt_reply_body0 (Some r) buf; Some (rc, option_map (with_buf pl) r', off).
Proof.
  unfold tnt_reply_body0. destruct (mp_check buf); [|done].
  destruct (mp_typeof_at buf); [|done]. cbn [mbind option_bind]. case_decide; [done|].
  destruct (mp_decode_map buf) as [[n p]|]; [|done]. cbn [mbind option_bind].
  destruct (body0_loop _ _ _) as [[[h q]|]|]; done.
Qed.

Lemma body0_result r buf rc r' off :
  tnt_reply_body0 (Some r) buf = Some (rc, r', off) ->
  (rc = -1 /\ r' = Some r) \/ (rc = 0 /\ exists b, r' = Some (put_body b r)).
Proof.
  unfold tnt_reply_body0. destruct (mp_check buf); [|intros; inv_opt; auto].
  intros H. inv_opt. case_decide; [inv_opt; auto|]. inv_opt. destruct x0 as [n p]. inv_opt.
  destruct x0 as [[b q]|]; inv_opt; eauto.
Qed.

Lemma reply_len_decoded buf n q :
  (5 <= length buf)%nat -> mp_typeof_at buf = Some MP_UINT -> mp_decode_uint (take 5 buf) = Some (n, q) ->
  0 <= n < 2 ^ 32 -> n + 5 <= zlen buf -> tnt_reply_len buf = Some (0, n + 5).
Proof.
  intros Hlen Ht Hd Hn Hl. unfold tnt_reply_len, TNT_REPLY_IPROTO_HDR_SIZE. rewrite decide_False by len. rewrite Ht.
  cbn [mbind option_bind]. rewrite decide_False by (intros []; done).
  pose proof (spec_decode_uint_app _ (drop 5 buf) _ _ Hd) as E. rewrite take_drop in E. rewrite E.
  cbn [mbind option_bind]. rewrite !u64_small by lia. by rewrite decide_False by lia.
Qed.

(** C10: The copying and the in-place parser agree on arbitrary bytes: when the
    buffer holds a non-empty length-prefixed payload, whatever that payload is,
    [tnt_reply] (with a granted allocation) and [tnt_reply0] (on a fresh reply)
    are defined for the same payloads, return the same code, and on success fill
    the same fields; on failure [tnt_reply] has released the copy and zeroed
    the reply; both report the end of the payload. *)
Theorem reply_parsers_agree r buf n q m junk m' :
  (5 <= length buf)%nat -> mp_typeof_at buf = Some MP_UINT -> mp_decode_uint (take 5 buf) = Some (n, q) ->
  0 < n < 2 ^ 32 -> n + 5 <= zlen buf -> pop m = (Grant junk, m') ->
  let pl := take (Z.to_nat n) (drop 5 buf) in
  tnt_reply (Some r) buf m =
    '(rc, r0, off) ← tnt_reply0 (Some (zero_reply (r_alloc r))) buf;
    if decide (rc = 0) then Some (0, option_map (with_buf pl) r0, Some (n + 5), m')
    else Some (-1, Some (zero_reply (r_alloc r)), Some (n + 5), m').
Proof.
  intros Hlen Ht Hd Hn Hl Hpop pl.
  pose proof (reply_len_decoded buf n q Hlen Ht Hd ltac:(lia) Hl) as El.
  assert (length pl = Z.to_nat n) as Lpl by (unfold pl; unfold zlen in Hl; rewrite length_take, length_drop; lia).
  assert (slice 5 (Z.to_nat n) buf = Some pl) as Esl
    by (unfold slice; by rewrite decide_True by (unfold zlen in Hl; lia)).
  assert (slice 0 5 buf = Some (take 5 buf)) as Esl0 by (unfold slice; by rewrite decide_True by lia).
  unfold tnt_reply, tnt_reply0. rewrite El. cbn [mbind option_bind].
  rewrite !(decide_False (P := 0 = 1)) by done. rewrite !(decide_False (P := 0 <> 0)) by (intros []; done).
  unfold tnt_reply_from, tnt_reply_cb, TNT_REPLY_IPROTO_HDR_SIZE. rewrite Esl0. cbn [mbind option_bind].
  rewrite decide_False by done.
  assert (mp_typeof_at (take 5 buf) = Some MP_UINT) as -> by (destruct buf; done).
  cbn [mbind option_bind]. rewrite decide_False by (intros []; done). rewrite Hd. cbn [mbind option_bind].
  rewrite Hpop. rewrite tnt_mem_alloc_eq by lia. cbn [mbind option_bind]. rewrite Nat.add_0_l, Esl.
  cbn [mbind option_bind]. unfold store. rewrite replicate_splice by done.
  cbn [fmap option_fmap option_map mbind option_bind]. rewrite decide_False by lia.
  replace (Z.to_nat (n + 5) - 5)%nat with (Z.to_nat n) by lia. rewrite Esl. cbn [mbind option_bind].
  assert (Reply (r_alloc r) 0 (PHeap pl) n 0 0 0 None None None None = with_buf pl (zero_reply (r_alloc r))) as ->.
  { unfold with_buf. simpl. f_equal. unfold zlen. lia. }
  rewrite hdr0_with_buf.
  destruct (hdr0_result (Some (zero_reply (r_alloc r))) pl) as (rc & r1 & off & E & Hres).
  rewrite E. cbn [mbind option_bind].
  assert (Z.of_nat (5 + Z.to_nat n) = n + 5) as Eoff by lia.
  assert (tnt_mem_free custom_realloc (PHeap pl) = Some PDangling) as Efree by done.
  destruct Hres as [(-> & -> & ->)|(-> & k & h & rest & -> & -> & Hk & -> & _)].
  - rewrite (decide_True (P := -1 <> 0)) by done. rewrite Efree. cbn [mbind option_bind snd]. by rewrite Eoff.
  - rewrite !(decide_False (P := 0 <> 0)) by (intros []; done).
    cbn [mbind option_bind fmap option_fmap option_map from_option id].
    destruct (decide (n = k)) as [->|Hne].
    + rewrite decide_False by (intros []; done). cbn [mbind option_bind snd]. by rewrite Eoff.
    + rewrite (decide_True (P := Z.to_nat n <> Z.to_nat k)) by lia. rewrite body0_with_buf.
      destruct (tnt_reply_body0 _ (drop (Z.to_nat k) pl)) as [[[rc2 r2] off2]|] eqn:Eb; [|done].
      cbn [mbind option_bind].
      destruct (body0_result _ _ _ _ _ Eb) as [[-> ->]|[-> [b ->]]].
      * rewrite (decide_True (P := -1 <> 0)) by done. rewrite Efree. cbn [mbind option_bind snd]. by rewrite Eoff.
      * rewrite !(decide_False (P := 0 <> 0)) by (intros []; done).
        cbn [mbind option_bind snd option_map]. by rewrite Eoff.
Qed.

(** SQL replies cannot be parsed: the presence bit of a body field is
    computed by shifting a 64-bit one by the key of the field, and the key of
    [TNT_SQL_INFO] is 66; on every body that holds a well-typed SQL info map
    the parser's behaviour is undefined, for both [tnt_reply] and [tnt_reply0]. *)
Theorem sql_info_undefined r pre v post rest :
  Forall body_field_ok pre -> mp_object v -> mp_typeof_at v = Some MP_MAP -> Forall field_ok post ->
  zlen ((body_pair <$> pre) ++ (TNT_SQL_INFO : Z, v) :: post) < 2 ^ 31 ->
  tnt_reply_body0 r (body_map ((body_pair <$> pre) ++ (TNT_SQL_INFO : Z, v) :: post) ++ rest) = None.
Proof.
  intros Hpre Hv Ht Hpost Hl. set (fs := (body_pair <$> pre) ++ _) in *.
  assert (Forall field_ok fs) as Hfs.
  { apply Forall_app. split.
    - apply Forall_fmap. eapply Forall_impl; [exact Hpre|]. intros f Hf. by apply body_pair_ok.
    - constructor; [|done]. split; simpl; [lia|done]. }
  unfold tnt_reply_body0. rewrite mp_object_check by (by apply body_map_object).
  rewrite body_map_type by done. cbn [mbind option_bind]. rewrite decide_False by (intros []; done).
  rewrite body_map_decode by done. cbn [mbind option_bind]. rewrite to_nat_zlen.
  assert (forall n b q, length fs = n -> body0_loop n (concat (field_bytes <$> fs) ++ q) b = None) as Hloop.
  { intros n b q <-. unfold fs. clear fs Hl Hfs Hpost. revert b.
    induction Hpre as [|f pre Hf _ IH]; intros b.
    - cbn [length body0_loop fmap list_fmap concat app]. unfold field_bytes at 1. rewrite <- !app_assoc. simpl fst.
      rewrite spec_decode_uint by lia. cbn [mbind option_bind]. rewrite u32_small by lia.
      unfold body0_field. rewrite decide_False, decide_False, decide_False, decide_True by done. simpl snd.
      rewrite (typeof_app _ _ _ Ht). cbn [mbind option_bind]. rewrite decide_False by (intros []; done).
      rewrite take_next_object by done. done.
    - destruct (body_pair_ok f Hf) as [[Hk Hv'] Hk64].
      cbn [length body0_loop fmap list_fmap concat app]. unfold field_bytes at 1. rewrite <- !app_assoc.
      rewrite spec_decode_uint by done. cbn [mbind option_bind]. rewrite u32_small by lia.
      rewrite body0_field_ok by done. cbn [mbind option_bind]. rewrite shl1_small by done.
      cbn [mbind option_bind]. apply IH. }
  rewrite Hloop by done. done.
Qed.

End reply.

(** ** The theorems at work: a call reply with two header fields and one row,
    and the first bytes of an empty one *)

Definition sample_reply : server_reply :=
  ([(TNT_CODE, 0); (TNT_SYNC, 3)], Some [BData [0x91; 7]]).

Definition sample_payload : bytes := [0x82; 0; 0; 1; 3; 0x81; 0x30; 0x91; 7].

Lemma sample_reply_ok : server_reply_ok (MP := RefPuck) (fst sample_reply) (snd sample_reply).
Proof.
  repeat split; simpl; try reflexivity; repeat apply Forall_cons_2; try apply Forall_nil_2;
    repeat split; simpl; auto; lia || reflexivity.
Qed.

Lemma sample_payload_eq : reply_payload (MP := RefPuck) (fst sample_reply) (snd sample_reply) = sample_payload.
Proof. reflexivity. Qed.

Lemma reply_hdr0_safe_witness :
  exists rc r' off, tnt_reply_hdr0 (MP := RefPuck) None [0x81; 1; 5; 9] = Some (rc, r', off) /\
    ((rc = -1 /\ r' = None /\ off = None) \/
     (rc = 0 /\ exists k h rest, r' = put_hdr h <$> None /\ off = Some k /\ 0 <= k <= zlen [0x81; 1; 5; 9] /\
        rest = drop (Z.to_nat k) [0x81; 1; 5; 9] /\ mp_check (MsgPuck := RefPuck) [0x81; 1; 5; 9] = Some rest)).
Proof. apply (reply_hdr0_safe (MP := RefPuck) None [0x81; 1; 5; 9]). Defined.

Lemma reply_incomplete_witness :
  tnt_reply0 (MP := RefPuck) None (take 7 (frame (MP := RefPuck) sample_payload)) = Some (1, None, Some 7) /\
  tnt_reply (MP := RefPuck) None (take 7 (frame (MP := RefPuck) sample_payload)) [] = Some (1, None, Some 7, []).
Proof. apply (reply_incomplete (MP := RefPuck) None sample_payload 7 []); [reflexivity | simpl; lia]. Defined.

Lemma reply_roundtrip_witness :
  tnt_reply0 (MP := RefPuck) (Some (zero_reply true)) (0xce :: be 4 9 ++ sample_payload ++ [1; 2]) =
    Some (0, Some (Reply true (2 ^ 48 + 3) PNull 0 0 3 0 None (Some [0x91; 7]) None None), Some 14) /\
  tnt_reply (MP := RefPuck) (Some (zero_reply true)) (0xce :: be 4 9 ++ sample_payload ++ [1; 2]) [] =
    Some (0, Some (Reply true (2 ^ 48 + 3) (PHeap sample_payload) 9 0 3 0 None (Some [0x91; 7]) None None), Some 14, []).
Proof.
  exact (reply_roundtrip (MP := RefPuck) (zero_reply true) _ _ [1; 2] [] sample_reply_ok).
Defined.

(** A buffer with two replies and the first four bytes of a third. *)
Definition sample_input : stream (sbuf unit) :=
  let bs := concat [0xce :: be 4 9 ++ sample_payload; 0xce :: be 4 9 ++ sample_payload; [0xce; 0; 0; 0]] in
  Stream false 1 0 (Some (Sbuf (Core (PHeap bs) (length bs) (length bs) 0) tnt_buf_resize None false)) [].

Lemma sample_input_unread :
  unread sample_input (concat (reply_frame (MP := RefPuck) <$> [sample_reply; sample_reply]) ++
    take 4 (frame (MP := RefPuck) sample_payload)).
Proof.
  do 2 eexists. split; [reflexivity|]. split; [|split; reflexivity]. split; simpl; [lia|reflexivity].
Qed.

Lemma sample_input_granted : granted sample_input.
Proof. intros H. by apply elem_of_nil in H. Qed.

Lemma sample_replies_ok :
  Forall (fun x : server_reply => server_reply_ok (MP := RefPuck) (fst x) (snd x)) [sample_reply; sample_reply].
Proof. repeat apply Forall_cons_2; try apply Forall_nil_2; exact sample_reply_ok. Qed.

Lemma sample_payload_len : zlen sample_payload < 2 ^ 32 /\ (4 < length (frame (MP := RefPuck) sample_payload))%nat.
Proof. split; [reflexivity|simpl; lia]. Qed.

Lemma buffer_replies_in_order_witness :
  exists s', read_replies (MP := RefPuck) 3 sample_input =
    Some (let r := Reply false (2 ^ 48 + 3) (PHeap sample_payload) 9 0 3 0 None (Some [0x91; 7]) None None in
          [r; r], 1, s') /\
    unread s' [0xce; 0; 0; 0].
Proof.
  exact (buffer_replies_in_order (MP := RefPuck) [sample_reply; sample_reply] sample_input sample_payload 4
    sample_input_unread sample_input_granted sample_replies_ok (proj1 sample_payload_len) (proj2 sample_payload_len)).
Defined.

Lemma reply_parsers_agree_witness :
  let buf := [3; 0; 0; 0; 0; 0x81; 0; 4] in
  tnt_reply (MP := RefPuck) (Some (zero_reply true)) buf [Grant []] =
    Some (0, Some (with_buf [0x81; 0; 4] (Reply true 1 PNull 0 4 0 0 None None None None)), Some 8, []).
Proof.
  exact (reply_parsers_agree (MP := RefPuck) (zero_reply true) [3; 0; 0; 0; 0; 0x81; 0; 4] 3 [0; 0; 0; 0]
    [Grant []] [] [] ltac:(simpl; lia) eq_refl eq_refl ltac:(lia) ltac:(unfold zlen; simpl; lia) eq_refl).
Defined.

Lemma sql_info_undefined_witness :
  tnt_reply_body0 (MP := RefPuck) None [0x82; 0x30; 0x90; 0x42; 0x81; 0; 1] = None.
Proof.
  exact (sql_info_undefined (MP := RefPuck) None [BData [0x90]] [0x81; 0; 1] [] []
    ltac:(repeat constructor) eq_refl eq_refl ltac:(constructor) ltac:(reflexivity)).
Defined.

(** An error reply, with the code sent twice, a schema id and metadata. *)
Example expected_error :
  expected_reply (zero_reply true) [(TNT_CODE, 5); (TNT_SCHEMA_ID, 80); (TNT_CODE, 0x8003)] (Some [BError [98; 97; 100]; BMetadata [0x90]])
    = Reply true (2 ^ 0 + 2 ^ 5 + 2 ^ 49 + 2 ^ 50) PNull 0 3 0 80 (Some [98; 97; 100]) None (Some [0x90]) None.
Proof. by vm_compute. Qed.
