(* ===== verification/Iter.v ===== *)
(** * tnt/tnt_iter.c: iterators over arrays, maps and replies

    A pointer into the iterated data is the byte string from that pointer to
    the end of the memory the caller gave, [None] for [NULL]; an element is the
    difference of two such pointers.  The [next], [rewind] and [free] callbacks
    are determined by the variant of the iterator, on which [tnt_next],
    [tnt_rewind] and [tnt_iter_free] dispatch.  The stream of a reply iterator
    is shared with its owner: its current value is an argument. *)

From S2P Require Import Prelude Msgpuck MsgpuckRef Mem Stream Buf Proto Reply.

Inductive tnt_iter_type := TNT_ITER_ARRAY | TNT_ITER_MAP | TNT_ITER_REPLY.
Inductive tnt_iter_status := TNT_ITER_OK | TNT_ITER_FAIL.

Record iter_array := IterArray {
  ia_data : bytes; ia_first : bytes;
  ia_elem : option bytes; ia_elem_end : option bytes;
  ia_count : Z;      (** [uint32_t] *)
  ia_index : Z;      (** [int] *)
}.

Record iter_map := IterMap {
  im_data : bytes; im_first : bytes;
  im_key : option bytes; im_key_end : option bytes;
  im_value : option bytes; im_value_end : option bytes;
  im_count : Z; im_index : Z;
}.

(** The union of [struct tnt_iter]. *)
Inductive iter_data := IArray (a : iter_array) | IMap (m : iter_map) | IReply (r : reply).

Record iter := Iter {
  it_type : tnt_iter_type;
  it_status : tnt_iter_status;
  it_alloc : bool;
  it_data : iter_data;
}.

(** The bytes between two pointers into the same block. *)
Definition between (p q : bytes) : bytes := take (length p - length q) p.

Section iter.
Context {MP : MsgPuck}.

(** [tnt_iter_init]: the allocation mark, [None] for [NULL]. *)
Definition tnt_iter_init (given : bool) (a : answer) : option bool :=
  match given, a with
  | false, Refuse => None
  | _, _ => Some (negb given)
  end.

Definition tnt_iter_array_next (i : iter) (itr : iter_array) : option (Z * iter) :=
  idx ← int_incr (ia_index itr);
  if decide (ia_count itr <= u32 idx) then
    Some (0, Iter (it_type i) TNT_ITER_FAIL (it_alloc i)
               (IArray (IterArray (ia_data itr) (ia_first itr) (ia_elem itr) (ia_elem_end itr)
                          (ia_count itr) idx)))
  else
    elem ← (if decide (idx = 0) then Some (ia_first itr) else ia_elem_end itr);
    elem_end ← mp_next elem;
    Some (1, Iter (it_type i) (it_status i) (it_alloc i)
               (IArray (IterArray (ia_data itr) (ia_first itr) (Some elem) (Some elem_end)
                          (ia_count itr) idx))).

Definition tnt_iter_array_rewind (i : iter) (itr : iter_array) : iter :=
  Iter (it_type i) TNT_ITER_OK (it_alloc i)
    (IArray (IterArray (ia_data itr) (ia_first itr) None None (ia_count itr) (-1))).

(** [tnt_iter_array]: [data] is the memory from the pointer on, [None] for
    [NULL] (and size 0).  The result is [Some None] for [NULL]. *)
Definition tnt_iter_array (given : bool) (a : answer) (data : option bytes) : option (option iter) :=
  match mp_check (default [] data) with
  | None => Some None
  | Some _ =>
      match data with
      | None | Some [] => Some None
      | Some d =>
          t ← mp_typeof_at d;
          if decide (t <> MP_ARRAY) then Some None else
          match tnt_iter_init given a with
          | None => Some None
          | Some alloc =>
              '(n, first) ← mp_decode_array d;
              Some (Some (Iter TNT_ITER_ARRAY TNT_ITER_OK alloc
                            (IArray (IterArray d first None None n (-1)))))
          end
      end
  end.

(** [tnt_iter_array_object] *)
Definition tnt_iter_array_object {D} (given : bool) (a : answer) (s : stream (sbuf D))
    : option (option iter) :=
  d ← TNT_SBUF_DATA s; tnt_iter_array given a d.

Definition tnt_iter_map_next (i : iter) (itr : iter_map) : option (Z * iter) :=
  idx ← int_incr (im_index itr);
  if decide (im_count itr <= u32 idx) then
    Some (0, Iter (it_type i) TNT_ITER_FAIL (it_alloc i)
               (IMap (IterMap (im_data itr) (im_first itr) (im_key itr) (im_key_end itr)
                        (im_value itr) (im_value_end itr) (im_count itr) idx)))
  else
    key ← (if decide (idx = 0) then Some (im_first itr) else im_value_end itr);
    key_end ← mp_next key;
    value_end ← mp_next key_end;
    Some (1, Iter (it_type i) (it_status i) (it_alloc i)
               (IMap (IterMap (im_data itr) (im_first itr) (Some key) (Some key_end)
                        (Some key_end) (Some value_end) (im_count itr) idx))).

Definition tnt_iter_map_rewind (i : iter) (itr : iter_map) : iter :=
  Iter (it_type i) TNT_ITER_OK (it_alloc i)
    (IMap (IterMap (im_data itr) (im_first itr) None None None None (im_count itr) (-1))).

Definition tnt_iter_map (given : bool) (a : answer) (data : option bytes) : option (option iter) :=
  match mp_check (default [] data) with
  | None => Some None
  | Some _ =>
      match data with
      | None | Some [] => Some None
      | Some d =>
          t ← mp_typeof_at d;
          if decide (t <> MP_MAP) then Some None else
          match tnt_iter_init given a with
          | None => Some None
          | Some alloc =>
              '(n, first) ← mp_decode_map d;
              Some (Some (Iter TNT_ITER_MAP TNT_ITER_OK alloc
                            (IMap (IterMap d first None None None None n (-1)))))
          end
      end
  end.

Definition tnt_iter_map_object {D} (given : bool) (a : answer) (s : stream (sbuf D))
    : option (option iter) :=
  d ← TNT_SBUF_DATA s; tnt_iter_map given a d.

Section reply_iter.
Context {S : Type}.

(** [s->read_reply(s, r)] *)
Variable read_reply : S -> option reply -> option (Z * S * option reply).

Definition tnt_iter_reply_next (i : iter) (r : reply) (s : S) : option (Z * iter * S) :=
  _ ← tnt_reply_free r;
  r ← tnt_reply_init true Refuse;
  '(rc, s, r) ← read_reply s (Some r);
  r ← r;
  if decide (rc = -1) then
    Some (0, Iter (it_type i) TNT_ITER_FAIL (it_alloc i) (IReply r), s)
  else
    Some (if decide (rc = 1) then 0 else 1, Iter (it_type i) (it_status i) (it_alloc i) (IReply r), s).

(** [tnt_next] *)
Definition tnt_next (i : iter) (s : S) : option (Z * iter * S) :=
  match it_data i with
  | IArray a => '(rc, i) ← tnt_iter_array_next i a; Some (rc, i, s)
  | IMap m => '(rc, i) ← tnt_iter_map_next i m; Some (rc, i, s)
  | IReply r => tnt_iter_reply_next i r s
  end.

End reply_iter.

Definition tnt_iter_reply (given : bool) (a : answer) : option iter :=
  alloc ← tnt_iter_init given a;
  r ← tnt_reply_init true Refuse;
  Some (Iter TNT_ITER_REPLY TNT_ITER_OK alloc (IReply r)).

Definition tnt_iter_reply_free (i : iter) (r : reply) : option iter :=
  r ← tnt_reply_free r;
  r ← r;
  Some (Iter (it_type i) (it_status i) (it_alloc i) (IReply r)).

(** [tnt_rewind] *)
Definition tnt_rewind (i : iter) : iter :=
  let i := Iter (it_type i) TNT_ITER_OK (it_alloc i) (it_data i) in
  match it_data i with
  | IArray a => tnt_iter_array_rewind i a
  | IMap m => tnt_iter_map_rewind i m
  | IReply _ => i
  end.

(** [tnt_iter_free]: [Some None] when the struct itself was freed. *)
Definition tnt_iter_free (i : iter) : option (option iter) :=
  i ← match it_data i with IReply r => tnt_iter_reply_free i r | _ => Some i end;
  Some (if it_alloc i then None else Some i).

End iter.
