(* ===== verification/IterSpec.v ===== *)
(** * Correctness of the iterators (tnt/tnt_iter.c)

    The loop a client writes, [while (tnt_next(it))], is [drain].  On arbitrary
    checked data it terminates and visits exactly the elements of the array (the
    pairs of the map), it can be repeated after [tnt_rewind], and the reply
    iterator delivers the replies of a buffer. *)

From S2P Require Import Prelude Msgpuck MsgpuckRef Mem Stream Buf Proto Reply ReplySpec Iter.

(** What the accessors of the iterator show: the element, the key and the
    value, or the reply. *)
Definition TNT_IARRAY_ELEM (i : iter) : option bytes :=
  match it_data i with
  | IArray a => p ← ia_elem a; q ← ia_elem_end a; Some (between p q)
  | _ => None
  end.

Definition TNT_IMAP_PAIR (i : iter) : option (bytes * bytes) :=
  match it_data i with
  | IMap m =>
      k ← im_key m; k' ← im_key_end m; v ← im_value m; v' ← im_value_end m;
      Some (between k k', between v v')
  | _ => None
  end.

Definition TNT_IREPLY_PTR (i : iter) : option reply :=
  match it_data i with IReply r => Some r | _ => None end.

Section spec.
Context {MP : MsgPuck} {MPS : MsgPuckSpec MP}.
Context {S A : Type} (read_reply : S -> option reply -> option (Z * S * option reply)).
Variable observe : iter -> option A.

(** [while (tnt_next(it)) visit(it);] *)
Fixpoint drain (fuel : nat) (i : iter) (s : S) : option (list A * iter * S) :=
  match fuel with
  | O => None
  | Datatypes.S fuel =>
      '(rc, i, s) ← tnt_next read_reply i s;
      if decide (rc = 0) then Some ([], i, s) else
      x ← observe i;
      '(l, i, s) ← drain fuel i s;
      Some (x :: l, i, s)
  end.

(** If [R k] describes the iterator before its [k]-th call, the loop visits the
    values of [xs] and ends in [fin]. *)
Lemma drain_steps (R : nat -> iter -> Prop) (xs : list A) (fin : iter) (s : S) :
  (forall k x i, R k i -> xs !! k = Some x ->
     exists i', tnt_next read_reply i s = Some (1, i', s) /\ observe i' = Some x /\ R (k + 1)%nat i') ->
  (forall i, R (length xs) i -> tnt_next read_reply i s = Some (0, fin, s)) ->
  forall k i fuel, R k i -> (k <= length xs)%nat -> (length xs - k < fuel)%nat ->
    drain fuel i s = Some (drop k xs, fin, s).
Proof.
  intros Hstep Hend k i fuel. revert k i. induction fuel as [|fuel IH]; intros k i HR Hk Hf; [lia|].
  simpl. destruct (decide (k = length xs)) as [->|Hne].
  - rewrite (Hend i HR). cbn [mbind option_bind]. rewrite decide_True by done. by rewrite drop_all.
  - destruct (lookup_lt_is_Some_2 xs k) as [x Hx]; [lia|].
    destruct (Hstep k x i HR Hx) as (i' & -> & Ho & HR'). cbn [mbind option_bind].
    rewrite decide_False by done. rewrite Ho. cbn [mbind option_bind].
    rewrite (IH (k + 1)%nat i' HR') by lia. cbn [mbind option_bind].
    by rewrite (drop_S xs x k Hx), Nat.add_1_r.
Qed.

End spec.

Section containers.
Context {MP : MsgPuck} {MPS : MsgPuckSpec MP}.
Context {S : Type} (read_reply : S -> option reply -> option (Z * S * option reply)).

Lemma between_app (x r : bytes) : between (x ++ r) r = x.
Proof. unfold between. rewrite take_app_length'; len. done. Qed.

Lemma between_app2 (x y r : bytes) : between (x ++ y ++ r) (y ++ r) = x.
Proof. apply between_app. Qed.

(** The [int] index compared as a [uint32_t]. *)
Lemma index_u32 k : 0 <= k <= INT_MAX -> u32 k = k.
Proof. unfold INT_MAX. intros. apply u32_small. lia. Qed.

(** ** Arrays *)

Definition array_end (alloc : bool) (d first : bytes) (e : option bytes) (ee : option bytes) (n idx : Z) : iter :=
  Iter TNT_ITER_ARRAY TNT_ITER_FAIL alloc (IArray (IterArray d first e ee n idx)).

(** Before the [k]-th call of an iteration over [os]. *)
Definition array_at (alloc : bool) (d : bytes) (os : list bytes) (rest : bytes) (k : nat) (i : iter) : Prop :=
  exists e ee, i = Iter TNT_ITER_ARRAY TNT_ITER_OK alloc
      (IArray (IterArray d (concat os ++ rest) e ee (zlen os) (Z.of_nat k - 1))) /\
    match k with
    | O => e = None /\ ee = None
    | Datatypes.S j => e = Some (concat (drop j os) ++ rest) /\ ee = Some (concat (drop k os) ++ rest)
    end.

Lemma array_step alloc d os rest k o i s :
  array_at alloc d os rest k i -> Forall mp_object os -> zlen os < INT_MAX -> os !! k = Some o ->
  exists i', tnt_next read_reply i s = Some (1, i', s) /\ TNT_IARRAY_ELEM i' = Some o /\
    array_at alloc d os rest (k + 1) i'.
Proof.
  intros (e & ee & -> & Hk) Hos Hl Ho. pose proof (lookup_lt_Some _ _ _ Ho) as Hlt.
  assert (Z.of_nat k < zlen os) as Hkl by (unfold zlen; lia).
  unfold tnt_next. cbn [it_data]. unfold tnt_iter_array_next. cbn [ia_index ia_count ia_first ia_elem_end].
  rewrite int_incr_ok by lia. cbn [mbind option_bind]. replace (Z.of_nat k - 1 + 1) with (Z.of_nat k) by lia.
  rewrite index_u32, (decide_False (P := zlen os <= Z.of_nat k)) by lia.
  assert ((if decide (Z.of_nat k = 0) then Some (concat os ++ rest) else ee)
    = Some (o ++ concat (drop (k + 1) os) ++ rest)) as ->.
  { rewrite Nat.add_1_r. assert (concat (drop k os) = o ++ concat (drop (Datatypes.S k) os)) as Ec by (by rewrite (drop_S os o k Ho)).
    destruct k as [|k]; [rewrite decide_True by done; rewrite drop_0 in Ec; by rewrite Ec, <- app_assoc|].
    rewrite decide_False by lia. destruct Hk as [_ ->]. by rewrite Ec, <- app_assoc. }
  assert (mp_object o) as Hobj by (by apply (proj1 (Forall_lookup _ _) Hos k)).
  cbn [mbind option_bind]. rewrite mp_object_next by done. cbn [mbind option_bind].
  eexists. split; [done|]. split.
  - unfold TNT_IARRAY_ELEM. simpl. by rewrite between_app.
  - do 2 eexists. cbn [it_type it_status it_alloc ia_data ia_first ia_count]. split; [repeat f_equal; lia|]. rewrite Nat.add_1_r. split; [|done].
    rewrite (drop_S os o k Ho). cbn [concat]. by rewrite <- app_assoc.
Qed.

Lemma array_stop alloc d first e ee n idx st s :
  n - 1 <= idx < INT_MAX -> 0 <= n ->
  tnt_next read_reply (Iter TNT_ITER_ARRAY st alloc (IArray (IterArray d first e ee n idx))) s
    = Some (0, array_end alloc d first e ee n (idx + 1), s).
Proof.
  intros H Hn. unfold tnt_next. cbn [it_data]. unfold tnt_iter_array_next. cbn [ia_index ia_count].
  rewrite int_incr_ok by lia. cbn [mbind option_bind]. rewrite index_u32 by lia. by rewrite decide_True by lia.
Qed.

Lemma array_drain alloc d os rest s :
  Forall mp_object os -> zlen os < INT_MAX ->
  exists e ee, forall i fuel, array_at alloc d os rest 0 i -> (length os < fuel)%nat ->
    drain read_reply TNT_IARRAY_ELEM fuel i s
      = Some (os, array_end alloc d (concat os ++ rest) e ee (zlen os) (zlen os), s).
Proof.
  intros Hos Hl.
  assert (exists e ee, forall i, array_at alloc d os rest (length os) i ->
    i = Iter TNT_ITER_ARRAY TNT_ITER_OK alloc (IArray (IterArray d (concat os ++ rest) e ee (zlen os) (zlen os - 1))))
    as (e & ee & Hlast).
  { destruct (length os) eqn:E.
    - exists None, None. intros i (e & ee & -> & -> & ->). unfold zlen. by rewrite E.
    - do 2 eexists. intros i (e & ee & -> & -> & ->). unfold zlen. by rewrite E. }
  exists e, ee. intros i fuel Hi Hf.
  rewrite <- (drop_0 os) at 1. apply (drain_steps read_reply TNT_IARRAY_ELEM (array_at alloc d os rest)); try lia; [| |done].
  - intros k x j Hj Hx. by apply (array_step alloc d os rest).
  - intros j Hj. rewrite (Hlast j Hj). rewrite array_stop by (unfold zlen in *; lia). do 4 f_equal. unfold array_end. repeat f_equal; lia.
Qed.

(** C13: Array iterators: over any memory that starts with a valid msgpack
    array (shorter than 2^31 - 2 elements), [tnt_iter_array] gives an iterator
    whose [while (tnt_next(it))] loop terminates, visits exactly the elements of
    the array in order, each one a valid object, and ends with the status FAIL;
    further calls keep returning 0, and after [tnt_rewind] the same elements are
    visited again. *)
Theorem iter_array_correct given a d rest n first s :
  mp_check d = Some rest -> mp_typeof_at d = Some MP_ARRAY -> mp_decode_array d = Some (n, first) ->
  n + 1 < INT_MAX -> given = true \/ a <> Refuse ->
  exists os i i' i'', first = concat os ++ rest /\ zlen os = n /\ Forall mp_object os /\
    tnt_iter_array given a (Some d) = Some (Some i) /\ it_status i = TNT_ITER_OK /\
    (forall fuel, (length os < fuel)%nat ->
       drain read_reply TNT_IARRAY_ELEM fuel i s = Some (os, i', s) /\
       drain read_reply TNT_IARRAY_ELEM fuel (tnt_rewind i') s = Some (os, i', s)) /\
    it_status i' = TNT_ITER_FAIL /\
    tnt_next read_reply i' s = Some (0, i'', s) /\ it_status i'' = TNT_ITER_FAIL.
Proof.
  intros Hc Ht Hd Hn Ha. destruct (spec_checked_array _ _ Hc Ht) as (n' & p & Hd' & Hn' & _ & Hskip).
  rewrite Hd in Hd'. injection Hd' as <- <-.
  destruct (mp_skip_inv _ _ _ Hskip) as (os & -> & Hlen & Hos).
  assert (zlen os = n) as Hz by (unfold zlen; lia).
  set (alloc := negb given).
  destruct (array_drain alloc d os rest s Hos) as (e & ee & Hdr); [lia|].
  exists os, (Iter TNT_ITER_ARRAY TNT_ITER_OK alloc (IArray (IterArray d (concat os ++ rest) None None n (-1)))),
    (array_end alloc d (concat os ++ rest) e ee n n), (array_end alloc d (concat os ++ rest) e ee n (n + 1)).
  split; [done|]. split; [done|]. split; [done|]. split; [|split; [done|]].
  - unfold tnt_iter_array. cbn [default from_option id]. rewrite Hc. destruct d as [|b d]; [done|].
    rewrite Ht. cbn [mbind option_bind]. rewrite decide_False by (intros []; done). rewrite Hd.
    unfold alloc. destruct given, a; try done; by destruct Ha.
  - rewrite <- Hz. split; [|split; [done|split; [|done]]].
    + intros fuel Hf. split; apply Hdr; try done; do 2 eexists; (split; [reflexivity|done]).
    + apply array_stop; unfold zlen in *; lia.
Qed.

(** ** Maps *)

Definition map_end (alloc : bool) (d first : bytes) (k ke v ve : option bytes) (n idx : Z) : iter :=
  Iter TNT_ITER_MAP TNT_ITER_FAIL alloc (IMap (IterMap d first k ke v ve n idx)).

Definition flat (kvs : list (bytes * bytes)) : bytes := concat ((fun kv => fst kv ++ snd kv) <$> kvs).

Lemma flat_drop kvs j k v : kvs !! j = Some (k, v) -> flat (drop j kvs) = k ++ v ++ flat (drop (Datatypes.S j) kvs).
Proof. intros H. unfold flat. rewrite (drop_S kvs (k, v) j H). csimpl. by rewrite <- app_assoc. Qed.

(** Before the [k]-th call of an iteration over [kvs]. *)
Definition map_at (alloc : bool) (d : bytes) (kvs : list (bytes * bytes)) (rest : bytes) (k : nat) (i : iter) : Prop :=
  exists ky ke v ve, i = Iter TNT_ITER_MAP TNT_ITER_OK alloc
      (IMap (IterMap d (flat kvs ++ rest) ky ke v ve (zlen kvs) (Z.of_nat k - 1))) /\
    match k with
    | O => ky = None /\ ke = None /\ v = None /\ ve = None
    | Datatypes.S j =>
        exists x y, kvs !! j = Some (x, y) /\ ky = Some (x ++ y ++ flat (drop k kvs) ++ rest) /\
          ke = Some (y ++ flat (drop k kvs) ++ rest) /\ v = ke /\ ve = Some (flat (drop k kvs) ++ rest)
    end.

Definition pair_ok (kv : bytes * bytes) : Prop := mp_object (fst kv) /\ mp_object (snd kv).

Lemma map_step alloc d kvs rest k kv i s :
  map_at alloc d kvs rest k i -> Forall pair_ok kvs -> zlen kvs < INT_MAX -> kvs !! k = Some kv ->
  exists i', tnt_next read_reply i s = Some (1, i', s) /\ TNT_IMAP_PAIR i' = Some kv /\
    map_at alloc d kvs rest (k + 1) i'.
Proof.
  intros (ky & ke & v & ve & -> & Hk) Hos Hl Hkv. pose proof (lookup_lt_Some _ _ _ Hkv) as Hlt.
  assert (Z.of_nat k < zlen kvs) as Hkl by (unfold zlen; lia). destruct kv as [x y].
  unfold tnt_next. cbn [it_data]. unfold tnt_iter_map_next. cbn [im_index im_count im_first im_value_end].
  rewrite int_incr_ok by lia. cbn [mbind option_bind]. replace (Z.of_nat k - 1 + 1) with (Z.of_nat k) by lia.
  rewrite index_u32, (decide_False (P := zlen kvs <= Z.of_nat k)) by lia.
  pose proof (flat_drop kvs k x y Hkv) as Ec.
  assert ((if decide (Z.of_nat k = 0) then Some (flat kvs ++ rest) else ve)
    = Some (x ++ y ++ flat (drop (k + 1) kvs) ++ rest)) as ->.
  { rewrite Nat.add_1_r. destruct k as [|k].
    - rewrite decide_True by done. rewrite drop_0 in Ec. by rewrite Ec, <- !app_assoc.
    - rewrite decide_False by lia. destruct Hk as (? & ? & _ & _ & _ & _ & ->). by rewrite Ec, <- !app_assoc. }
  assert (pair_ok (x, y)) as [Hx Hy] by (by apply (proj1 (Forall_lookup _ _) Hos k)).
  cbn [mbind option_bind fst snd] in *. rewrite mp_object_next by done. cbn [mbind option_bind].
  rewrite mp_object_next by done. cbn [mbind option_bind].
  eexists. split; [done|]. split.
  - unfold TNT_IMAP_PAIR. simpl. by rewrite !between_app.
  - do 4 eexists. cbn [it_type it_status it_alloc im_data im_first im_count]. split; [repeat f_equal; lia|].
    rewrite Nat.add_1_r. exists x, y. done.
Qed.

Lemma map_stop alloc d first k ke v ve n idx st s :
  n - 1 <= idx < INT_MAX -> 0 <= n ->
  tnt_next read_reply (Iter TNT_ITER_MAP st alloc (IMap (IterMap d first k ke v ve n idx))) s
    = Some (0, map_end alloc d first k ke v ve n (idx + 1), s).
Proof.
  intros H Hn. unfold tnt_next. cbn [it_data]. unfold tnt_iter_map_next. cbn [im_index im_count].
  rewrite int_incr_ok by lia. cbn [mbind option_bind]. rewrite index_u32 by lia. by rewrite decide_True by lia.
Qed.

Lemma map_drain alloc d kvs rest s :
  Forall pair_ok kvs -> zlen kvs < INT_MAX ->
  exists k ke v ve, forall i fuel, map_at alloc d kvs rest 0 i -> (length kvs < fuel)%nat ->
    drain read_reply TNT_IMAP_PAIR fuel i s
      = Some (kvs, map_end alloc d (flat kvs ++ rest) k ke v ve (zlen kvs) (zlen kvs), s).
Proof.
  intros Hos Hl.
  assert (exists k ke v ve, forall i, map_at alloc d kvs rest (length kvs) i ->
    i = Iter TNT_ITER_MAP TNT_ITER_OK alloc (IMap (IterMap d (flat kvs ++ rest) k ke v ve (zlen kvs) (zlen kvs - 1))))
    as (k & ke & v & ve & Hlast).
  { destruct (length kvs) as [|m] eqn:E.
    - exists None, None, None, None. intros i (? & ? & ? & ? & -> & -> & -> & -> & ->). unfold zlen. by rewrite E.
    - destruct (lookup_lt_is_Some_2 kvs m) as [[x y] Hm]; [lia|].
      do 4 eexists. intros i (? & ? & ? & ? & -> & x' & y' & Hm' & -> & -> & -> & ->).
      rewrite Hm in Hm'. injection Hm' as <- <-. unfold zlen. by rewrite E. }
  exists k, ke, v, ve. intros i fuel Hi Hf.
  rewrite <- (drop_0 kvs) at 1. apply (drain_steps read_reply TNT_IMAP_PAIR (map_at alloc d kvs rest)); try lia; [| |done].
  - intros j x i' Hj Hx. by apply (map_step alloc d kvs rest).
  - intros j Hj. rewrite (Hlast j Hj). rewrite map_stop by (unfold zlen in *; lia).
    do 4 f_equal. unfold map_end. repeat f_equal; lia.
Qed.

(** Consecutive objects, an even number, are pairs. *)
Lemma pair_up (n : nat) (os : list bytes) :
  length os = (2 * n)%nat -> Forall mp_object os ->
  exists kvs, length kvs = n /\ flat kvs = concat os /\ Forall pair_ok kvs.
Proof.
  revert os; induction n as [|n IH]; intros os Hl Hos.
  - destruct os; [|done]. by exists [].
  - destruct os as [|k [|v os]]; simpl in Hl; try lia.
    apply Forall_cons in Hos as [Hk Hos]. apply Forall_cons in Hos as [Hv Hos].
    destruct (IH os) as (kvs & Hn & Hf & Hp); [lia|done|]. exists ((k, v) :: kvs).
    split; [simpl; lia|]. split; [|by constructor]. unfold flat in *. csimpl. by rewrite Hf, <- app_assoc.
Qed.

(** C14: Map iterators: over any memory that starts with a valid msgpack map
    (shorter than 2^31 - 2 pairs), the [while (tnt_next(it))] loop terminates,
    visits exactly the key-value pairs of the map in order, each a pair of
    valid objects, ends with the status FAIL and stays there; after [tnt_rewind]
    the same pairs are visited again. *)
Theorem iter_map_correct given a d rest n first s :
  mp_check d = Some rest -> mp_typeof_at d = Some MP_MAP -> mp_decode_map d = Some (n, first) ->
  n + 1 < INT_MAX -> given = true \/ a <> Refuse ->
  exists kvs i i' i'', first = flat kvs ++ rest /\ zlen kvs = n /\ Forall pair_ok kvs /\
    tnt_iter_map given a (Some d) = Some (Some i) /\ it_status i = TNT_ITER_OK /\
    (forall fuel, (length kvs < fuel)%nat ->
       drain read_reply TNT_IMAP_PAIR fuel i s = Some (kvs, i', s) /\
       drain read_reply TNT_IMAP_PAIR fuel (tnt_rewind i') s = Some (kvs, i', s)) /\
    it_status i' = TNT_ITER_FAIL /\
    tnt_next read_reply i' s = Some (0, i'', s) /\ it_status i'' = TNT_ITER_FAIL.
Proof.
  intros Hc Ht Hd Hn Ha. destruct (spec_checked_map _ _ Hc Ht) as (n' & p & Hd' & Hn' & _ & Hskip).
  rewrite Hd in Hd'. injection Hd' as <- <-.
  destruct (mp_skip_inv _ _ _ Hskip) as (os & -> & Hlen & Hos).
  destruct (pair_up (Z.to_nat n) os) as (kvs & Hkl & Hfl & Hp); [lia|done|]. rewrite <- Hfl in Hd |- *.
  assert (zlen kvs = n) as Hz by (unfold zlen; lia).
  set (alloc := negb given).
  destruct (map_drain alloc d kvs rest s Hp) as (k & ke & v & ve & Hdr); [lia|].
  exists kvs, (Iter TNT_ITER_MAP TNT_ITER_OK alloc (IMap (IterMap d (flat kvs ++ rest) None None None None n (-1)))),
    (map_end alloc d (flat kvs ++ rest) k ke v ve n n), (map_end alloc d (flat kvs ++ rest) k ke v ve n (n + 1)).
  split; [done|]. split; [done|]. split; [done|]. split; [|split; [done|]].
  - unfold tnt_iter_map. cbn [default from_option id]. rewrite Hc. destruct d as [|b d]; [done|].
    rewrite Ht. cbn [mbind option_bind]. rewrite decide_False by (intros []; done). rewrite Hd.
    unfold alloc. destruct given, a; try done; by destruct Ha.
  - rewrite <- Hz. split; [|split; [done|split; [|done]]].
    + intros fuel Hf. split; apply Hdr; try done; do 4 eexists; (split; [reflexivity|done]).
    + apply map_stop; unfold zlen in *; lia.
Qed.

End containers.

(** ** Replies *)

Section replies.
Context {MP : MsgPuck} {MPS : MsgPuckSpec MP}.
Context {D : Type}.
Implicit Types (s : stream (sbuf D)).

Definition reply_iter (alloc : bool) (r : reply) : iter := Iter TNT_ITER_REPLY TNT_ITER_OK alloc (IReply r).

(** A reply whose buffer [tnt_reply_free] can release. *)
Definition releasable (r : reply) : Prop := r_buf r <> PDangling /\ (forall b, r_buf r <> PUser b).

Lemma releasable_free r : releasable r -> exists x, tnt_reply_free r = Some x.
Proof.
  intros [H1 H2]. unfold tnt_reply_free.
  destruct (r_buf r) as [|b|b|] eqn:E; [by eexists|by eexists| |done]. exfalso. by apply (H2 b).
Qed.

Lemma expected_releasable hs body pl : releasable (expected_reply (owning false pl) hs body).
Proof. by destruct body. Qed.

(** One call of the iterator is one call of the parser on a fresh reply. *)
Lemma reply_next_eq {S} (rr : S -> option reply -> option (Z * S * option reply)) alloc r (s : S) rc (s' : S) r' :
  releasable r -> rr s (Some (zero_reply false)) = Some (rc, s', Some r') ->
  tnt_next rr (reply_iter alloc r) s =
    Some (if decide (rc = -1) then 0 else if decide (rc = 1) then 0 else 1,
          if decide (rc = -1) then Iter TNT_ITER_REPLY TNT_ITER_FAIL alloc (IReply r') else reply_iter alloc r', s').
Proof.
  intros Hr E. destruct (releasable_free r Hr) as [x Ex]. unfold tnt_next, reply_iter. cbn [it_data].
  unfold tnt_iter_reply_next. rewrite Ex. cbn [mbind option_bind].
  change (tnt_reply_init true Refuse) with (Some (zero_reply false)). cbn [mbind option_bind].
  rewrite E. cbn [mbind option_bind]. by case_decide.
Qed.

Lemma reply_drain alloc (l : list server_reply) s pl k :
  unread s (concat (reply_frame <$> l) ++ take k (frame pl)) -> granted s ->
  Forall (fun x => server_reply_ok (fst x) (snd x)) l -> zlen pl < 2 ^ 32 -> (k < length (frame pl))%nat ->
  exists s', unread s' (take k (frame pl)) /\ forall r fuel, releasable r -> (length l < fuel)%nat ->
    drain tnt_buf_reply TNT_IREPLY_PTR fuel (reply_iter alloc r) s =
      Some ((fun x => expected_reply (owning false (reply_payload (fst x) (snd x))) (fst x) (snd x)) <$> l,
            reply_iter alloc (zero_reply false), s').
Proof.
  intros Hu Hg Hl Hpl Hk. revert s Hu Hg. induction Hl as [|[hs body] l Hok _ IH]; intros s Hu Hg; csimpl.
  - exists s. split; [done|]. intros r [|fuel] Hr Hf; [simpl in Hf; lia|]. cbn [drain].
    by rewrite (reply_next_eq tnt_buf_reply alloc r s 1 s (zero_reply false) Hr (buf_reply_partial s _ pl k Hu Hpl Hk)).
  - csimpl in Hu. unfold reply_frame at 1 in Hu. simpl in Hu. rewrite <- app_assoc in Hu.
    destruct (buf_reply_one s (zero_reply false) hs body _ Hu Hok Hg) as (s1 & E & Hg1 & Hu1).
    destruct (IH s1 Hu1 Hg1) as (s' & Hu' & Hdr). exists s'. split; [done|].
    intros r [|fuel] Hr Hf; [simpl in Hf; lia|]. cbn [drain]. rewrite (reply_next_eq _ _ _ _ _ _ _ Hr E).
    rewrite !decide_False by done. cbn [mbind option_bind]. rewrite decide_False by done.
    cbn [TNT_IREPLY_PTR reply_iter it_data mbind option_bind].
    rewrite Hdr; [done|apply expected_releasable|simpl in Hf; lia].
Qed.

(** Every call releases the buffer of the reply the iterator holds: releasing
    twice is undefined, so the call is undefined when that buffer has been freed
    already, whatever the callback does. *)
Lemma reply_next_releases {S} (rr : S -> option reply -> option (Z * S * option reply)) alloc r (s : S) :
  r_buf r = PDangling -> tnt_next rr (reply_iter alloc r) s = None.
Proof. intros E. unfold tnt_next, reply_iter. cbn [it_data]. unfold tnt_iter_reply_next, tnt_reply_free. by rewrite E. Qed.

(** C15: Reply iterators: over a buffer whose unread bytes are a sequence of
    framed server replies followed by an incomplete one, the loop
    [while (tnt_next(it))] visits exactly these replies in order, each in a
    buffer of its own, and stops without the status FAIL, holding no buffer and
    with the incomplete bytes still unread.  Every call of [tnt_next] releases
    the buffer of the reply the iterator holds: it is defined on a live buffer,
    which it does not use otherwise, and undefined (a double free) on a freed
    one, whatever the callback.  On a stream that holds no data at all the loop
    stops at once with the status FAIL. *)
Theorem iter_reply_correct given a (l : list server_reply) s pl k :
  given = true \/ a <> Refuse ->
  unread s (concat (reply_frame <$> l) ++ take k (frame pl)) -> granted s ->
  Forall (fun x => server_reply_ok (fst x) (snd x)) l -> zlen pl < 2 ^ 32 -> (k < length (frame pl))%nat ->
  exists i i' s', tnt_iter_reply given a = Some i /\
    (forall fuel, (length l < fuel)%nat ->
       drain tnt_buf_reply TNT_IREPLY_PTR fuel i s =
         Some ((fun x => expected_reply (owning false (reply_payload (fst x) (snd x))) (fst x) (snd x)) <$> l, i', s')) /\
    it_status i' = TNT_ITER_OK /\ it_data i' = IReply (zero_reply false) /\ unread s' (take k (frame pl)) /\
    (forall (rr : stream (sbuf D) -> option reply -> option (Z * stream (sbuf D) * option reply)) alloc r s0,
       (r_buf r = PDangling -> tnt_next rr (reply_iter alloc r) s0 = None) /\
       (forall b, r_buf r = PHeap b ->
          tnt_next rr (reply_iter alloc r) s0 = tnt_next rr (reply_iter alloc (zero_reply false)) s0)) /\
    (forall s0 sb, st_data s0 = Some sb -> data (sb_core sb) = PNull ->
       exists i0, tnt_next tnt_buf_reply i s0 = Some (0, i0, s0) /\ it_status i0 = TNT_ITER_FAIL).
Proof.
  intros Ha Hu Hg Hl Hpl Hk. set (alloc := negb given).
  destruct (reply_drain alloc l s pl k Hu Hg Hl Hpl Hk) as (s' & Hu' & Hdr).
  exists (reply_iter alloc (zero_reply false)), (reply_iter alloc (zero_reply false)), s'.
  split; [unfold alloc; destruct given, a; try done; by destruct Ha|].
  split; [by intros fuel; apply Hdr|]. split; [done|]. split; [done|]. split; [done|]. split.
  { intros rr al r s0. split; [by apply reply_next_releases|]. intros b Eb.
    unfold tnt_next, reply_iter. cbn [it_data]. unfold tnt_iter_reply_next, tnt_reply_free. by rewrite Eb. }
  intros s0 sb Hs0 Hd. unfold tnt_next, reply_iter. cbn [it_data]. unfold tnt_iter_reply_next. simpl.
  unfold tnt_buf_reply. rewrite Hs0. cbn [mbind option_bind]. rewrite Hd. simpl. eexists. done.
Qed.

End replies.

(** ** The theorems at work *)

Definition no_replies : unit -> option reply -> option (Z * unit * option reply) := fun _ _ => None.

Definition sample_array : bytes := [0x93; 1; 0xa1; 97; 0x91; 5; 7].
Definition sample_map : bytes := [0x81; 1; 0xa1; 97; 7].

Lemma sample_array_ok :
  mp_check (MsgPuck := RefPuck) sample_array = Some [7] /\
  mp_typeof_at (MP := RefPuck) sample_array = Some MP_ARRAY /\
  mp_decode_array (MsgPuck := RefPuck) sample_array = Some (3, [1; 0xa1; 97; 0x91; 5; 7]) /\ 3 + 1 < INT_MAX.
Proof. vm_compute. done. Qed.

Lemma sample_map_ok :
  mp_check (MsgPuck := RefPuck) sample_map = Some [7] /\
  mp_typeof_at (MP := RefPuck) sample_map = Some MP_MAP /\
  mp_decode_map (MsgPuck := RefPuck) sample_map = Some (1, [1; 0xa1; 97; 7]) /\ 1 + 1 < INT_MAX.
Proof. vm_compute. done. Qed.

Lemma iter_array_correct_witness :
  exists os i i', tnt_iter_array (MP := RefPuck) false (Grant []) (Some sample_array) = Some (Some i) /\
    drain (MP := RefPuck) no_replies TNT_IARRAY_ELEM 4 i tt = Some (os, i', tt) /\
    drain (MP := RefPuck) no_replies TNT_IARRAY_ELEM 4 (tnt_rewind i') tt = Some (os, i', tt) /\
    concat os = [1; 0xa1; 97; 0x91; 5] /\ length os = 3%nat.
Proof.
  destruct sample_array_ok as (Hc & Ht & Hdec & Hn).
  destruct (iter_array_correct (MP := RefPuck) no_replies false (Grant []) _ _ _ _ tt Hc Ht Hdec Hn)
    as (os & i & i' & i'' & Hf & Hl & _ & Ei & _ & Hd & _); [right; discriminate|].
  assert (length os = 3%nat) as L by (unfold zlen in Hl; lia).
  exists os, i, i'. split; [exact Ei|]. destruct (Hd 4%nat) as [H1 H2]; [lia|].
  split; [exact H1|]. split; [exact H2|]. split; [|exact L].
  change [1; 0xa1; 97; 0x91; 5; 7] with ([1; 0xa1; 97; 0x91; 5] ++ [7]) in Hf.
  symmetry. exact (app_inv_tail _ _ _ Hf).
Defined.

Lemma iter_map_correct_witness :
  exists kvs i i', tnt_iter_map (MP := RefPuck) true Refuse (Some sample_map) = Some (Some i) /\
    drain (MP := RefPuck) no_replies TNT_IMAP_PAIR 2 i tt = Some (kvs, i', tt) /\
    drain (MP := RefPuck) no_replies TNT_IMAP_PAIR 2 (tnt_rewind i') tt = Some (kvs, i', tt) /\
    flat kvs = [1; 0xa1; 97] /\ length kvs = 1%nat.
Proof.
  destruct sample_map_ok as (Hc & Ht & Hdec & Hn).
  destruct (iter_map_correct (MP := RefPuck) no_replies true Refuse _ _ _ _ tt Hc Ht Hdec Hn)
    as (kvs & i & i' & i'' & Hf & Hl & _ & Ei & _ & Hd & _); [left; reflexivity|].
  assert (length kvs = 1%nat) as L by (unfold zlen in Hl; lia).
  exists kvs, i, i'. split; [exact Ei|]. destruct (Hd 2%nat) as [H1 H2]; [lia|].
  split; [exact H1|]. split; [exact H2|]. split; [|exact L].
  change [1; 0xa1; 97; 7] with ([1; 0xa1; 97] ++ [7]) in Hf.
  symmetry. exact (app_inv_tail _ _ _ Hf).
Defined.

Lemma iter_reply_correct_witness :
  exists i i' s', tnt_iter_reply true Refuse = Some i /\
    drain (MP := RefPuck) (tnt_buf_reply (MP := RefPuck)) TNT_IREPLY_PTR 3 i sample_input =
      Some (let r := Reply false (2 ^ 48 + 3) (PHeap sample_payload) 9 0 3 0 None (Some [0x91; 7]) None None in
            [r; r], i', s') /\
    it_status i' = TNT_ITER_OK /\ unread s' [0xce; 0; 0; 0].
Proof.
  pose proof (iter_reply_correct (MP := RefPuck) true Refuse [sample_reply; sample_reply] sample_input sample_payload 4
    (or_introl eq_refl) sample_input_unread sample_input_granted sample_replies_ok
    (proj1 sample_payload_len) (proj2 sample_payload_len)) as H.
  destruct H as (i & i' & s' & Ei & Hd & Hst & _ & Hu & _).
  exists i, i', s'. split; [exact Ei|]. split; [|split; [exact Hst|exact Hu]].
  apply (Hd 3%nat). simpl. lia.
Defined.
