(* ===== verification/Format.v ===== *)
(** * Objects from format strings: tnt_object_vformat (tnt/tnt_object.c)

    The format string is the memory from the pointer on, a [va_list] the list
    of the arguments that are left.  Reading an argument with another type than
    it was passed with is undefined, but for a non-negative value that fits
    both the signed and the unsigned type; a failed [assert] is undefined as
    well.  The setters of tnt_request.c that take a format string follow. *)

From S2P Require Import Prelude Msgpuck MsgpuckRef Mem Stream Buf Proto Object Request.

(** An argument after the default promotions.  Pointers are the memory they
    point to; doubles are their IEEE-754 bit patterns. *)
Inductive va_value :=
  | VaInt (v : Z) | VaUint (v : Z) | VaLong (v : Z) | VaUlong (v : Z)
  | VaLlong (v : Z) | VaUllong (v : Z) | VaPtr (mem : bytes) | VaDouble (bits : Z).

Definition va_list := list va_value.

(** [va_arg(vl, int)] and so on. *)
Definition va_int (vl : va_list) : option (Z * va_list) :=
  match vl with
  | VaInt v :: vl => Some (v, vl)
  | VaUint v :: vl => if decide (v < 2 ^ 31) then Some (v, vl) else None
  | _ => None
  end.
Definition va_uint (vl : va_list) : option (Z * va_list) :=
  match vl with
  | VaUint v :: vl => Some (v, vl)
  | VaInt v :: vl => if decide (0 <= v) then Some (v, vl) else None
  | _ => None
  end.
Definition va_long (vl : va_list) : option (Z * va_list) :=
  match vl with
  | VaLong v :: vl => Some (v, vl)
  | VaUlong v :: vl => if decide (v < 2 ^ 63) then Some (v, vl) else None
  | _ => None
  end.
Definition va_ulong (vl : va_list) : option (Z * va_list) :=
  match vl with
  | VaUlong v :: vl => Some (v, vl)
  | VaLong v :: vl => if decide (0 <= v) then Some (v, vl) else None
  | _ => None
  end.
Definition va_llong (vl : va_list) : option (Z * va_list) :=
  match vl with
  | VaLlong v :: vl => Some (v, vl)
  | VaUllong v :: vl => if decide (v < 2 ^ 63) then Some (v, vl) else None
  | _ => None
  end.
Definition va_ullong (vl : va_list) : option (Z * va_list) :=
  match vl with
  | VaUllong v :: vl => Some (v, vl)
  | VaLlong v :: vl => if decide (0 <= v) then Some (v, vl) else None
  | _ => None
  end.
Definition va_ptr (vl : va_list) : option (bytes * va_list) :=
  match vl with VaPtr m :: vl => Some (m, vl) | _ => None end.
Definition va_double (vl : va_list) : option (Z * va_list) :=
  match vl with VaDouble b :: vl => Some (b, vl) | _ => None end.

(** The characters of the format language. *)
Definition chr_percent : Z := 37.
Definition chr_star : Z := 42.
Definition chr_dot : Z := 46.
Definition chr_I : Z := 73.
Definition chr_L : Z := 76.
Definition chr_N : Z := 78.
Definition chr_lbracket : Z := 91.
Definition chr_rbracket : Z := 93.
Definition chr_b : Z := 98.
Definition chr_d : Z := 100.
Definition chr_f : Z := 102.
Definition chr_h : Z := 104.
Definition chr_i : Z := 105.
Definition chr_l : Z := 108.
Definition chr_s : Z := 115.
Definition chr_u : Z := 117.
Definition chr_lbrace : Z := 123.
Definition chr_rbrace : Z := 125.

(** [f\[k\] == c] *)
Definition is_chr (f : bytes) (k : nat) (c : Z) : bool :=
  match f !! k with Some x => x =? c | None => false end.

Section format.
Context {MP : MsgPuck}.

(** [(float)v]: the rounding of the C implementation, on bit patterns. *)
Variable float_of_double : Z -> Z.

(** [if (int_status == 1) ... else if (int_status == 2) ...] *)
Definition put_int (s : object) (int_status : Z) (int_value : Z) : option (Z * object) :=
  if decide (int_status = 1) then tnt_object_add_int s int_value
  else if decide (int_status = 2) then tnt_object_add_uint s (u64 int_value)
  else Some (0, s).

(** The conversion at [f], after the [%]: the call, the arguments left, and how
    far [f] moves inside the conversion. *)
Definition conversion (f : bytes) (vl : va_list) (s : object)
    : option (option (Z * object) * va_list * nat) :=
  if is_chr f 0 chr_d || is_chr f 0 chr_i then
    '(v, vl) ← va_int vl; Some (put_int s 1 v, vl, 0%nat)
  else if is_chr f 0 chr_u then
    '(v, vl) ← va_uint vl; Some (put_int s 2 v, vl, 0%nat)
  else if is_chr f 0 chr_s then
    '(str, vl) ← va_ptr vl; len ← strlen str;
    Some (tnt_object_add_str s str (u32 (Z.of_nat len)), vl, 0%nat)
  else if is_chr f 0 chr_dot && is_chr f 1 chr_star && is_chr f 2 chr_s then
    '(len, vl) ← va_uint vl; '(str, vl) ← va_ptr vl;
    Some (tnt_object_add_str s str len, vl, 2%nat)
  else if is_chr f 0 chr_f then
    '(v, vl) ← va_double vl; Some (tnt_object_add_float s (float_of_double v), vl, 0%nat)
  else if is_chr f 0 chr_l && is_chr f 1 chr_f then
    '(v, vl) ← va_double vl; Some (tnt_object_add_double s v, vl, 1%nat)
  else if is_chr f 0 chr_b then
    '(v, vl) ← va_int vl; Some (tnt_object_add_bool s (if decide (v = 0) then 0 else 1), vl, 0%nat)
  else if is_chr f 0 chr_l && (is_chr f 1 chr_d || is_chr f 1 chr_i) then
    '(v, vl) ← va_long vl; Some (put_int s 1 v, vl, 1%nat)
  else if is_chr f 0 chr_l && is_chr f 1 chr_u then
    '(v, vl) ← va_ulong vl; Some (put_int s 2 (s64 v), vl, 1%nat)
  else if is_chr f 0 chr_l && is_chr f 1 chr_l && (is_chr f 2 chr_d || is_chr f 2 chr_i) then
    '(v, vl) ← va_llong vl; Some (put_int s 1 v, vl, 2%nat)
  else if is_chr f 0 chr_l && is_chr f 1 chr_l && is_chr f 2 chr_u then
    '(v, vl) ← va_ullong vl; Some (put_int s 2 (s64 v), vl, 2%nat)
  else if is_chr f 0 chr_h && (is_chr f 1 chr_d || is_chr f 1 chr_i) then
    '(v, vl) ← va_int vl; Some (put_int s 1 v, vl, 1%nat)
  else if is_chr f 0 chr_h && is_chr f 1 chr_u then
    '(v, vl) ← va_uint vl; Some (put_int s 2 v, vl, 1%nat)
  else if is_chr f 0 chr_h && is_chr f 1 chr_h && (is_chr f 2 chr_d || is_chr f 2 chr_i) then
    '(v, vl) ← va_int vl; Some (put_int s 1 v, vl, 2%nat)
  else if is_chr f 0 chr_h && is_chr f 1 chr_h && is_chr f 2 chr_u then
    '(v, vl) ← va_uint vl; Some (put_int s 2 v, vl, 2%nat)
  else if is_chr f 0 chr_percent then Some (Some (0, s), vl, 0%nat)
  else None.

(** The [for] loop; every round advances [f], so its length is enough fuel. *)
Fixpoint vformat_loop (fuel : nat) (f : bytes) (vl : va_list) (s : object) (result : Z)
    : option (Z * object) :=
  match fuel, f with
  | O, _ | _, [] => None
  | S fuel, c :: f' =>
      (* [if ((rv = call) == -1) return -1; result += rv;] and the rest *)
      let continue (call : option (Z * object)) (vl : va_list) (f : bytes) :=
        '(rv, s) ← call;
        if decide (rv = -1) then Some (-1, s) else vformat_loop fuel f vl s (result + rv) in
      if decide (c = 0) then Some (result, s)
      else if is_chr f 0 chr_lbracket then continue (tnt_object_add_array s 0) vl f'
      else if is_chr f 0 chr_lbrace then continue (tnt_object_add_map s 0) vl f'
      else if is_chr f 0 chr_rbracket || is_chr f 0 chr_rbrace then
        continue (tnt_object_container_close s) vl f'
      else if is_chr f 0 chr_percent then
        '(call, vl, n) ← conversion f' vl s; continue call vl (drop (1 + n) f')
      else if is_chr f 0 chr_N && is_chr f 1 chr_I && is_chr f 2 chr_L then
        continue (tnt_object_add_nil s) vl (drop 2 f')
      else vformat_loop fuel f' vl s result
  end.

Definition tnt_object_vformat (s : object) (fmt : bytes) (vl : va_list) : option (Z * object) :=
  '(rc, s) ← tnt_object_type s TNT_SBO_PACKED;
  if decide (rc = -1) then Some (-1, s) else vformat_loop (S (length fmt)) fmt vl s 0.

Definition tnt_object_format := tnt_object_vformat.

(** [if (obj) tnt_object_reset(obj); else obj = tnt_object(NULL);] *)
Definition reuse_object (o : option object) (m : malloc_state) : option (option object) :=
  match o with
  | Some o => '(_, o) ← tnt_object_reset o; Some (Some o)
  | None => tnt_object false m
  end.

Definition tnt_request_set_key_format (req : request) (fmt : bytes) (args : va_list) (m : malloc_state)
    : option (Z * request) :=
  o ← reuse_object (key_object req) m;
  match o with
  | None => Some (-1, set_objects None (tuple_object req) req)
  | Some o =>
      '(res, o) ← tnt_object_vformat o fmt args;
      let req := set_objects (Some o) (tuple_object req) req in
      if decide (res = -1) then Some (-1, req) else tnt_request_set_key req o
  end.

Definition tnt_request_set_tuple_format (req : request) (fmt : bytes) (args : va_list) (m : malloc_state)
    : option (Z * request) :=
  o ← reuse_object (tuple_object req) m;
  match o with
  | None => Some (-1, set_objects (key_object req) None req)
  | Some o =>
      '(res, o) ← tnt_object_vformat o fmt args;
      let req := set_objects (key_object req) (Some o) req in
      if decide (res = -1) then Some (-1, req) else tnt_request_set_tuple req o
  end.

End format.
