(* ===== verification/FormatSpec.v ===== *)
(** * Correctness of tnt_object_vformat

    A format tree is a tree of values together with the way the client spells
    it: the conversion of every leaf, the arguments in memory, and ignored
    characters between the items.  Formatting its text with its arguments
    builds the packed encoding of the tree. *)

From S2P Require Import Prelude Msgpuck MsgpuckRef Mem Stream Buf Proto Object ObjectSpec.
From S2P Require Import Request RequestSpec CommandsSpec UpdateSpec Format.

Inductive width := WChar | WShort | WInt | WLong | WLlong.

(** The value of a leaf as it is passed. *)
Inductive fleaf :=
  | FSigned (w : width) (alt : bool) (v : Z)    (** [alt]: [%i] for [%d] *)
  | FUnsigned (w : width) (v : Z)
  | FStrZ (s tail : bytes)                      (** [%s]; [tail] follows the final NUL *)
  | FStrN (s tail : bytes)                      (** [%.*s] *)
  | FFloat (bits : Z) | FDouble (bits : Z) | FBool (v : Z) | FNil.

(** Ignored text: single characters and [%%]. *)
Inductive junk := JChar (c : Z) | JPercent.

Inductive ftree :=
  | FLeaf (j : list junk) (l : fleaf)
  | FNode (j : list junk) (map : bool) (ts : list ftree) (jend : list junk).

Lemma ftree_ind' (P : ftree -> Prop) :
  (forall j l, P (FLeaf j l)) -> (forall j map ts je, Forall P ts -> P (FNode j map ts je)) -> forall t, P t.
Proof.
  intros HL HN. fix IH 1. intros [j l|j map ts je]; [apply HL|]. apply HN.
  induction ts as [|t ts IHts]; constructor; auto.
Qed.

(** ** Text and arguments *)

Definition width_text (w : width) : bytes :=
  match w with
  | WChar => [chr_h; chr_h] | WShort => [chr_h] | WInt => [] | WLong => [chr_l] | WLlong => [chr_l; chr_l]
  end.

Definition fleaf_text (l : fleaf) : bytes :=
  match l with
  | FSigned w alt _ => chr_percent :: width_text w ++ [if alt then chr_i else chr_d]
  | FUnsigned w _ => chr_percent :: width_text w ++ [chr_u]
  | FStrZ _ _ => [chr_percent; chr_s]
  | FStrN _ _ => [chr_percent; chr_dot; chr_star; chr_s]
  | FFloat _ => [chr_percent; chr_f]
  | FDouble _ => [chr_percent; chr_l; chr_f]
  | FBool _ => [chr_percent; chr_b]
  | FNil => [chr_N; chr_I; chr_L]
  end.

Definition fleaf_args (l : fleaf) : va_list :=
  match l with
  | FSigned (WChar | WShort | WInt) _ v => [VaInt v]
  | FSigned WLong _ v => [VaLong v]
  | FSigned WLlong _ v => [VaLlong v]
  | FUnsigned (WChar | WShort | WInt) v => [VaUint v]
  | FUnsigned WLong v => [VaUlong v]
  | FUnsigned WLlong v => [VaUllong v]
  | FStrZ s tail => [VaPtr (s ++ 0 :: tail)]
  | FStrN s tail => [VaUint (zlen s); VaPtr (s ++ tail)]
  | FFloat v | FDouble v => [VaDouble v]
  | FBool v => [VaInt v]
  | FNil => []
  end.

Definition junk_text (j : junk) : bytes := match j with JChar c => [c] | JPercent => [chr_percent; chr_percent] end.
Definition junks_text (js : list junk) : bytes := concat (junk_text <$> js).

Definition open_chr (map : bool) : Z := if map then chr_lbrace else chr_lbracket.
Definition close_chr (map : bool) : Z := if map then chr_rbrace else chr_rbracket.

Fixpoint ftree_text (t : ftree) : bytes :=
  match t with
  | FLeaf j l => junks_text j ++ fleaf_text l
  | FNode j map ts je =>
      junks_text j ++ open_chr map :: concat (ftree_text <$> ts) ++ junks_text je ++ [close_chr map]
  end.

Fixpoint ftree_args (t : ftree) : va_list :=
  match t with
  | FLeaf _ l => fleaf_args l
  | FNode _ _ ts _ => concat (ftree_args <$> ts)
  end.

(** ** Meaning *)

Section spec.
Context {MP : MsgPuck} {MPS : MsgPuckSpec MP}.
Variable float_of_double : Z -> Z.

Definition fleaf_value (l : fleaf) : leaf :=
  match l with
  | FSigned _ _ v => LInt v
  | FUnsigned _ v => LUint v
  | FStrZ s _ | FStrN s _ => LStr s
  | FFloat v => LFloat (float_of_double v)
  | FDouble v => LDouble v
  | FBool v => LBool (bool_decide (v <> 0))
  | FNil => LNil
  end.

Fixpoint ftree_value (t : ftree) : tree :=
  match t with
  | FLeaf _ l => Leaf (fleaf_value l)
  | FNode _ map ts _ => Node map (ftree_value <$> ts)
  end.

(** The C types of the arguments; an [int] and a [long] of 4 and 8 bytes. *)
Definition fleaf_ok (l : fleaf) : Prop :=
  match l with
  | FSigned (WChar | WShort | WInt) _ v => - 2 ^ 31 <= v < 2 ^ 31
  | FSigned _ _ v => - 2 ^ 63 <= v < 2 ^ 63
  | FUnsigned (WChar | WShort | WInt) v => 0 <= v < 2 ^ 32
  | FUnsigned _ v => 0 <= v < 2 ^ 64
  | FStrZ s _ => zlen s < 2 ^ 32 /\ Forall (fun b => b <> 0) s
  | FStrN s _ => zlen s < 2 ^ 32
  | _ => True
  end.

(** An ignored character starts no item. *)
Definition junk_ok (j : junk) : Prop :=
  match j with
  | JChar c => c ∉ [0; chr_percent; chr_N; chr_lbracket; chr_rbracket; chr_lbrace; chr_rbrace]
  | JPercent => True
  end.

Fixpoint ftree_ok (t : ftree) : Prop :=
  match t with
  | FLeaf j l => Forall junk_ok j /\ fleaf_ok l
  | FNode j map ts je =>
      Forall junk_ok j /\ Forall junk_ok je /\ zlen ts < 2 ^ 32 /\ (map = true -> zlen ts mod 2 = 0) /\
      (fix go ts := match ts with [] => True | t :: ts => ftree_ok t /\ go ts end) ts
  end.

Lemma ftree_ok_children j map ts je t : ftree_ok (FNode j map ts je) -> t ∈ ts -> ftree_ok t.
Proof.
  intros (_ & _ & _ & _ & H) Ht. induction ts as [|t' ts IH]; [by apply elem_of_nil in Ht|].
  destruct H. apply elem_of_cons in Ht as [->|]; auto.
Qed.

Lemma fleaf_value_ok l : fleaf_ok l -> leaf_ok (fleaf_value l).
Proof. destruct l as [w ? ?|w ?| | | | | |]; try destruct w; simpl; intuition lia. Qed.

Lemma ftree_value_ok t : ftree_ok t -> tree_ok (ftree_value t).
Proof.
  induction t as [j l|j map ts je IH] using ftree_ind'; intros Hok; [by apply fleaf_value_ok, Hok|].
  pose proof Hok as (_ & _ & Hl & He & _). simpl. unfold zlen in *. rewrite length_fmap. split; [done|].
  split; [done|]. assert (forall t, t ∈ ts -> ftree_ok t) as Hc by (intros t; by eapply ftree_ok_children).
  clear Hok Hl He. induction ts as [|t ts IHts]; csimpl; [done|]. apply Forall_cons in IH as [IHt IH].
  split; [apply IHt, Hc; set_solver|]. apply IHts; [done|]. intros t' Ht'. apply Hc. set_solver.
Qed.

(** ** One conversion *)

Lemma strN_prefix s str tail :
  tnt_object_add_str s (str ++ tail) (zlen str) = tnt_object_add_str s str (zlen str).
Proof.
  unfold tnt_object_add_str. destruct (counted s) as [s1|]; [|done]. simpl.
  destruct (local 6 (mp_encode_strl (zlen str))); [|done]. simpl. rewrite slice_all.
  unfold zlen. rewrite Nat2Z.id. unfold slice. rewrite decide_True by len. simpl.
  by rewrite drop_0, take_app_length.
Qed.

Lemma u64_s64 v : 0 <= v < 2 ^ 64 -> u64 (s64 v) = v.
Proof.
  intros H. unfold u64, s64. rewrite Zminus_mod_idemp_l.
  replace (v + 2 ^ 63 - 2 ^ 63) with v by lia. apply Z.mod_small. lia.
Qed.

(** The conversion of a leaf is the call that adds it. *)
Lemma fleaf_conversion l f rest vl s :
  fleaf_ok l -> fleaf_text l = chr_percent :: f ->
  conversion float_of_double (f ++ rest) (fleaf_args l ++ vl) s
    = Some (add_leaf s (fleaf_value l), vl, (length f - 1)%nat).
Proof.
  intros Hok Hf. destruct l as [w alt v|w v|str tail|str tail|v|v|v|]; try destruct w; try destruct alt;
    simpl in Hok; try discriminate Hf; apply (f_equal (@tl Z)) in Hf; simpl in Hf; subst f; cbn -[u64 s64 u32 Z.pow]; unfold put_int; simpl.
  all: try done.
  1-5: by rewrite ?u64_s64, ?u64_small by lia.
  - destruct Hok as [Hl Hz]. rewrite strlen_app by done. simpl. rewrite u32_small by len.
    by rewrite strN_prefix.
  - by rewrite strN_prefix.
  - repeat f_equal. destruct (decide (v = 0)) as [->|Hne]; [done|]. by rewrite bool_decide_eq_true_2.
Qed.

(** ** The loop *)

(** The loop at [text] with [args] either ends with -1, which a granting
    allocator excludes, or goes on behind them with the abstract object [a']. *)
Definition formats (s : object) (text : bytes) (args : va_list) (a' : abs) : Prop :=
  forall rest vl fuel res, 0 <= res -> (length (text ++ rest) < fuel)%nat ->
  exists s' fuel' res', side s s' /\
    ((vformat_loop float_of_double fuel (text ++ rest) (args ++ vl) s res = Some (-1, s') /\ ~ granted s) \/
     (repr s' a' /\ 0 <= res' /\ (length rest < fuel')%nat /\
      vformat_loop float_of_double fuel (text ++ rest) (args ++ vl) s res
        = vformat_loop float_of_double fuel' rest vl s' res')).

Lemma formats_nil s a : repr s a -> formats s [] [] a.
Proof. intros H rest vl fuel res Hr Hf. exists s, fuel, res. split; [done|]. by right. Qed.

Lemma formats_app s t1 g1 a1 t2 g2 a2 :
  formats s t1 g1 a1 -> (forall s1, side s s1 -> repr s1 a1 -> formats s1 t2 g2 a2) ->
  formats s (t1 ++ t2) (g1 ++ g2) a2.
Proof.
  intros H1 H2 rest vl fuel res Hr Hf. rewrite <- !app_assoc in *.
  destruct (H1 (t2 ++ rest) (g2 ++ vl) fuel res Hr Hf) as (s1 & f1 & r1 & Hs1 & [[E Hg]|(Ha & Hr1 & Hf1 & E)]).
  - exists s1, f1, r1. split; [done|]. left. done.
  - destruct (H2 s1 Hs1 Ha rest vl f1 r1 Hr1 Hf1) as (s2 & f2 & r2 & Hs2 & [[E2 Hg2]|(Ha2 & Hr2 & Hf2 & E2)]);
      exists s2, f2, r2; (split; [by etrans|]); [left|right]; rewrite E.
    + split; [done|]. intros Hg. by apply Hg2, Hs1.
    + done.
Qed.

(** One round of the loop that makes a call. *)
Lemma formats_call s text args call res_ok a' :
  text <> [] ->
  (forall rest vl fuel res, vformat_loop float_of_double (S fuel) (text ++ rest) (args ++ vl) s res =
     '(rv, s) ← call; if decide (rv = -1) then Some (-1, s) else
     vformat_loop float_of_double fuel rest vl s (res + rv)) ->
  (forall z, res_ok z -> 0 <= z) -> refines s call res_ok a' -> formats s text args a'.
Proof.
  intros Hne Heq Hpos (z & s' & -> & Hs & Hg & Hz) rest vl [|fuel] res Hr Hf; [lia|].
  exists s', fuel, (res + z). split; [done|]. rewrite Heq. simpl.
  destruct (decide (z = -1)) as [->|Hz1].
  - left. split; [done|]. intros Hgr. by apply (Hg Hgr).
  - right. destruct Hz as [?|(Hres & _ & Ha)]; [done|]. specialize (Hpos z Hres).
    split; [done|]. split; [lia|]. split; [|done]. destruct text; [done|]. len.
Qed.

(** A round that only moves on. *)
Lemma formats_skip s text a :
  text <> [] -> repr s a ->
  (forall rest vl fuel res, vformat_loop float_of_double (S fuel) (text ++ rest) vl s res =
     vformat_loop float_of_double fuel rest vl s res) -> formats s text [] a.
Proof.
  intros Hne H Heq rest vl [|fuel] res Hr Hf; [lia|].
  exists s, fuel, res. split; [done|]. right. split; [done|]. split; [done|].
  split; [destruct text; [done|]; len|]. apply Heq.
Qed.

Lemma formats_junk s a j : repr s a -> junk_ok j -> formats s (junk_text j) [] a.
Proof.
  intros H Hj. destruct j as [c|]; simpl.
  - apply formats_skip; [done|done|]. intros rest vl fuel res. simpl in Hj |- *.
    rewrite !not_elem_of_cons in Hj. destruct Hj as (H0 & H1 & H2 & H3 & H4 & H5 & H6 & _).
    rewrite decide_False by done. unfold is_chr. simpl.
    by rewrite !(proj2 (Z.eqb_neq c _)) by done.
  - apply (formats_call s _ [] (Some (0, s)) (fun z => z = 0) a); [done| |by intros ? ->|by apply refines_ret].
    intros rest vl fuel res. done.
Qed.

Lemma formats_junks s a js : repr s a -> Forall junk_ok js -> formats s (junks_text js) [] a.
Proof.
  intros H Hjs. revert s H. induction Hjs as [|j js Hj _ IH]; intros s H; [by apply formats_nil|].
  unfold junks_text. csimpl. change ([] : va_list) with ([] ++ [] : va_list).
  apply (formats_app s _ _ a); [by apply formats_junk|]. intros s1 _ H1. by apply IH.
Qed.

Lemma fleaf_text_cases l : (exists f, fleaf_text l = chr_percent :: f) \/ l = FNil.
Proof. destruct l; simpl; eauto. Qed.

Lemma formats_leaf s a l :
  repr s a -> fleaf_ok l ->
  formats s (fleaf_text l) (fleaf_args l) (a_add (leaf_bytes (fleaf_value l)) a).
Proof.
  intros H Hok. pose proof (leaf_repr s a _ H (fleaf_value_ok l Hok)) as Hr.
  apply (formats_call s _ _ (add_leaf s (fleaf_value l))
    (fun z => z = zlen (leaf_bytes (fleaf_value l)))); [by destruct l| |by intros ? ->; len|done].
  intros rest vl fuel res. destruct (fleaf_text_cases l) as [[f Ef]| ->]; [|done].
  assert (length f <> 0)%nat as Hf by (apply (f_equal (@length Z)) in Ef; destruct l as [w ? ?|w ?| | | | | |]; try destruct w; simpl in Ef; lia).
  rewrite Ef. cbn [app vformat_loop]. rewrite decide_False by done.
  unfold is_chr at 1 2 3 4 5. simpl lookup.
  cbv [chr_percent chr_lbracket chr_lbrace chr_rbracket chr_rbrace Z.eqb Pos.eqb orb].
  rewrite (fleaf_conversion l f rest vl s Hok Ef). cbn [mbind option_bind].
  replace (1 + (length f - 1))%nat with (length f) by lia. by rewrite drop_app_length.
Qed.

(** In the packed mode the size given to the opening call does not matter. *)
Lemma open_formats s a (map : bool) :
  repr s a -> (length (a_open a) < a_cap a)%nat -> a_mode a = TNT_SBO_PACKED ->
  formats s [open_chr map] [] (a_start map 0 a).
Proof.
  intros H Hl Hm. pose proof (start_repr s a map 0 H Hl ltac:(lia)) as Hr.
  eapply formats_call; [done| | |exact Hr]; [|by intros ? ->; len]. intros. by destruct map.
Qed.

Lemma close_formats s a' (map : bool) :
  refines s (tnt_object_container_close s) (fun z => z = 0) a' -> formats s [close_chr map] [] a'.
Proof.
  intros Hr. eapply formats_call; [done| | |exact Hr]; [|by intros ? ->]. intros. by destruct map.
Qed.

Lemma formats_all (ts : list ftree) k cap :
  (forall t, t ∈ ts -> forall s a, repr s a -> room k cap TNT_SBO_PACKED a ->
     formats s (ftree_text t) (ftree_args t) (a_add (tree_bytes TNT_SBO_PACKED (ftree_value t)) a)) ->
  forall s a, repr s a -> room k cap TNT_SBO_PACKED a ->
  formats s (concat (ftree_text <$> ts)) (concat (ftree_args <$> ts))
    (Abs (a_bytes a ++ concat (tree_bytes TNT_SBO_PACKED <$> (ftree_value <$> ts)))
         (bumps (length ts) (a_open a)) (a_cap a) (a_mode a)).
Proof.
  induction ts as [|t ts IH]; intros Hf s a H Hroom; csimpl.
  - rewrite app_nil_r. destruct a. by apply formats_nil.
  - eapply formats_app; [apply Hf; [set_solver|done|done]|].
    intros s1 _ H1.
    replace (a_bytes a ++ tree_bytes TNT_SBO_PACKED (ftree_value t) ++ concat (tree_bytes TNT_SBO_PACKED <$> (ftree_value <$> ts)))
      with (a_bytes (a_add (tree_bytes TNT_SBO_PACKED (ftree_value t)) a) ++ concat (tree_bytes TNT_SBO_PACKED <$> (ftree_value <$> ts)))
      by (simpl; by rewrite <- app_assoc).
    change (bump (bumps (length ts) (a_open a))) with (bumps (S (length ts)) (a_open a)). rewrite <- bumps_S.
    apply (IH ltac:(intros; apply Hf; set_solver) s1 _ H1).
    unfold room in *. simpl. unfold bump. by rewrite length_alter.
Qed.

Lemma formats_tree t :
  ftree_ok t -> forall s a, repr s a -> a_mode a = TNT_SBO_PACKED ->
  (length (a_open a) + tree_depth (ftree_value t) <= a_cap a)%nat ->
  formats s (ftree_text t) (ftree_args t) (a_add (tree_bytes TNT_SBO_PACKED (ftree_value t)) a).
Proof.
  induction t as [j l|j map ts je IH] using ftree_ind'; intros Hok s a H Hm Hd.
  - destruct Hok as [Hj Hl]. change (ftree_args (FLeaf j l)) with ([] ++ fleaf_args l).
    eapply formats_app; [by apply formats_junks|]. intros s1 _ H1. by apply formats_leaf.
  - pose proof Hok as (Hj & Hje & Hlen & Heven & _). simpl in Hd.
    assert (length (bump (a_open a)) = length (a_open a)) as Eb by (unfold bump; by rewrite length_alter).
    cbn [ftree_text ftree_args ftree_value tree_bytes].
    change (open_chr map :: ?x) with ([open_chr map] ++ x).
    rewrite <- (app_nil_l (concat (ftree_args <$> ts))). eapply formats_app; [by apply formats_junks|].
    intros s1 _ H1. rewrite <- (app_nil_l (concat (ftree_args <$> ts))).
    eapply formats_app; [apply (open_formats s1 a map H1); [lia|done]|]. intros s2 _ H2.
    rewrite <- (app_nil_r (concat (ftree_args <$> ts))). eapply formats_app.
    { apply (formats_all ts (list_max (tree_depth <$> (ftree_value <$> ts))) (a_cap a)); [|exact H2|].
      - intros t Ht s' a' H' (Hl' & Ec & Em). rewrite Forall_forall in IH. apply IH; try done.
        + by eapply ftree_ok_children.
        + pose proof (tree_depth_children (ftree_value <$> ts) (ftree_value t)) as Hlt. rewrite Ec.
          eapply Nat.le_trans; [apply Nat.add_le_mono_l, Hlt | exact Hl']. by apply list_elem_of_fmap_2.
      - split; [|done]. simpl. rewrite length_app, Eb. simpl. lia. }
    intros s3 _ H3.
    eapply (formats_app s3 (junks_text je) [] _ [close_chr map] []); [by apply formats_junks|]. intros s4 _ H4. apply close_formats.
    simpl in H4. rewrite bumps_last in H4 by len. rewrite Z.add_0_l, <- app_assoc in H4. rewrite Hm in H4.
    assert (zlen (ftree_value <$> ts) = zlen ts) as El by (unfold zlen; by rewrite length_fmap).
    change (Z.of_nat (length ts)) with (zlen ts) in H4. rewrite <- El in *.
    pose proof (close_node_repr map (ftree_value <$> ts) s4 (a_bytes a)
      (concat (tree_bytes TNT_SBO_PACKED <$> (ftree_value <$> ts))) (bump (a_open a)) (a_cap a) TNT_SBO_PACKED) as Hc.
    unfold a_add. cbn [a_bytes a_open a_cap a_mode]. rewrite Hm. apply Hc; [lia|done|].
    destruct map; exact H4.
Qed.

(** ** Whole format strings *)

(** The memory of a format string. *)
Definition format_text (t : ftree) (trail : list junk) (tail : bytes) : bytes :=
  ftree_text t ++ junks_text trail ++ 0 :: tail.

Lemma vformat_spec s t trail tail cap mode :
  st_wrcnt s = 0 -> repr s (Abs [] [] cap mode) ->
  ftree_ok t -> Forall junk_ok trail -> (tree_depth (ftree_value t) <= cap)%nat ->
  exists z s', tnt_object_vformat float_of_double s (format_text t trail tail) (ftree_args t) = Some (z, s') /\
    side s s' /\ (granted s -> z <> -1) /\
    (z = -1 \/ (z <> -1 /\ repr s' (Abs (tree_bytes TNT_SBO_PACKED (ftree_value t)) [] cap TNT_SBO_PACKED))).
Proof.
  intros Hw H Hok Htr Hd. unfold tnt_object_vformat.
  destruct (object_type_repr s _ TNT_SBO_PACKED Hw H) as (s1 & -> & Hs1 & H1). cbn [mbind option_bind].
  rewrite decide_False by done. simpl in H1.
  assert (formats s1 (ftree_text t ++ junks_text trail) (ftree_args t)
    (Abs (tree_bytes TNT_SBO_PACKED (ftree_value t)) [] cap TNT_SBO_PACKED)) as HF.
  { rewrite <- (app_nil_r (ftree_args t)). eapply formats_app.
    - apply (formats_tree t Hok s1 _ H1); [done|simpl; lia].
    - intros s2 _ H2. by apply formats_junks. }
  destruct (HF (0 :: tail) [] (S (length (format_text t trail tail))) 0) as (s2 & f & r & Hs2 & Hres); [lia| |].
  { unfold format_text. rewrite <- app_assoc. lia. }
  rewrite <- app_assoc, app_nil_r in Hres. fold (format_text t trail tail) in Hres.
  destruct Hres as [[-> Hg]|(Ha & Hr & Hf & ->)].
  - exists (-1), s2. split; [done|]. split; [by etrans|]. split; [|by left]. intros Hgr. exfalso. by apply Hg, Hs1.
  - destruct f as [|f]; [lia|]. exists r, s2. simpl. split; [done|]. split; [by etrans|].
    split; [lia|]. right. split; [lia|done].
Qed.

(** A new object filled by [tnt_object_format]. *)
Definition make_format (fmt : bytes) (args : va_list) (given : bool) (m : malloc_state)
    : option (option (Z * object)) :=
  s ← tnt_object given m;
  match s with
  | None => Some None
  | Some s => r ← tnt_object_format float_of_double s fmt args; Some (Some r)
  end.

(** C16: Format strings are correct: for every tree of values, every way to
    spell it (the conversions [%d], [%i], [%u] with the prefixes [hh], [h],
    [l], [ll], [%s], [%.*s], [%f], [%lf], [%b], [NIL], brackets and braces, with
    ignored characters and [%%] in between) and arguments of the right types,
    [tnt_object_format] is defined: it never reads past the NUL of the format
    nor past the argument list; when it does not fail the object holds exactly
    the packed encoding of the tree, and it cannot fail when the allocator
    grants every request. *)
Theorem format_correct t trail tail given m :
  ftree_ok t -> Forall junk_ok trail -> (tree_depth (ftree_value t) <= 8)%nat ->
  exists r, make_format (format_text t trail tail) (ftree_args t) given m = Some r /\
    (Refuse ∉ m -> exists z s, r = Some (z, s) /\ z <> -1) /\
    match r with
    | Some (z, s) =>
        z = -1 \/ (buf_contents s = tree_bytes TNT_SBO_PACKED (ftree_value t) /\ tnt_object_verify s None = Some 0)
    | None => True
    end.
Proof.
  intros Hok Htr Hd. unfold make_format. destruct (tnt_object_ok given m) as (r & -> & Hr). cbn [mbind option_bind].
  destruct r as [s|]; [|exists None; naive_solver]. destruct Hr as (Hg & Hw & H & _).
  destruct (vformat_spec s t trail tail 8 _ Hw H Hok Htr Hd) as (z & s' & E & _ & Hg' & Hz).
  unfold tnt_object_format. rewrite E. cbn [mbind option_bind].
  eexists. split; [done|]. split; [intros Hm; exists z, s'; split; [done|by apply Hg', Hg]|].
  destruct Hz as [->|[_ H']]; [by left|right]. pose proof (repr_contents _ _ H') as Ec. split; [done|].
  destruct H' as (sb & o & Hsb & _). apply (verify_object _ sb Hsb).
  unfold buf_contents in Ec. rewrite Hsb in Ec. rewrite Ec. simpl.
  by apply tree_object, ftree_value_ok.
Qed.

(** ** The setters of requests *)

Lemma object_reset_repr o a :
  repr o a -> exists o', tnt_object_reset o = Some (0, o') /\ st_wrcnt o' = 0 /\ (granted o -> granted o') /\
    repr o' (Abs [] [] (a_cap a) TNT_SBO_SIMPLE).
Proof.
  intros (sb & o1 & Hs & [Hc1 Hc2] & Has & HR & Ho & Hb & Hop & Hsl & Hsz & Hcap & Hm).
  unfold tnt_object_reset. rewrite Hs. cbn [mbind option_bind]. rewrite Ho. cbn [mbind option_bind].
  eexists. split; [done|]. split; [done|]. split; [done|].
  do 2 eexists. split; [done|]. simpl. repeat split; auto; simpl; try lia.
  unfold contents. simpl. by destruct (block_of (data (sb_core sb))).
Qed.

(** The object a setter may use: a new one, or the one of an earlier call. *)
Definition reusable (o : option object) (depth : nat) : Prop :=
  match o with None => (depth <= 8)%nat | Some o => exists a, repr o a /\ (depth <= a_cap a)%nat end.

Lemma reuse_object_ok o m depth :
  reusable o depth ->
  exists r, reuse_object o m = Some r /\
    match r with
    | Some s => exists cap, st_wrcnt s = 0 /\ repr s (Abs [] [] cap TNT_SBO_SIMPLE) /\ (depth <= cap)%nat /\
        (match o with None => Refuse ∉ m | Some o => granted o end -> granted s)
    | None => o = None /\ ~ (Refuse ∉ m)
    end.
Proof.
  intros Hr. destruct o as [o|]; simpl in Hr |- *.
  - destruct Hr as (a & Ha & Hd). destruct (object_reset_repr o a Ha) as (o' & -> & Hw & Hg & Ho').
    eexists. split; [done|]. by exists (a_cap a).
  - destruct (tnt_object_ok false m) as ([s|] & -> & Hs); eexists; (split; [done|]); [|done].
    destruct Hs as (Hg & Hw & Hs & _). by exists 8%nat.
Qed.

(** The outcome of a setter: on success the client's bytes are the encoding,
    owned by an object that the next call can reuse. *)
Definition format_set (t : ftree) (bytes_of : request -> option bytes) (object_of : request -> option object)
    (same : request -> request -> Prop) (r : request) (res : option (Z * request)) (m : malloc_state) : Prop :=
  exists z r', res = Some (z, r') /\ same r r' /\
    (z = -1 /\ bytes_of r' = bytes_of r \/
     z = 0 /\ bytes_of r' = Some (tree_bytes TNT_SBO_PACKED (ftree_value t)) /\
       exists o, object_of r' = Some o /\ reusable (Some o) (tree_depth (ftree_value t))) /\
    (match object_of r with None => Refuse ∉ m | Some o => granted o end -> z = 0).

(** The requests differ at most in the key and its object. *)
Definition same_but_key (r r' : request) : Prop :=
  set_key_bytes None (set_objects None None r') = set_key_bytes None (set_objects None None r) /\
  tuple r' = tuple r /\ tuple_object r' = tuple_object r.
Definition same_but_tuple (r r' : request) : Prop :=
  set_tuple_bytes None (set_objects None None r') = set_tuple_bytes None (set_objects None None r) /\
  key r' = key r /\ key_object r' = key_object r.

(** The value of the object after a successful format. *)
Lemma formatted_holds o t cap :
  ftree_ok t -> repr o (Abs (tree_bytes TNT_SBO_PACKED (ftree_value t)) [] cap TNT_SBO_PACKED) ->
  holds o (tree_bytes TNT_SBO_PACKED (ftree_value t)).
Proof.
  intros Hok H. apply (repr_holds _ _ H). simpl. by apply mp_object_nonempty, tree_object, ftree_value_ok.
Qed.

(** C17: [tnt_request_set_key_format] and [tnt_request_set_tuple_format] set the
    key (the tuple) of a request to the packed encoding of the formatted tree,
    owned by an object of the request that a later call resets and reuses; they
    report -1 and leave the key (the tuple) when an allocation fails, and only
    then; they touch nothing else of the request. *)
Theorem set_format_correct r t trail tail m :
  ftree_ok t -> Forall junk_ok trail ->
  let fmt := format_text t trail tail in
  (reusable (key_object r) (tree_depth (ftree_value t)) ->
   format_set t key key_object same_but_key r
     (tnt_request_set_key_format float_of_double r fmt (ftree_args t) m) m) /\
  (reusable (tuple_object r) (tree_depth (ftree_value t)) ->
   format_set t tuple tuple_object same_but_tuple r
     (tnt_request_set_tuple_format float_of_double r fmt (ftree_args t) m) m).
Proof.
  intros Hok Htr fmt. split; intros Hre;
    destruct (reuse_object_ok _ m _ Hre) as (x & Ex & Hx);
    unfold format_set, tnt_request_set_key_format, tnt_request_set_tuple_format; rewrite Ex; cbn [mbind option_bind];
    (destruct x as [s|];
     [destruct Hx as (cap & Hw & H & Hd & Hg);
      destruct (vformat_spec s t trail tail cap _ Hw H Hok Htr Hd) as (z & s' & E & Hs' & Hg' & Hz);
      fold fmt in E; rewrite E; cbn [mbind option_bind]; destruct (decide (z = -1)) as [->|Hne]
     |destruct Hx as [-> Hm]]).
  all: try (do 2 eexists; (split; [reflexivity|]); (split; [done|]); (split; [left; done|]); intros Hgr;
    first [by destruct (Hg' (Hg Hgr)) | by destruct (Hm Hgr)]).
  all: destruct Hz as [?|[_ H']]; [done|]; pose proof (formatted_holds s' t cap Hok H') as Hh; unfold holds in Hh.
  - unfold tnt_request_set_key, object in *. rewrite Hh. cbn [mbind option_bind].
    do 2 eexists. split; [reflexivity|]. split; [done|]. split; [right|done].
    split; [done|]. split; [done|]. eexists. split; [reflexivity|]. eexists. split; [exact H'|done].
  - unfold tnt_request_set_tuple, object in *. rewrite Hh. cbn [mbind option_bind].
    do 2 eexists. split; [reflexivity|]. split; [done|]. split; [right|done].
    split; [done|]. split; [done|]. eexists. split; [reflexivity|]. eexists. split; [exact H'|done].
Qed.

End spec.

(** ** The theorems at work: ["\[%d {%hhd%s}\]"] with 42, 0 and "no" *)

Definition sample_ftree : ftree :=
  FNode [] false
    [FLeaf [] (FSigned WInt false 42);
     FNode [JChar 32] true [FLeaf [] (FSigned WChar false 0); FLeaf [] (FStrZ [110; 111] [7])] []] [].

Lemma sample_ftree_text :
  format_text sample_ftree [] [9] =
    [91; 37; 100; 32; 123; 37; 104; 104; 100; 37; 115; 125; 93; 0; 9].
Proof. reflexivity. Qed.

Lemma sample_ftree_ok : ftree_ok sample_ftree /\ (tree_depth (ftree_value id sample_ftree) <= 8)%nat.
Proof.
  split; [|simpl; lia]. simpl. unfold zlen. simpl. repeat split; try lia; repeat constructor; set_solver.
Qed.

Lemma format_correct_witness :
  exists z s, make_format (MP := RefPuck) id
      [91; 37; 100; 32; 123; 37; 104; 104; 100; 37; 115; 125; 93; 0; 9]
      [VaInt 42; VaInt 0; VaPtr [110; 111; 0; 7]] false [] = Some (Some (z, s)) /\ z <> -1 /\
    buf_contents s = [0x92; 42; 0x81; 0; 0xa2; 110; 111] /\ tnt_object_verify (MP := RefPuck) s None = Some 0.
Proof.
  destruct sample_ftree_ok as [Hok Hd].
  destruct (format_correct (MP := RefPuck) id sample_ftree [] [9] false [] Hok (Forall_nil_2 _) Hd)
    as (r & E & Hr & H).
  destruct Hr as (z & s & -> & Hz); [intros H0; by apply elem_of_nil in H0|].
  exists z, s. split; [exact E|]. split; [exact Hz|].
  destruct H as [H|H]; [contradiction|]. exact H.
Defined.

Lemma set_format_correct_witness :
  let fmt := [91; 37; 100; 32; 123; 37; 104; 104; 100; 37; 115; 125; 93; 0; 9] in
  let args := [VaInt 42; VaInt 0; VaPtr [110; 111; 0; 7]] in
  exists r1 r2, tnt_request_set_key_format (MP := RefPuck) id sample_select fmt args [] = Some (0, r1) /\
    key r1 = Some [0x92; 42; 0x81; 0; 0xa2; 110; 111] /\ tuple r1 = tuple sample_select /\
    tnt_request_set_tuple_format (MP := RefPuck) id sample_insert fmt args [] = Some (0, r2) /\
    tuple r2 = Some [0x92; 42; 0x81; 0; 0xa2; 110; 111] /\ key r2 = key sample_insert.
Proof.
  intros fmt args. destruct sample_ftree_ok as [Hok Hd].
  destruct (set_format_correct (MP := RefPuck) id sample_select sample_ftree [] [9] [] Hok (Forall_nil_2 _)) as [Hk _].
  destruct (set_format_correct (MP := RefPuck) id sample_insert sample_ftree [] [9] [] Hok (Forall_nil_2 _)) as [_ Ht].
  assert (Refuse ∉ ([] : malloc_state)) as Hm by (intros H0; by apply elem_of_nil in H0).
  destruct (Hk Hd) as (z1 & r1 & E1 & (_ & S1 & _) & C1 & Z1). specialize (Z1 Hm). subst z1.
  destruct (Ht Hd) as (z2 & r2 & E2 & (_ & S2 & _) & C2 & Z2). specialize (Z2 Hm). subst z2.
  exists r1, r2. split; [exact E1|]. destruct C1 as [[C1 _]|(_ & C1 & _)]; [discriminate C1|].
  split; [exact C1|]. split; [exact S1|]. split; [exact E2|].
  destruct C2 as [[C2 _]|(_ & C2 & _)]; [discriminate C2|]. split; [exact C2|exact S2].
Defined.
