(* ===== verification/System.v ===== *)
(** * The operating system as the library uses it

    System calls and the user's I/O callbacks act on a world of type [W].  They
    are parameters: [Sys] gives their types, [SysSpec] the documented behaviour
    the theorems rely on, [Mock] a concrete world. *)

From S2P Require Import Prelude.

(** A [send_cb_t], [sendv_cb_t] or [recv_cb_t] with its context pointer: the
    [ssize_t] result and, for a read, the bytes stored at the start of the
    destination. *)
Definition send_fn (W : Type) := Z -> bytes -> W -> Z * W.
Definition sendv_fn (W : Type) := Z -> list bytes -> W -> Z * W.
Definition recv_fn (W : Type) := Z -> nat -> W -> Z * bytes * W.

Definition EINTR : Z := 4.

Class Sys (W : Type) := {
  sys_errno : W -> Z;
  (** [send(fd, buf, size, 0)], [writev(fd, iov, count)], [recv(fd, buf, size, 0)] *)
  sys_send : send_fn W;
  sys_writev : sendv_fn W;
  sys_recv : recv_fn W;
  sys_close : Z -> W -> W;
  (** [setsockopt(fd, SOL_SOCKET, opt, &val, sizeof(val))] *)
  sys_setsockopt : Z -> Z -> Z -> W -> Z * W;
  (** [getiovmax()] *)
  sys_iovmax : nat;
}.

(** What the theorems observe of a world: the bytes accepted for transmission
    and the bytes received so far, the bytes the peer is still to send, and a
    bound on the interruptions by signals to come. *)
Class Observe (W : Type) := {
  sent : W -> bytes;
  got : W -> bytes;
  incoming : W -> bytes;
  interrupts : W -> nat;
  (** no transmission fails *)
  reliable : W -> Prop;
}.

Section contracts.
Context {W : Type} {OB : Observe W}.

(** Nothing is received, and what the peer is to send stays the same. *)
Definition idle (w w' : W) : Prop := got w' = got w /\ incoming w' = incoming w.

Lemma idle_refl w : idle w w.
Proof. done. Qed.
Lemma idle_trans w1 w2 w3 : idle w1 w2 -> idle w2 w3 -> idle w1 w3.
Proof. intros [E1 E2] [E3 E4]. split; congruence. Qed.

(** A transmission accepts a non-empty prefix of the bytes it is given, or
    fails and accepts nothing. *)
Definition sends_prefix (bs : bytes) (w : W) (r : Z) (w' : W) : Prop :=
  idle w w' /\ (interrupts w' <= interrupts w)%nat /\
  ((r <= 0 /\ sent w' = sent w) \/
   (0 < r <= zlen bs /\ sent w' = sent w ++ take (Z.to_nat r) bs)) /\
  (reliable w -> reliable w').

(** The world hands over [bs], the next bytes of the peer. *)
Definition delivers (bs : bytes) (w w' : W) : Prop := got w' = got w ++ bs /\ incoming w = bs ++ incoming w'.

(** A reception stores between 1 and [n] bytes, or fails and stores none. *)
Definition receives (n : nat) (w : W) (r : Z) (bs : bytes) (w' : W) : Prop :=
  sent w' = sent w /\ (interrupts w' <= interrupts w)%nat /\
  ((r <= 0 /\ bs = [] /\ delivers [] w w') \/
   (r = zlen bs /\ (0 < length bs <= n)%nat /\ delivers bs w w')) /\
  (reliable w -> reliable w').

Definition send_fn_ok (f : send_fn W) : Prop :=
  forall p bs w r w', f p bs w = (r, w') ->
    sends_prefix bs w r w' /\ (reliable w -> bs <> [] -> 0 < r).
Definition sendv_fn_ok (f : sendv_fn W) : Prop :=
  forall p iov w r w', f p iov w = (r, w') ->
    sends_prefix (concat iov) w r w' /\ (reliable w -> concat iov <> [] -> 0 < r).
Definition recv_fn_ok (f : recv_fn W) : Prop :=
  forall p n w r bs w', f p n w = (r, bs, w') -> receives n w r bs w'.

End contracts.

(** The documented behaviour of the system calls; an interruption by a signal
    uses up one of those to come. *)
Class SysSpec (W : Type) `{Sys W, Observe W} : Prop := {
  spec_send fd bs w r w' : sys_send fd bs w = (r, w') ->
    sends_prefix bs w r w' /\
    (r = -1 -> sys_errno w' = EINTR -> (interrupts w' < interrupts w)%nat) /\
    (reliable w -> bs <> [] -> 0 < r \/ (r = -1 /\ sys_errno w' = EINTR));
  spec_writev fd iov w r w' : sys_writev fd iov w = (r, w') ->
    sends_prefix (concat iov) w r w' /\
    (r = -1 -> sys_errno w' = EINTR -> (interrupts w' < interrupts w)%nat) /\
    (reliable w -> concat iov <> [] -> 0 < r \/ (r = -1 /\ sys_errno w' = EINTR));
  spec_recv fd n w r bs w' : sys_recv fd n w = (r, bs, w') ->
    receives n w r bs w' /\
    (r = -1 -> sys_errno w' = EINTR -> (interrupts w' < interrupts w)%nat);
  spec_close fd w : sent (sys_close fd w) = sent w /\ got (sys_close fd w) = got w /\
    interrupts (sys_close fd w) = interrupts w;
  spec_iovmax : (0 < sys_iovmax)%nat;
}.
Arguments SysSpec W {_ _}.

(** ** A concrete world

    The coming events decide what each call does: it is interrupted, fails,
    or transfers at most the given number of bytes. *)

Module Mock.

Inductive event := Intr | Fail (errno : Z) | Xfer (n : nat).

Record world := World {
  w_out : bytes;            (** accepted *)
  w_in : bytes;             (** received *)
  w_pending : bytes;        (** to be received *)
  w_events : list event;    (** then every call transfers all it can *)
  w_errno : Z;
}.

Definition next (w : world) : event * list event :=
  match w_events w with [] => (Xfer 0, []) | e :: es => (e, es) end.

(** How many of [k] bytes event [Xfer n] transfers; [Xfer 0] is no limit. *)
Definition amount (n k : nat) : nat := match n with O => k | _ => Nat.min n k end.

Definition send (bs : bytes) (w : world) : Z * world :=
  match next w with
  | (Intr, es) => (-1, World (w_out w) (w_in w) (w_pending w) es EINTR)
  | (Fail e, es) => (-1, World (w_out w) (w_in w) (w_pending w) es (if decide (e = EINTR) then 5 else e))
  | (Xfer n, es) =>
      let k := amount n (length bs) in
      (Z.of_nat k, World (w_out w ++ take k bs) (w_in w) (w_pending w) es (w_errno w))
  end.

Definition recv (n : nat) (w : world) : Z * bytes * world :=
  match next w with
  | (Intr, es) => (-1, [], World (w_out w) (w_in w) (w_pending w) es EINTR)
  | (Fail e, es) => (-1, [], World (w_out w) (w_in w) (w_pending w) es (if decide (e = EINTR) then 5 else e))
  | (Xfer m, es) =>
      let bs := take (amount m n) (w_pending w) in
      (zlen bs, bs, World (w_out w) (w_in w ++ bs) (drop (amount m n) (w_pending w)) es (w_errno w))
  end.

Definition failure (e : event) : Prop := match e with Fail _ => True | _ => False end.

#[export] Instance event_eq_dec : EqDecision event.
Proof. solve_decision. Defined.

Definition intr_count (es : list event) : nat := length (filter (fun e => e = Intr) es).

End Mock.

#[export] Instance mock_sys : Sys Mock.world := {
  sys_errno := Mock.w_errno;
  sys_send := fun _ => Mock.send;
  sys_writev := fun _ iov => Mock.send (concat iov);
  sys_recv := fun _ => Mock.recv;
  sys_close := fun _ w => w;
  sys_setsockopt := fun _ _ _ w => (0, w);
  sys_iovmax := 1024%nat;
}.

#[export] Instance mock_observe : Observe Mock.world := {
  sent := Mock.w_out; got := Mock.w_in; incoming := Mock.w_pending;
  interrupts w := Mock.intr_count (Mock.w_events w);
  reliable w := Forall (fun e => ~ Mock.failure e) (Mock.w_events w);
}.

Lemma mock_next w e es :
  Mock.next w = (e, es) ->
  (Mock.intr_count es <= interrupts w)%nat /\
  (e = Mock.Intr -> (Mock.intr_count es < interrupts w)%nat) /\
  (reliable w -> ~ Mock.failure e /\ Forall (fun e => ~ Mock.failure e) es).
Proof.
  unfold Mock.next, interrupts, reliable. cbn [mock_observe]. unfold Mock.intr_count.
  destruct (Mock.w_events w) as [|e' es']; intros [= <- <-].
  - split; [simpl; lia|]. split; [done|]. intros _. split; [by intros []|done].
  - rewrite filter_cons. split; [case_decide; cbn [length]; lia|]. split; [intros ->; rewrite decide_True by done; cbn [length]; lia|].
    by intros [? ?]%Forall_cons.
Qed.

Lemma mock_amount n k : (0 < k)%nat -> (0 < Mock.amount n k)%nat.
Proof. destruct n; unfold Mock.amount; lia. Qed.

Lemma mock_amount_le n k : (Mock.amount n k <= k)%nat.
Proof. destruct n; unfold Mock.amount; lia. Qed.

Lemma mock_errno e : (if decide (e = EINTR) then 5 else e) <> EINTR.
Proof. case_decide; done. Qed.

Lemma mock_send_ok bs w r w' :
  Mock.send bs w = (r, w') ->
  sends_prefix bs w r w' /\
  (r = -1 -> Mock.w_errno w' = EINTR -> (interrupts w' < interrupts w)%nat) /\
  (reliable w -> bs <> [] -> 0 < r \/ (r = -1 /\ Mock.w_errno w' = EINTR)).
Proof.
  unfold Mock.send, sends_prefix. destruct (Mock.next w) as [e es] eqn:En. pose proof (mock_next _ _ _ En) as (H1 & H2 & H3).
  destruct e as [|err|n]; intros [= <- <-]; simpl in *.
  - split; [|split; [by intros; apply H2|by right]]. split; [done|]. split; [done|]. split; [by left|]. intros Hr. by apply H3.
  - split; [|split; [by intros _ []%mock_errno|by intros Hr; destruct (H3 Hr) as [[] _]]].
    split; [done|]. split; [done|]. split; [by left|]. intros Hr. by apply H3.
  - pose proof (mock_amount_le n (length bs)) as Hle. split; [|split; [lia|]].
    + split; [done|]. split; [done|]. split; [|intros Hr; by apply H3].
      destruct (decide (Mock.amount n (length bs) = 0)%nat) as [E|E].
      * left. rewrite E. simpl. split; [lia|]. by rewrite app_nil_r.
      * right. unfold zlen. rewrite Nat2Z.id. split; [lia|done].
    + intros _ Hne. left. pose proof (mock_amount n (length bs)). destruct bs; [done|]. simpl in *. lia.
Qed.

Lemma mock_recv_ok n w r bs w' :
  Mock.recv n w = (r, bs, w') ->
  receives n w r bs w' /\ (r = -1 -> Mock.w_errno w' = EINTR -> (interrupts w' < interrupts w)%nat).
Proof.
  unfold Mock.recv, receives. destruct (Mock.next w) as [e es] eqn:En. pose proof (mock_next _ _ _ En) as (H1 & H2 & H3).
  destruct e as [|err|m]; intros [= <- <- <-]; simpl in *.
  - split; [|by intros; apply H2]. split; [done|]. split; [done|]. split; [left; split; [done|split; [done|split; [by rewrite app_nil_r|done]]]|]. intros Hr. by apply H3.
  - split; [|by intros _ []%mock_errno]. split; [done|]. split; [done|]. split; [left; split; [done|split; [done|split; [by rewrite app_nil_r|done]]]|]. intros Hr. by apply H3.
  - split; [|unfold zlen; lia]. split; [done|]. split; [done|]. split; [|intros Hr; by apply H3].
    pose proof (mock_amount_le m n) as Hle. set (bs := take _ _). set (w' := Mock.World _ _ _ _ _).
    assert (delivers bs w w') as Hd by (split; [done|]; unfold bs; simpl; by rewrite take_drop).
    destruct (decide (length bs = 0)%nat) as [E|E].
    + left. apply nil_length_inv in E. rewrite E in Hd. split; [by rewrite E|done].
    + right. split; [done|]. split; [|done]. unfold bs in *. rewrite length_take in *. lia.
Qed.

#[export] Instance mock_spec : SysSpec Mock.world.
Proof.
  split; simpl.
  - intros _. apply mock_send_ok.
  - intros _ iov. apply mock_send_ok.
  - intros _. apply mock_recv_ok.
  - done.
  - lia.
Qed.
