(* ===== verification/Opt.v ===== *)
(** * tnt/tnt_opt.c: connection options

    A value passed to [tnt_set] is an [opt_arg]. *)

From S2P Require Import Prelude Mem Uri System.

(** [enum tnt_error] *)
Inductive tnt_error :=
  | TNT_EOK | TNT_EFAIL | TNT_EMEMORY | TNT_ESYSTEM | TNT_EBIG | TNT_ESIZE
  | TNT_ERESOLVE | TNT_ETMOUT | TNT_EBADVAL | TNT_ELOGIN.

#[export] Instance tnt_error_eq_dec : EqDecision tnt_error.
Proof. solve_decision. Defined.

Record timeval := Timeval { tv_sec : Z; tv_usec : Z }.

(** [enum tnt_opt_type] and its values in [tnt_set]. *)
Inductive tnt_opt_type :=
  | TNT_OPT_URI | TNT_OPT_TMOUT_CONNECT | TNT_OPT_TMOUT_RECV | TNT_OPT_TMOUT_SEND
  | TNT_OPT_SEND_CB | TNT_OPT_SEND_CBV | TNT_OPT_SEND_CB_ARG | TNT_OPT_SEND_BUF
  | TNT_OPT_RECV_CB | TNT_OPT_RECV_CB_ARG | TNT_OPT_RECV_BUF.

Definition opt_type_of (opt : Z) : option tnt_opt_type :=
  if decide (0 <= opt) then
    [ TNT_OPT_URI; TNT_OPT_TMOUT_CONNECT; TNT_OPT_TMOUT_RECV; TNT_OPT_TMOUT_SEND;
      TNT_OPT_SEND_CB; TNT_OPT_SEND_CBV; TNT_OPT_SEND_CB_ARG; TNT_OPT_SEND_BUF;
      TNT_OPT_RECV_CB; TNT_OPT_RECV_CB_ARG; TNT_OPT_RECV_BUF ] !! Z.to_nat opt
  else None.

Section opt.
Context {W : Type}.

Record tnt_opt := Opt {
  uristr : ptr;
  opt_uri : option uri;             (** [None] is [NULL] *)
  tmout_connect : timeval; tmout_recv : timeval; tmout_send : timeval;
  send_cb : option (send_fn W); send_cbv : option (sendv_fn W); send_cb_arg : Z; send_buf : Z;
  recv_cb : option (recv_fn W); recv_cb_arg : Z; recv_buf : Z;
}.

Inductive opt_arg :=
  | ArgStr (mem : bytes) | ArgTime (tv : timeval) | ArgSend (f : option (send_fn W))
  | ArgSendv (f : option (sendv_fn W)) | ArgRecv (f : option (recv_fn W)) | ArgPtr (p : Z) | ArgInt (n : Z).

(** [tnt_opt_init]: the return code and the options; [a] answers the allocation
    of the URI. *)
Definition tnt_opt_init (a : answer) : Z * tnt_opt :=
  let opt u := Opt PNull u (Timeval 16 0) (Timeval 0 0) (Timeval 0 0) None None 0 16384 None 0 16384 in
  match a with
  | Refuse => (-1, opt None)
  | Grant _ => (0, opt (Some zero_uri))
  end.

(** [tnt_opt_free]; [None] is a double free. *)
Definition tnt_opt_free (o : tnt_opt) : option unit :=
  _ ← match uristr o with PNull => Some PNull | p => tnt_mem_free custom_realloc p end;
  Some tt.

Definition set_tmouts c r s (o : tnt_opt) : tnt_opt :=
  Opt (uristr o) (opt_uri o) c r s (send_cb o) (send_cbv o) (send_cb_arg o) (send_buf o)
    (recv_cb o) (recv_cb_arg o) (recv_buf o).
Definition set_uri s u (o : tnt_opt) : tnt_opt :=
  Opt s u (tmout_connect o) (tmout_recv o) (tmout_send o) (send_cb o) (send_cbv o) (send_cb_arg o)
    (send_buf o) (recv_cb o) (recv_cb_arg o) (recv_buf o).
Definition set_send cb cbv arg n (o : tnt_opt) : tnt_opt :=
  Opt (uristr o) (opt_uri o) (tmout_connect o) (tmout_recv o) (tmout_send o) cb cbv arg n
    (recv_cb o) (recv_cb_arg o) (recv_buf o).
Definition set_recv cb arg n (o : tnt_opt) : tnt_opt :=
  Opt (uristr o) (opt_uri o) (tmout_connect o) (tmout_recv o) (tmout_send o) (send_cb o) (send_cbv o)
    (send_cb_arg o) (send_buf o) cb arg n.

(** [tnt_opt_set]; an argument of another type is undefined. *)
Definition tnt_opt_set (o : tnt_opt) (name : option tnt_opt_type) (arg : opt_arg) (m : malloc_state)
    : option (tnt_error * tnt_opt * malloc_state) :=
  match name, arg with
  | Some TNT_OPT_URI, ArgStr str =>
      _ ← match uristr o with PNull => Some PNull | p => tnt_mem_free custom_realloc p end;
      let '(a, m) := pop m in
      s ← tnt_mem_dup custom_realloc a str;
      match s with
      | PNull => Some (TNT_EMEMORY, set_uri PNull (opt_uri o) o, m)
      | _ =>
          _ ← opt_uri o;
          mem ← block_of s;
          '(rc, u) ← uri_parse mem;
          Some (if decide (rc = -1) then TNT_EFAIL else TNT_EOK, set_uri s (Some u) o, m)
      end
  | Some TNT_OPT_TMOUT_CONNECT, ArgTime tv => Some (TNT_EOK, set_tmouts tv (tmout_recv o) (tmout_send o) o, m)
  | Some TNT_OPT_TMOUT_RECV, ArgTime tv => Some (TNT_EOK, set_tmouts (tmout_connect o) tv (tmout_send o) o, m)
  | Some TNT_OPT_TMOUT_SEND, ArgTime tv => Some (TNT_EOK, set_tmouts (tmout_connect o) (tmout_recv o) tv o, m)
  | Some TNT_OPT_SEND_CB, ArgSend f => Some (TNT_EOK, set_send f (send_cbv o) (send_cb_arg o) (send_buf o) o, m)
  | Some TNT_OPT_SEND_CBV, ArgSendv f => Some (TNT_EOK, set_send (send_cb o) f (send_cb_arg o) (send_buf o) o, m)
  | Some TNT_OPT_SEND_CB_ARG, ArgPtr p => Some (TNT_EOK, set_send (send_cb o) (send_cbv o) p (send_buf o) o, m)
  | Some TNT_OPT_SEND_BUF, ArgInt n => Some (TNT_EOK, set_send (send_cb o) (send_cbv o) (send_cb_arg o) n o, m)
  | Some TNT_OPT_RECV_CB, ArgRecv f => Some (TNT_EOK, set_recv f (recv_cb_arg o) (recv_buf o) o, m)
  | Some TNT_OPT_RECV_CB_ARG, ArgPtr p => Some (TNT_EOK, set_recv (recv_cb o) p (recv_buf o) o, m)
  | Some TNT_OPT_RECV_BUF, ArgInt n => Some (TNT_EOK, set_recv (recv_cb o) (recv_cb_arg o) n o, m)
  | None, _ => Some (TNT_EFAIL, o, m)
  | _, _ => None
  end.

End opt.
Arguments tnt_opt : clear implicits.
Arguments opt_arg : clear implicits.
