(* ===== verification/Io.v ===== *)
(** * tnt/tnt_iob.c and tnt/tnt_io.c: buffered socket I/O

    [snet] is [struct tnt_stream_net], the state of a network stream; the
    schema it owns is a type parameter.  The world [W] is threaded through
    every call.  Loops that repeat an interrupted system call run on [fuel];
    the other loops have their own, sufficient, bound. *)

From S2P Require Import Prelude Mem Uri Stream Buf System Opt.

(** ** Static buffers *)

(** [struct tnt_iob]; [F] and [G] are the types of its two callbacks. *)
Record iob (F G : Type) := Iob {
  i_buf : ptr;
  i_off : nat;
  i_top : nat;
  i_size : nat;
  i_tx : option F;
  i_txv : option G;
  i_ptr : Z;
}.
Arguments Iob {F G}. Arguments i_buf {F G}. Arguments i_off {F G}. Arguments i_top {F G}.
Arguments i_size {F G}. Arguments i_tx {F G}. Arguments i_txv {F G}. Arguments i_ptr {F G}.

Section iob.
Context {F G : Type}.

(** [tnt_iob_init] *)
Definition tnt_iob_init (size : nat) (tx : option F) (txv : option G) (p : Z) (m : malloc_state)
    : option (Z * iob F G * malloc_state) :=
  if decide (0 < size)%nat then
    let '(a, m) := pop m in
    b ← tnt_mem_alloc custom_realloc a size;
    match b with
    | PNull => Some (-1, Iob PNull 0 0 size tx txv p, m)
    | _ => b ← store b 0 (replicate size 0);      (* memset *)
           Some (0, Iob b 0 0 size tx txv p, m)
    end
  else Some (0, Iob PNull 0 0 size tx txv p, m).

Definition tnt_iob_clear (b : iob F G) : iob F G :=
  Iob (i_buf b) 0 0 (i_size b) (i_tx b) (i_txv b) (i_ptr b).

Definition tnt_iob_free (b : iob F G) : option unit :=
  match i_buf b with PNull => Some tt | p => _ ← tnt_mem_free custom_realloc p; Some tt end.

Definition set_off (off : nat) (b : iob F G) : iob F G :=
  Iob (i_buf b) off (i_top b) (i_size b) (i_tx b) (i_txv b) (i_ptr b).
Definition set_top (top : nat) (b : iob F G) : iob F G :=
  Iob (i_buf b) (i_off b) top (i_size b) (i_tx b) (i_txv b) (i_ptr b).
Definition set_buf (p : ptr) (b : iob F G) : iob F G :=
  Iob p (i_off b) (i_top b) (i_size b) (i_tx b) (i_txv b) (i_ptr b).

End iob.

(** ** Network streams *)

Record snet (W Sch : Type) := Snet {
  opt : tnt_opt W;
  connected : bool;
  fd : Z;
  n_sbuf : iob (send_fn W) (sendv_fn W);
  rbuf : iob (recv_fn W) unit;
  n_error : tnt_error;
  errno_ : Z;
  greeting : ptr;
  n_schema : option Sch;         (** [None] is [NULL] *)
  inited : bool;
}.
Arguments Snet {W Sch}. Arguments opt {W Sch}. Arguments connected {W Sch}. Arguments fd {W Sch}.
Arguments n_sbuf {W Sch}. Arguments rbuf {W Sch}. Arguments n_error {W Sch}. Arguments errno_ {W Sch}.
Arguments greeting {W Sch}. Arguments n_schema {W Sch}. Arguments inited {W Sch}.

Section io.
Context {W : Type} {SY : Sys W} {Sch : Type}.
Implicit Types (s : snet W Sch) (w : W).

Definition put_sbuf b s := Snet (opt s) (connected s) (fd s) b (rbuf s) (n_error s) (errno_ s) (greeting s) (n_schema s) (inited s).
Definition put_rbuf b s := Snet (opt s) (connected s) (fd s) (n_sbuf s) b (n_error s) (errno_ s) (greeting s) (n_schema s) (inited s).
Definition put_error e s := Snet (opt s) (connected s) (fd s) (n_sbuf s) (rbuf s) e (errno_ s) (greeting s) (n_schema s) (inited s).
Definition put_fd (c : bool) f s := Snet (opt s) c f (n_sbuf s) (rbuf s) (n_error s) (errno_ s) (greeting s) (n_schema s) (inited s).

(** [s->error = TNT_ESYSTEM; s->errno_ = errno] *)
Definition system_error w s : snet W Sch :=
  Snet (opt s) (connected s) (fd s) (n_sbuf s) (rbuf s) TNT_ESYSTEM (sys_errno w) (greeting s) (n_schema s) (inited s).

(** [do { r = call; } while (r == -1 && (errno == EINTR))] *)
Fixpoint retry {A} (fuel : nat) (call : W -> Z * A * W) w : option (Z * A * W) :=
  match fuel with
  | O => None
  | S fuel =>
      let '(r, a, w) := call w in
      if decide (r = -1 /\ sys_errno w = EINTR) then retry fuel call w else Some (r, a, w)
  end.

Variable fuel : nat.

(** One transmission of [bs], of an io vector, or reception of [n] bytes. *)
Definition tx_send s (bs : bytes) w : option (Z * W) :=
  match i_tx (n_sbuf s) with
  | Some f => Some (f (i_ptr (n_sbuf s)) bs w)
  | None => '(r, _, w) ← retry fuel (fun w => let '(r, w) := sys_send (fd s) bs w in (r, tt, w)) w; Some (r, w)
  end.

Definition tx_sendv s (iov : list bytes) w : option (Z * W) :=
  match i_txv (n_sbuf s) with
  | Some f => Some (f (i_ptr (n_sbuf s)) (take sys_iovmax iov) w)
  | None => '(r, _, w) ← retry fuel (fun w => let '(r, w) := sys_writev (fd s) iov w in (r, tt, w)) w; Some (r, w)
  end.

Definition rx_recv s (n : nat) w : option (Z * bytes * W) :=
  match i_tx (rbuf s) with
  | Some f => Some (f (i_ptr (rbuf s)) n w)
  | None => retry fuel (fun w => sys_recv (fd s) n w) w
  end.

(** The loop of [tnt_io_send_raw] at offset [off]. *)
Fixpoint send_loop (n : nat) s (buf : bytes) (off : nat) (all : bool) w : option (Z * snet W Sch * W) :=
  match n with
  | O => None
  | S n =>
      '(r, w) ← tx_send s (drop off buf) w;
      if decide (r <= 0) then Some (-1, system_error w s, w) else
      let off := (off + Z.to_nat r)%nat in
      if decide (length buf < off)%nat then None else
      if bool_decide (off <> length buf) && all then send_loop n s buf off all w
      else Some (Z.of_nat off, s, w)
  end.

Definition tnt_io_send_raw s (buf : bytes) (all : bool) w : option (Z * snet W Sch * W) :=
  send_loop (S (length buf)) s buf 0 all w.

(** Drop the first [r] bytes of an io vector. *)
Fixpoint advance (iov : list bytes) (r : Z) : list bytes :=
  match iov with
  | [] => []
  | v :: iov' => if decide (r < zlen v) then drop (Z.to_nat r) v :: iov' else advance iov' (r - zlen v)
  end.

Fixpoint sendv_loop (n : nat) s (iov : list bytes) (total : Z) (all : bool) w : option (Z * snet W Sch * W) :=
  match iov with
  | [] => Some (total, s, w)
  | _ =>
      match n with
      | O => None
      | S n =>
          '(r, w) ← tx_sendv s iov w;
          if decide (r <= 0) then Some (-1, system_error w s, w) else
          if all then sendv_loop n s (advance iov r) (total + r) all w
          else Some (total + r, s, w)
      end
  end.

Definition tnt_io_sendv_raw s (iov : list bytes) (all : bool) w : option (Z * snet W Sch * W) :=
  sendv_loop (S (length (concat iov))) s iov 0 all w.

Definition tnt_io_flush s w : option (Z * snet W Sch * W) :=
  if decide (i_off (n_sbuf s) = 0)%nat then Some (0, s, w) else
  bs ← load (i_buf (n_sbuf s)) 0 (i_off (n_sbuf s));
  '(rc, s, w) ← tnt_io_send_raw s bs true w;
  if decide (rc = -1) then Some (-1, s, w) else Some (rc, put_sbuf (set_off 0 (n_sbuf s)) s, w).

(** [memcpy] into the send buffer at its offset. *)
Definition sbuf_put s (bs : bytes) : option (snet W Sch) :=
  b ← store (i_buf (n_sbuf s)) (i_off (n_sbuf s)) bs;
  Some (put_sbuf (set_off (i_off (n_sbuf s) + length bs) (set_buf b (n_sbuf s))) s).

Definition tnt_io_send s (buf : bytes) w : option (Z * snet W Sch * W) :=
  match i_buf (n_sbuf s) with
  | PNull => tnt_io_send_raw s buf true w
  | _ =>
      if decide (i_size (n_sbuf s) < length buf)%nat then Some (-1, put_error TNT_EBIG s, w) else
      if decide (i_off (n_sbuf s) + length buf <= i_size (n_sbuf s))%nat then
        s ← sbuf_put s buf; Some (zlen buf, s, w)
      else
        bs ← load (i_buf (n_sbuf s)) 0 (i_off (n_sbuf s));
        '(r, s, w) ← tnt_io_send_raw s bs true w;
        if decide (r = -1) then Some (-1, s, w) else
        s ← sbuf_put (put_sbuf (set_off 0 (n_sbuf s)) s) buf; Some (zlen buf, s, w)
  end.

(** [tnt_io_sendv_put] *)
Fixpoint tnt_io_sendv_put s (iov : list bytes) : option (snet W Sch) :=
  match iov with
  | [] => Some s
  | v :: iov => s ← sbuf_put s v; tnt_io_sendv_put s iov
  end.

Definition tnt_io_sendv s (iov : list bytes) w : option (Z * snet W Sch * W) :=
  match i_buf (n_sbuf s) with
  | PNull => tnt_io_sendv_raw s iov true w
  | _ =>
      let size := sum_list (length <$> iov) in
      if decide (i_size (n_sbuf s) < size)%nat then Some (-1, put_error TNT_EBIG s, w) else
      if decide (i_off (n_sbuf s) + size <= i_size (n_sbuf s))%nat then
        s ← tnt_io_sendv_put s iov; Some (Z.of_nat size, s, w)
      else
        bs ← load (i_buf (n_sbuf s)) 0 (i_off (n_sbuf s));
        '(r, s, w) ← tnt_io_send_raw s bs true w;
        if decide (r = -1) then Some (-1, s, w) else
        s ← tnt_io_sendv_put (put_sbuf (set_off 0 (n_sbuf s)) s) iov; Some (Z.of_nat size, s, w)
  end.

(** The loop of [tnt_io_recv_raw]; [acc] are the bytes stored so far.  The
    result has the bytes stored in the destination. *)
Fixpoint recv_loop (n : nat) s (size : nat) (acc : bytes) (all : bool) w
    : option (Z * bytes * snet W Sch * W) :=
  match n with
  | O => None
  | S n =>
      '(r, bs, w) ← rx_recv s (size - length acc) w;
      if decide (r <= 0) then Some (-1, acc, system_error w s, w) else
      let acc := acc ++ bs in
      if decide (size < length acc)%nat then None else
      if bool_decide (length acc <> size) && all then recv_loop n s size acc all w
      else Some (zlen acc, acc, s, w)
  end.

Definition tnt_io_recv_raw s (size : nat) (all : bool) w : option (Z * bytes * snet W Sch * W) :=
  recv_loop (S size) s size [] all w.

(** The loop of [tnt_io_recv] over a receive buffer. *)
Fixpoint recv_buf_loop (n : nat) s (size left : nat) (acc : bytes) w : option (Z * bytes * snet W Sch * W) :=
  match n with
  | O => None
  | S n =>
      let b := rbuf s in
      if decide (i_off b + left <= i_top b)%nat then
        bs ← load (i_buf b) (i_off b) left;
        Some (Z.of_nat size, acc ++ bs, put_rbuf (set_off (i_off b + left) b) s, w)
      else if decide (i_top b < i_off b)%nat then None else
      let lv := (i_top b - i_off b)%nat in
      let rv := (left - lv)%nat in
      bs ← load (i_buf b) (i_off b) lv;
      let acc := acc ++ bs in
      let s := put_rbuf (set_off 0 b) s in
      '(top, bs, s, w) ← tnt_io_recv_raw s (i_size b) false w;
      p ← store (i_buf b) 0 bs;
      let s := put_rbuf (set_buf p (rbuf s)) s in
      if decide (top <= 0) then Some (-1, acc, system_error w s, w) else
      let s := put_rbuf (set_top (Z.to_nat top) (rbuf s)) s in
      if decide (rv <= Z.to_nat top)%nat then
        bs ← load p 0 rv;
        Some (Z.of_nat size, acc ++ bs, put_rbuf (set_off rv (rbuf s)) s, w)
      else recv_buf_loop n s size (left - lv) acc w
  end.

Definition tnt_io_recv s (size : nat) w : option (Z * bytes * snet W Sch * W) :=
  match i_buf (rbuf s) with
  | PNull => tnt_io_recv_raw s size true w
  | _ => recv_buf_loop (S (S size)) s size size [] w
  end.

Definition tnt_io_close s w : snet W Sch * W :=
  if decide (0 < fd s) then (put_fd false (-1) s, sys_close (fd s) w) else (put_fd false (fd s) s, w).

(** The binary search of [tnt_io_xbufmax] over [int]s; the sum of the bounds
    must not overflow, the conversions wrap. *)
Fixpoint xbuf_loop (n : nat) s (sockopt : Z) (min max : Z) w : option W :=
  if decide (max < min) then Some w else
  match n with
  | O => None
  | S n =>
      if decide (- 2 ^ 31 <= min + max < 2 ^ 31) then
        let avg := u32 (min + max) / 2 in
        let '(rc, w) := sys_setsockopt (fd s) sockopt avg w in
        if decide (rc = 0) then xbuf_loop n s sockopt (s32 (u32 (avg + 1))) max w
        else xbuf_loop n s sockopt min (s32 (u32 (avg - 1))) w
      else None
  end.

Definition tnt_io_xbufmax s (sockopt : Z) (min : Z) w : option (tnt_error * W) :=
  let max := 128 * 1024 * 1024 in
  let min := if decide (min = 0) then 16384 else min in
  w ← xbuf_loop 28 s sockopt min max w; Some (TNT_EOK, w).

End io.
