(* ===== verification/IoSpec.v ===== *)
(** * Correctness of the buffered socket I/O (tnt/tnt_io.c)

    Whatever the system answers the calls terminate, transmit the client's
    bytes in order without loss or duplication as long as they succeed, and
    deliver the received bytes in order.  What happens to the buffers after a
    failure is stated too. *)

From S2P Require Import Prelude Mem Stream Buf System Opt Io.

Section io.
Context {W : Type} {SY : Sys W} {OB : Observe W} {SS : SysSpec W} {Sch : Type}.
Implicit Types (s : snet W Sch) (w : W).
Variable fuel : nat.

(** ** State *)

(** The callbacks honour their contracts. *)
Definition callbacks_ok s : Prop :=
  (forall f, i_tx (n_sbuf s) = Some f -> send_fn_ok f) /\
  (forall f, i_txv (n_sbuf s) = Some f -> sendv_fn_ok f) /\
  (forall f, i_tx (rbuf s) = Some f -> recv_fn_ok f).

Definition block_ok {F G} (b : iob F G) (used : nat) : Prop :=
  match i_buf b with
  | PNull => used = O
  | PHeap bs => length bs = i_size b /\ (used <= i_size b)%nat
  | _ => False
  end.

Record snet_ok s : Prop := {
  ok_callbacks : callbacks_ok s;
  ok_sbuf : block_ok (n_sbuf s) (i_off (n_sbuf s));
  ok_rbuf : block_ok (rbuf s) (i_top (rbuf s)) /\ (i_off (rbuf s) <= i_top (rbuf s))%nat;
}.

(** Bytes waiting in the send buffer; bytes waiting in the receive buffer. *)
Definition buffered s : bytes :=
  match i_buf (n_sbuf s) with PHeap b => take (i_off (n_sbuf s)) b | _ => [] end.
Definition waiting s : bytes :=
  match i_buf (rbuf s) with PHeap b => drop (i_off (rbuf s)) (take (i_top (rbuf s)) b) | _ => [] end.

(** All the bytes the client has written so far. *)
Definition written s w : bytes := sent w ++ buffered s.

(** ** Interrupted calls *)

Lemma retry_ok {A} (R : W -> Z -> A -> W -> Prop) (call : W -> Z * A * W) n w :
  (forall w r a w', call w = (r, a, w') -> R w r a w' /\
     (interrupts w' <= interrupts w)%nat /\
     (r = -1 -> sys_errno w' = EINTR -> (interrupts w' < interrupts w)%nat)) ->
  (forall w a w1 r a' w2, R w (-1) a w1 -> R w1 r a' w2 -> R w r a' w2) ->
  (interrupts w < n)%nat ->
  exists r a w', retry n call w = Some (r, a, w') /\ R w r a w' /\ ~ (r = -1 /\ sys_errno w' = EINTR).
Proof.
  intros Hcall Htrans. revert w. induction n as [|n IH]; intros w Hn; [lia|]. simpl.
  destruct (call w) as [[r a] w1] eqn:E. destruct (Hcall _ _ _ _ E) as (HR & Hle & Hlt).
  case_decide as Hi.
  - destruct Hi as [-> He]. specialize (Hlt eq_refl He).
    destruct (IH w1) as (r & a' & w2 & Er & HR2 & Hne); [lia|]. exists r, a', w2. split; [done|].
    split; [by eapply Htrans|done].
  - by exists r, a, w1.
Qed.

(** A transmission, and that it does not fail on a reliable world. *)
Definition sends_ok (bs : bytes) w (r : Z) (_ : unit) w' : Prop :=
  sends_prefix bs w r w' /\
  (reliable w -> bs <> [] -> 0 < r \/ (r = -1 /\ sys_errno w' = EINTR)).

Lemma sends_ok_trans bs w a w1 r a' w2 :
  sends_ok bs w (-1) a w1 -> sends_ok bs w1 r a' w2 -> sends_ok bs w r a' w2.
Proof.
  intros [(Hg & Hi & Hs & Hr) _] [(Hg' & Hi' & Hs' & Hr') Hrel]. destruct Hs as [[_ Hs]|[? _]]; [|lia].
  split; [|by intros Hw; apply Hrel, Hr]. split; [by eapply idle_trans|]. split; [lia|]. rewrite <- Hs. auto.
Qed.

Lemma tx_send_ok s bs w :
  snet_ok s -> (interrupts w < fuel)%nat ->
  exists r w', tx_send fuel s bs w = Some (r, w') /\ sends_prefix bs w r w' /\ (reliable w -> bs <> [] -> 0 < r).
Proof.
  intros [(Hcb & _ & _) _ _] Hf. unfold tx_send. destruct (i_tx (n_sbuf s)) as [f|].
  - destruct (f (i_ptr (n_sbuf s)) bs w) as [r w'] eqn:E. destruct (Hcb f eq_refl _ _ _ _ _ E) as [H1 H2].
    by exists r, w'.
  - destruct (retry_ok (sends_ok bs) (fun w => let '(r, w) := sys_send (fd s) bs w in (r, tt, w)) fuel w)
      as (r & a & w' & -> & [Hp Hr] & Hne); [| |done|].
    + intros w0 r a w' E. destruct (sys_send (fd s) bs w0) as [r0 w0'] eqn:E0. injection E as <- <- <-.
      destruct (spec_send _ _ _ _ _ E0) as (H1 & H2 & H3). pose proof H1 as (_ & Hi & _). done.
    + apply sends_ok_trans.
    + exists r, w'. split; [done|]. split; [done|]. intros Hw Hb. by destruct (Hr Hw Hb).
Qed.

Lemma tx_sendv_ok s iov w :
  snet_ok s -> (interrupts w < fuel)%nat ->
  exists r w' rest, tx_sendv fuel s iov w = Some (r, w') /\
    (exists pre, concat iov = pre ++ rest /\ sends_prefix pre w r w') /\
    (reliable w -> i_txv (n_sbuf s) = None -> concat iov <> [] -> 0 < r).
Proof.
  intros [(_ & Hcb & _) _ _] Hf. unfold tx_sendv. destruct (i_txv (n_sbuf s)) as [f|].
  - destruct (f (i_ptr (n_sbuf s)) (take sys_iovmax iov) w) as [r w'] eqn:E.
    destruct (Hcb f eq_refl _ _ _ _ _ E) as [H1 _].
    exists r, w', (concat (drop sys_iovmax iov)). split; [done|]. split; [|done].
    exists (concat (take sys_iovmax iov)). split; [|done]. by rewrite <- concat_app, take_drop.
  - destruct (retry_ok (sends_ok (concat iov)) (fun w => let '(r, w) := sys_writev (fd s) iov w in (r, tt, w)) fuel w)
      as (r & a & w' & -> & [Hp Hr] & Hne); [| |done|].
    + intros w0 r a w' E. destruct (sys_writev (fd s) iov w0) as [r0 w0'] eqn:E0. injection E as <- <- <-.
      destruct (spec_writev _ _ _ _ _ E0) as (H1 & H2 & H3). pose proof H1 as (_ & Hi & _). done.
    + apply sends_ok_trans.
    + exists r, w', []. split; [done|]. split; [exists (concat iov); by rewrite app_nil_r|].
      intros Hw _ Hb. by destruct (Hr Hw Hb).
Qed.

Lemma delivers_nil w : delivers [] w w.
Proof. split; [by rewrite app_nil_r|done]. Qed.

Lemma delivers_trans new1 new2 w w1 w2 : delivers new1 w w1 -> delivers new2 w1 w2 -> delivers (new1 ++ new2) w w2.
Proof. intros [Hg Hi] [Hg' Hi']. split; [by rewrite Hg', Hg, app_assoc|]. by rewrite Hi, Hi', app_assoc. Qed.

Lemma rx_recv_ok s n w :
  snet_ok s -> (interrupts w < fuel)%nat ->
  exists r bs w', rx_recv fuel s n w = Some (r, bs, w') /\ receives n w r bs w'.
Proof.
  intros [(_ & _ & Hcb) _ _] Hf. unfold rx_recv. destruct (i_tx (rbuf s)) as [f|].
  - destruct (f (i_ptr (rbuf s)) n w) as [[r bs] w'] eqn:E. exists r, bs, w'. split; [done|].
    exact (Hcb f eq_refl _ _ _ _ _ _ E).
  - destruct (retry_ok (fun w r bs w' => receives n w r bs w') (fun w => sys_recv (fd s) n w) fuel w)
      as (r & bs & w' & -> & Hp & _); [| |done|by eauto].
    + intros w0 r bs w' E. destruct (spec_recv _ _ _ _ _ _ E) as [H1 H2]. pose proof H1 as (_ & Hi & _). done.
    + intros w0 a w1 r a' w2 (Hs & Hi & Hg & Hr) (Hs' & Hi' & Hg' & Hr').
      destruct Hg as [(_ & _ & Hg)|(Hn & _)]; [|unfold zlen in Hn; lia].
      split; [by rewrite Hs'|]. split; [lia|]. split; [|auto].
      destruct Hg' as [(? & -> & Hg')|(? & ? & Hg')]; [left|right]; (split; [done|]); (split; [done|]); exact (delivers_trans [] _ _ _ _ Hg Hg').
Qed.

(** ** Unbuffered transmission *)

(** The world has accepted the first [k] bytes of [bs]. *)
Definition transmitted (bs : bytes) (k : nat) w w' : Prop :=
  idle w w' /\ (interrupts w' <= interrupts w)%nat /\ (reliable w -> reliable w') /\
  (k <= length bs)%nat /\ sent w' = sent w ++ take k bs.

(** The outcome of transmitting all of [bs]: it succeeded, or a prefix went out
    and the failure is recorded. *)
Definition raw_outcome s (bs : bytes) w (r : Z) s' w' : Prop :=
  exists k, transmitted bs k w w' /\
    ((r = zlen bs /\ k = length bs /\ s' = s) \/ (r = -1 /\ s' = system_error w' s)).

Lemma transmitted_step (pre rest : bytes) r w w1 k w2 :
  sends_prefix pre w r w1 -> 0 < r -> transmitted (drop (Z.to_nat r) (pre ++ rest)) k w1 w2 ->
  transmitted (pre ++ rest) (Z.to_nat r + k) w w2.
Proof.
  intros (Hg & Hi & Hs & Hr) Hpos (Hg' & Hi' & Hr' & Hk & Hs'). destruct Hs as [[? _]|[Hle Hs]]; [lia|].
  unfold zlen in Hle. rewrite length_drop in Hk. split; [by eapply idle_trans|]. split; [lia|].
  split; [auto|]. split; [rewrite length_app in *; lia|].
  rewrite Hs', Hs, <- app_assoc. f_equal.
  rewrite <- (take_drop (Z.to_nat r) (pre ++ rest)) at 2. rewrite (take_app_le pre) by lia.
  rewrite take_app_add' by (rewrite length_take; lia). done.
Qed.

Lemma transmitted_zero bs r w w' pre rest :
  bs = pre ++ rest -> sends_prefix pre w r w' -> r <= 0 -> transmitted bs 0 w w'.
Proof.
  intros -> (Hg & Hi & Hs & Hr) Hle. destruct Hs as [[_ Hs]|[? _]]; [|lia].
  split; [done|]. split; [done|]. split; [done|]. split; [lia|]. by rewrite app_nil_r.
Qed.

Lemma transmitted_interrupts bs k w w' : transmitted bs k w w' -> (interrupts w' <= interrupts w)%nat.
Proof. by intros (_ & H & _). Qed.

Lemma send_loop_ok n s buf off w :
  snet_ok s -> (interrupts w < fuel)%nat -> (off <= length buf)%nat -> (length buf - off < n)%nat ->
  exists r s' w' k, send_loop fuel n s buf off true w = Some (r, s', w') /\
    transmitted (drop off buf) k w w' /\ (reliable w -> drop off buf <> [] -> r <> -1) /\
    ((r = zlen buf /\ (off + k)%nat = length buf /\ s' = s) \/ (r = -1 /\ s' = system_error w' s)).
Proof.
  intros Hs. revert off w. induction n as [|n IH]; intros off w Hf Hoff Hn; [lia|]. simpl.
  destruct (tx_send_ok s (drop off buf) w Hs Hf) as (r & w1 & -> & Hp & Hrel). cbn [mbind option_bind].
  case_decide as Hr.
  - exists (-1), (system_error w1 s), w1, 0%nat. split; [done|].
    split; [by apply (transmitted_zero _ r w w1 (drop off buf) []); [rewrite app_nil_r| |]|].
    split; [|by right]. intros Hw Hne. specialize (Hrel Hw Hne). lia.
  - pose proof Hp as (_ & Hi & Hsent & Hreli). destruct Hsent as [[? _]|[Hle _]]; [lia|].
    unfold zlen in Hle. rewrite length_drop in Hle. rewrite decide_False by lia. rewrite andb_true_r.
    case_bool_decide as Ho.
    + destruct (IH (off + Z.to_nat r)%nat w1) as (r2 & s2 & w2 & k & -> & Ht & Hrel2 & Hres); [lia..|].
      exists r2, s2, w2, (Z.to_nat r + k)%nat. split; [done|]. rewrite <- drop_drop in Ht.
      assert (transmitted (drop off buf) (Z.to_nat r + k) w w2) as Ht'.
      { rewrite <- (app_nil_r (drop off buf)) in Ht |- *. rewrite <- (app_nil_r (drop off buf)) in Hp at 1.
        eapply transmitted_step; [|lia|exact Ht]. by rewrite app_nil_r in Hp. }
      split; [exact Ht'|]. split.
      * intros Hw _. apply Hrel2; [auto|]. intros E. apply (f_equal length) in E. rewrite length_drop in E. simpl in E. lia.
      * destruct Hres as [(-> & Hk & ->)|[-> ->]]; [left|by right]. split; [done|]. split; [lia|done].
    + exists (Z.of_nat (off + Z.to_nat r)), s, w1, (Z.to_nat r). split; [done|].
      pose proof (transmitted_step (drop off buf) [] r w w1 0 w1 Hp) as Ht. rewrite app_nil_r, Nat.add_0_r in Ht.
      split; [apply Ht; [lia|]|].
      { split; [done|]. split; [done|]. split; [done|]. split; [lia|]. simpl. by rewrite app_nil_r. }
      split; [lia|]. left. unfold zlen. split; [f_equal; lia|]. split; [lia|done].
Qed.

Lemma send_raw_ok s buf w :
  snet_ok s -> (interrupts w < fuel)%nat ->
  exists r s' w', tnt_io_send_raw fuel s buf true w = Some (r, s', w') /\ raw_outcome s buf w r s' w' /\
    (reliable w -> buf <> [] -> r <> -1).
Proof.
  intros Hs Hf. destruct (send_loop_ok (S (length buf)) s buf 0 w Hs Hf) as (r & s' & w' & k & E & Ht & Hrel & Hres); [lia..|].
  exists r, s', w'. split; [done|]. rewrite drop_0 in *. split; [|done]. exists k. split; [done|]. simpl in Hres. tauto.
Qed.

Lemma advance_concat iov r :
  0 <= r -> concat (advance iov r) = drop (Z.to_nat r) (concat iov).
Proof.
  revert r. induction iov as [|v iov IH]; intros r Hr; simpl; [by rewrite drop_nil|].
  case_decide as Hv; unfold zlen in *.
  - simpl. rewrite drop_app_le by lia. done.
  - rewrite IH by lia. rewrite drop_app_ge by lia. f_equal. lia.
Qed.

Lemma advance_all iov r : zlen (concat iov) <= r -> advance iov r = [].
Proof.
  revert r. induction iov as [|v iov IH]; intros r Hr; simpl in *; [done|].
  unfold zlen in Hr. rewrite length_app in Hr. rewrite decide_False by (unfold zlen; lia). apply IH. unfold zlen. lia.
Qed.

Lemma sendv_loop_ok n s iov total w :
  snet_ok s -> (interrupts w < fuel)%nat -> (length (concat iov) < n)%nat ->
  exists r s' w' k, sendv_loop fuel n s iov total true w = Some (r, s', w') /\
    transmitted (concat iov) k w w' /\
    (reliable w -> i_txv (n_sbuf s) = None -> concat iov <> [] -> 0 <= total -> r <> -1) /\
    ((r = total + zlen (concat iov) /\ k = length (concat iov) /\ s' = s) \/ (r = -1 /\ s' = system_error w' s)).
Proof.
  intros Hs. revert iov total w. induction n as [|n IH]; intros iov total w Hf Hn; [lia|].
  destruct iov as [|v iov].
  { exists total, s, w, 0%nat. split; [done|]. split; [repeat split; auto; simpl; by rewrite app_nil_r|].
    split; [done|]. left. simpl. unfold zlen. simpl. split; [lia|done]. }
  set (io := v :: iov) in *. cbn [sendv_loop]. change (match io with [] => _ | _ => ?x end) with x.
  destruct (tx_sendv_ok s io w Hs Hf) as (r & w1 & rest & -> & (pre & Epre & Hp) & Hrel). cbn [mbind option_bind].
  case_decide as Hr.
  - exists (-1), (system_error w1 s), w1, 0%nat. split; [done|].
    split; [by apply (transmitted_zero _ r w w1 pre rest)|].
    split; [|by right]. intros Hw Hn' Hne _. specialize (Hrel Hw Hn' Hne). lia.
  - pose proof Hp as (_ & Hi & Hsent & Hreli). destruct Hsent as [[? _]|[Hle _]]; [lia|].
    assert (zlen pre <= zlen (concat io)) as Hpl by (rewrite Epre; unfold zlen; rewrite length_app; lia).
    pose proof (advance_concat io r ltac:(lia)) as Ead.
    destruct (decide (advance io r = [])) as [Hadv|Hadv].
    { rewrite Hadv in *. apply (f_equal length) in Ead. rewrite length_drop in Ead. cbn [length concat] in Ead.
      assert (Z.to_nat r = length (concat io)) as Er by (unfold zlen in *; lia).
      exists (total + r), s, w1, (Z.to_nat r). split; [by destruct n|]. split; [|split; [intros; lia|]].
      - pose proof (transmitted_step pre rest r w w1 0 w1 Hp ltac:(lia)) as Ht. rewrite Nat.add_0_r, <- Epre in Ht.
        apply Ht. split; [done|]. split; [done|]. split; [done|]. split; [lia|]. simpl. by rewrite app_nil_r.
      - left. unfold zlen. split; [lia|]. split; [lia|done]. }
    destruct (IH (advance io r) (total + r) w1) as (r2 & s2 & w2 & k & -> & Ht & Hrel2 & Hres);
      [lia|rewrite Ead, length_drop; unfold zlen in *; lia|]. rewrite Ead in *. rewrite Epre in Ht.
    exists r2, s2, w2, (Z.to_nat r + k)%nat. split; [done|].
    assert (transmitted (concat io) (Z.to_nat r + k) w w2) as Ht'.
    { rewrite Epre. eapply transmitted_step; [done|lia|exact Ht]. }
    split; [exact Ht'|]. destruct Hres as [(-> & Hk & ->)|[-> ->]].
    + split; [unfold zlen; lia|]. left. unfold zlen in *. rewrite length_drop in *. split; [lia|]. split; [lia|done].
    + split; [|by right]. intros Hw Hn' Hne Ht0.
      apply Hrel2; auto; [|lia]. intros E. apply (f_equal length) in E. rewrite length_drop in E.
      apply Hadv, advance_all. unfold zlen in *. cbn [length] in E. lia.
Qed.

Lemma sendv_raw_ok s iov w :
  snet_ok s -> (interrupts w < fuel)%nat ->
  exists r s' w', tnt_io_sendv_raw fuel s iov true w = Some (r, s', w') /\ raw_outcome s (concat iov) w r s' w' /\
    (reliable w -> i_txv (n_sbuf s) = None -> concat iov <> [] -> r <> -1).
Proof.
  intros Hs Hf.
  destruct (sendv_loop_ok (S (length (concat iov))) s iov 0 w Hs Hf) as (r & s' & w' & k & E & Ht & Hrel & Hres); [lia|].
  exists r, s', w'. split; [done|]. split; [|by intros; apply Hrel]. exists k. split; [done|]. simpl in Hres. tauto.
Qed.

(** ** Buffered transmission *)

(** The errors of a transfer; an error is kept or replaced by one of them. *)
Definition io_error (e : tnt_error) : Prop := e = TNT_EBIG \/ e = TNT_ESYSTEM.
Definition error_kept (e e' : tnt_error) : Prop := e' = e \/ io_error e'.

Lemma error_kept_trans e1 e2 e3 : error_kept e1 e2 -> error_kept e2 e3 -> error_kept e1 e3.
Proof. unfold error_kept. intros [-> |?] [-> |?]; auto. Qed.
Lemma kept_big e : error_kept e TNT_EBIG.
Proof. right. by left. Qed.
Lemma kept_system e : error_kept e TNT_ESYSTEM.
Proof. right. by right. Qed.
#[local] Hint Resolve kept_big kept_system : core.

(** The streams differ at most in the send buffer, its offset and the error. *)
Definition same_net s s' : Prop :=
  exists p off e er, s' = Snet (opt s) (connected s) (fd s)
      (Iob p off (i_top (n_sbuf s)) (i_size (n_sbuf s)) (i_tx (n_sbuf s)) (i_txv (n_sbuf s)) (i_ptr (n_sbuf s)))
      (rbuf s) e er (greeting s) (n_schema s) (inited s) /\
    (p = PNull <-> i_buf (n_sbuf s) = PNull) /\ error_kept (n_error s) e.

Lemma same_net_refl s : same_net s s.
Proof. exists (i_buf (n_sbuf s)), (i_off (n_sbuf s)), (n_error s), (errno_ s). split; [by destruct s as [? ? ? [] ? ? ? ? ? ?]|]. split; [done|by left]. Qed.

Lemma same_net_trans s1 s2 s3 : same_net s1 s2 -> same_net s2 s3 -> same_net s1 s3.
Proof.
  intros (p & off & e & er & -> & Hp & He) (p' & off' & e' & er' & -> & Hp' & He'). simpl in *.
  exists p', off', e', er'. split; [done|]. split; [tauto|by eapply error_kept_trans].
Qed.

Lemma same_net_error s e er :
  error_kept (n_error s) e ->
  same_net s (Snet (opt s) (connected s) (fd s) (n_sbuf s) (rbuf s) e er (greeting s) (n_schema s) (inited s)).
Proof. exists (i_buf (n_sbuf s)), (i_off (n_sbuf s)), e, er. split; [|done]. by destruct s as [? ? ? [] ? ? ? ? ? ?]. Qed.

Lemma same_net_callbacks s s' : same_net s s' -> callbacks_ok s -> callbacks_ok s'.
Proof. by intros (p & off & e & er & -> & _). Qed.

Lemma system_error_ok w s : snet_ok s -> snet_ok (system_error w s).
Proof. by intros []. Qed.

Lemma sbuf_put_ok s bs :
  snet_ok s -> i_buf (n_sbuf s) <> PNull -> (i_off (n_sbuf s) + length bs <= i_size (n_sbuf s))%nat ->
  exists s', sbuf_put s bs = Some s' /\ snet_ok s' /\ same_net s s' /\ buffered s' = buffered s ++ bs /\
    i_off (n_sbuf s') = (i_off (n_sbuf s) + length bs)%nat.
Proof.
  intros [Hcb Hsb Hrb] Hne Hle. unfold sbuf_put, block_ok, buffered in *.
  destruct (i_buf (n_sbuf s)) as [|b|b|] eqn:E; try done. destruct Hsb as [Hlen Hoff].
  rewrite store_heap by lia. cbn [mbind option_bind]. eexists. split; [done|]. simpl.
  split; [split; [done| |done]|].
  - unfold block_ok. simpl. len.
  - split; [by do 4 eexists; split; [done|rewrite E; split; [done|by left]]|]. split; [|done].
    rewrite app_assoc, take_app_length'; [done|len].
Qed.

Lemma sendv_put_ok s iov :
  snet_ok s -> i_buf (n_sbuf s) <> PNull -> (i_off (n_sbuf s) + length (concat iov) <= i_size (n_sbuf s))%nat ->
  exists s', tnt_io_sendv_put s iov = Some s' /\ snet_ok s' /\ same_net s s' /\
    buffered s' = buffered s ++ concat iov.
Proof.
  revert s. induction iov as [|v iov IH]; intros s Hs Hne Hle; simpl in *.
  - exists s. rewrite app_nil_r. split; [done|]. split; [done|]. split; [apply same_net_refl|done].
  - rewrite length_app in Hle. destruct (sbuf_put_ok s v Hs Hne) as (s1 & -> & Hs1 & Hn1 & Hb1 & Ho1); [lia|].
    cbn [mbind option_bind]. pose proof Hn1 as (p & off & e & er & -> & Hp & _). simpl in Ho1.
    destruct (IH _ Hs1) as (s2 & -> & Hs2 & Hn2 & Hb2); simpl; [tauto|lia|].
    exists s2. split; [done|]. split; [done|]. split; [by eapply same_net_trans|].
    by rewrite Hb2, Hb1, <- app_assoc.
Qed.

(** What a buffered write of [bs] does. *)
Definition write_outcome s (bs : bytes) w (r : Z) s' w' : Prop :=
  snet_ok s' /\ same_net s s' /\ (interrupts w' <= interrupts w)%nat /\ idle w w' /\
  (reliable w -> reliable w') /\
  ((r = zlen bs /\ written s' w' = written s w ++ bs) \/
   (r = -1 /\ n_error s' = TNT_EBIG /\ (i_size (n_sbuf s) < length bs)%nat /\ w' = w /\ buffered s' = buffered s) \/
   (r = -1 /\ n_error s' = TNT_ESYSTEM /\ buffered s' = buffered s /\
    sent w `prefix_of` sent w' /\ sent w' `prefix_of` written s w ++ bs)).

Lemma raw_write_outcome s bs w r s' w' :
  snet_ok s -> i_buf (n_sbuf s) = PNull -> raw_outcome s bs w r s' w' -> write_outcome s bs w r s' w'.
Proof.
  intros Hs Hn (k & (Hg & Hi & Hr & Hk & Hsent) & Hres).
  assert (buffered s = []) as Hb by (unfold buffered; by rewrite Hn).
  unfold write_outcome, written. rewrite Hb, app_nil_r.
  destruct Hres as [(-> & -> & ->)|[-> ->]].
  - split; [done|]. split; [apply same_net_refl|]. split; [done|]. split; [done|]. split; [done|]. left. split; [done|].
    by rewrite Hsent, firstn_all, Hb, app_nil_r.
  - split; [by apply system_error_ok|]. split; [by apply same_net_error; simpl|]. split; [done|]. split; [done|]. split; [done|].
    right; right. split; [done|]. split; [done|]. split; [by unfold buffered; simpl; rewrite Hn|]. rewrite Hsent.
    split; [by apply prefix_app_r|]. apply prefix_app. apply prefix_take.
Qed.

Lemma load_buffered s :
  snet_ok s -> i_buf (n_sbuf s) <> PNull ->
  load (i_buf (n_sbuf s)) 0 (i_off (n_sbuf s)) = Some (buffered s) /\
  length (buffered s) = i_off (n_sbuf s).
Proof.
  intros [_ Hsb _] Hne. unfold block_ok, buffered, load in *.
  destruct (i_buf (n_sbuf s)) as [|b|b|]; try done. destruct Hsb as [Hl Ho]. simpl. unfold slice.
  rewrite decide_True by lia. rewrite drop_0. split; [done|]. len.
Qed.

(** The stream after a successful flush of the buffer. *)
Lemma set_off_zero s :
  snet_ok s -> snet_ok (put_sbuf (set_off 0 (n_sbuf s)) s) /\ same_net s (put_sbuf (set_off 0 (n_sbuf s)) s) /\
    buffered (put_sbuf (set_off 0 (n_sbuf s)) s) = [].
Proof.
  intros [Hcb Hsb Hrb]. split; [split; [done| |done]|].
  - unfold block_ok in *. simpl. destruct (i_buf (n_sbuf s)); try done. split; [apply Hsb|lia].
  - split; [do 4 eexists; split; [done|split; [done|by left]]|]. unfold buffered. simpl. by destruct (i_buf (n_sbuf s)).
Qed.

(** The common part of [tnt_io_send] and [tnt_io_sendv] over a buffer: [put]
    copies [bs] into it. *)
Lemma buffered_write_ok s (put : snet W Sch -> option (snet W Sch)) bs w :
  snet_ok s -> (interrupts w < fuel)%nat -> i_buf (n_sbuf s) <> PNull ->
  (forall s, snet_ok s -> i_buf (n_sbuf s) <> PNull -> (i_off (n_sbuf s) + length bs <= i_size (n_sbuf s))%nat ->
     exists s', put s = Some s' /\ snet_ok s' /\ same_net s s' /\ buffered s' = buffered s ++ bs) ->
  exists r s' w',
    (if decide (i_size (n_sbuf s) < length bs)%nat then Some (-1, put_error TNT_EBIG s, w) else
     if decide (i_off (n_sbuf s) + length bs <= i_size (n_sbuf s))%nat then
       s ← put s; Some (zlen bs, s, w)
     else
       b ← load (i_buf (n_sbuf s)) 0 (i_off (n_sbuf s));
       '(r, s, w) ← tnt_io_send_raw fuel s b true w;
       if decide (r = -1) then Some (-1, s, w) else
       s ← put (put_sbuf (set_off 0 (n_sbuf s)) s); Some (zlen bs, s, w)) = Some (r, s', w') /\
    write_outcome s bs w r s' w'.
Proof.
  intros Hs Hf Hne Hput. destruct (load_buffered s Hs Hne) as [El Hlb]. unfold write_outcome.
  case_decide as Hbig.
  { do 3 eexists. split; [done|]. split; [by destruct Hs|]. split; [by apply same_net_error; simpl|].
    repeat (split; [done|]). right; left. done. }
  case_decide as Hfit.
  { destruct (Hput s Hs Hne Hfit) as (s' & -> & Hs' & Hn' & Hb'). cbn [mbind option_bind].
    do 3 eexists. split; [done|]. repeat (split; [done|]). left. split; [done|]. unfold written. by rewrite Hb', app_assoc. }
  rewrite El. cbn [mbind option_bind].
  destruct (send_raw_ok s (buffered s) w Hs Hf) as (r & s1 & w1 & -> & (k & (Hg & Hi & Hr & Hk & Hsent) & Hres) & _).
  cbn [mbind option_bind]. destruct Hres as [(-> & -> & ->)|[-> ->]].
  - rewrite decide_False by (unfold zlen; lia). destruct (set_off_zero s Hs) as (Hs0 & Hn0 & Hb0).
    destruct (Hput _ Hs0) as (s' & -> & Hs' & Hn' & Hb'); [done|simpl; lia|]. cbn [mbind option_bind].
    do 3 eexists. split; [done|]. split; [done|]. split; [exact (same_net_trans _ _ _ Hn0 Hn')|]. split; [done|]. split; [done|].
    split; [done|]. left. split; [done|]. unfold written. rewrite Hb', Hb0, Hsent, firstn_all. done.
  - rewrite decide_True by done. do 3 eexists. split; [done|]. split; [by apply system_error_ok|].
    split; [by apply same_net_error; simpl|]. split; [done|]. split; [done|]. split; [done|]. right; right.
    split; [done|]. split; [done|]. split; [done|]. rewrite Hsent. unfold written. rewrite <- app_assoc.
    split; [by apply prefix_app_r|]. apply prefix_app. apply prefix_app_r, prefix_take.
Qed.

Lemma send_ok s buf w :
  snet_ok s -> (interrupts w < fuel)%nat ->
  exists r s' w', tnt_io_send fuel s buf w = Some (r, s', w') /\ write_outcome s buf w r s' w'.
Proof.
  intros Hs Hf. unfold tnt_io_send. destruct (i_buf (n_sbuf s)) eqn:E.
  - destruct (send_raw_ok s buf w Hs Hf) as (r & s' & w' & -> & Ho & _). do 3 eexists. split; [done|].
    by apply raw_write_outcome.
  - rewrite <- E. apply (buffered_write_ok s (fun s => sbuf_put s buf)); [done|done|by rewrite E|].
    intros s0 H1 H2 H3. destruct (sbuf_put_ok s0 buf H1 H2 H3) as (s' & ? & ? & ? & ? & _). eauto.
  - destruct Hs as [_ Hsb _]. unfold block_ok in Hsb. by rewrite E in Hsb.
  - destruct Hs as [_ Hsb _]. unfold block_ok in Hsb. by rewrite E in Hsb.
Qed.

Lemma sendv_ok s iov w :
  snet_ok s -> (interrupts w < fuel)%nat ->
  exists r s' w', tnt_io_sendv fuel s iov w = Some (r, s', w') /\ write_outcome s (concat iov) w r s' w' /\
    (reliable w -> i_buf (n_sbuf s) = PNull -> i_txv (n_sbuf s) = None -> concat iov <> [] -> r <> -1).
Proof.
  intros Hs Hf. unfold tnt_io_sendv. destruct (i_buf (n_sbuf s)) eqn:E.
  - destruct (sendv_raw_ok s iov w Hs Hf) as (r & s' & w' & -> & Ho & Hrel). do 3 eexists. split; [done|].
    split; [by apply raw_write_outcome|]. by intros Hw _; apply Hrel.
  - rewrite sum_length_concat. rewrite <- E.
    destruct (buffered_write_ok s (fun s => tnt_io_sendv_put s iov) (concat iov) w) as (r & s' & w' & E' & Ho);
      [done|done|by rewrite E|by intros s0; apply sendv_put_ok|].
    unfold zlen in E'. rewrite E'. do 3 eexists. split; [done|]. split; [done|]. by rewrite E.
  - destruct Hs as [_ Hsb _]. unfold block_ok in Hsb. by rewrite E in Hsb.
  - destruct Hs as [_ Hsb _]. unfold block_ok in Hsb. by rewrite E in Hsb.
Qed.

(** A flush: everything written has been sent, or a prefix of it. *)
Lemma flush_ok s w :
  snet_ok s -> (interrupts w < fuel)%nat ->
  exists r s' w', tnt_io_flush fuel s w = Some (r, s', w') /\ snet_ok s' /\ same_net s s' /\
    (interrupts w' <= interrupts w)%nat /\ idle w w' /\ (reliable w -> r <> -1) /\
    ((r = zlen (buffered s) /\ buffered s' = [] /\ sent w' = written s w) \/
     (r = -1 /\ n_error s' = TNT_ESYSTEM /\ buffered s' = buffered s /\
      exists k, sent w' = sent w ++ take k (buffered s))).
Proof.
  intros Hs Hf. unfold tnt_io_flush, written. destruct (i_buf (n_sbuf s)) as [|b|b|] eqn:E.
  - pose proof (ok_sbuf s Hs) as Hsb. unfold block_ok in Hsb. rewrite E in Hsb. rewrite decide_True by done.
    assert (buffered s = []) as Hb by (unfold buffered; by rewrite E). rewrite Hb, app_nil_r.
    do 3 eexists. split; [done|]. split; [done|]. split; [apply same_net_refl|]. repeat (split; [done|]).
    by left.
  - assert (i_buf (n_sbuf s) <> PNull) as Hne by (by rewrite E). destruct (load_buffered s Hs Hne) as [El Hlb].
    rewrite <- E, El. case_decide as Ho.
    + assert (buffered s = []) as Hb by (apply nil_length_inv; lia). rewrite Hb, app_nil_r.
      do 3 eexists. split; [done|]. split; [done|]. split; [apply same_net_refl|]. repeat (split; [done|]).
      by left.
    + cbn [mbind option_bind].
      destruct (send_raw_ok s (buffered s) w Hs Hf) as (r & s1 & w1 & -> & (k & (Hg & Hi & Hr & Hk & Hsent) & Hres) & Hrel).
      cbn [mbind option_bind]. destruct Hres as [(-> & -> & ->)|[-> ->]].
      * rewrite decide_False by (unfold zlen; lia). destruct (set_off_zero s Hs) as (Hs0 & Hn0 & Hb0).
        do 3 eexists. split; [done|]. repeat (split; [done|]). split; [intros; unfold zlen; lia|]. left. split; [done|].
        split; [done|]. by rewrite Hsent, firstn_all.
      * rewrite decide_True by done. do 3 eexists. split; [done|]. split; [by apply system_error_ok|].
        split; [by apply same_net_error; simpl|]. repeat (split; [done|]). split; [|right; by eauto].
        intros Hw. exfalso. apply (Hrel Hw); [|done]. intros Hb. rewrite Hb in Hlb. simpl in Hlb. lia.
  - destruct Hs as [_ Hsb _]. unfold block_ok in Hsb. by rewrite E in Hsb.
  - destruct Hs as [_ Hsb _]. unfold block_ok in Hsb. by rewrite E in Hsb.
Qed.

(** ** Reception *)

(** The world has delivered [new]. *)
Definition received (new : bytes) w w' : Prop :=
  sent w' = sent w /\ (interrupts w' <= interrupts w)%nat /\ (reliable w -> reliable w') /\
  delivers new w w'.

Lemma received_trans new1 new2 w w1 w2 :
  received new1 w w1 -> received new2 w1 w2 -> received (new1 ++ new2) w w2.
Proof.
  intros (Hs & Hi & Hr & Hg) (Hs' & Hi' & Hr' & Hg'). split; [by rewrite Hs'|]. split; [lia|].
  split; [auto|]. by eapply delivers_trans.
Qed.

Lemma received_nil w : received [] w w.
Proof. split; [done|]. split; [done|]. split; [done|apply delivers_nil]. Qed.

Lemma recv_loop_ok n s size acc all w :
  snet_ok s -> (interrupts w < fuel)%nat -> (length acc <= size)%nat -> (size - length acc < n)%nat ->
  exists r s' w' new, recv_loop fuel n s size acc all w = Some (r, acc ++ new, s', w') /\
    received new w w' /\ (length (acc ++ new) <= size)%nat /\
    ((r = zlen (acc ++ new) /\ s' = s /\ (0 < length new)%nat /\ (all = true -> length (acc ++ new) = size)) \/
     (r = -1 /\ s' = system_error w' s /\ (all = false -> new = []))).
Proof.
  intros Hs. revert acc w. induction n as [|n IH]; intros acc w Hf Hacc Hn; [lia|]. simpl.
  destruct (rx_recv_ok s (size - length acc) w Hs Hf) as (r & bs & w1 & -> & (Hsent & Hi & Hg & Hr)).
  cbn [mbind option_bind]. case_decide as Hle.
  - destruct Hg as [(_ & -> & Hg)|(-> & Hb & _)]; [|unfold zlen in Hle; lia].
    exists (-1), (system_error w1 s), w1, []. rewrite app_nil_r. split; [done|].
    split; [done|]. split; [done|]. by right.
  - destruct Hg as [(? & _)|(-> & Hb & Hg)]; [done|].
    rewrite (decide_False (P := (size < length (acc ++ bs))%nat)) by len.
    assert (received bs w w1) as Hrec by done.
    destruct (bool_decide (length (acc ++ bs) ≠ size) && all) eqn:Hgo.
    + apply andb_true_iff in Hgo as [Hgo ->]. apply bool_decide_eq_true in Hgo.
      destruct (IH (acc ++ bs) w1) as (r & s' & w2 & new & -> & Hrec2 & Hl & Hres); [lia|len|len|].
      exists r, s', w2, (bs ++ new). rewrite app_assoc. split; [done|]. split; [by eapply received_trans|].
      split; [done|]. destruct Hres as [(-> & -> & Hnew & Hall)|(-> & -> & Hall)]; [left|by right].
      split; [done|]. split; [done|]. split; [len|done].
    + exists (zlen (acc ++ bs)), s, w1, bs. split; [done|]. split; [done|]. split; [len|]. left.
      split; [done|]. split; [done|]. split; [lia|]. intros ->. rewrite andb_true_r in Hgo.
      apply bool_decide_eq_false in Hgo. by apply dec_stable.
Qed.

(** The streams differ at most in the receive buffer, its positions and the error. *)
Definition same_but_rbuf s s' : Prop :=
  exists p off top e er, s' = Snet (opt s) (connected s) (fd s) (n_sbuf s)
      (Iob p off top (i_size (rbuf s)) (i_tx (rbuf s)) (i_txv (rbuf s)) (i_ptr (rbuf s)))
      e er (greeting s) (n_schema s) (inited s) /\ error_kept (n_error s) e.

(** The state of the receive buffer: the block [b] with [off] and [top]. *)
Definition rbuf_is s (b : bytes) (off top : nat) : Prop :=
  i_buf (rbuf s) = PHeap b /\ i_off (rbuf s) = off /\ i_top (rbuf s) = top /\
  length b = i_size (rbuf s) /\ (off <= top <= i_size (rbuf s))%nat.

Lemma waiting_is s b off top : rbuf_is s b off top -> waiting s = drop off (take top b).
Proof. intros (E & <- & <- & _). unfold waiting. by rewrite E. Qed.

(** The outcome of [tnt_io_recv] for [size] bytes when [acc] have been copied. *)
Definition recv_outcome s (size : nat) (acc : bytes) w (r : Z) (out : bytes) s' w' : Prop :=
  snet_ok s' /\ same_but_rbuf s s' /\
  ((r = Z.of_nat size /\ length out = size /\
    exists new, received new w w' /\ acc ++ waiting s ++ new = out ++ waiting s') \/
   (r = -1 /\ n_error s' = TNT_ESYSTEM /\ (length out <= size)%nat /\ exists new, received new w w')).

Lemma same_but_rbuf_error s e er :
  error_kept (n_error s) e ->
  same_but_rbuf s (Snet (opt s) (connected s) (fd s) (n_sbuf s) (rbuf s) e er (greeting s) (n_schema s) (inited s)).
Proof. exists (i_buf (rbuf s)), (i_off (rbuf s)), (i_top (rbuf s)), e, er. split; [by destruct s as [? ? ? ? [] ? ? ? ? ?]|done]. Qed.

Lemma same_but_rbuf_refl s : same_but_rbuf s s.
Proof.
  exists (i_buf (rbuf s)), (i_off (rbuf s)), (i_top (rbuf s)), (n_error s), (errno_ s).
  split; [by destruct s as [? ? ? ? [] ? ? ? ? ?]|by left].
Qed.

Lemma same_but_rbuf_trans s1 s2 s3 : same_but_rbuf s1 s2 -> same_but_rbuf s2 s3 -> same_but_rbuf s1 s3.
Proof.
  intros (p & off & top & e & er & -> & He) (p' & off' & top' & e' & er' & -> & He').
  do 5 eexists. split; [done|]. by eapply error_kept_trans.
Qed.

Lemma take_part (b : bytes) off left top :
  (off + left <= top)%nat -> (top <= length b)%nat ->
  drop off (take top b) = take left (drop off b) ++ drop (off + left) (take top b).
Proof.
  intros H1 H2. rewrite <- (take_drop left (drop off (take top b))) at 1. rewrite drop_drop.
  f_equal. rewrite skipn_firstn_comm, take_take. f_equal. lia.
Qed.

(** A reception satisfied by the buffer. *)
Lemma recv_from_buffer s b off top size left acc w :
  snet_ok s -> rbuf_is s b off top -> (off + left <= top)%nat -> (length acc + left)%nat = size ->
  exists bs, load (i_buf (rbuf s)) (i_off (rbuf s)) left = Some bs /\
    recv_outcome s size acc w (Z.of_nat size) (acc ++ bs) (put_rbuf (set_off (off + left) (rbuf s)) s) w.
Proof.
  intros Hs Hb Hle Hsz. pose proof (waiting_is _ _ _ _ Hb) as Hw. destruct Hb as (E & <- & <- & Hlb & Hbd).
  rewrite E. unfold load, slice. simpl. rewrite decide_True by lia. eexists. split; [done|].
  split; [|split].
  - destruct Hs as [Hcb Hsb [Hrb Ho]]. split; [done|done|]. unfold block_ok in *. simpl. rewrite E in *. lia.
  - do 5 eexists. split; [done|by left].
  - left. split; [done|]. split; [rewrite length_app, length_take, length_drop; lia|].
    exists []. split; [apply received_nil|]. rewrite Hw, app_nil_r, <- app_assoc. f_equal.
    unfold waiting. simpl. rewrite E. apply take_part; lia.
Qed.

(** Refilling the buffer. *)
Lemma refill_ok s b off top w :
  snet_ok s -> rbuf_is s b off top -> (interrupts w < fuel)%nat ->
  exists r bs s1 w1 p, tnt_io_recv_raw fuel (put_rbuf (set_off 0 (rbuf s)) s) (i_size (rbuf s)) false w
      = Some (r, bs, s1, w1) /\ received bs w w1 /\ store (i_buf (rbuf s)) 0 bs = Some p /\
    ((r = zlen bs /\ (0 < length bs)%nat /\ s1 = put_rbuf (set_off 0 (rbuf s)) s /\
      exists b', p = PHeap b' /\ length b' = i_size (rbuf s) /\ take (length bs) b' = bs /\
        (length bs <= i_size (rbuf s))%nat) \/
     (r = -1 /\ bs = [] /\ s1 = system_error w1 (put_rbuf (set_off 0 (rbuf s)) s) /\ p = PHeap b)).
Proof.
  intros Hs (E & <- & <- & Hlb & Hbd) Hf.
  assert (snet_ok (put_rbuf (set_off 0 (rbuf s)) s)) as Hs0.
  { destruct Hs as [Hcb Hsb [Hrb Ho]]. split; [done|done|]. unfold block_ok in *. simpl. rewrite E in *. split; [done|lia]. }
  destruct (recv_loop_ok (S (i_size (rbuf s))) _ (i_size (rbuf s)) [] false w Hs0 Hf) as (r & s1 & w1 & new & Er & Hrec & Hl & Hres);
    [simpl; lia..|]. simpl app in *.
  exists r, new, s1, w1, (PHeap (new ++ drop (length new) b)). split; [exact Er|]. split; [done|].
  split; [rewrite E, store_heap by lia; done|]. destruct Hres as [(-> & -> & Hn & _)|(-> & -> & Hn)].
  - left. split; [done|]. split; [done|]. split; [done|]. eexists. split; [done|].
    split; [rewrite length_app, length_drop; lia|]. split; [by rewrite take_app_length|done].
  - rewrite (Hn eq_refl). right. by rewrite drop_0.
Qed.

(** The stream after a refill by [bs], [k] bytes of it read. *)
Lemma refilled_ok s b off top bs b' k :
  snet_ok s -> rbuf_is s b off top -> length b' = i_size (rbuf s) -> take (length bs) b' = bs ->
  (k <= length bs <= i_size (rbuf s))%nat ->
  let s' := put_rbuf (Iob (PHeap b') k (length bs) (i_size (rbuf s)) (i_tx (rbuf s)) (i_txv (rbuf s)) (i_ptr (rbuf s))) s in
  snet_ok s' /\ same_but_rbuf s s' /\ rbuf_is s' b' k (length bs) /\ waiting s' = drop k bs.
Proof.
  intros [Hcb Hsb [Hrb Ho]] (E & <- & <- & Hlb & Hbd) Hl Ht Hk s'.
  split; [|split; [do 5 eexists; split; [done|by left]|split; [done|]]].
  - split; [done|done|]. unfold block_ok. simpl. lia.
  - unfold waiting. simpl. by rewrite Ht.
Qed.

Lemma recv_buf_loop_ok n s b off top size left acc w :
  snet_ok s -> rbuf_is s b off top -> (interrupts w < fuel)%nat -> (length acc + left)%nat = size ->
  (left < n)%nat -> (off < top \/ left + 1 < n)%nat ->
  exists r out s' w', recv_buf_loop fuel n s size left acc w = Some (r, out, s', w') /\
    recv_outcome s size acc w r out s' w'.
Proof.
  intros Hs Hb. revert s b off top left acc w Hs Hb.
  induction n as [|n IH]; intros s b off top left acc w Hs Hb Hf Hsz Hn Hn'; [lia|]. cbn [recv_buf_loop].
  pose proof Hb as (E & Eo & Et & Hlb & Hbd). pose proof (waiting_is _ _ _ _ Hb) as Hw.
  case_decide as Hfit.
  { rewrite Eo, Et in Hfit. destruct (recv_from_buffer s b off top size left acc w Hs Hb Hfit Hsz) as (bs & -> & Ho).
    cbn [mbind option_bind]. rewrite Eo. do 4 eexists. by split. }
  rewrite Eo, Et in *. rewrite decide_False by lia.
  assert (load (i_buf (rbuf s)) off (top - off) = Some (waiting s)) as ->.
  { rewrite E, Hw. unfold load, slice. simpl. rewrite decide_True by lia. f_equal. rewrite skipn_firstn_comm. done. }
  assert (length (waiting s) = top - off)%nat as Hlw by (rewrite Hw, length_drop, length_take; lia).
  cbn [mbind option_bind].
  destruct (refill_ok s b off top w Hs Hb Hf) as (r & bs & s1 & w1 & p & -> & Hrec & Hst & Hres).
  cbn [mbind option_bind]. destruct Hres as [(-> & Hpos & -> & b' & -> & Hlb' & Htk & Hlbs)|(-> & -> & -> & ->)].
  - change (i_buf (rbuf (put_rbuf (set_off 0 (rbuf s)) s))) with (i_buf (rbuf s)). rewrite Hst. cbn [mbind option_bind].
    rewrite decide_False by (unfold zlen; lia). rewrite to_nat_zlen.
    destruct (decide (left - (top - off) <= length bs)%nat) as [Hrv|Hrv].
    + assert (load (PHeap b') 0 (left - (top - off)) = Some (take (left - (top - off)) bs)) as ->.
      { unfold load, slice. simpl. rewrite decide_True by lia. rewrite drop_0, <- Htk, take_take. do 2 f_equal. lia. }
      cbn [mbind option_bind]. do 4 eexists. split; [reflexivity|].
      destruct (refilled_ok s b off top bs b' (left - (top - off)) Hs Hb Hlb' Htk ltac:(lia)) as (H1 & H2 & _ & H4).
      split; [exact H1|]. split; [exact H2|]. left. split; [done|].
      split; [rewrite !length_app, length_take; lia|]. exists bs. split; [done|].
      unfold set_off, set_top, set_buf, put_rbuf in *. simpl in *. rewrite H4, <- !app_assoc, take_drop. done.
    + destruct (refilled_ok s b off top bs b' 0 Hs Hb Hlb' Htk ltac:(lia)) as (H1 & H2 & H3 & H4).
      pose proof Hrec as (_ & Hi & _ & _).
      edestruct (IH _ b' 0%nat (length bs) (left - (top - off))%nat (acc ++ waiting s) w1 H1 H3) as
        (r & out & s' & w' & E' & Hs' & Hsame & Hres); [lia|rewrite length_app; lia|lia|lia|].
      unfold set_off, set_top, set_buf, put_rbuf in *. simpl in *. rewrite E'.
      do 4 eexists. split; [reflexivity|]. split; [done|]. split; [exact (same_but_rbuf_trans _ _ _ H2 Hsame)|].
      destruct Hres as [(-> & Hlo & new & Hrec2 & Heq)|(-> & He & Hlo & new & Hrec2)].
      * left. split; [done|]. split; [done|]. exists (bs ++ new). split; [exact (received_trans _ _ _ _ _ Hrec Hrec2)|].
        rewrite <- Heq, H4, drop_0, <- !app_assoc. done.
      * right. split; [done|]. split; [done|]. split; [done|]. exists (bs ++ new). exact (received_trans _ _ _ _ _ Hrec Hrec2).
  - change (i_buf (rbuf (system_error w1 (put_rbuf (set_off 0 (rbuf s)) s)))) with (i_buf (rbuf s)). rewrite Hst.
    cbn [mbind option_bind]. rewrite decide_True by lia. do 4 eexists. split; [reflexivity|].
    split; [|split; [by do 5 eexists; split; [done|simpl; auto]|right; split; [done|split; [done|split; [rewrite length_app; lia|by exists []]]]]].
    destruct Hs as [Hcb Hsb [Hrb Ho]]. split; [done|done|]. unfold block_ok in *. simpl in *. lia.
Qed.

Lemma recv_ok s size w :
  snet_ok s -> (interrupts w < fuel)%nat ->
  exists r out s' w', tnt_io_recv fuel s size w = Some (r, out, s', w') /\ recv_outcome s size [] w r out s' w'.
Proof.
  intros Hs Hf. pose proof (ok_rbuf s Hs) as [Hrb Ho]. unfold block_ok in Hrb. unfold tnt_io_recv, tnt_io_recv_raw.
  destruct (i_buf (rbuf s)) as [|b|b|] eqn:E; try done.
  - destruct (recv_loop_ok (S size) s size [] true w Hs Hf) as (r & s' & w' & new & -> & Hrec & Hl & Hres); [simpl; lia..|].
    do 4 eexists. split; [reflexivity|]. simpl in *.
    assert (waiting s = []) as Hw by (unfold waiting; by rewrite E). unfold recv_outcome.
    destruct Hres as [(-> & -> & Hn & Hall)|(-> & -> & _)].
    + specialize (Hall eq_refl). split; [done|]. split; [apply same_but_rbuf_refl|].
      left. split; [unfold zlen; lia|]. split; [done|]. exists new. split; [done|]. by rewrite Hw, app_nil_r.
    + split; [by apply system_error_ok|]. split; [by apply same_but_rbuf_error; simpl|].
      right. split; [done|]. split; [done|]. split; [done|]. by exists new.
  - assert (rbuf_is s b (i_off (rbuf s)) (i_top (rbuf s))) as Hb by (split; [done|]; split; [done|]; split; [done|]; lia).
    apply (recv_buf_loop_ok (S (S size)) s b (i_off (rbuf s)) (i_top (rbuf s)) size size [] w Hs Hb Hf); simpl; lia.
Qed.

(** ** Sequences of calls *)

Inductive write_op := Send (buf : bytes) | Sendv (iov : list bytes) | Flush.

Definition payload (op : write_op) : bytes :=
  match op with Send buf => buf | Sendv iov => concat iov | Flush => [] end.

Definition run_write (op : write_op) s w : option (Z * snet W Sch * W) :=
  match op with
  | Send buf => tnt_io_send fuel s buf w
  | Sendv iov => tnt_io_sendv fuel s iov w
  | Flush => tnt_io_flush fuel s w
  end.

(** The results, and what the calls leave. *)
Fixpoint run_writes (ops : list write_op) s w : option (list Z * snet W Sch * W) :=
  match ops with
  | [] => Some ([], s, w)
  | op :: ops => '(r, s, w) ← run_write op s w; '(rs, s, w) ← run_writes ops s w; Some (r :: rs, s, w)
  end.

Fixpoint run_recvs (sizes : list nat) s w : option (list Z * list bytes * snet W Sch * W) :=
  match sizes with
  | [] => Some ([], [], s, w)
  | size :: sizes =>
      '(r, out, s, w) ← tnt_io_recv fuel s size w;
      '(rs, outs, s, w) ← run_recvs sizes s w; Some (r :: rs, out :: outs, s, w)
  end.

Lemma run_write_ok op s w :
  snet_ok s -> (interrupts w < fuel)%nat ->
  exists r s' w', run_write op s w = Some (r, s', w') /\ snet_ok s' /\ (interrupts w' <= interrupts w)%nat /\
    got w' = got w /\ (r <> -1 -> written s' w' = written s w ++ payload op) /\
    (op = Flush -> r <> -1 -> sent w' = written s' w').
Proof.
  intros Hs Hf. destruct op as [buf|iov|]; simpl.
  - destruct (send_ok s buf w Hs Hf) as (r & s' & w' & -> & H1 & _ & H2 & [H3 _] & _ & H4). exists r, s', w'.
    repeat (split; [done|]). split; [|done]. by destruct H4 as [[_ ?]|[[-> _]|[-> _]]].
  - destruct (sendv_ok s iov w Hs Hf) as (r & s' & w' & -> & (H1 & _ & H2 & [H3 _] & _ & H4) & _). exists r, s', w'.
    repeat (split; [done|]). split; [|done]. by destruct H4 as [[_ ?]|[[-> _]|[-> _]]].
  - destruct (flush_ok s w Hs Hf) as (r & s' & w' & -> & H1 & _ & H2 & [H3 _] & _ & H4). exists r, s', w'.
    repeat (split; [done|]). unfold written in *. rewrite app_nil_r.
    destruct H4 as [(_ & -> & ->)|(-> & _)]; [|done]. by rewrite app_nil_r.
Qed.

Lemma run_writes_ok ops s w :
  snet_ok s -> (interrupts w < fuel)%nat ->
  exists rs s' w', run_writes ops s w = Some (rs, s', w') /\ snet_ok s' /\ got w' = got w /\
    (Forall (fun r => r <> -1) rs -> written s' w' = written s w ++ concat (payload <$> ops) /\
       (last ops = Some Flush -> sent w' = written s' w')).
Proof.
  revert s w. induction ops as [|op ops IH]; intros s w Hs Hf; simpl.
  { exists [], s, w. split; [done|]. split; [done|]. split; [done|]. intros _. by rewrite app_nil_r. }
  destruct (run_write_ok op s w Hs Hf) as (r & s1 & w1 & -> & Hs1 & Hi & Hg & Hw & Hfl). cbn [mbind option_bind].
  destruct (IH s1 w1 Hs1 ltac:(lia)) as (rs & s2 & w2 & E & Hs2 & Hg2 & Hall). rewrite E. cbn [mbind option_bind].
  exists (r :: rs), s2, w2. split; [done|]. split; [done|]. split; [by rewrite Hg2|].
  intros [Hr Hrs]%Forall_cons. destruct (Hall Hrs) as [Hw2 Hlast].
  split; [by rewrite Hw2, (Hw Hr), <- app_assoc|].
  intros Hl. destruct ops as [|op' ops]; [|by apply Hlast].
  simpl in *. injection E as <- <- <-. injection Hl as ->. by apply Hfl.
Qed.

Lemma run_recvs_ok sizes s w :
  snet_ok s -> (interrupts w < fuel)%nat ->
  exists rs outs s' w', run_recvs sizes s w = Some (rs, outs, s', w') /\ snet_ok s' /\ sent w' = sent w /\
    (Forall (fun r => r <> -1) rs -> rs = Z.of_nat <$> sizes /\ (length <$> outs) = sizes /\
       exists new, got w' = got w ++ new /\ waiting s ++ new = concat outs ++ waiting s').
Proof.
  revert s w. induction sizes as [|size sizes IH]; intros s w Hs Hf; simpl.
  { exists [], [], s, w. split; [done|]. split; [done|]. split; [done|]. intros _. split; [done|]. split; [done|].
    exists []. by rewrite !app_nil_r. }
  destruct (recv_ok s size w Hs Hf) as (r & out & s1 & w1 & -> & Hs1 & _ & Hres). cbn [mbind option_bind].
  assert ((interrupts w1 <= interrupts w)%nat /\ sent w1 = sent w) as [Hi Hsent].
  { by destruct Hres as [(_ & _ & new & (? & ? & _) & _)|(_ & _ & _ & new & (? & ? & _))]. }
  destruct (IH s1 w1 Hs1 ltac:(lia)) as (rs & outs & s2 & w2 & -> & Hs2 & Hsent2 & Hall). cbn [mbind option_bind].
  do 4 eexists. split; [done|]. split; [done|]. split; [by rewrite Hsent2|]. intros [Hr Hrs]%Forall_cons.
  destruct Hres as [(-> & Hl & new & (_ & _ & _ & Hg & _) & Heq)|[-> _]]; [|done].
  destruct (Hall Hrs) as (Hrs2 & Hls & new2 & Hg2 & Heq2). simpl. split; [by f_equal|]. split; [by f_equal|].
  exists (new ++ new2). rewrite Hg2, Hg, <- app_assoc. split; [done|]. simpl in Heq.
  by rewrite <- app_assoc, <- Heq2, (app_assoc out), <- Heq, <- !app_assoc.
Qed.

(** ** Properties *)

(** C18: writes, vectored writes and flushes on a network stream always
    return, whatever the socket answers; as long as they succeed the bytes
    sent and buffered are those written, in order and once, and a flush leaves
    none in the buffer. *)
Theorem writes_in_order ops s w :
  snet_ok s -> (interrupts w < fuel)%nat ->
  exists rs s' w', run_writes ops s w = Some (rs, s', w') /\ snet_ok s' /\ got w' = got w /\
    (Forall (fun r => r <> -1) rs -> written s' w' = written s w ++ concat (payload <$> ops) /\
       (last ops = Some Flush -> sent w' = written s' w')).
Proof. apply run_writes_ok. Qed.

(** C19: receptions always return, whatever the socket answers; as long as
    they succeed each delivers the number of bytes asked for, and the client
    gets the received bytes in order, none lost or twice: what is left is in
    the buffer. *)
Theorem recvs_in_order sizes s w :
  snet_ok s -> (interrupts w < fuel)%nat ->
  exists rs outs s' w', run_recvs sizes s w = Some (rs, outs, s', w') /\ snet_ok s' /\ sent w' = sent w /\
    (Forall (fun r => r <> -1) rs -> rs = Z.of_nat <$> sizes /\ (length <$> outs) = sizes /\
       exists new, got w' = got w ++ new /\ waiting s ++ new = concat outs ++ waiting s').
Proof. apply run_recvs_ok. Qed.

Lemma recv_failure s b size w w1 r :
  rbuf_is s b (i_off (rbuf s)) (i_top (rbuf s)) -> (i_top (rbuf s) - i_off (rbuf s) < size)%nat ->
  rx_recv fuel (put_rbuf (set_off 0 (rbuf s)) s) (i_size (rbuf s)) w = Some (r, [], w1) -> r <= 0 ->
  tnt_io_recv fuel s size w = Some (-1, waiting s, system_error w1 (system_error w1 (put_rbuf (set_off 0 (rbuf s)) s)), w1).
Proof.
  intros Hb Hlt Hrx Hr. pose proof (waiting_is _ _ _ _ Hb) as Hw. destruct Hb as (E & _ & _ & Hlb & Hbd).
  unfold tnt_io_recv. rewrite E. generalize (S size) as n. intros n. cbn [recv_buf_loop].
  rewrite decide_False by lia. rewrite decide_False by lia.
  assert (load (i_buf (rbuf s)) (i_off (rbuf s)) (i_top (rbuf s) - i_off (rbuf s)) = Some (waiting s)) as Hload.
  { rewrite E, Hw. unfold load, slice. simpl. rewrite decide_True by lia. f_equal. by rewrite skipn_firstn_comm. }
  rewrite Hload. cbn [mbind option_bind]. unfold tnt_io_recv_raw. cbn [recv_loop]. rewrite Nat.sub_0_r, Hrx.
  cbn [mbind option_bind]. rewrite (decide_True (P := r <= 0)) by done. cbn [mbind option_bind].
  change (i_buf (rbuf (system_error w1 (put_rbuf (set_off 0 (rbuf s)) s)))) with (i_buf (rbuf s)).
  rewrite E, store_heap by (simpl; lia). cbn [mbind option_bind]. rewrite (decide_True (P := -1 <= 0)) by lia. simpl.
  unfold system_error, put_rbuf, set_buf, set_off. simpl. by rewrite E.
Qed.

(** A reception that must refill the buffer and fails (a receive timeout,
    for instance) resets the offset but not the end of the buffer: the bytes
    it had already handed out are delivered again by the next reception. *)
Theorem recv_failure_redelivers s b size w w1 r :
  rbuf_is s b (i_off (rbuf s)) (i_top (rbuf s)) -> (i_top (rbuf s) - i_off (rbuf s) < size)%nat ->
  rx_recv fuel (put_rbuf (set_off 0 (rbuf s)) s) (i_size (rbuf s)) w = Some (r, [], w1) -> r <= 0 ->
  exists s', tnt_io_recv fuel s size w = Some (-1, waiting s, s', w1) /\
    tnt_io_recv fuel s' (i_top (rbuf s)) w1 =
      Some (Z.of_nat (i_top (rbuf s)), take (i_top (rbuf s)) b, put_rbuf (set_off (i_top (rbuf s)) (rbuf s')) s', w1).
Proof.
  intros Hb Hlt Hrx Hr. eexists. split; [by eapply recv_failure|].
  destruct Hb as (E & _ & _ & Hlb & Hbd). unfold tnt_io_recv. cbn [rbuf system_error put_rbuf set_off i_buf].
  rewrite E. cbn [recv_buf_loop]. cbn [rbuf system_error put_rbuf set_off i_buf i_off i_top].
  rewrite decide_True by lia. rewrite E. unfold load, slice. simpl. rewrite decide_True by lia. done.
Qed.

(** A flush that fails when part of the buffer has been sent keeps the
    whole buffer, so the next flush sends that part a second time. *)
Theorem flush_retry_duplicates s w :
  snet_ok s -> (interrupts w < fuel)%nat ->
  exists r s1 w1, tnt_io_flush fuel s w = Some (r, s1, w1) /\
    (r = -1 -> exists k r2 s2 w2, sent w1 = sent w ++ take k (buffered s) /\
       tnt_io_flush fuel s1 w1 = Some (r2, s2, w2) /\
       (r2 <> -1 -> sent w2 = sent w ++ take k (buffered s) ++ buffered s)).
Proof.
  intros Hs Hf. destruct (flush_ok s w Hs Hf) as (r & s1 & w1 & -> & Hs1 & _ & Hi & _ & _ & Hres).
  do 3 eexists. split; [done|]. intros ->.
  destruct Hres as [(Hr & _)|(_ & _ & Hb & k & Hk)]; [unfold zlen in Hr; lia|].
  destruct (flush_ok s1 w1 Hs1 ltac:(lia)) as (r2 & s2 & w2 & E2 & _ & _ & _ & _ & _ & Hres2).
  exists k, r2, s2, w2. split; [done|]. split; [done|]. intros Hr2.
  destruct Hres2 as [(_ & _ & ->)|(-> & _)]; [|done]. unfold written. by rewrite Hk, Hb, <- app_assoc.
Qed.

End io.

(** ** The size of the socket buffers

    The system that records each request for a size with its result; nothing is
    assumed of what [setsockopt] does. *)

Notation requests := (list (Z * Z)) (only parsing).

Definition recorded {W} (SY : Sys W) : Sys (W * requests) := {|
  sys_errno w := sys_errno w.1;
  sys_send p bs w := let '(r, w1) := sys_send p bs w.1 in (r, (w1, w.2));
  sys_writev p iov w := let '(r, w1) := sys_writev p iov w.1 in (r, (w1, w.2));
  sys_recv p n w := let '(r, bs, w1) := sys_recv p n w.1 in (r, bs, (w1, w.2));
  sys_close p w := (sys_close p w.1, w.2);
  sys_setsockopt p o v w := let '(r, w1) := sys_setsockopt p o v w.1 in (r, (w1, w.2 ++ [(v, r)]));
  sys_iovmax := sys_iovmax |}.

(** The size of the last request that was accepted. *)
Definition last_accepted (reqs : requests) : option Z :=
  last (omap (fun q => if decide (q.2 = 0) then Some q.1 else None) reqs).

(** [b] is where the requests between [lo] and [hi] change from accepted to
    refused: it separates them, it is the last one accepted (or none was), and
    the next size was refused unless [b] is the greatest. *)
Definition boundary (lo hi : Z) (reqs : requests) (b : Z) : Prop :=
  lo - 1 <= b <= hi /\
  (forall v rc, (v, rc) ∈ reqs -> lo <= v <= hi /\ (rc = 0 <-> v <= b)) /\
  last_accepted reqs = (if decide (b = lo - 1) then None else Some b) /\
  (b = hi \/ exists rc, rc <> 0 /\ (b + 1, rc) ∈ reqs).

Section xbufmax.
Context {W : Type} (SY : Sys W) {Sch : Type}.
Variable s : snet (W * requests) Sch.
Variable sockopt : Z.
#[local] Existing Instance recorded.

Lemma last_accepted_snoc reqs v rc :
  last_accepted (reqs ++ [(v, rc)]) = if decide (rc = 0) then Some v else last_accepted reqs.
Proof.
  unfold last_accepted. rewrite omap_app. cbn. case_decide; [by rewrite last_snoc|by rewrite app_nil_r].
Qed.

(** The part of the range still searched is bounded by the greatest accepted
    and the least refused request. *)
Definition searching (lo0 hi0 lo hi : Z) (reqs : requests) : Prop :=
  lo0 <= lo /\ hi <= hi0 /\
  (forall v rc, (v, rc) ∈ reqs -> lo0 <= v <= hi0 /\ (rc = 0 /\ v < lo \/ rc <> 0 /\ hi < v)) /\
  last_accepted reqs = (if decide (lo = lo0) then None else Some (lo - 1)) /\
  (hi = hi0 \/ exists rc, rc <> 0 /\ (hi + 1, rc) ∈ reqs).

Lemma searching_accepted lo0 hi0 lo hi reqs v :
  searching lo0 hi0 lo hi reqs -> lo <= v <= hi -> searching lo0 hi0 (v + 1) hi (reqs ++ [(v, 0)]).
Proof.
  intros (H1 & H2 & H3 & H4 & H5) Hv. split; [lia|]. split; [lia|]. split; [|split].
  - intros v' rc [H|[= -> ->]%list_elem_of_singleton]%elem_of_app; [|split; [lia|left; lia]].
    destruct (H3 v' rc H) as [? [?|?]]; (split; [lia|]); [left|right]; lia.
  - rewrite last_accepted_snoc, decide_True, decide_False by lia. f_equal. lia.
  - destruct H5 as [H5|(rc & ? & ?)]; [by left|right]. exists rc. split; [done|]. apply elem_of_app. by left.
Qed.

Lemma searching_refused lo0 hi0 lo hi reqs v rc :
  searching lo0 hi0 lo hi reqs -> lo <= v <= hi -> rc <> 0 -> searching lo0 hi0 lo (v - 1) (reqs ++ [(v, rc)]).
Proof.
  intros (H1 & H2 & H3 & H4 & H5) Hv Hrc. split; [lia|]. split; [lia|]. split; [|split].
  - intros v' rc' [H|[= -> ->]%list_elem_of_singleton]%elem_of_app; [|split; [lia|right; lia]].
    destruct (H3 v' rc' H) as [? [?|?]]; (split; [lia|]); [left|right]; lia.
  - by rewrite last_accepted_snoc, decide_False.
  - right. exists rc. split; [done|]. apply elem_of_app. right. apply list_elem_of_singleton. do 2 f_equal. lia.
Qed.

Lemma searching_done lo0 hi0 lo hi reqs : searching lo0 hi0 lo hi reqs -> lo = hi + 1 -> boundary lo0 hi0 reqs (lo - 1).
Proof.
  intros (H1 & H2 & H3 & H4 & H5) ->. split; [lia|]. split; [|split].
  - intros v rc H. destruct (H3 v rc H) as [? [[? ?]|[? ?]]]; (split; [lia|]); split; intros; [lia|done|done|lia].
  - rewrite H4. repeat case_decide; (done || lia).
  - replace (hi + 1 - 1) with hi by lia. exact H5.
Qed.

Lemma xbuf_loop_empty n lo hi w : hi < lo -> xbuf_loop n s sockopt lo hi w = Some w.
Proof. intros. destruct n; cbn [xbuf_loop]; by rewrite decide_True. Qed.

Lemma xbuf_loop_ok lo0 hi0 n : forall lo hi w reqs,
  1 <= lo -> hi < 2 ^ 30 -> lo <= hi + 1 -> hi - lo + 1 < 2 ^ Z.of_nat n -> searching lo0 hi0 lo hi reqs ->
  exists w' reqs' b, xbuf_loop n s sockopt lo hi (w, reqs) = Some (w', reqs') /\
    (length reqs' <= length reqs + n)%nat /\ boundary lo0 hi0 reqs' b.
Proof.
  induction n as [|n IH]; intros lo hi w reqs Hlo Hhi Hr Hn Hs.
  - change (2 ^ Z.of_nat 0) with 1 in Hn. cbn [xbuf_loop]. rewrite decide_True by lia.
    do 3 eexists. split; [done|]. split; [lia|]. eapply searching_done; [exact Hs|lia].
  - rewrite Nat2Z.inj_succ, Z.pow_succ_r in Hn by lia. cbn [xbuf_loop]. case_decide as Hd.
    { do 3 eexists. split; [done|]. split; [lia|]. eapply searching_done; [exact Hs|lia]. }
    rewrite decide_True by lia. assert (u32 (lo + hi) = lo + hi) as -> by (apply u32_small; lia).
    set (avg := (lo + hi) / 2). assert (lo <= avg <= hi /\ 2 * avg <= lo + hi < 2 * avg + 2) as [Ha Hb]
      by (pose proof (Z.div_mod (lo + hi) 2 ltac:(lia)); pose proof (Z.mod_pos_bound (lo + hi) 2 ltac:(lia)); unfold avg; lia).
    cbn [sys_setsockopt recorded fst snd]. destruct (@sys_setsockopt W SY (fd s) sockopt avg w) as [rc w1].
    destruct (decide (rc = 0)) as [->|Hrc]; rewrite u32_small, s32_small by lia.
    + destruct (IH (avg + 1) hi w1 (reqs ++ [(avg, 0)])) as (w' & reqs' & b & -> & Hl & H); [lia..|by eapply searching_accepted|].
      do 3 eexists. split; [done|]. split; [len|exact H].
    + destruct (IH lo (avg - 1) w1 (reqs ++ [(avg, rc)])) as (w' & reqs' & b & -> & Hl & H); [lia..|by eapply searching_refused|].
      do 3 eexists. split; [done|]. split; [len|exact H].
Qed.

Lemma boundary_threshold lo hi reqs b limit :
  boundary lo hi reqs b -> lo - 1 <= limit -> (forall v rc, (v, rc) ∈ reqs -> (rc = 0 <-> v <= limit)) -> b = Z.min limit hi.
Proof.
  intros (Hr & Hs & Hl & Hb) Hlim Ht. assert (b <= limit) as H1.
  { case_decide; [lia|]. unfold last_accepted in Hl. apply last_Some_elem_of, list_elem_of_omap in Hl as ([v rc] & Hin & E).
    simpl in E. case_decide; [|done]. injection E as ->. by apply (Ht _ _ Hin). }
  destruct Hb as [->|(rc & Hrc & Hin)]; [lia|]. pose proof (Ht _ _ Hin). destruct (decide (b + 1 <= limit)); [tauto|lia].
Qed.

(** C20: the binary search for the largest socket buffer, whatever [setsockopt]
    accepts or refuses: it ends after at most 28 requests, without overflowing
    its [int]s, and never fails.  It asks for nothing when the minimum is above
    128 MB.  Otherwise every request is between the minimum (16 kB for 0) and
    128 MB, there is a size that separates the requests accepted from those
    refused, it is the last size accepted, and the next one was refused or it
    is 128 MB; when the system accepts just the sizes up to a limit, it is that
    limit or 128 MB, and when it accepts every size (as Linux does, capping the
    value silently) it is 128 MB. *)
Theorem xbufmax_correct min w :
  let min' := if decide (min = 0) then 16384 else min in
  let max := 128 * 1024 * 1024 in
  0 <= min < 2 ^ 31 ->
  exists w' reqs, tnt_io_xbufmax s sockopt min (w, []) = Some (TNT_EOK, (w', reqs)) /\ (length reqs <= 28)%nat /\
    (max < min' -> reqs = []) /\
    (min' <= max -> exists b, boundary min' max reqs b /\
       (forall limit, min' - 1 <= limit -> (forall v rc, (v, rc) ∈ reqs -> (rc = 0 <-> v <= limit)) -> b = Z.min limit max) /\
       ((forall v rc, (v, rc) ∈ reqs -> rc = 0) -> b = max)).
Proof.
  intros min' max H0. unfold tnt_io_xbufmax. fold min' max. assert (1 <= min') by (unfold min'; case_decide; lia).
  destruct (decide (max < min')) as [Hd|Hd].
  { rewrite xbuf_loop_empty by done. cbn [mbind option_bind]. do 2 eexists. split; [done|]. split; [simpl; lia|].
    split; [done|]. lia. }
  unfold max in Hd.
  destruct (xbuf_loop_ok min' max 28 min' max w []) as (w' & reqs & b & -> & Hl & Hb); [unfold max; lia..| |].
  { split; [lia|]. split; [lia|]. split; [by intros ? ? ?%not_elem_of_nil|]. split; [by rewrite decide_True|by left]. }
  cbn [mbind option_bind]. do 2 eexists. split; [done|]. split; [done|]. split; [unfold max; lia|]. intros _. exists b. split; [done|]. split.
  - intros limit. by apply boundary_threshold.
  - intros Hall. destruct Hb as (_ & _ & _ & [?|(rc & Hrc & Hin)]); [done|]. by apply Hall in Hin.
Qed.

End xbufmax.

(** ** Witnesses *)

(** A connected stream with the given buffers. *)
Definition sample_net (sbuf : bytes) (soff : nat) (rb : bytes) (off top : nat) : snet Mock.world unit :=
  Snet (snd (tnt_opt_init (Grant []))) true 3
    (Iob (PHeap sbuf) soff 0 (length sbuf) None None 0)
    (Iob (PHeap rb) off top (length rb) None None 0) TNT_EOK 0 PNull None true.

Definition byte_string (n : nat) : bytes := Z.of_nat <$> seq 1 n.

Lemma sample_net_ok sbuf soff rb off top :
  (soff <= length sbuf)%nat -> (off <= top <= length rb)%nat -> snet_ok (sample_net sbuf soff rb off top).
Proof. intros. split; [by split; [|split]|done|]. split; [split; [done|]|]; simpl; lia. Qed.

(** A buffer of 4 bytes, writes that are cut short and interrupted. *)
Lemma writes_in_order_witness :
  exists rs s' w', run_writes 2 [Send [7; 8]; Sendv [[9]; [10; 11]]; Flush] (sample_net [1; 2; 0; 0] 2 [] 0 0)
      (Mock.World [] [] [] [Mock.Xfer 1; Mock.Intr; Mock.Xfer 2] 0) = Some (rs, s', w') /\ rs = [2; 3; 3] /\
    sent w' = [1; 2; 7; 8; 9; 10; 11].
Proof.
  destruct (writes_in_order 2 [Send [7; 8]; Sendv [[9]; [10; 11]]; Flush] (sample_net [1; 2; 0; 0] 2 [] 0 0)
      (Mock.World [] [] [] [Mock.Xfer 1; Mock.Intr; Mock.Xfer 2] 0)) as (rs & s' & w' & E & _ & _ & H).
  - apply sample_net_ok; simpl; lia.
  - vm_compute. lia.
  - exists rs, s', w'. split; [exact E|]. vm_compute in E. injection E as <- <- <-. done.
Defined.

Lemma recvs_in_order_witness :
  exists rs outs s' w', run_recvs 2 [1; 4; 2]%nat (sample_net [] 0 [21; 22; 0] 0 2)
      (Mock.World [] [] (byte_string 9) [Mock.Xfer 1; Mock.Intr; Mock.Xfer 2] 0) = Some (rs, outs, s', w') /\
    outs = [[21]; [22; 1; 2; 3]; [4; 5]] /\ waiting s' = [6].
Proof.
  destruct (recvs_in_order 2 [1; 4; 2]%nat (sample_net [] 0 [21; 22; 0] 0 2)
      (Mock.World [] [] (byte_string 9) [Mock.Xfer 1; Mock.Intr; Mock.Xfer 2] 0)) as (rs & outs & s' & w' & E & _ & _ & H).
  - apply sample_net_ok; simpl; lia.
  - vm_compute. lia.
  - exists rs, outs, s', w'. split; [exact E|]. vm_compute in E. injection E as <- <- <- <-. done.
Defined.

(** Bytes 1 to 3 have been consumed; a timeout; they come again. *)
Lemma recv_failure_redelivers_witness :
  exists s' w', tnt_io_recv 1 (sample_net [] 0 [1; 2; 3; 4] 3 4) 2 (Mock.World [] [] [] [Mock.Fail 11] 0)
      = Some (-1, [4], s', w') /\
    exists s2, tnt_io_recv 1 s' 4 w' = Some (4, [1; 2; 3; 4], s2, w').
Proof.
  destruct (recv_failure_redelivers 1 (sample_net [] 0 [1; 2; 3; 4] 3 4) [1; 2; 3; 4] 2
      (Mock.World [] [] [] [Mock.Fail 11] 0) (Mock.World [] [] [] [] 11) (-1)) as (s' & E1 & E2).
  - split; [done|]. split; [done|]. split; [done|]. simpl. lia.
  - simpl. lia.
  - vm_compute. reflexivity.
  - lia.
  - exists s', (Mock.World [] [] [] [] 11). split; [exact E1|]. eexists. exact E2.
Defined.

Lemma flush_retry_duplicates_witness :
  exists s1 w1 s2 w2, tnt_io_flush 1 (sample_net [1; 2; 3] 3 [] 0 0)
      (Mock.World [] [] [] [Mock.Xfer 2; Mock.Fail 11] 0) = Some (-1, s1, w1) /\
    tnt_io_flush 1 s1 w1 = Some (3, s2, w2) /\ sent w2 = [1; 2; 1; 2; 3].
Proof.
  destruct (flush_retry_duplicates 1 (sample_net [1; 2; 3] 3 [] 0 0)
      (Mock.World [] [] [] [Mock.Xfer 2; Mock.Fail 11] 0)) as (r & s1 & w1 & E & H).
  - apply sample_net_ok; simpl; lia.
  - vm_compute. lia.
  - pose proof E as E'. vm_compute in E'. injection E' as <- <- <-.
    destruct (H eq_refl) as (k & r2 & s2 & w2 & _ & E2 & _). do 4 eexists. split; [exact E|]. split; [|]; vm_compute; reflexivity.
Defined.

(** A system that refuses buffers of more than 200000 bytes (ENOBUFS), and one
    that doubles the value, caps it at 425984 bytes and reports success; the
    world is the size of the buffer. *)
Definition sockets_sys (set : Z -> Z -> Z * Z) : Sys Z := {|
  sys_errno _ := 0; sys_send _ _ w := (0, w); sys_writev _ _ w := (0, w); sys_recv _ _ w := (0, [], w);
  sys_close _ w := w; sys_iovmax := 1024%nat; sys_setsockopt _ _ v w := set v w |}.

Definition limited_sys : Sys Z := sockets_sys (fun v w => if decide (v <= 200000) then (0, v) else (-1, w)).
Definition capping_sys : Sys Z := sockets_sys (fun v _ => (0, Z.min (2 * v) 425984)).

Definition limited_net : snet (Z * requests) unit :=
  Snet (snd (tnt_opt_init (Grant []))) true 3 (Iob PNull 0 0 0 None None 0) (Iob PNull 0 0 0 None None 0)
    TNT_EOK 0 PNull None true.

Example capping_search :
  (fun x => x.2.1) <$> tnt_io_xbufmax (SY := recorded capping_sys) limited_net 7 0 (0, []) = Some 425984.
Proof. by vm_compute. Qed.

Lemma xbufmax_correct_witness :
  exists w' reqs, tnt_io_xbufmax (SY := recorded limited_sys) limited_net 7 0 (0, []) = Some (TNT_EOK, (w', reqs)) /\
    boundary 16384 134217728 reqs 200000 /\ w' = 200000.
Proof.
  destruct (xbufmax_correct limited_sys limited_net 7 0 0) as (w' & reqs & E & _ & _ & Hb); [lia|].
  destruct Hb as (b & Hb & Ht & _); [by vm_compute|]. exists w', reqs. split; [exact E|].
  assert (reqs.*2 = (fun v => if decide (v <= 200000) then 0 else -1) <$> reqs.*1 /\ w' = 200000) as [Er Ew]
    by (vm_compute in E; injection E as <- <-; by vm_compute).
  split; [|exact Ew]. rewrite (Ht 200000) in Hb; [exact Hb|by vm_compute|].
  intros v rc Hin. clear -Hin Er. induction reqs as [|[v' rc'] reqs IH]; [by apply not_elem_of_nil in Hin|].
  csimpl in Er. injection Er as E1 E2. apply elem_of_cons in Hin as [[= -> ->]|Hin]; [|by apply IH].
  subst rc'. case_decide; lia.
Defined.
