(* ===== verification/Murmur.v ===== *)
(** * third_party/PMurHash.c: MurmurHash3 (32 bits)

    The code keeps up to three pending bytes in the high end of a word (the
    _carry_) and reads whole words once the pointer is aligned; so its path
    depends on the address of the key.  The reference below hashes four bytes
    at a time and is written from the published algorithm, with test vectors;
    the theorem says that the hash is the reference whatever the alignment. *)

From S2P Require Import Prelude.

Definition ROTL32 (x r : Z) : Z := Z.lor (u32 (Z.shiftl x r)) (Z.shiftr x (32 - r)).

Definition C1 : Z := 0xcc9e2d51.
Definition C2 : Z := 0x1b873593.

(** [k1 *= C1; k1 = ROTL32(k1,15); k1 *= C2] *)
Definition mix (k1 : Z) : Z := u32 (ROTL32 (u32 (k1 * C1)) 15 * C2).

(** [DOBLOCK]: the new values of [h1] and [k1]. *)
Definition DOBLOCK (h1 k1 : Z) : Z * Z :=
  let k1 := mix k1 in
  let h1 := ROTL32 (Z.lxor h1 k1) 13 in
  (u32 (u32 (h1 * 5) + 0xe6546b64), k1).

(** [READ_UINT32], little endian. *)
Definition READ_UINT32 (a b c d : Z) : Z :=
  Z.lor a (Z.lor (Z.shiftl b 8) (Z.lor (Z.shiftl c 16) (Z.shiftl d 24))).

(** The locals [h1], [c], [n]. *)
Record hstate := HState { h1 : Z; carry : Z; cnt : Z }.

(** One round of [DOBYTES] on the byte [b]. *)
Definition dobyte (st : hstate) (b : Z) : hstate :=
  let c := Z.lor (Z.shiftr (carry st) 8) (u32 (Z.shiftl b 24)) in
  let n := cnt st + 1 in
  if decide (n = 4) then let '(h, c) := DOBLOCK (h1 st) c in HState h c 0
  else HState (h1 st) c n.

Definition DOBYTES (st : hstate) (bs : bytes) : hstate := foldl dobyte st bs.

(** One word of the aligned loop: the [switch] on the number of bytes in [c]. *)
Definition aligned_word (st : hstate) (w : Z) : hstate :=
  if decide (cnt st = 0) then HState (DOBLOCK (h1 st) w).1 (carry st) (cnt st)
  else
    let n := cnt st in
    let k1 := Z.lor (Z.shiftr (carry st) (32 - 8 * n)) (u32 (Z.shiftl w (8 * n))) in
    HState (DOBLOCK (h1 st) k1).1 w n.

(** The word loop: the state and the bytes after the last whole word. *)
Fixpoint aligned_loop (st : hstate) (ptr : bytes) : hstate * bytes :=
  match ptr with
  | a :: b :: c :: d :: ptr => aligned_loop (aligned_word st (READ_UINT32 a b c d)) ptr
  | _ => (st, ptr)
  end.

(** [PMurHash32_Process] on a CPU without unaligned access; [addr] is the
    address of [key].  The results are [*ph1] and [*pcarry]. *)
Definition PMurHash32_Process (h c : Z) (addr : Z) (key : bytes) : Z * Z :=
  let st := HState h c (Z.land c 3) in
  let i := Z.land (- addr) 3 in
  let '(st, ptr) :=
    if decide (i <> 0 /\ i <= zlen key)
    then (DOBYTES st (take (Z.to_nat i) key), drop (Z.to_nat i) key) else (st, key) in
  let '(st, rest) := aligned_loop st ptr in
  let st := DOBYTES st rest in
  (h1 st, Z.lor (Z.land (carry st) 0xffffff00) (cnt st)).

Definition PMurHash32_Result (h c total_length : Z) : Z :=
  let n := Z.land c 3 in
  let h := if decide (n <> 0) then Z.lxor h (mix (Z.shiftr c ((4 - n) * 8))) else h in
  let h := Z.lxor h total_length in
  let h := Z.lxor h (Z.shiftr h 16) in
  let h := u32 (h * 0x85ebca6b) in
  let h := Z.lxor h (Z.shiftr h 13) in
  let h := u32 (h * 0xc2b2ae35) in
  Z.lxor h (Z.shiftr h 16).

(** [PMurHash32(seed, key, len)]; the length is an [int]. *)
Definition PMurHash32 (seed addr : Z) (key : bytes) : Z :=
  let '(h, c) := PMurHash32_Process seed 0 addr key in
  PMurHash32_Result h c (u32 (zlen key)).

(** ** The reference

    MurmurHash3_x86_32 as its author publishes it, in plain arithmetic on
    32-bit values; nothing of the code above is used. *)
Module Murmur3.

Definition mul32 (x y : Z) : Z := (x * y) mod 2 ^ 32.

(** Rotation to the left by [r] bits. *)
Definition rotl32 (x r : Z) : Z := (x * 2 ^ r) mod 2 ^ 32 + x / 2 ^ (32 - r).

(** The value of up to four bytes, the first byte lowest. *)
Definition word (bs : bytes) : Z := foldr (fun b w => b + 256 * w) 0 bs.

Definition scramble (k : Z) : Z := mul32 (rotl32 (mul32 k 0xcc9e2d51) 15) 0x1b873593.

Definition block (h k : Z) : Z := (rotl32 (Z.lxor h (scramble k)) 13 * 5 + 0xe6546b64) mod 2 ^ 32.

(** The whole blocks of the key, and the bytes after them. *)
Fixpoint body (h : Z) (key : bytes) : Z * bytes :=
  match key with
  | a :: b :: c :: d :: key => body (block h (word [a; b; c; d])) key
  | tail => (h, tail)
  end.

Definition fmix (h : Z) : Z :=
  let h := mul32 (Z.lxor h (h / 2 ^ 16)) 0x85ebca6b in
  let h := mul32 (Z.lxor h (h / 2 ^ 13)) 0xc2b2ae35 in
  Z.lxor h (h / 2 ^ 16).

Definition hash (seed : Z) (key : bytes) : Z :=
  let '(h, tail) := body seed key in
  fmix (Z.lxor (Z.lxor h (scramble (word tail))) (Z.of_nat (length key) mod 2 ^ 32)).

(** Published test vectors: the empty key under several seeds, zero bytes,
    texts with every length of tail. *)
Example hash_empty_0 : hash 0 [] = 0.
Proof. by vm_compute. Qed.
Example hash_empty_1 : hash 1 [] = 0x514e28b7.
Proof. by vm_compute. Qed.
Example hash_empty_ones : hash 0xffffffff [] = 0x81f16f39.
Proof. by vm_compute. Qed.
Example hash_zeros : hash 0 [0; 0; 0; 0] = 0x2362f9de.
Proof. by vm_compute. Qed.
Example hash_ones : hash 0 [0xff; 0xff; 0xff; 0xff] = 0x76293b50.
Proof. by vm_compute. Qed.
Example hash_bytes4 : hash 0 [0x21; 0x43; 0x65; 0x87] = 0xf55b516b.
Proof. by vm_compute. Qed.
Example hash_bytes3 : hash 0 [0x21; 0x43; 0x65] = 0x7e4a8634.
Proof. by vm_compute. Qed.
Example hash_bytes2 : hash 0 [0x21; 0x43] = 0xa0f7b07a.
Proof. by vm_compute. Qed.
Example hash_bytes1 : hash 0 [0x21] = 0x72661cf4.
Proof. by vm_compute. Qed.
Example hash_test : hash 0 [116; 101; 115; 116] = 0xba6bd213.
Proof. by vm_compute. Qed.
Example hash_hello : hash 0 [72; 101; 108; 108; 111; 44; 32; 119; 111; 114; 108; 100; 33] = 0xc0363e43.
Proof. by vm_compute. Qed.

End Murmur3.

(** ** The hash by whole blocks, in the operations of the code *)

(** The hash of the whole words and the tail. *)
Fixpoint ref_words (h : Z) (key : bytes) : Z * bytes :=
  match key with
  | a :: b :: c :: d :: key => ref_words (DOBLOCK h (READ_UINT32 a b c d)).1 key
  | tail => (h, tail)
  end.

Definition le_val (bs : bytes) : Z := be_val (rev bs).

Definition blocks_hash (seed : Z) (key : bytes) : Z :=
  let '(h, tail) := ref_words seed key in
  let h := match tail with [] => h | _ => Z.lxor h (mix (le_val tail)) end in
  let h := Z.lxor h (u32 (zlen key)) in
  let h := Z.lxor h (Z.shiftr h 16) in
  let h := u32 (h * 0x85ebca6b) in
  let h := Z.lxor h (Z.shiftr h 13) in
  let h := u32 (h * 0xc2b2ae35) in
  Z.lxor h (Z.shiftr h 16).

(** ** Correctness *)

Lemma le_val_nil : le_val [] = 0.
Proof. done. Qed.

Lemma le_val_cons a bs : le_val (a :: bs) = a + 256 * le_val bs.
Proof.
  unfold le_val. cbn [rev]. induction (rev bs) as [|b l IH]; [simpl; change (zlen []) with 0; lia|].
  cbn [app be_val]. rewrite IH, zlen_app. change (zlen [a]) with 1. rewrite Z.pow_add_r by (unfold zlen; lia). lia.
Qed.

Lemma le_val_bound bs : Forall is_byte bs -> 0 <= le_val bs < 256 ^ zlen bs.
Proof.
  unfold is_byte. induction 1 as [|b bs Hb _ IH]; [done|]. rewrite le_val_cons.
  unfold zlen in *. cbn [length]. rewrite Nat2Z.inj_succ, Z.pow_succ_r by lia. lia.
Qed.

(** What the state stands for: the hash of the whole words and the pending bytes. *)
Definition stands (st : hstate) (h : Z) (p : bytes) : Prop :=
  h1 st = h /\ cnt st = zlen p /\ (length p <= 3)%nat /\ 0 <= carry st < 2 ^ 32 /\
  Z.shiftr (carry st) (32 - 8 * zlen p) = le_val p.

Definition feed (hp : Z * bytes) (b : Z) : Z * bytes :=
  let '(h, p) := hp in
  if decide (length p = 3)%nat then ((DOBLOCK h (le_val (p ++ [b]))).1, []) else (h, p ++ [b]).

Lemma mix_bound k : 0 <= mix k < 2 ^ 32.
Proof. unfold mix. apply u32_bound. Qed.

Lemma le_val_snoc p b : le_val (p ++ [b]) = le_val p + b * 2 ^ (8 * zlen p).
Proof.
  induction p as [|a p IH]; [cbn [app]; rewrite le_val_cons, !le_val_nil; change (zlen []) with 0; lia|].
  cbn [app]. rewrite !le_val_cons, IH. replace (8 * zlen (a :: p)) with (8 + 8 * zlen p) by len.
  rewrite Z.pow_add_r by (unfold zlen; lia). change (2 ^ 8) with 256. lia.
Qed.

(** The new carry. *)
Lemma shift_in c b n :
  0 <= c < 2 ^ 32 -> is_byte b -> 0 <= n <= 3 ->
  let c' := Z.lor (Z.shiftr c 8) (u32 (Z.shiftl b 24)) in
  0 <= c' < 2 ^ 32 /\ Z.shiftr c' (24 - 8 * n) = Z.shiftr c (32 - 8 * n) + b * 2 ^ (8 * n).
Proof.
  intros Hc Hb Hn c'. unfold is_byte in Hb.
  assert (0 <= c / 2 ^ 8 < 2 ^ 24) as Hd.
  { split; [apply Z.div_pos; lia|]. apply Z.div_lt_upper_bound; lia. }
  assert (c' = c / 2 ^ 8 + b * 2 ^ 24) as ->.
  { unfold c'. rewrite u32_small by (rewrite Z.shiftl_mul_pow2 by lia; lia).
    rewrite Z.shiftr_div_pow2, lor_shiftl by lia. done. }
  split; [lia|]. rewrite !Z.shiftr_div_pow2 by lia.
  replace (b * 2 ^ 24) with (b * 2 ^ (8 * n) * 2 ^ (24 - 8 * n)) by (rewrite <- Z.mul_assoc, <- Z.pow_add_r by lia; do 2 f_equal; lia).
  rewrite Z.div_add by (apply Z.pow_nonzero; lia). f_equal.
  rewrite Z.div_div by lia. rewrite <- Z.pow_add_r by lia. do 2 f_equal. lia.
Qed.

Lemma dobyte_stands st h p b :
  stands st h p -> is_byte b -> let '(h', p') := feed (h, p) b in stands (dobyte st b) h' p'.
Proof.
  intros (<- & Hn & Hl & Hc & Hv) Hb.
  destruct (shift_in (carry st) b (zlen p) Hc Hb) as [Hc' Hv']; [len|].
  rewrite Hv, <- le_val_snoc in Hv'. unfold dobyte, feed. rewrite Hn. set (c' := Z.lor _ _) in *.
  destruct (decide (length p = 3)%nat) as [H3|H3].
  - rewrite decide_True by len. replace (24 - 8 * zlen p) with 0 in Hv' by len. rewrite Z.shiftr_0_r in Hv'. rewrite Hv'.
    unfold DOBLOCK. split; [done|]. split; [done|]. split; [simpl; lia|]. split; [apply mix_bound|].
    apply shiftr_small; [done|apply mix_bound].
  - rewrite decide_False by len. split; [done|]. split; [simpl; len|]. split; [len|]. split; [done|].
    cbn [carry]. rewrite <- Hv'. f_equal. len.
Qed.

Lemma dobytes_stands bs : forall st h p,
  stands st h p -> Forall is_byte bs ->
  let '(h', p') := foldl feed (h, p) bs in stands (DOBYTES st bs) h' p'.
Proof.
  induction bs as [|b bs IH]; intros st h p Hst Hb; [done|]. apply Forall_cons in Hb as [Hb Hbs]. cbn [foldl DOBYTES].
  pose proof (dobyte_stands st h p b Hst Hb) as H. destruct (feed (h, p) b) as [h' p']. by apply IH.
Qed.

Lemma Forall_four a b c d : Forall is_byte [a; b; c; d] -> is_byte a /\ is_byte b /\ is_byte c /\ is_byte d.
Proof. by intros (? & (? & (? & (? & _)%Forall_cons)%Forall_cons)%Forall_cons)%Forall_cons. Qed.

Lemma feed_bytes bs : forall h p,
  Forall is_byte p -> Forall is_byte bs -> let '(_, p') := foldl feed (h, p) bs in Forall is_byte p'.
Proof.
  induction bs as [|b bs IH]; intros h p Hp Hb; [done|]. apply Forall_cons in Hb as [Hb Hbs]. cbn [foldl].
  unfold feed at 2. case_decide; apply IH; try done. apply Forall_app. split; [done|]. by apply Forall_singleton.
Qed.

(** A word is four bytes. *)
Lemma read_uint32 a b c d : Forall is_byte [a; b; c; d] -> READ_UINT32 a b c d = le_val [a; b; c; d].
Proof.
  intros (Ha & Hb & Hc & Hd)%Forall_four. unfold is_byte in *. unfold READ_UINT32.
  rewrite !le_val_cons, le_val_nil.
  replace (Z.shiftl c 16) with (Z.shiftl (Z.shiftl c 8) 8) by (by rewrite Z.shiftl_shiftl).
  replace (Z.shiftl d 24) with (Z.shiftl (Z.shiftl (Z.shiftl d 8) 8) 8) by (by rewrite !Z.shiftl_shiftl).
  rewrite <- !Z.shiftl_lor, !lor_shiftl by lia. lia.
Qed.

Lemma le_val_app p q : le_val (p ++ q) = le_val p + le_val q * 2 ^ (8 * zlen p).
Proof.
  induction p as [|a p IH]; [rewrite le_val_nil; cbn [app]; change (zlen []) with 0; lia|].
  cbn [app]. rewrite !le_val_cons, IH. replace (8 * zlen (a :: p)) with (8 + 8 * zlen p) by len.
  rewrite Z.pow_add_r by (unfold zlen; lia). change (2 ^ 8) with 256. lia.
Qed.

Lemma le_val_small bs : Forall is_byte bs -> 0 <= le_val bs < 2 ^ (8 * zlen bs).
Proof. intros H%le_val_bound. rewrite Z.pow_mul_r by len. done. Qed.

(** The carry of a word: its high bytes; the block: the pending and the low bytes. *)
Lemma word_carry (q r : bytes) :
  Forall is_byte (q ++ r) -> length (q ++ r) = 4%nat ->
  Z.shiftr (le_val (q ++ r)) (32 - 8 * zlen r) = le_val r.
Proof.
  intros [Hq _]%Forall_app Hl. rewrite length_app in Hl. replace (32 - 8 * zlen r) with (8 * zlen q) by len.
  rewrite Z.shiftr_div_pow2, le_val_app by len. rewrite Z.div_add by (apply Z.pow_nonzero; len).
  rewrite Z.div_small by (by apply le_val_small). lia.
Qed.

Lemma word_block (p q r : bytes) :
  Forall is_byte p -> Forall is_byte (q ++ r) -> length (q ++ r) = 4%nat -> length r = length p ->
  Z.lor (le_val p) (u32 (Z.shiftl (le_val (q ++ r)) (8 * zlen p))) = le_val (p ++ q).
Proof.
  intros Hp [Hq _]%Forall_app Hl Hr. rewrite length_app in Hl.
  assert (u32 (Z.shiftl (le_val (q ++ r)) (8 * zlen p)) = Z.shiftl (le_val q) (8 * zlen p)) as ->.
  { unfold u32. rewrite !Z.shiftl_mul_pow2 by len. rewrite le_val_app, Z.mul_add_distr_r.
    rewrite <- Z.mul_assoc, <- Z.pow_add_r by len.
    replace (8 * zlen q + 8 * zlen p) with 32 by len. rewrite Z.mod_add by lia. apply Z.mod_small.
    pose proof (le_val_small q Hq) as [H0 H1]. split; [apply Z.mul_nonneg_nonneg; [done|apply Z.pow_nonneg; lia]|].
    replace 32 with (8 * zlen q + 8 * zlen p) by len. rewrite Z.pow_add_r by len.
    apply Z.mul_lt_mono_pos_r; [apply Z.pow_pos_nonneg; len|done]. }
  rewrite lor_shiftl, le_val_app; [done|len|by apply le_val_small].
Qed.

(** Feeding the bytes of a word. *)
Lemma feed_word h (p q r : bytes) :
  length (p ++ q) = 4%nat -> (length p <= 3)%nat -> length r = length p ->
  foldl feed (h, p) (q ++ r) = ((DOBLOCK h (le_val (p ++ q))).1, r).
Proof.
  intros H1 H2 H3. rewrite length_app in H1.
  destruct p as [|p0 [|p1 [|p2 [|]]]]; simpl in H2; try lia;
    repeat (destruct q as [|? q]; simpl in H1; try lia); repeat (destruct r as [|? r]; simpl in H3; try lia); done.
Qed.

Lemma aligned_word_stands st h p a b c d :
  stands st h p -> Forall is_byte p -> Forall is_byte [a; b; c; d] ->
  let '(h', p') := foldl feed (h, p) [a; b; c; d] in
  stands (aligned_word st (READ_UINT32 a b c d)) h' p' /\ Forall is_byte p'.
Proof.
  intros Hst Hp Hw. pose proof Hst as (Eh & Hn & Hl & Hc & Hv). set (l := [a; b; c; d]) in *.
  set (q := take (4 - length p) l). set (r := drop (4 - length p) l).
  assert (length l = 4%nat) as Hl4 by done.
  assert (l = q ++ r) as El by (symmetry; apply take_drop).
  assert (length r = length p /\ length q = (4 - length p)%nat) as [Hr Hq] by (unfold q, r; len).
  rewrite read_uint32 by done. fold l. rewrite El, feed_word by (rewrite ?length_app; lia).
  assert (Forall is_byte (q ++ r)) as Hqr by (by rewrite <- El). rewrite El in Hl4.
  split; [|by apply Forall_app in Hqr as [_ ?]].
  pose proof (le_val_small _ Hqr) as Hlv. replace (8 * zlen (q ++ r)) with 32 in Hlv by len.
  unfold aligned_word. case_decide as H0.
  - rewrite H0 in Hn. destruct p; [|len]. destruct r; [|simpl in Hr; lia]. rewrite app_nil_r, Eh. split; [done|].
    split; [done|]. split; [done|]. by split.
  - rewrite Hn, Hv, word_block by done. rewrite Eh. unfold stands. cbn [h1 cnt carry].
    split; [done|]. split; [len|]. split; [lia|]. split; [done|]. by apply word_carry.
Qed.

Lemma aligned_loop_stands n : forall ptr st h p,
  (length ptr < n)%nat -> stands st h p -> Forall is_byte p -> Forall is_byte ptr ->
  exists st' rest h' p', aligned_loop st ptr = (st', rest) /\ stands st' h' p' /\ Forall is_byte rest /\
    foldl feed (h', p') rest = foldl feed (h, p) ptr.
Proof.
  induction n as [|n IH]; intros ptr st h p Hn Hst Hp Hptr; [lia|].
  destruct ptr as [|a [|b [|c [|d ptr]]]]; try (do 4 eexists; by split; [reflexivity|]).
  change (a :: b :: c :: d :: ptr) with ([a; b; c; d] ++ ptr) in *. apply Forall_app in Hptr as [Hw Hptr].
  pose proof (aligned_word_stands st h p a b c d Hst Hp Hw) as H. rewrite foldl_app.
  destruct (foldl feed (h, p) [a; b; c; d]) as [h' p'] eqn:E. destruct H as [H1 H2]. cbn [aligned_loop app].
  apply IH; [simpl in Hn; lia|done..].
Qed.

(** The reference feeds one byte at a time. *)
Lemma ref_words_feed n : forall key h, (length key < n)%nat -> Forall is_byte key ->
  foldl feed (h, []) key = ref_words h key.
Proof.
  induction n as [|n IH]; intros key h Hn Hk; [lia|].
  destruct key as [|a [|b [|c [|d key]]]]; try done. change (a :: b :: c :: d :: key) with ([a; b; c; d] ++ key) in Hk |- *.
  apply Forall_app in Hk as [Hw Hk].
  rewrite foldl_app. pose proof (feed_word h [] [a; b; c; d] []) as E. rewrite app_nil_r in E.
  rewrite E by (simpl; lia). cbn [ref_words app]. rewrite read_uint32 by done. apply IH; [simpl in Hn; lia|done].
Qed.

Lemma stands_result st h p :
  stands st h p ->
  let c := Z.lor (Z.land (carry st) 0xffffff00) (cnt st) in
  Z.land c 3 = zlen p /\ (p <> [] -> Z.shiftr c ((4 - zlen p) * 8) = le_val p).
Proof.
  intros (_ & Hn & Hl & Hc & Hv) c.
  assert (Z.land (carry st) 0xffffff00 = Z.shiftl (Z.shiftr (carry st) 8) 8) as E.
  { change 0xffffff00 with (Z.land (Z.ones 32) (Z.lnot (Z.ones 8))). rewrite Z.land_assoc, Z.land_ones by lia.
    rewrite Z.mod_small by done. rewrite <- Z.ldiff_land. by rewrite Z.ldiff_ones_r by lia. }
  assert (c = zlen p + Z.shiftr (carry st) 8 * 2 ^ 8) as ->.
  { unfold c. rewrite E, Hn, Z.lor_comm. apply lor_shiftl; len. }
  split.
  - change 3 with (Z.ones 2). rewrite Z.land_ones by lia.
    replace (zlen p + Z.shiftr (carry st) 8 * 2 ^ 8) with (zlen p + Z.shiftr (carry st) 8 * 64 * 2 ^ 2) by lia.
    rewrite Z.mod_add by lia. apply Z.mod_small. len.
  - intros Hp. rewrite <- Hv. assert (1 <= zlen p <= 3) as Hz by (destruct p; [done|len]).
    replace ((4 - zlen p) * 8) with (8 + (24 - 8 * zlen p)) by lia.
    rewrite <- Z.shiftr_shiftr by lia. rewrite (Z.shiftr_div_pow2 (_ + _)), Z.div_add, Z.div_small by lia.
    rewrite Z.add_0_l, Z.shiftr_shiftr by lia. f_equal. lia.
Qed.

(** ** The blocks are those of the reference *)

Lemma ROTL32_rotl32 x r : 0 <= r <= 32 -> 0 <= x < 2 ^ 32 -> ROTL32 x r = Murmur3.rotl32 x r.
Proof.
  intros Hr Hx. unfold ROTL32, Murmur3.rotl32, u32.
  rewrite Z.shiftl_mul_pow2, Z.shiftr_div_pow2 by lia.
  replace (2 ^ 32) with (2 ^ (32 - r) * 2 ^ r) in * by (rewrite <- Z.pow_add_r by lia; f_equal; lia).
  assert (0 < 2 ^ r) by (apply Z.pow_pos_nonneg; lia). assert (0 < 2 ^ (32 - r)) by (apply Z.pow_pos_nonneg; lia).
  assert (0 <= x / 2 ^ (32 - r) < 2 ^ r) by (split; [apply Z.div_pos; lia|apply Z.div_lt_upper_bound; lia]).
  rewrite Zmult_mod_distr_r, <- Z.shiftl_mul_pow2, Z.lor_comm, lor_shiftl, Z.shiftl_mul_pow2 by lia. lia.
Qed.

Lemma mix_scramble k : mix k = Murmur3.scramble k.
Proof. unfold mix, Murmur3.scramble. rewrite ROTL32_rotl32; [done|lia|apply u32_bound]. Qed.

Lemma lxor_bound a b : 0 <= a < 2 ^ 32 -> 0 <= b < 2 ^ 32 -> 0 <= Z.lxor a b < 2 ^ 32.
Proof.
  intros Ha Hb. rewrite <- (Z.mod_small a (2 ^ 32)), <- (Z.mod_small b (2 ^ 32)), <- !Z.land_ones by lia.
  assert (Z.lxor (Z.land a (Z.ones 32)) (Z.land b (Z.ones 32)) = Z.land (Z.lxor a b) (Z.ones 32)) as ->
    by (apply Z.bits_inj'; intros; rewrite ?Z.lxor_spec, ?Z.land_spec, ?Z.lxor_spec; by repeat destruct (Z.testbit _ _)).
  rewrite Z.land_ones by lia. apply Z.mod_pos_bound. lia.
Qed.

Lemma DOBLOCK_block h k : 0 <= h < 2 ^ 32 -> (DOBLOCK h k).1 = Murmur3.block h k.
Proof.
  intros Hh. unfold DOBLOCK, Murmur3.block. cbn [fst].
  rewrite ROTL32_rotl32, mix_scramble by (lia || (apply lxor_bound; [done|apply mix_bound])).
  unfold u32. by rewrite Zplus_mod_idemp_l.
Qed.

Lemma le_val_word bs : le_val bs = Murmur3.word bs.
Proof. induction bs as [|b bs IH]; [done|]. by rewrite le_val_cons, IH. Qed.

Lemma ref_words_body n : forall key h, (length key < n)%nat -> Forall is_byte key -> 0 <= h < 2 ^ 32 ->
  ref_words h key = Murmur3.body h key /\ 0 <= (Murmur3.body h key).1 < 2 ^ 32.
Proof.
  induction n as [|n IH]; intros key h Hn Hk Hh; [lia|].
  destruct key as [|a [|b [|c [|d key]]]]; try done. change (a :: b :: c :: d :: key) with ([a; b; c; d] ++ key) in Hk.
  apply Forall_app in Hk as [Hw Hk]. cbn [ref_words Murmur3.body].
  rewrite read_uint32, DOBLOCK_block, le_val_word by done.
  apply IH; [simpl in Hn; lia|done|]. apply Z.mod_pos_bound. lia.
Qed.

Lemma blocks_hash_reference seed key :
  Forall is_byte key -> 0 <= seed < 2 ^ 32 -> blocks_hash seed key = Murmur3.hash seed key.
Proof.
  intros Hk Hs. unfold blocks_hash, Murmur3.hash.
  destruct (ref_words_body (S (length key)) key seed) as [-> _]; [lia|done..|].
  destruct (Murmur3.body seed key) as [h tail]. unfold Murmur3.fmix. rewrite !Z.shiftr_div_pow2 by lia.
  replace (match tail with [] => h | _ => Z.lxor h (mix (le_val tail)) end)
    with (Z.lxor h (Murmur3.scramble (Murmur3.word tail))); [done|].
  destruct tail; [by rewrite Z.lxor_0_r|]. by rewrite mix_scramble, le_val_word.
Qed.

(** C22: the hash of a key is MurmurHash3 (the 32-bit x86 variant, given by
    the reference [Murmur3.hash] and its published test vectors) for any seed,
    whatever the alignment of the key in memory and however its bytes are
    split between the carry, the aligned words and the tail. *)
Theorem PMurHash32_correct seed addr key :
  Forall is_byte key -> 0 <= seed < 2 ^ 32 -> PMurHash32 seed addr key = Murmur3.hash seed key.
Proof.
  intros Hk Hseed. rewrite <- blocks_hash_reference by done. unfold PMurHash32, PMurHash32_Process.
  assert (stands (HState seed 0 (Z.land 0 3)) seed []) as Hst by (split; [done|]; split; [done|]; split; [simpl; lia|]; done).
  set (i := Z.land (- addr) 3). set (k := Z.to_nat i).
  assert (exists st ptr h p, (if decide (i <> 0 /\ i <= zlen key) then (DOBYTES (HState seed 0 (Z.land 0 3)) (take k key), drop k key)
     else (HState seed 0 (Z.land 0 3), key)) = (st, ptr) /\ stands st h p /\ Forall is_byte p /\ Forall is_byte ptr /\
     foldl feed (h, p) ptr = foldl feed (seed, []) key) as (st & ptr & h & p & -> & Hs & Hp & Hptr & Ef).
  { case_decide; [|do 4 eexists; by split; [reflexivity|]].
    pose proof (dobytes_stands (take k key) _ _ _ Hst (Forall_take _ k _ Hk)) as H1.
    pose proof (feed_bytes (take k key) seed [] (Forall_nil_2 _) (Forall_take _ k _ Hk)) as H2.
    destruct (foldl feed (seed, []) (take k key)) as [h p] eqn:E. do 4 eexists. split; [reflexivity|].
    split; [exact H1|]. split; [done|]. split; [by apply Forall_drop|]. by rewrite <- E, <- foldl_app, take_drop. }
  destruct (aligned_loop_stands (S (length ptr)) ptr st h p) as (st' & rest & h' & p' & -> & Hs' & Hrest & Ef'); [lia|done..|].
  pose proof (dobytes_stands rest _ _ _ Hs' Hrest) as H. rewrite Ef', Ef, (ref_words_feed (S (length key))) in H by (lia || done).
  unfold blocks_hash. destruct (ref_words seed key) as [hr tail]. pose proof (stands_result _ _ _ H) as [En Et].
  unfold PMurHash32_Result. rewrite En. destruct H as (-> & _).
  destruct tail as [|b tail]; [done|]. rewrite decide_True by len. rewrite Et by done. done.
Qed.

Lemma PMurHash32_correct_witness : PMurHash32 13 3 [116; 97; 114; 97; 110] = Murmur3.hash 13 [116; 97; 114; 97; 110].
Proof.
  apply PMurHash32_correct; [|lia]. repeat (apply Forall_cons; split; [unfold is_byte; lia|]). apply Forall_nil. done.
Defined.
