(* ===== verification/Mhash.v ===== *)
(** * third_party/mhash.h: a hash table with open addressing

    The template is instantiated once, by tnt_assoc.h; here it is a section
    over the type [N] of nodes, the type [K] of keys, the hash functions and
    the comparisons.  A table has double hashing, two bits per slot (_exist_
    and _dirty_, sixteen of each in a word) and grows incrementally: while
    [resize_position] is not 0 the entries move to the table [shadow].

    [tab] is [struct mh_t] without the pointer to its shadow; [mh_t] is the
    pair.  A node of the code is a pointer: an empty slot is [None]. *)

From S2P Require Import Prelude Mem.

Definition ac_prime_list : list Z :=
  [ 3; 11; 23; 53; 97; 193; 389; 769; 1543; 3079; 6151; 12289; 24593; 49157; 98317; 196613;
    393241; 786433; 1572869; 3145739; 6291469; 12582917; 25165843; 50331653;
    100663319; 201326611; 402653189; 805306457; 1610612741; 3221225473; 4294967291 ].

(** [n * MH_DENSITY] truncated; no number of buckets is a multiple of 10, so
    the rounding of [0.7] does not show. *)
Definition density (n : Z) : Z := 7 * n / 10.

Record tab (N : Type) := Tab {
  t_p : list (option N);
  t_b : list Z;
  n_buckets : Z; n_dirty : Z; t_size : Z; upper_bound : Z; prime : Z;
  resize_cnt : Z; resize_position : Z; batch : Z;
}.
Arguments Tab {N}. Arguments t_p {N}. Arguments t_b {N}. Arguments n_buckets {N}. Arguments n_dirty {N}.
Arguments t_size {N}. Arguments upper_bound {N}. Arguments prime {N}. Arguments resize_cnt {N}.
Arguments resize_position {N}. Arguments batch {N}.

Record mh_t (N : Type) := Mh { main : tab N; shadow : tab N }.
Arguments Mh {N}. Arguments main {N}. Arguments shadow {N}.

Definition mh_next_slot (slot inc size : Z) : Z :=
  let slot := u32 (slot + inc) in
  if decide (size <= slot) then slot - size else slot.

Section table.
Context {N : Type}.
Implicit Types (t : tab N).

Definition put_p p t : tab N := Tab p (t_b t) (n_buckets t) (n_dirty t) (t_size t) (upper_bound t) (prime t)
  (resize_cnt t) (resize_position t) (batch t).
Definition put_b b t : tab N := Tab (t_p t) b (n_buckets t) (n_dirty t) (t_size t) (upper_bound t) (prime t)
  (resize_cnt t) (resize_position t) (batch t).
Definition put_counts d n t : tab N := Tab (t_p t) (t_b t) (n_buckets t) d n (upper_bound t) (prime t)
  (resize_cnt t) (resize_position t) (batch t).
Definition put_position i t : tab N := Tab (t_p t) (t_b t) (n_buckets t) (n_dirty t) (t_size t) (upper_bound t)
  (prime t) (resize_cnt t) i (batch t).

(** [h->b\[i >> 4\] & (1 << k)] and its updates; a word outside the array is
    undefined. *)
Definition get_bit t (i k : Z) : option bool :=
  w ← t_b t !! Z.to_nat (Z.shiftr i 4);
  Some (bool_decide (Z.land w (Z.shiftl 1 k) <> 0)).
Definition set_word (f : Z -> Z) t (i : Z) : option (tab N) :=
  w ← t_b t !! Z.to_nat (Z.shiftr i 4);
  Some (put_b (<[Z.to_nat (Z.shiftr i 4) := f w]> (t_b t)) t).

Definition mh_exist t (i : Z) := get_bit t i (i mod 16).
Definition mh_dirty t (i : Z) := get_bit t i (i mod 16 + 16).
Definition mh_setfree t i := set_word (fun w => Z.land w (Z.lnot (Z.shiftl 1 (i mod 16)))) t i.
Definition mh_setexist t i := set_word (fun w => Z.lor w (Z.shiftl 1 (i mod 16))) t i.
Definition mh_setdirty t i := set_word (fun w => Z.lor w (Z.shiftl 1 (i mod 16 + 16))) t i.

(** The node at a slot; comparing with a [NULL] node is undefined. *)
Definition mh_node t (i : Z) : option N := n ← t_p t !! Z.to_nat i; n.

(** [h->p\[i\] = node] *)
Definition set_node t (i : Z) (nd : N) : option (tab N) :=
  _ ← t_p t !! Z.to_nat i; Some (put_p (<[Z.to_nat i := Some nd]> (t_p t)) t).

(** [mh_exist(h, i) && eq(mh_node(h, i))] *)
Definition hit t (eq : N -> bool) (i : Z) : option bool :=
  e ← mh_exist t i;
  if e : bool then nd ← mh_node t i; Some (eq nd) else Some false.

(** The loop of [mh_find] and [mh_get]. *)
Fixpoint find_loop (n : nat) t (eq : N -> bool) (i inc : Z) : option Z :=
  match n with
  | O => None
  | S n =>
      h ← hit t eq i;
      if h : bool then Some i else
      d ← mh_dirty t i;
      if d : bool then find_loop n t eq (mh_next_slot i inc (n_buckets t)) inc
      else Some (n_buckets t)
  end.

(** The first loop of [mh_put_slot]: skip the collisions, marking the chain.
    [true] when it stops at a duplicate. *)
Fixpoint skip_loop (n : nat) t (eq : N -> bool) (i inc : Z) : option (tab N * Z * bool) :=
  match n with
  | O => None
  | S n =>
      e ← mh_exist t i;
      if e : bool then
        nd ← mh_node t i;
        if eq nd then Some (t, i, true) else
        t ← mh_setdirty t i;
        skip_loop n t eq (mh_next_slot i inc (n_buckets t)) inc
      else Some (t, i, false)
  end.

(** The second loop: look for a duplicate down the chain. *)
Fixpoint dup_loop (n : nat) t (eq : N -> bool) (i inc save_i : Z) : option Z :=
  match n with
  | O => None
  | S n =>
      d ← mh_dirty t i;
      if d : bool then
        let i := mh_next_slot i inc (n_buckets t) in
        h ← hit t eq i;
        if h : bool then Some i else dup_loop n t eq i inc save_i
      else Some save_i
  end.

End table.

Section mhash.
Context {N K : Type}.
Variables (mh_hash : N -> Z) (mh_hash_key : K -> Z) (mh_eq : N -> N -> bool) (mh_eq_key : K -> N -> bool).
Implicit Types (t h s : tab N) (m : mh_t N) (nd : N).

Definition start_slot (k n : Z) : Z := k mod n.
Definition start_inc (k n : Z) : Z := 1 + k mod (n - 1).

(** Every slot is visited in [n_buckets] rounds. *)
Definition rounds t : nat := Z.to_nat (n_buckets t).

Definition mh_find t (key : K) : option Z :=
  let k := mh_hash_key key in
  find_loop (rounds t) t (mh_eq_key key) (start_slot k (n_buckets t)) (start_inc k (n_buckets t)).

Definition mh_get t nd : option Z :=
  let k := mh_hash nd in
  find_loop (rounds t) t (mh_eq nd) (start_slot k (n_buckets t)) (start_inc k (n_buckets t)).

Definition mh_put_slot t nd : option (tab N * Z) :=
  let k := mh_hash nd in
  let inc := start_inc k (n_buckets t) in
  '(t, i, dup) ← skip_loop (rounds t) t (mh_eq nd) (start_slot k (n_buckets t)) inc;
  if dup : bool then Some (t, i) else
  x ← dup_loop (rounds t) t (fun nd' => mh_eq nd' nd) i inc i; Some (t, x).

(** The end of [mh_put]: the slot, what it held, the table. *)
Definition put_here t nd : option (Z * option N * tab N) :=
  '(t, x) ← mh_put_slot t nd;
  exist ← mh_exist t x;
  if exist : bool then
    old ← mh_node t x; t ← set_node t x nd; Some (x, Some old, t)
  else
    t ← mh_setexist t x;
    d ← mh_dirty t x;
    t ← set_node (put_counts (if d : bool then n_dirty t else u32 (n_dirty t + 1)) (u32 (t_size t + 1)) t) x nd;
    Some (x, None, t).

(** Move the entry at slot [i] of [h]. *)
Definition move_slot h s (i : Z) : option (tab N) :=
  e ← mh_exist h i;
  if e : bool then
    nd ← mh_node h i;
    '(s, n) ← mh_put_slot s nd;
    s ← set_node s n nd;
    s ← mh_setexist s n;
    Some (put_counts (u32 (n_dirty s + 1)) (t_size s) s)
  else Some s.

(** The loop of [mh_resize] over the [n] slots left; the result has the
    position when the batch was used up. *)
Fixpoint resize_loop (n : nat) h s (i batch : Z) : option (tab N * option Z) :=
  match n with
  | O => Some (s, None)
  | S n =>
      if decide (batch = 0) then Some (s, Some i) else
      s ← move_slot h s i; resize_loop n h s (i + 1) (batch - 1)
  end.

Definition mh_resize m : option (mh_t N) :=
  let h := main m in
  '(s, stop) ← resize_loop (Z.to_nat (n_buckets h - resize_position h)) h (shadow m) (resize_position h) (batch h);
  match stop with
  | Some i => Some (Mh (put_position i h) s)
  | None =>
      (* s->size = h->size; memcpy(h, s); h->resize_cnt++ *)
      let s := put_counts (n_dirty s) (t_size h) s in
      Some (Mh (Tab (t_p s) (t_b s) (n_buckets s) (n_dirty s) (t_size s) (upper_bound s) (prime s)
                  (u32 (resize_cnt s + 1)) (resize_position s) (batch s)) s)
  end.

(** [while (h->prime < __ac_HASH_PRIME_SIZE)] *)
Fixpoint prime_loop (n : nat) (prime buckets : Z) : Z :=
  match n with
  | O => prime
  | S n =>
      match ac_prime_list !! Z.to_nat prime with
      | Some p => if decide (buckets <= p) then prime else prime_loop n (prime + 1) buckets
      | None => prime
      end
  end.

Definition mh_start_resize m (buckets batch_ : Z) (st : malloc_state) : option (Z * mh_t N * malloc_state) :=
  let h := main m in
  if decide (resize_position h <> 0) then Some (0, m, st) else
  if decide (buckets < n_buckets h) then Some (0, m, st) else
  let pr := prime_loop (length ac_prime_list) (prime h) buckets in
  let ba := if decide (0 < batch_) then batch_ else n_buckets h / (256 * 1024) in
  let ba := if decide (ba < 256) then 256 else ba in
  let h := Tab (t_p h) (t_b h) (n_buckets h) (n_dirty h) (t_size h) (upper_bound h) pr (resize_cnt h)
             (resize_position h) ba in
  n ← ac_prime_list !! Z.to_nat pr;
  let s p b := Tab p b n 0 (t_size h) (density n) pr (resize_cnt h) 0 ba in
  let '(a, st) := pop st in
  match a with
  | Refuse => Some (-1, Mh h (s [] (t_b h)), st)
  | Grant _ =>
      let p := replicate (Z.to_nat n) None in
      let '(a, st) := pop st in
      match a with
      | Refuse => Some (-1, Mh h (s [] []), st)
      | Grant _ =>
          m ← mh_resize (Mh h (s p (replicate (Z.to_nat (n / 16 + 1)) 0))); Some (0, m, st)
      end
  end.

(** [mh_put] on the shadow.  A shadow that is full enough to be resized itself
    would start a resize into its own shadow pointer, which is itself; that is
    left undefined. *)
Definition put_shadow s nd : option (tab N) :=
  if decide (t_size s = n_buckets s) then Some s else
  if decide (0 < resize_position s \/ upper_bound s <= n_dirty s) then None else
  '(_, _, s) ← put_here s nd; Some s.

(** [mh_put]: the slot or [mh_end], [*ret] when it is set, the table. *)
Definition mh_put m nd (st : malloc_state) : option (Z * option (option N) * mh_t N * malloc_state) :=
  let x := n_buckets (main m) in
  if decide (t_size (main m) = n_buckets (main m)) then Some (x, None, m, st) else
  '(rc, m, st) ←
    (if decide (0 < resize_position (main m)) then m ← mh_resize m; Some (0, m, st)
     else if decide (upper_bound (main m) <= n_dirty (main m)) then
       mh_start_resize m (u32 (n_buckets (main m) + 1)) 0 st
     else Some (0, m, st));
  if decide (rc <> 0) then Some (x, None, m, st) else
  s ← (if decide (resize_position (main m) <> 0) then put_shadow (shadow m) nd else Some (shadow m));
  '(x, old, h) ← put_here (main m) nd;
  Some (x, Some old, Mh h s, st).

(** [mh_del] but for the resize in progress. *)
Definition del_here t (x : Z) : option (tab N) :=
  t ← mh_setfree t x;
  d ← mh_dirty t x;
  Some (put_counts (if d : bool then n_dirty t else u32 (n_dirty t - 1)) (u32 (t_size t - 1)) t).

(** [mh_del] on a table that is not being resized. *)
Definition del_tab t (x : Z) : option (tab N) :=
  if decide (x = n_buckets t) then Some t else
  e ← mh_exist t x;
  if e : bool then del_here t x else Some t.

Definition mh_del_resize m (x : Z) : option (mh_t N) :=
  nd ← mh_node (main m) x;
  y ← mh_get (shadow m) nd;
  s ← del_tab (shadow m) y;
  mh_resize (Mh (main m) s).

Definition mh_del m (x : Z) : option (mh_t N) :=
  if decide (x = n_buckets (main m)) then Some m else
  e ← mh_exist (main m) x;
  if e : bool then
    h ← del_here (main m) x;
    let m := Mh h (shadow m) in
    if decide (resize_position h <> 0) then mh_del_resize m x else Some m
  else Some m.

Definition mh_remove m nd : option (mh_t N) :=
  k ← mh_get (main m) nd;
  if decide (k = n_buckets (main m)) then Some m else mh_del m k.

(** A table just created: three buckets. *)
Definition new_tab : tab N := Tab (replicate 3 None) (replicate 1 0) 3 0 0 (density 3) 0 0 0 0.

(** A block from [MH_CALLOC]. *)
Definition zero_tab : tab N := Tab [] [] 0 0 0 0 0 0 0 0.

(** [mh_new]: the table, its shadow, the buckets and the bits; [None] is [NULL]. *)
Definition mh_new (st : malloc_state) : option (mh_t N) * malloc_state :=
  let '(a1, st) := pop st in
  match a1 with
  | Refuse => (None, st)
  | _ =>
      let '(a2, st) := pop st in
      match a2 with
      | Refuse => (None, st)
      | _ =>
          let '(a3, st) := pop st in
          match a3 with
          | Refuse => (None, st)
          | _ =>
              let '(a4, st) := pop st in
              match a4 with
              | Refuse => (None, st)
              | _ => (Some (Mh new_tab zero_tab), st)
              end
          end
      end
  end.

(** [mh_clear] *)
Definition mh_clear m : mh_t N :=
  let h := main m in
  Mh (Tab (replicate 3 None) (t_b h) 3 (n_dirty h) (t_size h) (density 3) 0 (resize_cnt h)
        (resize_position h) (batch h)) (shadow m).

(** [mh_next]: the first slot in use from [i + 1] on; [mh_first] is
    [next_from] at 0. *)
Fixpoint next_from (n : nat) t (i : Z) : option Z :=
  match n with
  | O => Some (n_buckets t)
  | S n => e ← mh_exist t i; if e : bool then Some i else next_from n t (i + 1)
  end.

Definition mh_first t : option Z := next_from (rounds t) t 0.
Definition mh_next t (i : Z) : option Z :=
  if decide (i < n_buckets t) then next_from (Z.to_nat (n_buckets t - (i + 1))) t (i + 1) else Some i.

End mhash.
