(* ===== verification/MhashSpec.v ===== *)
(** * The hash table of third_party/mhash.h is a finite map

    [repr m M] relates a table, also one that is being resized, to a [gmap] from
    keys to nodes; [mh_find], [mh_put], [mh_del], [mh_new] refine lookup,
    insertion, deletion and the empty map.  The double hashing visits every
    slot because the numbers of buckets are prime. *)

From stdpp Require Import gmap.
From S2P Require Import Prelude Mem Mhash.

(** ** Bits of a slot *)

Lemma land_bit w k : 0 <= k -> bool_decide (Z.land w (Z.shiftl 1 k) <> 0) = Z.testbit w k.
Proof.
  intros Hk. rewrite Z.shiftl_1_l. destruct (Z.testbit w k) eqn:E.
  - apply bool_decide_eq_true. intros H0. apply (f_equal (fun z => Z.testbit z k)) in H0.
    by rewrite Z.land_spec, E, Z.pow2_bits_true, Z.bits_0 in H0 by done.
  - apply bool_decide_eq_false. intros Hn. apply Hn. apply Z.bits_inj'. intros j Hj.
    rewrite Z.land_spec, Z.bits_0, Z.pow2_bits_eqb by done.
    destruct (Z.eqb_spec k j) as [->|]; [by rewrite E|by rewrite andb_false_r].
Qed.

Lemma testbit_set w k j : 0 <= k -> 0 <= j -> Z.testbit (Z.lor w (Z.shiftl 1 k)) j = Z.testbit w j || (k =? j).
Proof. intros. by rewrite Z.lor_spec, Z.shiftl_1_l, Z.pow2_bits_eqb. Qed.

Lemma testbit_clear w k j :
  0 <= k -> 0 <= j -> Z.testbit (Z.land w (Z.lnot (Z.shiftl 1 k))) j = Z.testbit w j && negb (k =? j).
Proof. intros. by rewrite Z.land_spec, Z.lnot_spec, Z.shiftl_1_l, Z.pow2_bits_eqb. Qed.

Section views.
Context {N : Type}.
Implicit Types t : tab N.

Definition word t (i : Z) : Z := default 0 (t_b t !! Z.to_nat (Z.shiftr i 4)).
(** Is slot [i] in use; is it inside a chain; its node. *)
Definition E t i : bool := Z.testbit (word t i) (i mod 16).
Definition D t i : bool := Z.testbit (word t i) (i mod 16 + 16).
Definition P t i : option N := mh_node t i.

Record shape t : Prop := {
  sh_prime : Z.prime (n_buckets t);
  sh_size : 2 < n_buckets t < 2 ^ 31;
  sh_p : length (t_p t) = Z.to_nat (n_buckets t);
  sh_b : length (t_b t) = Z.to_nat (n_buckets t / 16 + 1);
}.

Lemma word_index (i n : Z) : 0 <= i < n -> (Z.to_nat (Z.shiftr i 4) < Z.to_nat (n / 16 + 1))%nat.
Proof.
  intros H. rewrite Z.shiftr_div_pow2 by lia. change (2 ^ 4) with 16.
  assert (i / 16 <= n / 16) by (apply Z.div_le_mono; lia). assert (0 <= i / 16) by (apply Z.div_pos; lia). lia.
Qed.

Lemma word_ok t i : shape t -> 0 <= i < n_buckets t -> t_b t !! Z.to_nat (Z.shiftr i 4) = Some (word t i).
Proof.
  intros Hs Hi. unfold word.
  destruct (lookup_lt_is_Some_2 (t_b t) (Z.to_nat (Z.shiftr i 4))) as [w ->]; [|done].
  rewrite (sh_b t Hs). by apply word_index.
Qed.

Lemma exist_ok t i : shape t -> 0 <= i < n_buckets t -> mh_exist t i = Some (E t i).
Proof.
  intros. unfold mh_exist, get_bit. rewrite word_ok by done. cbn [mbind option_bind].
  rewrite land_bit; [done|]. pose proof (Z.mod_pos_bound i 16). lia.
Qed.

Lemma dirty_ok t i : shape t -> 0 <= i < n_buckets t -> mh_dirty t i = Some (D t i).
Proof.
  intros. unfold mh_dirty, get_bit. rewrite word_ok by done. cbn [mbind option_bind].
  rewrite land_bit; [done|]. pose proof (Z.mod_pos_bound i 16). lia.
Qed.

Lemma shape_put_b b t : shape t -> length b = length (t_b t) -> shape (put_b b t).
Proof. intros [] Hb. split; simpl; [done..|by rewrite Hb]. Qed.

(** Slots are determined by their word and their bit. *)
Lemma slot_eq i j : 0 <= i -> 0 <= j ->
  i = j <-> Z.to_nat (Z.shiftr i 4) = Z.to_nat (Z.shiftr j 4) /\ i mod 16 = j mod 16.
Proof.
  intros Hi Hj. split; [by intros ->|]. intros [H1 H2]. rewrite !Z.shiftr_div_pow2 in H1 by lia.
  change (2 ^ 4) with 16 in H1. rewrite (Z.div_mod i 16), (Z.div_mod j 16) by lia.
  assert (0 <= i / 16 /\ 0 <= j / 16) by (split; apply Z.div_pos; lia). lia.
Qed.

Lemma set_word_ok f t i :
  shape t -> 0 <= i < n_buckets t ->
  exists b, set_word f t i = Some (put_b b t) /\ shape (put_b b t) /\
    forall j, 0 <= j < n_buckets t ->
      word (put_b b t) j = if decide (Z.to_nat (Z.shiftr i 4) = Z.to_nat (Z.shiftr j 4)) then f (word t j) else word t j.
Proof.
  intros Hs Hi. unfold set_word. rewrite word_ok by done. cbn [mbind option_bind]. eexists. split; [done|].
  split; [apply shape_put_b; [done|by rewrite length_insert]|]. intros j Hj. unfold word at 1. simpl.
  case_decide as Hij.
  - rewrite <- Hij, list_lookup_insert_eq; [|rewrite (sh_b t Hs); by apply word_index].
    simpl. unfold word. by rewrite Hij.
  - by rewrite list_lookup_insert_ne.
Qed.

Lemma mod16 i : 0 <= i mod 16 < 16.
Proof. apply Z.mod_pos_bound. lia. Qed.

(** The three updates of the bits. *)
Lemma setexist_ok t i :
  shape t -> 0 <= i < n_buckets t ->
  exists b, mh_setexist t i = Some (put_b b t) /\ shape (put_b b t) /\
    forall j, 0 <= j < n_buckets t -> E (put_b b t) j = E t j || (i =? j) /\ D (put_b b t) j = D t j.
Proof.
  intros Hs Hi. destruct (set_word_ok (fun w => Z.lor w (Z.shiftl 1 (i mod 16))) t i Hs Hi) as (b & E1 & Hb & Hw).
  exists b. split; [done|]. split; [done|]. intros j Hj. unfold E, D. rewrite Hw by done.
  pose proof (slot_eq i j ltac:(lia) ltac:(lia)) as Hslot. pose proof (mod16 i). pose proof (mod16 j).
  case_decide as Hd.
  - rewrite !testbit_set by lia. split.
    + f_equal. apply eq_iff_eq_true. rewrite !Z.eqb_eq. tauto.
    + replace (i mod 16 =? j mod 16 + 16) with false by (symmetry; apply Z.eqb_neq; lia). by rewrite orb_false_r.
  - replace (i =? j) with false by (symmetry; apply Z.eqb_neq; tauto). by rewrite orb_false_r.
Qed.

Lemma setdirty_ok t i :
  shape t -> 0 <= i < n_buckets t ->
  exists b, mh_setdirty t i = Some (put_b b t) /\ shape (put_b b t) /\
    forall j, 0 <= j < n_buckets t -> E (put_b b t) j = E t j /\ D (put_b b t) j = D t j || (i =? j).
Proof.
  intros Hs Hi. destruct (set_word_ok (fun w => Z.lor w (Z.shiftl 1 (i mod 16 + 16))) t i Hs Hi) as (b & E1 & Hb & Hw).
  exists b. split; [done|]. split; [done|]. intros j Hj. unfold E, D. rewrite Hw by done.
  pose proof (slot_eq i j ltac:(lia) ltac:(lia)) as Hslot. pose proof (mod16 i). pose proof (mod16 j).
  case_decide as Hd.
  - rewrite !testbit_set by lia. split.
    + replace (i mod 16 + 16 =? j mod 16) with false by (symmetry; apply Z.eqb_neq; lia). by rewrite orb_false_r.
    + f_equal. apply eq_iff_eq_true. rewrite !Z.eqb_eq. rewrite Hslot. lia.
  - replace (i =? j) with false by (symmetry; apply Z.eqb_neq; tauto). by rewrite orb_false_r.
Qed.

Lemma setfree_ok t i :
  shape t -> 0 <= i < n_buckets t ->
  exists b, mh_setfree t i = Some (put_b b t) /\ shape (put_b b t) /\
    forall j, 0 <= j < n_buckets t -> E (put_b b t) j = E t j && negb (i =? j) /\ D (put_b b t) j = D t j.
Proof.
  intros Hs Hi.
  destruct (set_word_ok (fun w => Z.land w (Z.lnot (Z.shiftl 1 (i mod 16)))) t i Hs Hi) as (b & E1 & Hb & Hw).
  exists b. split; [done|]. split; [done|]. intros j Hj. unfold E, D. rewrite Hw by done.
  pose proof (slot_eq i j ltac:(lia) ltac:(lia)) as Hslot. pose proof (mod16 i). pose proof (mod16 j).
  case_decide as Hd.
  - rewrite !testbit_clear by lia. split.
    + do 2 f_equal. apply eq_iff_eq_true. rewrite !Z.eqb_eq. tauto.
    + replace (i mod 16 =? j mod 16 + 16) with false by (symmetry; apply Z.eqb_neq; lia). by rewrite andb_true_r.
  - replace (i =? j) with false by (symmetry; apply Z.eqb_neq; tauto). by rewrite andb_true_r.
Qed.

Lemma set_node_ok t i nd :
  shape t -> 0 <= i < n_buckets t ->
  exists p, set_node t i nd = Some (put_p p t) /\ shape (put_p p t) /\
    forall j, 0 <= j < n_buckets t -> P (put_p p t) j = if decide (i = j) then Some nd else P t j.
Proof.
  intros Hs Hi. unfold set_node.
  destruct (lookup_lt_is_Some_2 (t_p t) (Z.to_nat i)) as [x ->]; [rewrite (sh_p t Hs); lia|].
  cbn [mbind option_bind]. eexists. split; [done|]. split.
  - destruct Hs. split; simpl; [done..|by rewrite length_insert|done].
  - intros j Hj. unfold P, mh_node. simpl. case_decide as Hij.
    + subst. by rewrite list_lookup_insert_eq by (rewrite (sh_p t Hs); lia).
    + by rewrite list_lookup_insert_ne by lia.
Qed.

End views.

(** ** Probe sequences *)

Section probe.
Variables n k : Z.
Hypothesis Hn : 2 < n < 2 ^ 31.

(** The slot at the [m]th round for the hash [k]. *)
Definition slot (m : Z) : Z := (start_slot k n + m * start_inc k n) mod n.

Lemma slot_bound m : 0 <= slot m < n.
Proof using Hn. apply Z.mod_pos_bound. lia. Qed.

Lemma inc_bound : 1 <= start_inc k n < n.
Proof using Hn. unfold start_inc. pose proof (Z.mod_pos_bound k (n - 1)). lia. Qed.

Lemma slot_0 : slot 0 = start_slot k n.
Proof using Hn.
  unfold slot. rewrite Z.mul_0_l, Z.add_0_r. apply Z.mod_small. unfold start_slot. apply Z.mod_pos_bound. lia.
Qed.

Lemma next_slot_slot m : mh_next_slot (slot m) (start_inc k n) n = slot (m + 1).
Proof using Hn.
  pose proof (slot_bound m) as Hs. pose proof inc_bound as Hi. unfold mh_next_slot. rewrite u32_small by lia.
  assert (slot (m + 1) = (slot m + start_inc k n) mod n) as ->.
  { unfold slot. by rewrite (Zplus_mod_idemp_l (start_slot k n + m * start_inc k n)), Z.mul_add_distr_r, Z.mul_1_l, Z.add_assoc. }
  case_decide.
  - rewrite <- (Z.mod_small (slot m + start_inc k n - n) n) by lia.
    rewrite <- (Z_mod_plus_full (_ - n) 1 n). by rewrite Z.mul_1_l, Z.sub_add.
  - symmetry. apply Z.mod_small. lia.
Qed.

(** Every slot is visited in [n] rounds. *)
Lemma slot_cover j : Z.prime n -> 0 <= j < n -> exists m, 0 <= m < n /\ slot m = j.
Proof using Hn.
  intros Hp Hj. pose proof inc_bound as Hi.
  destruct (Z.Bezout_coprime _ _ (Z.coprime_prime_small _ _ Hp Hi)) as (v & u & Huv).
  exists (((j - start_slot k n) * u) mod n). split; [apply Z.mod_pos_bound; lia|].
  unfold slot. rewrite Zplus_mod, Zmult_mod_idemp_l, <- Zplus_mod.
  replace (start_slot k n + (j - start_slot k n) * u * start_inc k n)
    with (j + (- (j - start_slot k n) * v) * n).
  - rewrite Z_mod_plus_full. by apply Z.mod_small.
  - assert (u * start_inc k n = 1 - v * n) as Hu by lia. rewrite <- (Z.mul_assoc _ u), Hu. ring.
Qed.

End probe.

(** ** Counting slots *)

Fixpoint count (f : Z -> bool) (n : nat) : Z :=
  match n with O => 0 | S n => count f n + (if f (Z.of_nat n) then 1 else 0) end.

Lemma count_bound f n : 0 <= count f n <= Z.of_nat n.
Proof. induction n; simpl count; [lia|]. destruct (f _); lia. Qed.

Lemma count_ext f g n : (forall j, 0 <= j < Z.of_nat n -> f j = g j) -> count f n = count g n.
Proof. induction n as [|n IH]; intros H; [done|]. simpl. rewrite (H (Z.of_nat n)), IH by lia || (intros; apply H; lia). done. Qed.

Lemma count_le f g n : (forall j, 0 <= j < Z.of_nat n -> f j = true -> g j = true) -> count f n <= count g n.
Proof.
  induction n as [|n IH]; intros H; [done|]. simpl. assert (count f n <= count g n) by (apply IH; intros; apply H; lia || done).
  destruct (f (Z.of_nat n)) eqn:E1; [rewrite (H (Z.of_nat n)) by lia || done; lia|]. destruct (g _); lia.
Qed.

Lemma count_set f i n :
  0 <= i < Z.of_nat n -> f i = false -> count (fun j => f j || (i =? j)) n = count f n + 1.
Proof.
  induction n as [|n IH]; intros Hi Hf; [lia|]. simpl. destruct (decide (i = Z.of_nat n)) as [->|Hne].
  - rewrite Hf, Z.eqb_refl. simpl.
    rewrite (count_ext _ f n); [lia|]. intros j Hj. replace (Z.of_nat n =? j) with false by (symmetry; apply Z.eqb_neq; lia).
    apply orb_false_r.
  - rewrite IH by lia || done. replace (i =? Z.of_nat n) with false by (symmetry; apply Z.eqb_neq; lia).
    rewrite orb_false_r. lia.
Qed.

Lemma count_clear f i n :
  0 <= i < Z.of_nat n -> f i = true -> count (fun j => f j && negb (i =? j)) n = count f n - 1.
Proof.
  intros Hi Hf. set (g := fun j => f j && negb (i =? j)).
  assert (count f n = count g n + 1); [|lia]. rewrite <- (count_set g i n Hi) by (unfold g; by rewrite Z.eqb_refl, andb_false_r).
  apply count_ext. intros j _. unfold g. destruct (Z.eqb_spec i j) as [<-|]; [by rewrite Hf|]. simpl. by rewrite andb_true_r, orb_false_r.
Qed.

Lemma count_free f n : count f n < Z.of_nat n -> exists j, 0 <= j < Z.of_nat n /\ f j = false.
Proof.
  induction n as [|n IH]; intros H; [simpl in H; lia|]. simpl in H. destruct (f (Z.of_nat n)) eqn:E1.
  - destruct IH as (j & ? & ?); [lia|]. exists j. split; [lia|done].
  - exists (Z.of_nat n). split; [lia|done].
Qed.

Section refinement.
Context {N K : Type} `{Countable K}.
Variables (mh_hash : N -> Z) (mh_hash_key : K -> Z) (mh_eq : N -> N -> bool) (mh_eq_key : K -> N -> bool).
(** The key of a node; hash and comparisons depend on it only. *)
Variables (key_of : N -> K).
Hypothesis hash_node : forall nd, mh_hash nd = mh_hash_key (key_of nd).
Hypothesis eq_spec : forall a b, mh_eq a b = bool_decide (key_of a = key_of b).
Hypothesis eq_key_spec : forall k b, mh_eq_key k b = bool_decide (k = key_of b).
Implicit Types (t h s : tab N) (m : mh_t N) (nd : N) (M : gmap K N).

(** ** Well-formed tables *)

Definition used t i : bool := E t i || D t i.
Abbreviation probe t k := (slot (n_buckets t) (mh_hash_key k)).

Record wf t : Prop := {
  wf_shape : shape t;
  wf_node i : 0 <= i < n_buckets t -> E t i = true -> exists nd, P t i = Some nd;
  (** an entry is in the chain of its key *)
  wf_chain i nd : 0 <= i < n_buckets t -> E t i = true -> P t i = Some nd ->
    exists q, 0 <= q /\ probe t (key_of nd) q = i /\ forall j, 0 <= j < q -> D t (probe t (key_of nd) j) = true;
  wf_uniq i j ni nj : 0 <= i < n_buckets t -> 0 <= j < n_buckets t -> E t i = true -> E t j = true ->
    P t i = Some ni -> P t j = Some nj -> key_of ni = key_of nj -> i = j;
  wf_count : count (used t) (rounds t) <= n_dirty t < n_buckets t;
}.

(** The table holds exactly the entries of [M]. *)
Definition models t M : Prop :=
  forall k nd, M !! k = Some nd <->
    exists i, 0 <= i < n_buckets t /\ E t i = true /\ P t i = Some nd /\ key_of nd = k.

Definition hitb t (eq : N -> bool) i : bool :=
  E t i && match P t i with Some nd => eq nd | None => false end.

Lemma hit_ok t eq i : wf t -> 0 <= i < n_buckets t -> hit t eq i = Some (hitb t eq i).
Proof.
  intros Ht Hi. unfold hit, hitb. rewrite exist_ok by (done || apply Ht). cbn [mbind option_bind].
  destruct (E t i) eqn:E1; [|done]. destruct (wf_node t Ht i Hi E1) as [nd Hnd].
  unfold P in *. by rewrite Hnd.
Qed.

Lemma rounds_n t : wf t -> Z.of_nat (rounds t) = n_buckets t.
Proof. intros Ht. pose proof (sh_size t (wf_shape t Ht)). unfold rounds. lia. Qed.

(** Every chain ends at an unused slot. *)
Lemma free_slot t k : wf t -> exists q, 0 <= q < n_buckets t /\ used t (probe t k q) = false.
Proof.
  intros Ht. pose proof (wf_count t Ht) as Hc. pose proof (wf_shape t Ht) as [Hp Hs _ _].
  destruct (count_free (used t) (rounds t)) as (j & Hj & Hu); [rewrite rounds_n by done; lia|].
  rewrite rounds_n in Hj by done.
  destruct (slot_cover (n_buckets t) (mh_hash_key k) Hs j Hp Hj) as (q & Hq & Eq).
  exists q. by rewrite Eq.
Qed.

Lemma probe_bound t k q : wf t -> 0 <= probe t k q < n_buckets t.
Proof. intros Ht. apply slot_bound. apply (wf_shape t Ht). Qed.

Hint Resolve probe_bound wf_shape : core.

Lemma next_probe t k q :
  wf t -> mh_next_slot (probe t k q) (start_inc (mh_hash_key k) (n_buckets t)) (n_buckets t) = probe t k (q + 1).
Proof. intros Ht. apply next_slot_slot, (wf_shape t Ht). Qed.

Lemma first_probe t k : wf t -> start_slot (mh_hash_key k) (n_buckets t) = probe t k 0.
Proof. intros Ht. symmetry. apply slot_0, (wf_shape t Ht). Qed.

(** ** Lookup *)

Lemma find_loop_ok t eq k n q e :
  wf t -> 0 <= q <= e -> D t (probe t k e) = false -> e - q < Z.of_nat n ->
  exists r z, q <= z <= e /\
    find_loop n t eq (probe t k q) (start_inc (mh_hash_key k) (n_buckets t)) = Some r /\
    (forall j, q <= j < z -> D t (probe t k j) = true /\ hitb t eq (probe t k j) = false) /\
    ((hitb t eq (probe t k z) = true /\ r = probe t k z) \/
     (hitb t eq (probe t k z) = false /\ D t (probe t k z) = false /\ r = n_buckets t)).
Proof.
  intros Ht. revert q. induction n as [|n IH]; intros q Hq He Hn; [lia|]. cbn [find_loop].
  rewrite hit_ok by auto. cbn [mbind option_bind]. destruct (hitb t eq (probe t k q)) eqn:Eh.
  { exists (probe t k q), q. split; [lia|]. split; [done|]. split; [lia|by left]. }
  rewrite dirty_ok by auto. cbn [mbind option_bind]. destruct (D t (probe t k q)) eqn:Ed.
  - rewrite next_probe by done. destruct (decide (q = e)) as [->|Hne]; [congruence|].
    destruct (IH (q + 1)) as (r & z & Hz & -> & Hb & Hr); [lia|done|lia|].
    exists r, z. split; [lia|]. split; [done|]. split; [|done]. intros j Hj.
    destruct (decide (j = q)) as [->|]; [done|]. apply Hb. lia.
  - exists (n_buckets t), q. split; [lia|]. split; [done|]. split; [lia|by right].
Qed.

(** An entry with key [k] is reached before a chain for [k] that ends at [z]. *)
Lemma chain_reaches t k z i nd :
  wf t -> 0 <= i < n_buckets t -> E t i = true -> P t i = Some nd -> key_of nd = k ->
  0 <= z -> D t (probe t k z) = false -> exists q, 0 <= q <= z /\ probe t k q = i.
Proof.
  intros Ht Hi He Hp <- Hz Hd. destruct (wf_chain t Ht i nd Hi He Hp) as (q & Hq & Eq & Hch).
  exists q. split; [|done]. split; [done|]. destruct (decide (q <= z)); [done|].
  rewrite Hch in Hd by lia. done.
Qed.

Lemma find_spec t eq k M :
  wf t -> models t M -> (forall nd, eq nd = bool_decide (k = key_of nd)) ->
  exists r, find_loop (rounds t) t eq (start_slot (mh_hash_key k) (n_buckets t))
      (start_inc (mh_hash_key k) (n_buckets t)) = Some r /\
    match M !! k with
    | Some nd => 0 <= r < n_buckets t /\ E t r = true /\ P t r = Some nd
    | None => r = n_buckets t
    end.
Proof.
  intros Ht HM Heq. destruct (free_slot t k Ht) as (e & He & Hu). apply orb_false_iff in Hu as [_ Hd].
  rewrite first_probe by done.
  destruct (find_loop_ok t eq k (rounds t) 0 e Ht) as (r & z & Hz & Er & Hb & Hr); [lia|done|rewrite rounds_n by done; lia|].
  exists r. split; [done|]. destruct Hr as [[Hh ->]|(Hh & Hdz & ->)].
  - unfold hitb in Hh. apply andb_true_iff in Hh as [He' Hp]. destruct (P t (probe t k z)) as [nd|] eqn:Ep; [|done].
    rewrite Heq in Hp. apply bool_decide_eq_true in Hp.
    assert (M !! k = Some nd) as -> by (apply HM; by exists (probe t k z); auto). auto.
  - destruct (M !! k) as [nd|] eqn:Ek; [|done]. exfalso. apply HM in Ek as (i & Hi & He' & Hp & Hk).
    destruct (chain_reaches t k z i nd Ht Hi He' Hp Hk) as (q & Hq & Eq); [lia|done|].
    assert (hitb t eq i = true) as Hhi.
    { unfold hitb. rewrite He', Hp, Heq. by apply bool_decide_eq_true. }
    destruct (decide (q = z)) as [->|]; [by rewrite Eq in Hh; congruence|].
    destruct (Hb q) as [_ Hn]; [lia|]. rewrite Eq in Hn. congruence.
Qed.

Lemma mh_find_ok t k M :
  wf t -> models t M -> exists r, mh_find mh_hash_key mh_eq_key t k = Some r /\
    match M !! k with
    | Some nd => 0 <= r < n_buckets t /\ E t r = true /\ P t r = Some nd
    | None => r = n_buckets t
    end.
Proof. intros. by apply find_spec; [..|intros; apply eq_key_spec]. Qed.

Lemma mh_get_ok t nd M :
  wf t -> models t M -> exists r, mh_get mh_hash mh_eq t nd = Some r /\
    match M !! key_of nd with
    | Some nd' => 0 <= r < n_buckets t /\ E t r = true /\ P t r = Some nd'
    | None => r = n_buckets t
    end.
Proof. intros. unfold mh_get. rewrite hash_node. by apply find_spec; [..|intros; apply eq_spec]. Qed.

(** ** Insertion *)

(** [t'] is [t] with more slots in use marked dirty. *)
Definition marks t t' : Prop :=
  exists b, t' = put_b b t /\ shape t' /\
    (forall j, 0 <= j < n_buckets t -> E t' j = E t j) /\
    (forall j, 0 <= j < n_buckets t -> D t j = true -> D t' j = true) /\
    (forall j, 0 <= j < n_buckets t -> D t' j = true -> used t j = true).

Lemma marks_refl t : shape t -> marks t t.
Proof.
  intros. exists (t_b t). split; [by destruct t|]. split; [done|]. split; [done|]. split; [done|].
  intros j _ Hd. unfold used. by rewrite Hd, orb_true_r.
Qed.

Lemma marks_used t t' j : marks t t' -> 0 <= j < n_buckets t -> used t' j = used t j.
Proof.
  intros (b & -> & _ & He & Hd & Hu) Hj. unfold used in *. rewrite He by done.
  destruct (E t j) eqn:E1; [done|]. simpl. destruct (D t j) eqn:E2; [by apply Hd|].
  destruct (D (put_b b t) j) eqn:E3; [|done]. specialize (Hu j Hj E3). by rewrite E1, E2 in Hu.
Qed.

Lemma marks_trans t1 t2 t3 : marks t1 t2 -> marks t2 t3 -> marks t1 t3.
Proof.
  intros H1 H2. pose proof (fun j => marks_used t1 t2 j) as Hu.
  pose proof H1 as (b1 & -> & _ & He1 & Hd1 & _). destruct H2 as (b2 & -> & Hs2 & He2 & Hd2 & Hu2).
  exists b2. split; [done|]. split; [done|]. simpl in *. split; [by intros; rewrite He2, He1|].
  split; [by intros; apply Hd2, Hd1|]. intros j Hj Hd. rewrite <- (Hu j H1 Hj). by apply Hu2.
Qed.

Lemma marks_wf t t' : wf t -> marks t t' -> wf t'.
Proof.
  intros Ht Hm. pose proof Hm as (b & -> & Hs & He & Hd & _). split; simpl.
  - done.
  - intros i Hi Hi'. rewrite He in Hi' by done. by apply (wf_node t Ht).
  - intros i nd Hi Hi' Hp. rewrite He in Hi' by done. destruct (wf_chain t Ht i nd Hi Hi' Hp) as (q & Hq & Eq & Hch).
    exists q. split; [done|]. split; [done|]. intros j Hj. apply Hd; auto.
  - intros i j ni nj Hi Hj. rewrite !He by done. by apply (wf_uniq t Ht).
  - rewrite <- (count_ext (used t)); [apply (wf_count t Ht)|]. unfold rounds. simpl. intros j Hj.
    symmetry. apply (marks_used t); [done|]. pose proof (sh_size _ Hs) as Hn. simpl in Hn. lia.
Qed.

Lemma marks_models t t' M : marks t t' -> models t M -> models t' M.
Proof.
  intros (b & -> & _ & He & _) HM k nd. rewrite (HM k nd). simpl. apply exist_proper. intros i. unfold P, mh_node. simpl.
  split; intros (Hi & H1 & H2); (split; [done|]); (split; [|done]); [by rewrite He|by rewrite He in H1].
Qed.

Lemma marks_hitb t t' eq j : marks t t' -> 0 <= j < n_buckets t -> hitb t' eq j = hitb t eq j.
Proof. intros (b & -> & _ & He & _) Hj. unfold hitb. by rewrite He. Qed.

Lemma setdirty_marks t i :
  wf t -> 0 <= i < n_buckets t -> E t i = true ->
  exists t', mh_setdirty t i = Some t' /\ marks t t' /\ D t' i = true.
Proof.
  intros Ht Hi He. destruct (setdirty_ok t i (wf_shape t Ht) Hi) as (b & -> & Hs & Hb).
  exists (put_b b t). split; [done|]. split.
  - exists b. split; [done|]. split; [done|]. split; [by intros j Hj; apply Hb|]. split.
    + intros j Hj Hd. destruct (Hb j Hj) as [_ ->]. by rewrite Hd.
    + intros j Hj Hd. destruct (Hb j Hj) as [_ Ed]. rewrite Ed in Hd. unfold used.
      apply orb_true_iff in Hd as [->|Hij]; [apply orb_true_r|]. apply Z.eqb_eq in Hij as <-. by rewrite He.
  - destruct (Hb i Hi) as [_ ->]. by rewrite Z.eqb_refl, orb_true_r.
Qed.

Lemma skip_loop_ok eq k n : forall t q e,
  wf t -> 0 <= q <= e -> E t (probe t k e) = false -> e - q < Z.of_nat n ->
  (forall j, 0 <= j < q -> D t (probe t k j) = true /\ hitb t eq (probe t k j) = false) ->
  exists t' z dup, q <= z <= e /\ marks t t' /\
    skip_loop n t eq (probe t k q) (start_inc (mh_hash_key k) (n_buckets t)) = Some (t', probe t k z, dup) /\
    (forall j, 0 <= j < z -> D t' (probe t k j) = true /\ hitb t eq (probe t k j) = false) /\
    (if dup : bool then hitb t eq (probe t k z) = true else E t (probe t k z) = false).
Proof.
  induction n as [|n IH]; intros t q e Ht Hq He Hn Hb; [lia|]. cbn [skip_loop].
  rewrite exist_ok by auto. cbn [mbind option_bind]. destruct (E t (probe t k q)) eqn:E1.
  2: { exists t, q, false. split; [lia|]. split; [by apply marks_refl, wf_shape|]. by split. }
  destruct (wf_node t Ht _ (probe_bound t k q Ht) E1) as [nd Hnd].
  unfold P in Hnd. rewrite Hnd. cbn [mbind option_bind].
  destruct (eq nd) eqn:E2.
  { exists t, q, true. split; [lia|]. split; [by apply marks_refl, wf_shape|]. split; [done|]. split; [done|].
    unfold hitb, P. by rewrite E1, Hnd, E2. }
  destruct (setdirty_marks t _ Ht (probe_bound t k q Ht) E1) as (t1 & -> & Hm & Hd). cbn [mbind option_bind].
  pose proof (marks_wf _ _ Ht Hm) as Ht1. destruct (decide (q = e)) as [->|Hne]; [congruence|].
  pose proof Hm as (b & -> & _ & He1 & Hd1 & _). change (n_buckets (put_b b t)) with (n_buckets t) in *.
  rewrite next_probe by done.
  destruct (IH (put_b b t) (q + 1) e Ht1) as (t' & z & dup & Hz & Hm' & Ez & Hb' & Hdup).
  - lia.
  - simpl. rewrite He1 by auto. done.
  - lia.
  - intros j Hj. simpl. rewrite (marks_hitb t) by auto. destruct (decide (j = q)) as [->|].
    + split; [done|]. unfold hitb, P. by rewrite E1, Hnd, E2.
    + destruct (Hb j) as [Hj1 Hj2]; [lia|]. split; [|done]. apply Hd1; auto.
  - exists t', z, dup. simpl in *. split; [lia|]. split; [by eapply marks_trans|]. split; [done|].
    split; [intros j Hj; rewrite <- (marks_hitb t (put_b b t)) by auto; by apply Hb'|].
    destruct dup; [rewrite <- (marks_hitb t (put_b b t)) by auto; done|]. rewrite He1 in Hdup by auto. done.
Qed.

Lemma dup_loop_ok t eq k n q e save :
  wf t -> 0 <= q <= e -> D t (probe t k e) = false -> e - q < Z.of_nat n ->
  exists r, dup_loop n t eq (probe t k q) (start_inc (mh_hash_key k) (n_buckets t)) save = Some r /\
    ((exists z, q < z <= e /\ r = probe t k z /\ hitb t eq r = true) \/
     (r = save /\ exists z, q <= z <= e /\ D t (probe t k z) = false /\
        forall j, q < j <= z -> hitb t eq (probe t k j) = false)).
Proof.
  intros Ht. revert q. induction n as [|n IH]; intros q Hq He Hn; [lia|]. cbn [dup_loop].
  rewrite dirty_ok by auto. cbn [mbind option_bind]. destruct (D t (probe t k q)) eqn:Ed.
  2: { exists save. split; [done|]. right. split; [done|]. exists q. split; [lia|]. split; [done|lia]. }
  rewrite next_probe by done. rewrite hit_ok by auto. cbn [mbind option_bind].
  destruct (decide (q = e)) as [->|Hne]; [congruence|].
  destruct (hitb t eq (probe t k (q + 1))) eqn:Eh.
  { eexists. split; [done|]. left. exists (q + 1). split; [lia|done]. }
  destruct (IH (q + 1)) as (r & -> & Hr); [lia|done|lia|]. exists r. split; [done|].
  destruct Hr as [(z & Hz & ? & ?)|(-> & z & Hz & Hd & Hb)].
  - left. exists z. split; [lia|done].
  - right. split; [done|]. exists z. split; [lia|]. split; [done|]. intros j Hj.
    destruct (decide (j = q + 1)) as [->|]; [done|]. apply Hb. lia.
Qed.

Lemma hitb_entry t eq i : hitb t eq i = true -> E t i = true /\ exists nd, P t i = Some nd /\ eq nd = true.
Proof. intros [He Hp]%andb_true_iff. split; [done|]. destruct (P t i); [eauto|done]. Qed.

(** The slot for a node: that of the entry with its key, or a free one which
    the chain of the key reaches. *)
Lemma put_slot_ok t nd M :
  wf t -> models t M ->
  exists t' x, mh_put_slot mh_hash mh_eq t nd = Some (t', x) /\ marks t t' /\ 0 <= x < n_buckets t /\
    match M !! key_of nd with
    | Some nd' => E t x = true /\ P t x = Some nd'
    | None => E t x = false /\ exists q, 0 <= q /\ probe t (key_of nd) q = x /\
        forall j, 0 <= j < q -> D t' (probe t (key_of nd) j) = true
    end.
Proof.
  intros Ht HM. unfold mh_put_slot. rewrite hash_node. set (k := key_of nd).
  destruct (free_slot t k Ht) as (e & He & Hu). pose proof Hu as Hu'. apply orb_false_iff in Hu' as [He0 _].
  rewrite first_probe by done.
  destruct (skip_loop_ok (mh_eq nd) k (rounds t) t 0 e Ht) as (t' & z & dup & Hz & Hm & -> & Hb & Hdup);
    [lia|done|rewrite rounds_n by done; lia|lia|]. cbn [mbind option_bind].
  assert (forall i nd', hitb t (mh_eq nd) i = true -> 0 <= i < n_buckets t -> P t i = Some nd' -> M !! k = Some nd') as Hhit.
  { intros i nd' Hh Hi Hp. destruct (hitb_entry _ _ _ Hh) as (Hi' & nd2 & Hp2 & Heq). rewrite Hp in Hp2. injection Hp2 as <-.
    rewrite eq_spec in Heq. apply bool_decide_eq_true in Heq. apply HM. by exists i. }
  destruct dup.
  - exists t', (probe t k z). split; [done|]. split; [done|]. split; [auto|].
    destruct (hitb_entry _ _ _ Hdup) as (Hi' & nd' & Hp & _). rewrite (Hhit _ _ Hdup (probe_bound t k z Ht) Hp). done.
  - pose proof (marks_wf _ _ Ht Hm) as Ht'. pose proof Hm as (b & Eb & _ & HE & HD & HU).
    assert (n_buckets t' = n_buckets t) as En by by rewrite Eb.
    assert (rounds t' = rounds t) as Er by (unfold rounds; by rewrite En).
    destruct (dup_loop_ok t' (fun nd' => mh_eq nd' nd) k (rounds t) z e (probe t k z) Ht') as (r & Edup & Hr).
    { lia. }
    { destruct (D t' _) eqn:Ed; [|done]. rewrite En in Ed. apply HU in Ed; [congruence|auto]. }
    { rewrite rounds_n by done. lia. }
    assert (forall i, hitb t (fun nd' => mh_eq nd' nd) i = hitb t (mh_eq nd) i) as Hsym.
    { intros i. unfold hitb. destruct (P t i); [|done]. f_equal. rewrite !eq_spec. apply bool_decide_ext. split; by intros ->. }
    rewrite En in *. rewrite Er, Edup. cbn [mbind option_bind]. exists t', r. split; [done|]. split; [done|].
    destruct Hr as [(y & Hy & -> & Hh)|(-> & y & Hy & Hdy & Hnh)].
    + split; [auto|]. rewrite (marks_hitb t) in Hh by auto. rewrite Hsym in Hh.
      destruct (hitb_entry _ _ _ Hh) as (Hi' & nd' & Hp & _). rewrite (Hhit _ _ Hh (probe_bound t k y Ht) Hp). done.
    + split; [auto|]. destruct (M !! k) as [nd'|] eqn:Ek.
      * exfalso. apply HM in Ek as (i & Hi & Hi' & Hp & Hk).
        assert (hitb t (mh_eq nd) i = true) as Hhi.
        { unfold hitb. rewrite Hi', Hp, eq_spec. by apply bool_decide_eq_true. }
        assert (P t' i = Some nd') as Hp' by (by rewrite Eb).
        destruct (chain_reaches t' k y i nd') as (q & Hq & Eq); [done|by rewrite En|by rewrite HE|done|done|lia|by rewrite En|].
        rewrite En in Eq. destruct (decide (q < z)) as [Hqz|Hqz].
        { destruct (Hb q) as [_ Hf]; [lia|]. rewrite Eq in Hf. congruence. }
        destruct (decide (q = z)) as [->|]; [rewrite Eq in Hdup; congruence|].
        specialize (Hnh q ltac:(lia)). rewrite Eq, (marks_hitb t), Hsym in Hnh by auto. congruence.
      * split; [done|]. exists z. split; [lia|]. split; [done|]. intros j Hj. by apply Hb.
Qed.

(** Where a node with key [k] may be put. *)
Definition slot_for t M k x : Prop :=
  match M !! k with
  | Some nd' => E t x = true /\ P t x = Some nd'
  | None => E t x = false /\ exists q, 0 <= q /\ probe t k q = x /\ forall j, 0 <= j < q -> D t (probe t k j) = true
  end.

(** [t'] is [t] with node [nd] at slot [x]. *)
Definition with_entry t t' x nd : Prop :=
  shape t' /\ n_buckets t' = n_buckets t /\
  forall j, 0 <= j < n_buckets t ->
    E t' j = E t j || (x =? j) /\ D t' j = D t j /\ P t' j = if decide (x = j) then Some nd else P t j.

Lemma entry_key t M k x nd' : models t M -> 0 <= x < n_buckets t -> slot_for t M k x ->
  E t x = true -> P t x = Some nd' -> key_of nd' = k /\ M !! k = Some nd'.
Proof.
  intros HM Hx Hsl He Hp. unfold slot_for in Hsl. destruct (M !! k) as [nd2|] eqn:Ek; [|destruct Hsl; congruence].
  destruct Hsl as [_ Hp']. rewrite Hp in Hp'. injection Hp' as ->. split; [|done].
  apply HM in Ek as (i & _ & _ & _ & <-). done.
Qed.

Lemma other_key t M k x i nd' : wf t -> models t M -> 0 <= x < n_buckets t -> slot_for t M k x ->
  0 <= i < n_buckets t -> i <> x -> E t i = true -> P t i = Some nd' -> key_of nd' <> k.
Proof.
  intros Ht HM Hx Hsl Hi Hne He Hp Hk. assert (M !! k = Some nd') as Ek by (apply HM; by exists i).
  unfold slot_for in Hsl. rewrite Ek in Hsl. destruct Hsl as [Hex Hpx].
  by apply Hne, (wf_uniq t Ht i x nd' nd').
Qed.

Lemma insert_ok t t' x nd M :
  wf t -> models t M -> 0 <= x < n_buckets t -> slot_for t M (key_of nd) x -> with_entry t t' x nd ->
  count (used t') (rounds t') <= n_dirty t' < n_buckets t' ->
  wf t' /\ models t' (<[key_of nd := nd]> M).
Proof.
  intros Ht HM Hx Hsl (Hs & En & Hv) Hc.
  assert (forall j nd', 0 <= j < n_buckets t -> E t' j = true -> P t' j = Some nd' ->
    (j = x /\ nd' = nd) \/ (j <> x /\ E t j = true /\ P t j = Some nd' /\ key_of nd' <> key_of nd)) as Hcase.
  { intros j nd' Hj He Hp. destruct (Hv j Hj) as (Ej & _ & Pj). rewrite Ej in He. rewrite Pj in Hp.
    case_decide as Hd; [left; by simplify_eq|right]. apply orb_true_iff in He as [He|?%Z.eqb_eq]; [|done].
    split; [done|]. split; [done|]. split; [done|]. by apply (other_key t M (key_of nd) x j). }
  split; [split|].
  - done.
  - intros i Hi He. rewrite En in Hi. destruct (Hv i Hi) as (Ei & _ & Pi). rewrite Pi. case_decide; [eauto|].
    rewrite Ei in He. apply orb_true_iff in He as [He|?%Z.eqb_eq]; [|done]. by apply (wf_node t Ht).
  - intros i nd' Hi He Hp. rewrite En in Hi |- *.
    assert (forall k j, D t' (probe t k j) = D t (probe t k j)) as HD by (intros; apply Hv; auto).
    destruct (Hcase i nd' Hi He Hp) as [[-> ->]|(_ & He' & Hp' & _)].
    + unfold slot_for in Hsl. destruct (M !! key_of nd) as [nd2|] eqn:Ek.
      * destruct Hsl as [Hex Hpx]. destruct (wf_chain t Ht x nd2 Hx Hex Hpx) as (q & Hq & Eq & Hch).
        destruct (entry_key t M (key_of nd) x nd2) as [Hk _]; [done|done|unfold slot_for; by rewrite Ek|done|done|].
        rewrite Hk in *. exists q. split; [done|]. split; [done|]. intros j Hj. rewrite HD. by apply Hch.
      * destruct Hsl as (_ & q & Hq & Eq & Hch). exists q. split; [done|]. split; [done|]. intros j Hj. rewrite HD. by apply Hch.
    + destruct (wf_chain t Ht i nd' Hi He' Hp') as (q & Hq & Eq & Hch). exists q. split; [done|]. split; [done|].
      intros j Hj. rewrite HD. by apply Hch.
  - intros i j ni nj Hi Hj Hei Hej Hpi Hpj Hk. rewrite En in Hi, Hj.
    destruct (Hcase i ni Hi Hei Hpi) as [[-> ->]|(_ & H1 & H2 & H3)], (Hcase j nj Hj Hej Hpj) as [[-> ->]|(_ & H4 & H5 & H6)];
      try congruence. by apply (wf_uniq t Ht i j ni nj).
  - done.
  - intros k nd'. rewrite lookup_insert_Some, En. split.
    + intros [[<- <-]|[Hne Hk]].
      * exists x. split; [done|]. destruct (Hv x Hx) as (-> & _ & ->). rewrite Z.eqb_refl, orb_true_r.
        by rewrite decide_True.
      * apply HM in Hk as (i & Hi & He & Hp & <-). assert (i <> x) as Hix.
        { intros ->. destruct (entry_key t M (key_of nd) x nd' HM Hx Hsl He Hp) as [? _]. congruence. }
        exists i. split; [done|]. destruct (Hv i Hi) as (-> & _ & ->). rewrite He, decide_False by congruence. done.
    + intros (i & Hi & He & Hp & <-). destruct (Hcase i nd' Hi He Hp) as [[-> ->]|(_ & He' & Hp' & Hne)]; [by left|right].
      split; [done|]. apply HM. by exists i.
Qed.

(** The parameters of a table that putting an entry keeps. *)
Definition same_params t t' : Prop :=
  n_buckets t' = n_buckets t /\ upper_bound t' = upper_bound t /\ prime t' = prime t /\
  resize_cnt t' = resize_cnt t /\ resize_position t' = resize_position t /\ batch t' = batch t.

Definition count_entries t : Z := count (E t) (rounds t).

Lemma count_entry t t' x nd :
  with_entry t t' x nd -> 0 <= x < n_buckets t ->
  count_entries t' = count_entries t + (if E t x then 0 else 1) /\
  count (used t') (rounds t') = count (used t) (rounds t) + (if used t x then 0 else 1).
Proof.
  intros (Hs & En & Hv) Hx. assert (rounds t' = rounds t) as Er by (unfold rounds; by rewrite En).
  assert (Z.of_nat (rounds t) = n_buckets t) as Hr by (unfold rounds; lia). unfold count_entries. rewrite Er. split.
  - destruct (E t x) eqn:Ex.
    + rewrite Z.add_0_r. apply count_ext. rewrite Hr. intros j Hj. destruct (Hv j Hj) as (-> & _).
      destruct (Z.eqb_spec x j) as [<-|]; [by rewrite Ex|apply orb_false_r].
    + rewrite <- (count_set (E t) x) by (rewrite ?Hr; done). apply count_ext. rewrite Hr. intros j Hj. apply Hv, Hj.
  - destruct (used t x) eqn:Ex.
    + rewrite Z.add_0_r. apply count_ext. rewrite Hr. intros j Hj. unfold used in *. destruct (Hv j Hj) as (-> & -> & _).
      destruct (Z.eqb_spec x j) as [<-|]; [|by rewrite orb_false_r]. destruct (E t x); [done|]. simpl in *. done.
    + rewrite <- (count_set (used t) x) by (rewrite ?Hr; done). apply count_ext. rewrite Hr. intros j Hj.
      unfold used. destruct (Hv j Hj) as (-> & -> & _). destruct (E t j), (D t j), (x =? j); done.
Qed.

Definition new_entry M k : Z := match M !! k with Some _ => 0 | None => 1 end.

Lemma put_here_ok t nd M :
  wf t -> models t M -> n_dirty t + 1 < n_buckets t -> 0 <= t_size t < 2 ^ 31 ->
  exists x t', put_here mh_hash mh_eq t nd = Some (x, M !! key_of nd, t') /\
    wf t' /\ models t' (<[key_of nd := nd]> M) /\ same_params t t' /\ 0 <= x < n_buckets t /\
    n_dirty t <= n_dirty t' <= n_dirty t + 1 /\
    t_size t' = t_size t + new_entry M (key_of nd) /\
    count_entries t' = count_entries t + new_entry M (key_of nd) /\
    (forall j nd', 0 <= j < n_buckets t -> E t' j = true -> P t' j = Some nd' ->
       key_of nd' = key_of nd \/ (E t j = true /\ P t j = Some nd')) /\
    (forall j, 0 <= j < n_buckets t -> E t' j = true -> E t j = true \/ x = j).
Proof.
  intros Ht HM Hn Hsz. unfold put_here, new_entry.
  destruct (put_slot_ok t nd M Ht HM) as (t1 & x & -> & Hm & Hx & Hsl). cbn [mbind option_bind].
  pose proof (marks_wf _ _ Ht Hm) as Ht1. pose proof (marks_models _ _ _ Hm HM) as HM1.
  pose proof (marks_used _ _ x Hm) as Hu. pose proof Hm as (b & -> & Hs1 & HE & _).
  set (t1 := put_b b t) in *. assert (slot_for t1 M (key_of nd) x) as Hsl1.
  { unfold slot_for. destruct (M !! key_of nd) as [nd'|] eqn:Ek.
    - by rewrite HE. - rewrite HE by done. by destruct Hsl. }
  assert (count_entries t1 = count_entries t) as Ece.
  { apply count_ext. unfold rounds. intros j Hj. apply HE. pose proof (sh_size _ Hs1) as H'. simpl in *. lia. }
  assert (forall t2, with_entry t1 t2 x nd -> forall j nd', 0 <= j < n_buckets t -> E t2 j = true -> P t2 j = Some nd' ->
    key_of nd' = key_of nd \/ (E t j = true /\ P t j = Some nd')) as Hold.
  { intros t2 (_ & _ & Hv) j nd' Hj. destruct (Hv j Hj) as (-> & _ & ->). rewrite HE by done. intros Hj' Hp.
    case_decide as Hd; [left; by injection Hp as ->|right]. apply orb_true_iff in Hj' as [?|?%Z.eqb_eq]; done. }
  assert (forall t2, with_entry t1 t2 x nd -> forall j, 0 <= j < n_buckets t -> E t2 j = true -> E t j = true \/ x = j) as Hold2.
  { intros t2 (_ & _ & Hv) j Hj. destruct (Hv j Hj) as (-> & _). rewrite HE by done. by intros [?|?%Z.eqb_eq]%orb_true_iff; [left|right]. }
  rewrite exist_ok by done. cbn [mbind option_bind]. rewrite HE by done.
  assert (E t x = true <-> exists nd', M !! key_of nd = Some nd') as Hex.
  { destruct (M !! key_of nd) as [nd'|]; [|destruct Hsl as [-> _]; split; [done|by intros []]]. destruct Hsl. split; eauto. }
  destruct (E t x) eqn:Ex.
  - destruct (proj1 Hex eq_refl) as [nd' Ek]. rewrite Ek in Hsl |- *. destruct Hsl as [_ Hp].
    assert (mh_node t1 x = Some nd') as -> by exact Hp. cbn [mbind option_bind].
    destruct (set_node_ok t1 x nd Hs1 Hx) as (p & -> & Hs2 & HP). cbn [mbind option_bind].
    assert (with_entry t1 (put_p p t1) x nd) as Hw.
    { split; [done|]. split; [done|]. intros j Hj. split; [|split; [done|by apply HP]].
      change (E (put_p p t1) j) with (E t1 j). destruct (Z.eqb_spec x j) as [<-|]; [|by rewrite orb_false_r].
      by rewrite HE, Ex. }
    destruct (count_entry _ _ _ _ Hw Hx) as [C1 C2]. rewrite HE in C1 by done. rewrite Ex in C1.
    destruct (insert_ok t1 (put_p p t1) x nd M Ht1 HM1 Hx Hsl1 Hw) as [H1 H2].
    { rewrite C2. pose proof (wf_count t1 Ht1). assert (used t1 x = true) as -> by (rewrite Hu by done; unfold used; by rewrite Ex).
      simpl in *. lia. }
    exists x, (put_p p t1). split; [done|]. split; [done|]. split; [done|]. split; [done|]. split; [done|].
    simpl. split; [lia|]. split; [lia|]. split; [rewrite C1; lia|]. split; [by apply Hold|by apply Hold2].
  - assert (M !! key_of nd = None) as Ek by (destruct (M !! key_of nd); [naive_solver|done]). rewrite Ek in *.
    destruct (setexist_ok t1 x Hs1 Hx) as (b2 & -> & Hs2 & Hb2). cbn [mbind option_bind].
    rewrite dirty_ok by done. cbn [mbind option_bind]. destruct (Hb2 x Hx) as [_ ->].
    set (d := if D t1 x then _ else _).
    assert (shape (put_counts d (u32 (t_size (put_b b2 t1) + 1)) (put_b b2 t1))) as Hs3 by (by destruct Hs2).
    destruct (set_node_ok _ x nd Hs3 Hx) as (p & -> & Hs4 & HP). cbn [mbind option_bind]. set (t2 := put_p p _) in *.
    assert (with_entry t1 t2 x nd) as Hw.
    { split; [done|]. split; [done|]. intros j Hj. destruct (Hb2 j Hj) as [H1 H2]. split; [exact H1|]. split; [exact H2|by apply HP]. }
    destruct (count_entry _ _ _ _ Hw Hx) as [C1 C2]. rewrite HE in C1 by done. rewrite Ex in C1.
    pose proof (wf_count t1 Ht1) as Hc. pose proof (sh_size _ Hs1) as Hns. pose proof (count_bound (used t1) (rounds t1)).
    assert (d = n_dirty t + (if used t1 x then 0 else 1)) as Hd.
    { unfold d, used. rewrite HE, Ex by done. simpl. destruct (D t1 x); [lia|]. apply u32_small. simpl in *. lia. }
    destruct (insert_ok t1 t2 x nd M Ht1 HM1 Hx Hsl1 Hw) as [H1 H2].
    { rewrite C2. change (n_dirty t2) with d. change (n_buckets t2) with (n_buckets t). rewrite Hd. simpl in *. destruct (used _ x); lia. }
    exists x, t2. split; [done|]. split; [done|]. split; [done|]. split; [done|]. split; [done|].
    change (n_dirty t2) with d. rewrite Hd. split; [destruct (used t1 x); lia|].
    change (t_size t2) with (u32 (t_size t + 1)). rewrite u32_small by lia. split; [lia|].
    split; [rewrite C1; lia|]. split; [by apply Hold|by apply Hold2].
Qed.

(** ** Deletion *)

Lemma del_here_ok t x nd M :
  wf t -> models t M -> 0 <= x < n_buckets t -> E t x = true -> P t x = Some nd -> 1 <= t_size t < 2 ^ 32 ->
  exists t', del_here t x = Some t' /\ wf t' /\ models t' (delete (key_of nd) M) /\ same_params t t' /\
    t_p t' = t_p t /\ n_dirty t' <= n_dirty t /\ t_size t' = t_size t - 1 /\ count_entries t' = count_entries t - 1 /\
    (forall j, 0 <= j < n_buckets t -> E t' j = E t j && negb (x =? j)).
Proof.
  intros Ht HM Hx Hex Hpx Hsz. unfold del_here. pose proof (wf_shape t Ht) as Hs.
  destruct (setfree_ok t x Hs Hx) as (b & -> & Hs1 & Hb). cbn [mbind option_bind].
  rewrite dirty_ok by done. cbn [mbind option_bind]. destruct (Hb x Hx) as [_ ->].
  set (d := if D t x then _ else _). set (t' := put_counts d _ _).
  assert (rounds t' = rounds t) as Er by done. assert (Z.of_nat (rounds t) = n_buckets t) as Hr by (by apply rounds_n).
  assert (forall j, 0 <= j < n_buckets t -> E t' j = E t j && negb (x =? j)) as HE by (intros j Hj; apply Hb, Hj).
  assert (forall j, 0 <= j < n_buckets t -> D t' j = D t j) as HD by (intros j Hj; apply Hb, Hj).
  assert (forall j, P t' j = P t j) as HP by done.
  assert (forall j, 0 <= j < n_buckets t -> E t' j = true -> E t j = true /\ j <> x) as HE'.
  { intros j Hj Hj'. rewrite HE in Hj' by done. apply andb_true_iff in Hj' as [? Hne]. split; [done|].
    intros ->. by rewrite Z.eqb_refl in Hne. }
  assert (count (used t') (rounds t) = count (used t) (rounds t) - (if D t x then 0 else 1)) as Cu.
  { destruct (D t x) eqn:Ed.
    - rewrite Z.sub_0_r. apply count_ext. rewrite Hr. intros j Hj. unfold used. rewrite HE, HD by done.
      destruct (Z.eqb_spec x j) as [<-|]; [by rewrite Ed, !orb_true_r|by rewrite andb_true_r].
    - rewrite <- (count_clear (used t) x) by (rewrite ?Hr; unfold used; rewrite ?Hex; done). apply count_ext. rewrite Hr.
      intros j Hj. unfold used. rewrite HE, HD by done.
      destruct (Z.eqb_spec x j) as [<-|]; simpl; [by rewrite Ed, !andb_false_r|by rewrite !andb_true_r]. }
  pose proof (wf_count t Ht) as Hc. pose proof (count_bound (used t') (rounds t)) as Hcb. pose proof (sh_size t Hs) as Hns.
  assert (d = n_dirty t - (if D t x then 0 else 1)) as Hd.
  { unfold d. destruct (D t x); [simpl; lia|]. simpl. apply u32_small. lia. }
  exists t'. split; [done|]. split; [split|].
  - by destruct Hs1.
  - intros i Hi He. destruct (HE' i Hi He). rewrite HP. by apply (wf_node t Ht).
  - intros i nd' Hi He Hp. destruct (HE' i Hi He) as [He' _]. destruct (wf_chain t Ht i nd' Hi He' Hp) as (q & Hq & Eq & Hch).
    exists q. split; [done|]. split; [done|]. intros j Hj. change (n_buckets t') with (n_buckets t).
    rewrite HD by auto. by apply Hch.
  - intros i j ni nj Hi Hj Hei Hej. destruct (HE' i Hi Hei), (HE' j Hj Hej). by apply (wf_uniq t Ht).
  - rewrite Er, Cu. change (n_dirty t') with d. change (n_buckets t') with (n_buckets t). rewrite Hd. destruct (D t x); lia.
  - split; [|split; [done|split; [done|split; [simpl; rewrite Hd; destruct (D t x); lia|split; [simpl; apply u32_small; lia|split; [|done]]]]]].
    + intros k nd'. rewrite lookup_delete_Some. split.
      * intros [Hne Hk]. apply HM in Hk as (i & Hi & He & Hp & <-). exists i. split; [done|]. split; [|done].
        rewrite HE by done. rewrite He. simpl. apply negb_true_iff, Z.eqb_neq. intros ->. congruence.
      * intros (i & Hi & He & Hp & <-). destruct (HE' i Hi He) as [He' Hne]. split.
        -- intros Hk. apply Hne. by apply (wf_uniq t Ht i x nd' nd).
        -- apply HM. by exists i.
    + unfold count_entries. rewrite Er. rewrite <- (count_clear (E t) x) by (rewrite ?Hr; done).
      apply count_ext. rewrite Hr. done.
Qed.

(** ** The number of entries *)

Definition entry_at t (i : nat) : option (K * N) :=
  if E t (Z.of_nat i) then (fun nd => (key_of nd, nd)) <$> P t (Z.of_nat i) else None.

Lemma count_size t M : wf t -> models t M -> count_entries t = Z.of_nat (size M).
Proof.
  intros Ht HM. pose proof (rounds_n t Ht) as Hr. set (l := omap (entry_at t) (seq 0 (rounds t))).
  assert (forall i kn, entry_at t i = Some kn ->
    E t (Z.of_nat i) = true /\ P t (Z.of_nat i) = Some kn.2 /\ key_of kn.2 = kn.1) as Hent.
  { intros i kn He. unfold entry_at in He. destruct (E t (Z.of_nat i)); [|done].
    destruct (P t (Z.of_nat i)) as [nd|]; [|done]. injection He as <-. done. }
  assert (forall kn, kn ∈ l <-> exists i, (i < rounds t)%nat /\ entry_at t i = Some kn) as Hin.
  { intros kn. unfold l. rewrite list_elem_of_omap. apply exist_proper. intros i. rewrite elem_of_seq. naive_solver lia. }
  assert (NoDup l.*1) as Hnd.
  { unfold l. clear l Hin. assert (forall a n : nat, (a + n <= rounds t)%nat -> NoDup (omap (entry_at t) (seq a n)).*1) as H'; [|by apply H'].
    intros a n. revert a. induction n as [|n IH]; intros a Ha; simpl; [constructor|].
    destruct (entry_at t a) as [kn|] eqn:Ea; [|apply IH; lia]. cbn [fmap list_fmap]. constructor; [|apply IH; lia].
    rewrite list_elem_of_fmap. intros (kn' & Hk & Hkn'). apply list_elem_of_omap in Hkn' as (i & Hi%elem_of_seq & Ei).
    destruct (Hent _ _ Ea) as (He1 & Hp1 & Hk1), (Hent _ _ Ei) as (He2 & Hp2 & Hk2).
    assert (Z.of_nat a = Z.of_nat i); [|lia]. apply (wf_uniq t Ht _ _ kn.2 kn'.2); (done || lia || congruence). }
  assert (M = list_to_map l) as ->.
  { apply map_eq. intros k. apply option_eq. intros nd. rewrite <- elem_of_list_to_map by done. rewrite Hin, (HM k nd). split.
    - intros (i & Hi & He & Hp & <-). exists (Z.to_nat i). split; [lia|]. unfold entry_at. rewrite Z2Nat.id by lia. by rewrite He, Hp.
    - intros (i & Hi & Ei). destruct (Hent _ _ Ei) as (He & Hp & Hk). exists (Z.of_nat i). split; [lia|done]. }
  rewrite <- length_map_to_list, map_to_list_to_map by done.
  unfold count_entries, l. clear Hin Hnd l HM.
  assert (forall n, (n <= rounds t)%nat -> count (E t) n = Z.of_nat (length (omap (entry_at t) (seq 0 n)))) as H'; [|by apply H'].
  induction n as [|n IH]; intros Hm; [done|]. rewrite seq_S, omap_app, length_app, Nat2Z.inj_add, <- IH by lia.
  cbn [count]. f_equal. simpl. unfold entry_at. destruct (E t (Z.of_nat n)) eqn:Em; [|done].
  destruct (wf_node t Ht (Z.of_nat n)) as [nd ->]; [lia|done|done].
Qed.

(** ** The numbers of buckets *)

(** No divisor from [d] on, for [fuel] numbers. *)
Fixpoint trial (fuel : nat) (n d : Z) : bool :=
  match fuel with O => true | S fuel => if n mod d =? 0 then false else trial fuel n (d + 1) end.

Lemma trial_ok fuel n d x : trial fuel n d = true -> 0 < d -> d <= x < d + Z.of_nat fuel -> ~ (x | n).
Proof.
  revert d. induction fuel as [|fuel IH]; intros d Ht Hd Hx; [lia|]. simpl in Ht.
  destruct (Z.eqb_spec (n mod d) 0) as [|Hne]; [done|]. destruct (decide (x = d)) as [->|].
  - by rewrite <- Z.mod_divide by lia.
  - apply (IH (d + 1)); [done|lia|lia].
Qed.

Lemma trial_prime fuel n :
  trial fuel n 2 = true -> 1 < n -> n < (2 + Z.of_nat fuel) * (2 + Z.of_nat fuel) -> Z.prime n.
Proof.
  intros Ht Hn Hf. split; [done|]. intros x Hx [y Hy].
  destruct (decide (x < 2 + Z.of_nat fuel)) as [Hs|Hl].
  - apply (trial_ok fuel n 2 x Ht); [lia|lia|by exists y].
  - assert (1 < y < 2 + Z.of_nat fuel) by nia. apply (trial_ok fuel n 2 y Ht); [lia|lia|]. exists x. lia.
Qed.

(** What the growth of the table relies on, for successive numbers of buckets
    below [2 ^ 31]. *)
Record growth (p q : Z) : Prop := {
  gr_lt : 2 < p < q;
  gr_room : p + p / 256 + 2 <= density q;
  gr_ratio : q <= 4 * p;
  gr_slack : 256 < p -> density p + p / 256 + 2 <= p;
  gr_density : 0 < density p < p /\ density q < q;
  gr_prime : Z.prime p /\ Z.prime q;
}.

Definition growthb (p q : Z) : bool :=
  (q <=? 4 * p) && (2 <? p) && (p <? q) && (p + p / 256 + 2 <=? density q) &&
  ((p <=? 256) || (density p + p / 256 + 2 <=? p)) && (0 <? density p) && (density p <? p) && (density q <? q).

Lemma growthb_ok p q : growthb p q = true -> Z.prime p -> Z.prime q -> growth p q.
Proof.
  unfold growthb. rewrite !andb_true_iff, orb_true_iff, !Z.ltb_lt, !Z.leb_le. intros Hb Hp Hq.
  destruct Hb as (((((((H0 & H1) & H2) & H3) & H4) & H5) & H6) & H7). split; try done; lia.
Qed.

(** Checks on the list: its elements are primes, and leave room to grow as
    long as they are below [2 ^ 31]. *)
Lemma primes_checked :
  forallb (fun n => (1 <? n) && trial (Z.to_nat (Z.sqrt n)) n 2) ac_prime_list = true /\
  forallb (fun '(p, q) => (2 ^ 31 <=? q) || growthb p q) (zip ac_prime_list (tail ac_prime_list)) = true.
Proof. split; vm_compute; reflexivity. Qed.

Lemma ac_prime_prime i n : ac_prime_list !! i = Some n -> Z.prime n.
Proof.
  intros Hi. destruct primes_checked as [Hc _]. rewrite forallb_forall in Hc.
  specialize (Hc n). rewrite <- list_elem_of_In in Hc. specialize (Hc (list_elem_of_lookup_2 _ _ _ Hi)).
  apply andb_true_iff in Hc as [H1%Z.ltb_lt H2]. apply (trial_prime _ n H2 H1).
  pose proof (Z.sqrt_spec n ltac:(lia)) as Hs. pose proof (Z.sqrt_nonneg n). rewrite Z2Nat.id by done. generalize dependent (Z.sqrt n). unfold Z.succ. intros r. nia.
Qed.

Lemma ac_prime_growth i p q :
  ac_prime_list !! i = Some p -> ac_prime_list !! S i = Some q -> q < 2 ^ 31 -> growth p q.
Proof.
  intros Hp Hq Hlt. destruct primes_checked as [_ Hc]. rewrite forallb_forall in Hc.
  specialize (Hc (p, q)). rewrite <- list_elem_of_In in Hc.
  assert ((p, q) ∈ zip ac_prime_list (tail ac_prime_list)) as Hin.
  { apply (list_elem_of_lookup_2 _ i). apply lookup_zip_with_Some. exists p, q. split; [done|]. split; [done|].
    by rewrite lookup_tail. }
  specialize (Hc Hin). apply orb_true_iff in Hc as [Hc%Z.leb_le|Hc]; [lia|].
  apply growthb_ok; [done|by eapply ac_prime_prime..].
Qed.

(** Below [2 ^ 30] there is a next number of buckets, below [2 ^ 31]. *)
Lemma ac_prime_next i p : ac_prime_list !! i = Some p -> p < 2 ^ 30 -> exists q, ac_prime_list !! S i = Some q /\ q < 2 ^ 31.
Proof.
  intros Hi Hp. unfold ac_prime_list in *.
  do 28 (destruct i as [|i]; [eexists; split; [reflexivity|done]|]).
  do 3 (destruct i as [|i]; [simpl in Hi; injection Hi as <-; lia|]). done.
Qed.

(** ** Growing *)

(** The entries from slot [lo] on. *)
Definition left_from t (lo : Z) : Z := count (fun j => E t j && (lo <=? j)) (rounds t).

Lemma left_step t lo : wf t -> 0 <= lo < n_buckets t -> left_from t lo = left_from t (lo + 1) + (if E t lo then 1 else 0).
Proof.
  intros Ht Hlo. unfold left_from. destruct (E t lo) eqn:El.
  - rewrite <- (count_set (fun j => E t j && (lo + 1 <=? j)) lo).
    + apply count_ext. intros j _. destruct (Z.eqb_spec lo j) as [<-|Hne]; [rewrite El, orb_true_r; apply Z.leb_refl|].
      rewrite orb_false_r. f_equal. apply eq_iff_eq_true. rewrite !Z.leb_le. lia.
    + by rewrite rounds_n.
    + replace (lo + 1 <=? lo) with false by (symmetry; apply Z.leb_gt; lia). apply andb_false_r.
  - rewrite Z.add_0_r. apply count_ext. intros j _. destruct (Z.eqb_spec lo j) as [<-|Hne]; [by rewrite El|].
    f_equal. apply eq_iff_eq_true. rewrite !Z.leb_le. lia.
Qed.

Lemma left_nonneg t lo : 0 <= left_from t lo.
Proof. apply count_bound. Qed.

Lemma left_all t lo : left_from t lo <= count_entries t.
Proof. apply count_le. by intros j _ [? _]%andb_true_iff. Qed.

Lemma left_put t t' x lo :
  wf t -> n_buckets t' = n_buckets t -> 0 <= x < n_buckets t ->
  (forall j, 0 <= j < n_buckets t -> E t' j = true -> E t j = true \/ x = j) -> left_from t' lo <= left_from t lo + 1.
Proof.
  intros Ht En Hx Hsub. unfold left_from. assert (rounds t' = rounds t) as -> by (unfold rounds; by rewrite En).
  set (f := fun j => E t j && (lo <=? j)). pose proof (rounds_n t Ht) as Hr.
  assert (count (fun j => f j || (x =? j)) (rounds t) <= count f (rounds t) + 1) as Hle.
  { destruct (f x) eqn:Ef; [|rewrite count_set by (rewrite ?Hr; done); lia].
    rewrite (count_ext _ f); [lia|]. intros j _. destruct (Z.eqb_spec x j) as [<-|]; [by rewrite Ef|by rewrite orb_false_r]. }
  etransitivity; [|exact Hle]. apply count_le. rewrite Hr. intros j Hj [He Hl]%andb_true_iff. unfold f. rewrite Hl.
  destruct (Hsub j Hj He) as [->| ->]; [done|by rewrite Z.eqb_refl, orb_true_r].
Qed.

Lemma left_del t t' lo :
  wf t -> n_buckets t' = n_buckets t -> (forall j, 0 <= j < n_buckets t -> E t' j = true -> E t j = true) ->
  left_from t' lo <= left_from t lo.
Proof.
  intros Ht En Hsub. unfold left_from. assert (rounds t' = rounds t) as -> by (unfold rounds; by rewrite En).
  apply count_le. rewrite rounds_n by done. intros j Hj [He Hl]%andb_true_iff. by rewrite (Hsub j Hj He), Hl.
Qed.

Lemma move_slot_ok h s M Ms i :
  wf h -> models h M -> 0 <= i < n_buckets h -> wf s -> models s Ms -> n_dirty s + 1 < n_buckets s ->
  exists s' Ms', move_slot mh_hash mh_eq h s i = Some s' /\ wf s' /\ models s' Ms' /\ same_params s s' /\
    t_size s' = t_size s /\ n_dirty s' <= n_dirty s + (if E h i then 1 else 0) /\
    ((E h i = false /\ Ms' = Ms) \/
     exists nd, E h i = true /\ P h i = Some nd /\ M !! key_of nd = Some nd /\ Ms' = <[key_of nd := nd]> Ms).
Proof.
  intros Hh HM Hi Hs HMs Hn. unfold move_slot. rewrite exist_ok by (done || apply Hh). cbn [mbind option_bind].
  destruct (E h i) eqn:Ei.
  2: { exists s, Ms. split; [done|]. split; [done|]. split; [done|]. split; [done|]. split; [done|]. split; [lia|by left]. }
  destruct (wf_node h Hh i Hi Ei) as [nd Hnd]. assert (M !! key_of nd = Some nd) as Hk by (apply HM; by exists i).
  unfold P in Hnd. rewrite Hnd. cbn [mbind option_bind].
  destruct (put_slot_ok s nd Ms Hs HMs) as (t1 & x & -> & Hm & Hx & Hsl). cbn [mbind option_bind].
  pose proof (marks_wf _ _ Hs Hm) as Ht1. pose proof (marks_models _ _ _ Hm HMs) as HM1.
  pose proof Hm as (b & -> & Hs1 & HE & _). set (t1 := put_b b s) in *.
  assert (slot_for t1 Ms (key_of nd) x) as Hsl1.
  { unfold slot_for. destruct (Ms !! key_of nd) as [nd'|] eqn:Ek; [by rewrite HE|]. rewrite HE by done. by destruct Hsl. }
  destruct (set_node_ok t1 x nd Hs1 Hx) as (p & -> & Hs2 & HP). cbn [mbind option_bind].
  destruct (setexist_ok (put_p p t1) x Hs2 Hx) as (b2 & -> & Hs3 & Hb2). cbn [mbind option_bind].
  set (s' := put_counts _ _ _).
  assert (with_entry t1 s' x nd) as Hw.
  { split; [by destruct Hs3|]. split; [done|]. intros j Hj. destruct (Hb2 j Hj) as [H1 H2].
    split; [exact H1|]. split; [exact H2|by apply HP]. }
  pose proof (wf_count t1 Ht1) as Hc. pose proof (sh_size _ Hs1) as Hns. pose proof (count_bound (used t1) (rounds t1)) as Hcb.
  destruct (count_entry _ _ _ _ Hw Hx) as [_ C2].
  assert (n_dirty s' = n_dirty s + 1) as Hd by (simpl in *; apply u32_small; lia).
  destruct (insert_ok t1 s' x nd Ms Ht1 HM1 Hx Hsl1 Hw) as [H1 H2].
  { rewrite C2, Hd. change (n_buckets s') with (n_buckets s). simpl in *. destruct (used t1 x); lia. }
  exists s', (<[key_of nd := nd]> Ms). split; [done|]. split; [done|]. split; [done|]. split; [done|]. split; [done|].
  split; [lia|]. right. exists nd. done.
Qed.

(** The entries below slot [i] have moved, and nothing else is in the shadow. *)
Definition moved h M (Ms : gmap K N) (i : Z) : Prop :=
  (forall k nd, Ms !! k = Some nd -> M !! k = Some nd) /\
  (forall j nd, 0 <= j < i -> E h j = true -> P h j = Some nd -> Ms !! key_of nd = Some nd).

Lemma moved_step h M Ms Ms' i :
  models h M -> moved h M Ms i ->
  ((E h i = false /\ Ms' = Ms) \/
   exists nd, E h i = true /\ P h i = Some nd /\ M !! key_of nd = Some nd /\ Ms' = <[key_of nd := nd]> Ms) ->
  moved h M Ms' (i + 1).
Proof.
  intros HM [H1 H2] [[He ->]|(nd & He & Hp & Hk & ->)]; split.
  - done.
  - intros j nd Hj Hj' Hp. apply (H2 j); [|done..]. destruct (decide (j = i)) as [->|]; [congruence|lia].
  - intros k nd'. rewrite lookup_insert_Some. intros [[<- <-]|[_ ?]]; auto.
  - intros j nd' Hj Hj' Hp'. rewrite lookup_insert_Some. destruct (decide (key_of nd = key_of nd')) as [Hkk|]; [left|right].
    + split; [done|]. destruct (decide (j = i)) as [->|]; [congruence|].
      assert (Ms !! key_of nd' = Some nd') as Hm by (apply (H2 j); [lia|done..]). apply H1 in Hm. rewrite <- Hkk in Hm. congruence.
    + split; [done|]. apply (H2 j); [|done..]. destruct (decide (j = i)) as [->|]; [congruence|lia].
Qed.

Lemma resize_loop_ok h M n : forall s Ms i b,
  wf h -> models h M -> 0 <= i -> i + Z.of_nat n = n_buckets h -> 0 <= b ->
  wf s -> models s Ms -> moved h M Ms i -> n_dirty s + Z.of_nat n < n_buckets s ->
  exists s' stop Ms', resize_loop mh_hash mh_eq n h s i b = Some (s', stop) /\
    wf s' /\ models s' Ms' /\ same_params s s' /\ t_size s' = t_size s /\
    n_dirty s' + left_from h (default (n_buckets h) stop) <= n_dirty s + left_from h i /\
    match stop with
    | Some j => j = i + b /\ j < n_buckets h /\ moved h M Ms' j /\ n_dirty s' <= n_dirty s + b
    | None => moved h M Ms' (n_buckets h) /\ n_dirty s' <= n_dirty s + Z.of_nat n
    end.
Proof.
  induction n as [|n IH]; intros s Ms i b Hh HM Hi Hn Hb Hs HMs Hmv Hd; cbn [resize_loop].
  { exists s, None, Ms. split; [done|]. split; [done|]. split; [done|]. split; [done|]. split; [done|].
    simpl. replace (n_buckets h) with i by lia. split; [lia|]. split; [done|lia]. }
  case_decide as Hb0.
  { exists s, (Some i), Ms. split; [done|]. split; [done|]. split; [done|]. split; [done|]. split; [done|].
    simpl. split; [lia|]. split; [lia|]. split; [lia|]. split; [done|lia]. }
  destruct (move_slot_ok h s M Ms i) as (s1 & Ms1 & -> & Hs1 & HM1 & Hp1 & Hsz & Hd1 & Hcase); [done|done|lia|done|done|lia|].
  pose proof (left_step h i Hh ltac:(lia)) as Hleft. assert (n_dirty s1 <= n_dirty s + 1) by (destruct (E h i); lia).
  cbn [mbind option_bind]. pose proof (moved_step h M Ms Ms1 i HM Hmv Hcase) as Hmv1.
  pose proof Hp1 as (En1 & _).
  destruct (IH s1 Ms1 (i + 1) (b - 1)) as (s' & stop & Ms' & -> & Hs' & HM' & Hp' & Hsz' & Hres); [done|done|lia|lia|lia|done|done|done|lia|].
  destruct Hres as [Hl Hres]. exists s', stop, Ms'. split; [done|]. split; [done|]. split; [done|].
  split; [destruct Hp1 as (?&?&?&?&?&?), Hp' as (?&?&?&?&?&?); repeat split; congruence|]. split; [congruence|].
  split; [lia|]. destruct stop; [|destruct Hres; split; [done|lia]]. destruct Hres as (? & ? & ? & ?). split; [lia|]. split; [done|]. split; [done|lia].
Qed.

(** A table between operations; [i] is the index of its number of buckets. *)
Record table_ok t M (i : nat) : Prop := {
  tk_wf : wf t;
  tk_models : models t M;
  tk_size : t_size t = count_entries t;
  tk_prime : ac_prime_list !! i = Some (n_buckets t);
  tk_upper : upper_bound t = density (n_buckets t);
}.

(** [c] bounds the number of insertions so far. *)
Definition settled m M i (c : Z) : Prop :=
  table_ok (main m) M i /\ resize_position (main m) = 0 /\
  n_dirty (main m) <= upper_bound (main m) /\ (prime (main m) = Z.of_nat i \/ prime (main m) = Z.of_nat (S i)) /\
  0 <= c /\ n_dirty (main m) <= 2 * c /\ n_buckets (main m) <= 12 * c + 8.

(** [k] batches have been moved and [d] entries put since. *)
Record growing m M (Ms : gmap K N) (i : nat) (k d c : Z) : Prop := {
  gw_main : table_ok (main m) M i;
  gw_prime : prime (main m) = Z.of_nat (S i);
  gw_batch : 256 <= batch (main m) < 2 ^ 31;
  gw_pos : resize_position (main m) = k * batch (main m) /\ resize_position (main m) < n_buckets (main m);
  gw_count : 0 <= d <= k;
  gw_dirty : n_dirty (main m) <= upper_bound (main m) + d;
  gw_shadow : wf (shadow m) /\ models (shadow m) Ms;
  gw_next : ac_prime_list !! S i = Some (n_buckets (shadow m)) /\ upper_bound (shadow m) = density (n_buckets (shadow m)) /\
            prime (shadow m) = Z.of_nat (S i) /\ resize_position (shadow m) = 0;
  gw_moved : moved (main m) M Ms (resize_position (main m));
  gw_sdirty : n_dirty (shadow m) <= resize_position (main m) + d;
  gw_ssize : t_size (main m) <= t_size (shadow m) <= n_buckets (main m) + d;
  gw_puts : d <= c /\ n_dirty (shadow m) + left_from (main m) (resize_position (main m)) <= d + c /\
            n_buckets (shadow m) <= 12 * c + 8;
}.

Lemma growing_bounds m M Ms i k d c :
  growing m M Ms i k d c -> growth (n_buckets (main m)) (n_buckets (shadow m)) /\
  0 <= d <= n_buckets (main m) / 256 /\ 0 <= resize_position (main m).
Proof.
  intros G. pose proof (gw_batch _ _ _ _ _ _ _ G). pose proof (gw_count _ _ _ _ _ _ _ G). pose proof (gw_pos _ _ _ _ _ _ _ G) as [Hp Hlt].
  destruct (gw_next _ _ _ _ _ _ _ G) as (Hq & _). split; [|split].
  - apply (ac_prime_growth i); [apply (gw_main _ _ _ _ _ _ _ G)|done|].
    destruct (gw_shadow _ _ _ _ _ _ _ G) as [Hw _]. apply (wf_shape _ Hw).
  - split; [lia|]. apply Z.div_le_lower_bound; [lia|]. nia.
  - rewrite Hp. nia.
Qed.

Lemma same_wf t t' : t_p t' = t_p t -> t_b t' = t_b t -> n_buckets t' = n_buckets t -> n_dirty t' = n_dirty t -> wf t -> wf t'.
Proof.
  destruct t, t'. simpl. intros -> -> -> -> Ht. destruct Ht as [[] ? ? ? ?]. split; [split|..]; done.
Qed.

Lemma same_models t t' M : t_p t' = t_p t -> t_b t' = t_b t -> n_buckets t' = n_buckets t -> models t M -> models t' M.
Proof. by destruct t, t'; simpl; intros -> -> ->. Qed.

(** The larger of the two tables. *)
Definition cap m : Z := Z.max (n_buckets (main m)) (n_buckets (shadow m)).

(** One step of the resize in progress. *)
Lemma mh_resize_ok m M Ms i k d c :
  growing m M Ms i k d c ->
  exists m', mh_resize mh_hash mh_eq m = Some m' /\ cap m' <= cap m /\
    ((exists Ms', growing m' M Ms' i (k + 1) d c /\ resize_position (main m') <> 0) \/
     (settled m' M (S i) c /\ n_dirty (main m') + 2 <= upper_bound (main m'))).
Proof.
  intros G. destruct (growing_bounds _ _ _ _ _ _ _ G) as (Hg & Hd & Hpos).
  pose proof G as [[Hw HM Hsz Hpr Hup] Gpr Gb [Gp Gpl] Gc Gd [Ghw GhM] (Gq & Gqu & Gqp & Gq0) Gmv Gsd Gss Gpt].
  destruct Hg as [Hlt Hroom Hratio _ Hden _].
  unfold mh_resize.
  destruct (resize_loop_ok (main m) M (Z.to_nat (n_buckets (main m) - resize_position (main m))) (shadow m) Ms
      (resize_position (main m)) (batch (main m))) as (s' & stop & Ms' & -> & Hs' & HM' & (P1 & P2 & P3 & P4 & P5 & P6) & Hsz' & Hleft & Hres);
    [done|done|done|lia|lia|done|done|done|lia|].
  cbn [mbind option_bind]. destruct stop as [j|].
  - destruct Hres as (-> & Hj & Hmv' & Hd'). eexists. split; [done|].
    split; [unfold cap; simpl; rewrite P1; lia|]. left. exists Ms'. split; [|simpl; lia].
    split; simpl; try done.
    + destruct Hw as [Hsh ? ? ? ?]. split; try done. by apply (same_wf (main m)).
    + lia. + lia. + by rewrite P1, P2, P3, P5. + lia. + lia. + destruct Gpt as (? & ? & ?). rewrite P1. change (left_from (put_position (resize_position (main m) + batch (main m)) (main m))) with (left_from (main m)). simpl in Hleft. lia.
  - destruct Hres as [[Hsub Hall] Hd']. eexists. split; [done|].
    split; [unfold cap; simpl; rewrite P1; lia|]. right.
    assert (Ms' = M) as ->.
    { apply map_eq. intros key. apply option_eq. intros nd. split; [apply Hsub|]. intros Hk.
      apply HM in Hk as (i' & Hi & He & Hp & <-). by apply (Hall i'). }
    set (h' := Tab _ _ _ _ _ _ _ _ _ _).
    assert (wf h') as Hh' by (by apply (same_wf s')). assert (models h' M) as HMh' by (by apply (same_models s')).
    split; [split; [split|]|].
    + done. + done. + simpl. rewrite Hsz, !(count_size _ M) by done. done.
    + simpl. by rewrite P1. + simpl. by rewrite P1, P2.
    + simpl in *. pose proof (left_nonneg (main m) (n_buckets (main m))). rewrite P1, P2, P3, P5.
      split; [done|]. split; [lia|]. split; [by left|]. lia.
    + simpl. rewrite P2. lia.
Qed.

(** ** The operations on a table that may be growing *)

(** The table stands for the map [M] after at most [c] insertions. *)
Definition repr m M (c : Z) : Prop :=
  Z.of_nat (size M) <= c /\
  exists i, settled m M i c \/ exists Ms k d, growing m M Ms i k d c /\ resize_position (main m) <> 0.

Lemma repr_main m M c : repr m M c -> exists i, table_ok (main m) M i.
Proof. intros (_ & i & [H'|(Ms & k & d & H' & _)]); exists i; [apply H'|apply (gw_main _ _ _ _ _ _ _ H')]. Qed.

(** The memory is linear in the number of insertions. *)
Lemma repr_buckets m M c : repr m M c -> n_buckets (main m) <= 12 * c + 8.
Proof.
  intros (_ & i & [H'|(Ms & k & d & H' & _)]); [apply H'|].
  pose proof (gw_puts _ _ _ _ _ _ _ H'). destruct (growing_bounds _ _ _ _ _ _ _ H') as ([? _ _ _ _ _] & _). lia.
Qed.

Lemma size_put M k (nd : N) c : Z.of_nat (size M) <= c -> Z.of_nat (size (<[k := nd]> M)) <= c + 1.
Proof. rewrite map_size_insert. destruct (M !! k); simpl; lia. Qed.

Lemma size_del M k c : Z.of_nat (size M) <= c -> Z.of_nat (size (delete k M)) <= c.
Proof. rewrite map_size_delete. destruct (M !! k); simpl; lia. Qed.

Lemma table_size t M i : table_ok t M i -> 0 <= t_size t <= n_dirty t /\ n_dirty t < n_buckets t < 2 ^ 31.
Proof.
  intros [Ht _ Hsz _ _]. pose proof (wf_count t Ht). pose proof (sh_size t (wf_shape t Ht)).
  rewrite Hsz. unfold count_entries. pose proof (count_bound (E t) (rounds t)).
  assert (count (E t) (rounds t) <= count (used t) (rounds t)); [|lia].
  apply count_le. intros j _ He. unfold used. by rewrite He.
Qed.

Lemma put_table t M i nd :
  table_ok t M i -> n_dirty t + 1 < n_buckets t ->
  exists x t', put_here mh_hash mh_eq t nd = Some (x, M !! key_of nd, t') /\
    table_ok t' (<[key_of nd := nd]> M) i /\ same_params t t' /\ 0 <= x < n_buckets t /\
    n_dirty t' <= n_dirty t + 1 /\ t_size t' = t_size t + new_entry M (key_of nd) /\
    (forall j nd', 0 <= j < n_buckets t -> E t' j = true -> P t' j = Some nd' ->
       key_of nd' = key_of nd \/ (E t j = true /\ P t j = Some nd')) /\
    (forall j, 0 <= j < n_buckets t -> E t' j = true -> E t j = true \/ x = j).
Proof.
  intros Hk Hn. pose proof (table_size t M i Hk) as Hb. destruct Hk as [Ht HM Hsz Hpr Hup].
  destruct (put_here_ok t nd M Ht HM Hn) as (x & t' & Ep & Ht' & HM' & Hp & Hx & Hd & Hs' & Hc & Hold); [lia|].
  exists x, t'. split; [done|]. pose proof Hp as (P1 & P2 & _). split; [|split; [done|split; [done|split; [lia|done]]]].
  split; [done|done|by rewrite Hs', Hc, Hsz|by rewrite P1|by rewrite P1, P2].
Qed.

Lemma new_entry_sub M (Ms : gmap K N) k : (forall k nd, Ms !! k = Some nd -> M !! k = Some nd) -> 0 <= new_entry M k <= new_entry Ms k /\ new_entry Ms k <= 1.
Proof.
  intros Hsub. unfold new_entry. destruct (Ms !! k) as [nd|] eqn:Ek; [|destruct (M !! k); lia].
  rewrite (Hsub _ _ Ek). lia.
Qed.

Lemma put_settled m M i c nd :
  settled m M i c -> Z.of_nat (size M) <= c -> n_dirty (main m) + 1 <= upper_bound (main m) -> density (n_buckets (main m)) < n_buckets (main m) ->
  exists x h, put_here mh_hash mh_eq (main m) nd = Some (x, M !! key_of nd, h) /\ 0 <= x < n_buckets h /\
    forall s, repr (Mh h s) (<[key_of nd := nd]> M) (c + 1).
Proof.
  intros (Hk & Hp0 & Hd & Hpr & Hc & Hdc & Hbc) Hm Hn Hden. pose proof (tk_upper _ _ _ Hk) as Hup.
  destruct (put_table (main m) M i nd Hk) as (x & t' & Ep & Hk' & (P1 & P2 & P3 & P4 & P5 & P6) & Hx & Hd' & _); [lia|].
  exists x, t'. split; [done|]. split; [by rewrite P1|]. intros s. split; [by apply size_put|]. exists i. left. split; [done|]. simpl.
  rewrite P5, P1, P2, P3. split; [done|]. split; [lia|]. split; [done|lia].
Qed.

Lemma put_growing m M Ms i k d c nd :
  growing m M Ms i k d c -> Z.of_nat (size M) <= c -> d + 1 <= k -> resize_position (main m) <> 0 ->
  exists x s h, put_shadow mh_hash mh_eq (shadow m) nd = Some s /\
    put_here mh_hash mh_eq (main m) nd = Some (x, M !! key_of nd, h) /\ 0 <= x < n_buckets h /\
    repr (Mh h s) (<[key_of nd := nd]> M) (c + 1).
Proof.
  intros G Hm Hk Hpos. destruct (growing_bounds _ _ _ _ _ _ _ G) as (Hg & Hdb & Hp0).
  pose proof G as [Gm Gpr Gb [Gp Gpl] Gc Gd [Ghw GhM] (Gq & Gqu & Gqp & Gq0) Gmv Gsd Gss Gpt].
  destruct Hg as [Hlt Hroom Hratio Hslack Hden _]. pose proof (tk_upper _ _ _ Gm) as Hup.
  assert (256 < n_buckets (main m)) as Hbig by nia. specialize (Hslack Hbig).
  pose proof (table_size _ _ _ Gm) as Hts. pose proof (sh_size _ (wf_shape _ Ghw)) as Hns.
  unfold put_shadow. rewrite (decide_False (P := t_size (shadow m) = _)) by lia.
  rewrite (decide_False (P := _ \/ _)) by lia.
  destruct (put_here_ok (shadow m) nd Ms Ghw GhM) as (xs & s & -> & Hs' & HMs' & Hps & _ & Hds & Hss & _); [lia|lia|].
  cbn [mbind option_bind].
  destruct (put_table (main m) M i nd Gm) as (x & h & -> & Hk' & Hph & Hx & Hdh & Hsh & Hold & Hnew); [lia|].
  pose proof Hps as (Q1 & Q2 & Q3 & Q4 & Q5 & Q6). pose proof Hph as (P1 & P2 & P3 & P4 & P5 & P6).
  exists x, s, h. split; [done|]. split; [done|]. split; [by rewrite P1|]. destruct Gmv as [Hsub Hall].
  pose proof (new_entry_sub M Ms (key_of nd) Hsub) as Hne.
  split; [by apply size_put|]. exists i. right. exists (<[key_of nd := nd]> Ms), k, (d + 1). split; [|simpl; by rewrite P5]. split; simpl.
  - done.
  - by rewrite P3. - by rewrite P6. - rewrite P5, P6, P1. done. - lia. - rewrite P2. lia. - done.
  - by rewrite Q1, Q2, Q3, Q5.
  - rewrite P5. split.
    + intros key nd'. rewrite !lookup_insert_Some. intros [?|[? ?]]; [by left|right; auto].
    + intros j nd' Hj He Hp. rewrite lookup_insert_Some. destruct (decide (key_of nd = key_of nd')) as [Hkk|Hkk]; [left|right].
      * split; [done|]. assert (<[key_of nd:=nd]> M !! key_of nd' = Some nd') as Hl.
        { apply (tk_models _ _ _ Hk'). exists j. split; [rewrite P1; lia|done]. }
        rewrite Hkk, lookup_insert_eq in Hl. by injection Hl.
      * split; [done|]. destruct (Hold j nd') as [?|[? ?]]; [lia|done|done|congruence|]. by apply (Hall j).
  - rewrite P5. lia.
  - rewrite P1. lia.
  - rewrite P5, Q1. destruct Gpt as (? & ? & ?). split; [lia|]. split; [|lia].
    pose proof (left_put (main m) h x (resize_position (main m)) (tk_wf _ _ _ Gm) P1 Hx Hnew). lia.
Qed.

(** A table just allocated. *)
Lemma fresh_ok n sz up pr rc ba :
  Z.prime n -> 2 < n < 2 ^ 31 ->
  wf (Tab (replicate (Z.to_nat n) None) (replicate (Z.to_nat (n / 16 + 1)) 0) n 0 sz up pr rc 0 ba) /\
  models (Tab (replicate (Z.to_nat n) None) (replicate (Z.to_nat (n / 16 + 1)) 0) n 0 sz up pr rc 0 ba) ∅.
Proof.
  intros Hp Hn. set (t := Tab _ _ _ _ _ _ _ _ _ _).
  assert (forall i, word t i = 0) as Hw.
  { intros i. unfold word. simpl. destruct (_ !! _) eqn:El; [|done]. by apply lookup_replicate in El as [-> _]. }
  assert (forall i, E t i = false) as HE by (intros; unfold E; by rewrite Hw, Z.bits_0).
  assert (forall i, used t i = false) as HU by (intros; unfold used, E, D; by rewrite Hw, !Z.bits_0).
  split; [split|].
  - split; simpl; [done..|by rewrite length_replicate|by rewrite length_replicate].
  - intros i _ He. by rewrite HE in He.
  - intros i nd _ He. by rewrite HE in He.
  - intros i j ni nj _ _ He. by rewrite HE in He.
  - assert (forall c : nat, count (used t) c = 0) as -> by (intros c; induction c as [|c IH]; [done|simpl; by rewrite IH, HU]). simpl. lia.
  - intros k nd. rewrite lookup_empty. split; [done|]. intros (i & _ & He & _). by rewrite HE in He.
Qed.

Lemma start_resize_ok m M i c st :
  settled m M i c -> Z.of_nat (size M) <= c -> upper_bound (main m) <= n_dirty (main m) -> n_buckets (main m) < 2 ^ 30 ->
  exists rc m' st', mh_start_resize mh_hash mh_eq m (u32 (n_buckets (main m) + 1)) 0 st = Some (rc, m', st') /\
    ((rc = -1 /\ Refuse ∈ st /\ settled m' M i c /\ n_buckets (main m') = n_buckets (main m)) \/
     (rc = 0 /\ ((exists Ms', growing m' M Ms' i 1 0 c /\ resize_position (main m') <> 0) \/
                 (settled m' M (S i) c /\ n_dirty (main m') + 2 <= upper_bound (main m'))))).
Proof.
  intros (Hk & Hp0 & Hd & Hpr & Hc & Hdc & Hbc) Hm Hfull Hn. pose proof Hk as [Ht HM Hsz Hi Hup]. pose proof (sh_size _ (wf_shape _ Ht)) as Hns.
  pose proof (table_size _ _ _ Hk) as Hts.
  destruct (ac_prime_next i _ Hi Hn) as (q & Hq & Hq31). pose proof (ac_prime_growth i _ q Hi Hq Hq31) as [Hlt Hroom Hratio Hsl Hden [_ Hpq]].
  assert (q <= 12 * c + 8) as Hq12 
    by (assert (density (n_buckets (main m)) <= 2 * c) as Hdn by lia; clear - Hdn Hratio Hc; unfold density in Hdn; Z.to_euclidean_division_equations; lia).
  unfold mh_start_resize. rewrite u32_small by lia. rewrite (decide_False (P := _ <> 0)) by lia.
  rewrite (decide_False (P := _ < n_buckets _)) by lia.
  assert (prime_loop (length ac_prime_list) (prime (main m)) (n_buckets (main m) + 1) = Z.of_nat (S i)) as ->.
  { change (length ac_prime_list) with (S (S 29)). destruct Hpr as [->| ->]; cbn [prime_loop]; rewrite Nat2Z.id.
    - rewrite Hi, decide_False by lia. replace (Z.of_nat i + 1) with (Z.of_nat (S i)) by lia.
      rewrite Nat2Z.id, Hq, decide_True by lia. done.
    - rewrite Hq, decide_True by lia. done. }
  rewrite Nat2Z.id, Hq. cbn [mbind option_bind]. rewrite (decide_False (P := 0 < 0)) by lia.
  set (ba := if decide (_ < 256) then 256 else _).
  assert (256 <= ba < 2 ^ 31) as Hba.
  { unfold ba. assert (n_buckets (main m) / (256 * 1024) <= n_buckets (main m)) by (apply Z.div_le_upper_bound; lia).
    case_decide; lia. }
  set (h := Tab (t_p (main m)) _ _ _ _ _ (Z.of_nat (S i)) _ _ ba).
  assert (wf h) as Hh by (by apply (same_wf (main m))). assert (models h M) as HMh by (by apply (same_models (main m))).
  assert (table_ok h M i) as Hkh by done.
  assert (forall s, settled (Mh h s) M i c) as Hset by (intros s; repeat (split; [done|]); split; [by right|done]).
  destruct st as [|[|junk] st]; cbn [pop].
  2: { do 3 eexists. split; [reflexivity|]. left. split; [done|]. split; [set_solver|]. split; [apply Hset|done]. }
  all: try match goal with |- context [pop ?st] => destruct st as [|[|junk2] st2]; cbn [pop] end.
  all: try (do 3 eexists; split; [reflexivity|]; left; split; [done|]; split; [set_solver|]; split; [apply Hset|done]).
  all: destruct (fresh_ok q (t_size (main m)) (density q) (Z.of_nat (S i)) (resize_cnt (main m)) ba Hpq) as [Hw0 HM0]; [lia|];
    set (s := Tab (replicate _ None) _ _ _ _ _ _ _ _ _) in *;
    assert (growing (Mh h s) M ∅ i 0 0 c) as G
      by (split; simpl; try done; try lia; (split; [done|intros; lia]) || (pose proof (left_all h 0); pose proof (count_size h M Hh HMh); change (n_dirty s) with 0; change (n_buckets s) with q; rewrite ?Hp0; lia)).
  all: destruct (mh_resize_ok _ _ _ _ _ _ _ G) as (m' & -> & _ & Hres); do 3 eexists; (split; [reflexivity|]); right; done.
Qed.

Lemma mh_put_ok m M c nd st :
  repr m M c -> c <= 2 ^ 26 ->
  exists x ret m' st', mh_put mh_hash mh_eq m nd st = Some (x, ret, m', st') /\
    ((ret = Some (M !! key_of nd) /\ repr m' (<[key_of nd := nd]> M) (c + 1) /\ 0 <= x < n_buckets (main m')) \/
     (ret = None /\ Refuse ∈ st /\ repr m' M c /\ x = n_buckets (main m'))).
Proof.
  intros Hr Hc26. assert (n_buckets (main m) < 2 ^ 30) as Hn by (pose proof (repr_buckets _ _ _ Hr); lia).
  destruct (repr_main m M c Hr) as [i0 Hk0]. pose proof (table_size _ _ _ Hk0) as Hts.
  unfold mh_put. rewrite (decide_False (P := t_size _ = _)) by lia. destruct Hr as (Hm & i & [Hset|(Ms & k & d & G & Hpos)]).
  - pose proof Hset as (Hk & Hp0 & Hd & Hpr & _). rewrite (decide_False (P := 0 < _)) by lia.
    destruct (ac_prime_next i _ (tk_prime _ _ _ Hk) Hn) as (q & Hq & Hq31).
    pose proof (ac_prime_growth i _ q (tk_prime _ _ _ Hk) Hq Hq31) as Hg.
    case_decide as Hfull.
    + destruct (start_resize_ok m M i c st Hset Hm ltac:(lia) Hn) as (rc & m1 & st1 & -> & Hres). cbn [mbind option_bind].
      destruct Hres as [(-> & Hrf & Hset1 & En)|(-> & [(Ms & G & Hpos)|[Hset1 Hroom]])].
      * rewrite decide_True by lia. do 4 eexists. split; [reflexivity|]. right. split; [done|]. split; [done|].
        split; [split; [done|by exists i; left]|done].
      * rewrite decide_False by lia. rewrite decide_True by done.
        destruct (put_growing m1 M Ms i 1 0 c nd G Hm) as (x & s & h & -> & Eh & Hx & Hrep); [lia|done|].
        cbn [mbind option_bind]. rewrite Eh. cbn [mbind option_bind]. do 4 eexists. split; [reflexivity|]. by left.
      * rewrite decide_False by lia. pose proof Hset1 as (Hk1 & Hp1 & _). rewrite decide_False by lia. cbn [mbind option_bind].
        pose proof (tk_prime _ _ _ Hk1) as Hq1. rewrite Hq in Hq1. injection Hq1 as Hq1.
        destruct (put_settled m1 M (S i) c nd Hset1 Hm) as (x & h & -> & Hx & Hrep); [lia|rewrite <- Hq1; apply Hg|].
        cbn [mbind option_bind]. do 4 eexists. split; [reflexivity|]. left. auto.
    + cbn [mbind option_bind]. rewrite decide_False by lia. rewrite decide_False by lia. cbn [mbind option_bind].
      destruct (put_settled m M i c nd Hset Hm) as (x & h & -> & Hx & Hrep); [lia|apply Hg|].
      cbn [mbind option_bind]. do 4 eexists. split; [reflexivity|]. left. auto.
  - destruct (growing_bounds _ _ _ _ _ _ _ G) as (Hg & Hdb & Hp0). rewrite (decide_True (P := 0 < _)) by lia.
    destruct (mh_resize_ok _ _ _ _ _ _ _ G) as (m1 & -> & _ & Hres). cbn [mbind option_bind]. rewrite decide_False by lia.
    pose proof (gw_count _ _ _ _ _ _ _ G) as Hc. destruct (gw_next _ _ _ _ _ _ _ G) as (Hq & _).
    destruct Hres as [(Ms' & G1 & Hpos1)|[Hset1 Hroom]].
    + rewrite decide_True by done. destruct (put_growing m1 M Ms' i (k + 1) d c nd G1 Hm) as (x & s & h & -> & Eh & Hx & Hrep); [lia|done|].
      cbn [mbind option_bind]. rewrite Eh. cbn [mbind option_bind]. do 4 eexists. split; [reflexivity|]. by left.
    + pose proof Hset1 as (Hk1 & Hp1 & _). rewrite decide_False by lia. cbn [mbind option_bind].
      pose proof (tk_prime _ _ _ Hk1) as Hq1. rewrite Hq in Hq1. injection Hq1 as Hq1.
      destruct (put_settled m1 M (S i) c nd Hset1 Hm) as (x & h & -> & Hx & Hrep); [lia|rewrite <- Hq1; apply Hg|].
      cbn [mbind option_bind]. do 4 eexists. split; [reflexivity|]. left. auto.
Qed.

(** The decisions of the allocator are taken from the front. *)
Lemma start_resize_mem m b ba st rc m' st' a :
  mh_start_resize mh_hash mh_eq m b ba st = Some (rc, m', st') -> a ∈ st' -> a ∈ st.
Proof.
  unfold mh_start_resize. case_decide; [by intros [= <- <- <-]|]. case_decide; [by intros [= <- <- <-]|].
  destruct (ac_prime_list !! _); cbn [mbind option_bind]; [|done].
  destruct st as [|[|] st]; cbn [pop]; [..|destruct st as [|[|] st]; cbn [pop]];
    try destruct (mh_resize _ _ _); cbn [mbind option_bind]; intros; simplify_eq; set_solver.
Qed.

Lemma mh_put_mem m nd st x ret m' st' a :
  mh_put mh_hash mh_eq m nd st = Some (x, ret, m', st') -> a ∈ st' -> a ∈ st.
Proof.
  unfold mh_put. case_decide; [by intros [= <- <- <- <-]|].
  assert (forall rc m1 st1,
    (if decide (0 < resize_position (main m)) then m ← mh_resize mh_hash mh_eq m; Some (0, m, st)
     else if decide (upper_bound (main m) <= n_dirty (main m)) then
       mh_start_resize mh_hash mh_eq m (u32 (n_buckets (main m) + 1)) 0 st
     else Some (0, m, st)) = Some (rc, m1, st1) -> a ∈ st1 -> a ∈ st) as Hst.
  { intros rc m1 st1. case_decide; [destruct (mh_resize _ _ _); cbn [mbind option_bind]; [by intros [= <- <- <-]|done]|].
    case_decide; [apply start_resize_mem|by intros [= <- <- <-]]. }
  destruct (if decide (0 < resize_position (main m)) then _ else _) as [[[rc m1] st1]|] eqn:Er; cbn [mbind option_bind]; [|done].
  specialize (Hst _ _ _ eq_refl). clear Er. case_decide; [intros; simplify_eq; auto|].
  destruct (if decide _ then _ else _); cbn [mbind option_bind]; [|done].
  destruct (put_here _ _ _ _) as [[[? ?] ?]|]; cbn [mbind option_bind]; [|done]. intros; simplify_eq; auto.
Qed.

(** Deleting the entry at a slot. *)
Lemma del_table t M i x nd :
  table_ok t M i -> 0 <= x < n_buckets t -> E t x = true -> P t x = Some nd ->
  exists t', del_here t x = Some t' /\ table_ok t' (delete (key_of nd) M) i /\ same_params t t' /\ t_p t' = t_p t /\
    n_dirty t' <= n_dirty t /\ t_size t' = t_size t - 1 /\
    (forall j, 0 <= j < n_buckets t -> E t' j = E t j && negb (x =? j)).
Proof.
  intros Hk Hx He Hp. pose proof (table_size _ _ _ Hk) as Hts. destruct Hk as [Ht HM Hsz Hi Hup].
  assert (1 <= t_size t) as H1.
  { assert (Hkm : M !! key_of nd = Some nd) by (apply HM; by exists x). rewrite Hsz, (count_size t M) by done.
    assert (size M <> 0%nat); [|lia]. intros H0. apply map_size_empty_inv in H0. by rewrite H0, lookup_empty in Hkm. }
  destruct (del_here_ok t x nd M Ht HM Hx He Hp) as (t' & Ed & Ht' & HM' & Hps & Htp & Hd & Hs' & Hc & HE); [lia|].
  pose proof Hps as (P1 & P2 & _). exists t'. split; [done|]. split; [|done].
  split; [done|done|by rewrite Hs', Hc, Hsz|by rewrite P1|by rewrite P1, P2].
Qed.

Lemma del_settled m M i c x nd :
  settled m M i c -> 0 <= x < n_buckets (main m) -> E (main m) x = true -> P (main m) x = Some nd ->
  exists h, mh_del mh_hash mh_eq m x = Some (Mh h (shadow m)) /\ settled (Mh h (shadow m)) (delete (key_of nd) M) i c /\
    n_buckets h = n_buckets (main m) /\ t_p h = t_p (main m) /\
    (forall j, 0 <= j < n_buckets h -> E h j = E (main m) j && negb (x =? j)).
Proof.
  intros (Hk & Hp0 & Hd & Hpr & Hc & Hdc & Hbc) Hx He Hp. unfold mh_del. rewrite (decide_False (P := x = _)) by lia.
  rewrite exist_ok by (done || apply Hk). cbn [mbind option_bind]. rewrite He.
  destruct (del_table _ _ _ _ _ Hk Hx He Hp) as (h & -> & Hk' & (P1 & P2 & P3 & P4 & P5 & P6) & Htp & Hd' & _ & HE).
  cbn [mbind option_bind]. rewrite P5, decide_False by lia. exists h. split; [done|].
  split; [|split; [done|split; [done|by rewrite P1]]]. split; [done|]. simpl. rewrite P5, P1, P2, P3.
  split; [done|]. split; [lia|]. split; [done|lia].
Qed.

Lemma del_growing m M Ms i k d c x nd :
  growing m M Ms i k d c -> Z.of_nat (size M) <= c -> resize_position (main m) <> 0 ->
  0 <= x < n_buckets (main m) -> E (main m) x = true -> P (main m) x = Some nd ->
  exists m', mh_del mh_hash mh_eq m x = Some m' /\ cap m' <= cap m /\ repr m' (delete (key_of nd) M) c.
Proof.
  intros G Hm Hpos Hx He Hp. destruct (growing_bounds _ _ _ _ _ _ _ G) as (Hg & Hdb & Hp0).
  pose proof G as [Gm Gpr Gb [Gp Gpl] Gc Gd [Ghw GhM] (Gq & Gqu & Gqp & Gq0) [Hsub Hall] Gsd Gss Gpt].
  destruct Hg as [Hlt Hroom Hratio Hslack Hden _].
  unfold mh_del. rewrite (decide_False (P := x = _)) by lia.
  rewrite exist_ok by (done || apply Gm). cbn [mbind option_bind]. rewrite He.
  destruct (del_table _ _ _ _ _ Gm Hx He Hp) as (h & -> & Hk' & (P1 & P2 & P3 & P4 & P5 & P6) & Htp & Hd' & Hs' & HE).
  cbn [mbind option_bind]. rewrite P5, (decide_True (P := resize_position _ <> 0)) by done.
  unfold mh_del_resize. simpl.
  assert (mh_node h x = Some nd) as -> by (unfold P, mh_node in *; by rewrite Htp). cbn [mbind option_bind].
  destruct (mh_get_ok (shadow m) nd Ms Ghw GhM) as (y & -> & Hy). cbn [mbind option_bind].
  pose proof (sh_size _ (wf_shape _ Ghw)) as Hns. pose proof (table_size _ _ _ Gm) as Hts. pose proof (table_size _ _ _ Hk') as Hts'.
  assert (exists s, del_tab (shadow m) y = Some s /\ wf s /\ models s (delete (key_of nd) Ms) /\ same_params (shadow m) s /\
    n_dirty s <= n_dirty (shadow m) /\ t_size (shadow m) - 1 <= t_size s <= t_size (shadow m)) as (s & -> & Hs & HMs & Hps & Hds & Hss).
  { unfold del_tab. destruct (Ms !! key_of nd) as [nd'|] eqn:Ek.
    - destruct Hy as (Hyb & Hye & Hyp). rewrite (decide_False (P := y = _)) by lia.
      rewrite exist_ok by (done || apply Ghw). cbn [mbind option_bind]. rewrite Hye.
      destruct (del_here_ok (shadow m) y nd' Ms Ghw GhM Hyb Hye Hyp) as (s & -> & Hs & HMs & Hps & _ & Hds & Hss & _); [lia|].
      exists s. split; [done|]. split; [done|]. apply GhM in Ek as (? & _ & _ & _ & Hkk).
      assert (key_of nd' = key_of nd) as Hk2 by done. rewrite Hk2 in HMs. split; [done|]. split; [done|]. split; [done|lia].
    - rewrite Hy, decide_True by done. exists (shadow m). split; [done|]. split; [done|].
      rewrite delete_id by done. split; [done|]. split; [done|]. split; [done|lia]. }
  cbn [mbind option_bind]. pose proof Hps as (Q1 & Q2 & Q3 & Q4 & Q5 & Q6).
  assert (growing (Mh h s) (delete (key_of nd) M) (delete (key_of nd) Ms) i k d c) as G'.
  { split; simpl.
    - done. - by rewrite P3. - by rewrite P6. - rewrite P5, P6, P1. done. - done. - rewrite P2. lia. - done.
    - by rewrite Q1, Q2, Q3, Q5.
    - rewrite P5. split.
      + intros key nd'. rewrite !lookup_delete_Some. intros [? ?]. auto.
      + intros j nd' Hj Hej Hpj. rewrite HE in Hej by lia. apply andb_true_iff in Hej as [Hej Hne].
        unfold P, mh_node in Hpj. rewrite Htp in Hpj. rewrite lookup_delete_Some. split; [|by apply (Hall j)].
        intros Hkk. assert (x = j) as ->; [|by rewrite Z.eqb_refl in Hne].
        apply (wf_uniq _ (tk_wf _ _ _ Gm) x j nd nd'); (done || lia).
    - rewrite P5. lia.
    - rewrite P1. lia.
    - rewrite P5, Q1. destruct Gpt as (? & ? & ?). split; [lia|]. split; [|lia].
      assert (left_from h (resize_position (main m)) <= left_from (main m) (resize_position (main m))); [|lia].
      apply left_del; [apply Gm|done|]. intros j Hj. rewrite HE by lia. by intros [? _]%andb_true_iff. }
  destruct (mh_resize_ok _ _ _ _ _ _ _ G') as (m' & -> & Hcap & Hres). exists m'. split; [done|].
  split; [unfold cap in *; simpl in *; lia|]. split; [by apply size_del|].
  destruct Hres as [(Ms' & G1 & Hp1)|[Hset _]]; [exists i; right; by exists Ms', (k + 1), d|by exists (S i); left].
Qed.

Lemma mh_del_ok m M c x nd :
  repr m M c -> 0 <= x < n_buckets (main m) -> E (main m) x = true -> P (main m) x = Some nd ->
  exists m', mh_del mh_hash mh_eq m x = Some m' /\ cap m' <= cap m /\ repr m' (delete (key_of nd) M) c.
Proof.
  intros (Hm & i & [Hs|(Ms & k & d & G & Hpos)]) Hx He Hp.
  - destruct (del_settled m M i c x nd Hs Hx He Hp) as (h & -> & Hs' & En & _). eexists. split; [done|].
    split; [unfold cap; simpl; lia|]. split; [by apply size_del|]. exists i. by left.
  - by eapply del_growing.
Qed.

(** Lookup, and deletion by key: [mh_del(h, mh_find(h, key))]. *)
Lemma find_repr m M c k :
  repr m M c -> exists x, mh_find mh_hash_key mh_eq_key (main m) k = Some x /\
    match M !! k with
    | Some nd => 0 <= x < n_buckets (main m) /\ E (main m) x = true /\ P (main m) x = Some nd
    | None => x = n_buckets (main m)
    end.
Proof. intros [i Hk]%repr_main. apply mh_find_ok; apply Hk. Qed.

Lemma repr_node_key m M c k nd : repr m M c -> M !! k = Some nd -> key_of nd = k.
Proof. intros [i Hk]%repr_main Hl. apply (tk_models _ _ _ Hk) in Hl as (x & _ & _ & _ & Hx). done. Qed.

Lemma delete_key m M c k x :
  repr m M c -> mh_find mh_hash_key mh_eq_key (main m) k = Some x ->
  exists m', mh_del mh_hash mh_eq m x = Some m' /\ cap m' <= cap m /\ repr m' (delete k M) c.
Proof.
  intros Hr Ef. destruct (find_repr m M c k Hr) as (x' & Ef' & Hx). rewrite Ef in Ef'. injection Ef' as <-.
  destruct (M !! k) as [nd|] eqn:Ek.
  - destruct Hx as (Hx & He & Hp). rewrite <- (repr_node_key m M c k nd Hr Ek). by apply mh_del_ok.
  - exists m. unfold mh_del. rewrite decide_True by done. by rewrite delete_id.
Qed.

(** On a table that is not growing the entries stay where they are. *)
Lemma delete_key_settled m M i c k x :
  settled m M i c -> mh_find mh_hash_key mh_eq_key (main m) k = Some x ->
  exists m', mh_del mh_hash mh_eq m x = Some m' /\ settled m' (delete k M) i c /\ n_buckets (main m') = n_buckets (main m) /\
    t_p (main m') = t_p (main m) /\ forall j, 0 <= j < n_buckets (main m) -> E (main m') j = true -> E (main m) j = true.
Proof.
  intros Hs Ef. pose proof Hs as ([Hw HM Hsz _ _] & _).
  destruct (mh_find_ok (main m) k M Hw HM) as (x' & Ef' & Hx). rewrite Ef in Ef'. injection Ef' as <-.
  destruct (M !! k) as [nd|] eqn:Ek.
  - destruct Hx as (Hx & He & Hp). apply HM in Ek as (y & _ & _ & Hy & Hk).
    assert (key_of nd = k) as Hkk by done. rewrite <- Hkk.
    destruct (del_settled m M i c x nd Hs Hx He Hp) as (h & -> & Hs' & En & Ep & HE). eexists. split; [done|]. split; [done|].
    split; [done|]. split; [done|]. intros j Hj. simpl. rewrite HE by lia. by intros [? _]%andb_true_iff.
  - exists m. unfold mh_del. rewrite decide_True by done. by rewrite delete_id.
Qed.

(** Iteration: the first slot in use. *)
Lemma next_from_ok t n : forall i, shape t -> 0 <= i -> i + Z.of_nat n = n_buckets t ->
  exists j, next_from n t i = Some j /\ i <= j <= n_buckets t /\ (j < n_buckets t -> E t j = true) /\
    forall l, i <= l < j -> E t l = false.
Proof.
  induction n as [|n IH]; intros i Hs Hi Hn; cbn [next_from].
  { exists (n_buckets t). split; [done|]. split; [lia|]. split; [lia|intros; lia]. }
  rewrite exist_ok by (done || lia). cbn [mbind option_bind]. destruct (E t i) eqn:Ei.
  - exists i. split; [done|]. split; [lia|]. split; [done|intros; lia].
  - destruct (IH (i + 1) Hs ltac:(lia) ltac:(lia)) as (j & -> & Hj & He & Hl). exists j. split; [done|]. split; [lia|]. split; [done|].
    intros l Hl'. destruct (decide (l = i)) as [->|]; [done|]. apply Hl. lia.
Qed.

Lemma mh_first_ok t : wf t ->
  exists j, mh_first t = Some j /\ 0 <= j <= n_buckets t /\ (j < n_buckets t -> E t j = true) /\ forall l, 0 <= l < j -> E t l = false.
Proof. intros Ht. pose proof (sh_size t (wf_shape t Ht)). apply next_from_ok; [apply Ht|lia|]. unfold rounds. lia. Qed.

Lemma mh_next_ok t i : wf t -> 0 <= i < n_buckets t ->
  exists j, mh_next t i = Some j /\ i < j <= n_buckets t /\ (j < n_buckets t -> E t j = true) /\ forall l, i < l < j -> E t l = false.
Proof.
  intros Ht Hi. unfold mh_next. rewrite decide_True by lia.
  destruct (next_from_ok t (Z.to_nat (n_buckets t - (i + 1))) (i + 1)) as (j & -> & Hj & He & Hl); [apply Ht|lia|lia|].
  exists j. split; [done|]. split; [lia|]. split; [done|]. intros l Hl'. apply Hl. lia.
Qed.

Lemma new_repr : repr (Mh new_tab zero_tab) ∅ 0.
Proof.
  split; [by rewrite map_size_empty|]. exists 0%nat. left. destruct (fresh_ok 3 0 (density 3) 0 0 0) as [Hw HM]; [exact (ac_prime_prime 0 3 eq_refl)|done|].
  split; [split; try done|]. split; [done|]. split; [done|]. split; [by left|]. simpl. lia.
Qed.

End refinement.
