(* ===== verification/Assoc.v ===== *)
(** * tnt/tnt_assoc.h: the associative array

    The instance of mhash.h whose nodes are pointers to [struct assoc_val] and
    whose keys are byte strings.  The hash of a key does not depend on its
    address ([Murmur.PMurHash32_correct]); the address 0 stands for any. *)

From stdpp Require Import gmap.
From S2P Require Import Prelude Mem Murmur Mhash MhashSpec.

Definition assoc_key := bytes.

Record assoc_val (V : Type) := AssocVal { av_key : assoc_key; av_data : V }.
Arguments AssocVal {V}. Arguments av_key {V}. Arguments av_data {V}.

Definition MUR_SEED : Z := 13.

Section assoc.
Context {V : Type}.
Implicit Types (h : mh_t (assoc_val V)).

(** [memcmp(a, b, n) == 0] on [n] bytes. *)
Definition mem_eq (a b : bytes) (n : nat) : bool := bool_decide (take n a = take n b).

Definition mh_cmp_eq (l r : assoc_val V) : bool :=
  if decide (length (av_key l) <> length (av_key r)) then false
  else mem_eq (av_key l) (av_key r) (length (av_key r)).

Definition mh_cmp_key_eq (k : assoc_key) (v : assoc_val V) : bool :=
  if decide (length k <> length (av_key v)) then false
  else mem_eq k (av_key v) (length k).

Definition mh_hash (v : assoc_val V) : Z := PMurHash32 MUR_SEED 0 (av_key v).
Definition mh_hash_key (k : assoc_key) : Z := PMurHash32 MUR_SEED 0 k.

Definition mh_assoc_new : malloc_state -> option (mh_t (assoc_val V)) * malloc_state := mh_new.
Definition mh_assoc_find h k : option Z := mh_find mh_hash_key mh_cmp_key_eq (main h) k.
Definition mh_assoc_put h v st : option (Z * option (option (assoc_val V)) * mh_t (assoc_val V) * malloc_state) := mh_put mh_hash mh_cmp_eq h v st.
Definition mh_assoc_del h x : option (mh_t (assoc_val V)) := mh_del mh_hash mh_cmp_eq h x.
Definition mh_assoc_node h x : option (assoc_val V) := mh_node (main h) x.

(** The array stands for the map [M]. *)
Definition assoc_repr h (M : gmap assoc_key (assoc_val V)) (c : Z) : Prop := repr mh_hash_key av_key h M c.

Lemma cmp_eq_spec (a b : assoc_val V) : mh_cmp_eq a b = bool_decide (av_key a = av_key b).
Proof.
  unfold mh_cmp_eq, mem_eq. case_decide as Hl.
  - symmetry. apply bool_decide_eq_false. intros E1. by rewrite E1 in Hl.
  - by rewrite (firstn_all (av_key b)), <- Hl, (firstn_all (av_key a)).
Qed.

Lemma cmp_key_eq_spec k (b : assoc_val V) : mh_cmp_key_eq k b = bool_decide (k = av_key b).
Proof.
  unfold mh_cmp_key_eq, mem_eq. case_decide as Hl.
  - symmetry. apply bool_decide_eq_false. intros E1. by rewrite E1 in Hl.
  - by rewrite firstn_all, Hl, firstn_all.
Qed.

(** ** The operations on maps *)

Lemma assoc_find_ok h M c k :
  assoc_repr h M c -> exists x, mh_assoc_find h k = Some x /\
    match M !! k with
    | Some v => 0 <= x < n_buckets (main h) /\ mh_assoc_node h x = Some v /\ av_key v = k
    | None => x = n_buckets (main h)
    end.
Proof.
  intros Hr. destruct (find_repr mh_hash_key mh_cmp_key_eq av_key cmp_key_eq_spec h M c k Hr) as (x & E & Hx).
  exists x. split; [done|]. destruct (M !! k) as [v|] eqn:Ek; [|done]. destruct Hx as (Hx & _ & Hp).
  split; [done|]. split; [done|]. by eapply repr_node_key.
Qed.

Lemma assoc_put_ok h M c v st :
  assoc_repr h M c -> c <= 2 ^ 26 ->
  exists x ret h' st', mh_assoc_put h v st = Some (x, ret, h', st') /\
    ((ret = Some (M !! av_key v) /\ assoc_repr h' (<[av_key v := v]> M) (c + 1) /\ 0 <= x < n_buckets (main h')) \/
     (ret = None /\ Refuse ∈ st /\ assoc_repr h' M c /\ x = n_buckets (main h'))).
Proof. apply (mh_put_ok mh_hash mh_hash_key mh_cmp_eq mh_cmp_key_eq av_key (fun _ => eq_refl) cmp_eq_spec cmp_key_eq_spec). Qed.

Lemma assoc_put_granted h M c v st :
  assoc_repr h M c -> c <= 2 ^ 26 -> Refuse ∉ st ->
  exists x ret h' st', mh_assoc_put h v st = Some (x, ret, h', st') /\ assoc_repr h' (<[av_key v := v]> M) (c + 1) /\ Refuse ∉ st'.
Proof.
  intros Hr Hc Hst. destruct (assoc_put_ok h M c v st Hr Hc) as (x & ret & h' & st' & E & Hres). exists x, ret, h', st'.
  split; [done|]. destruct Hres as [(_ & Hr' & _)|(_ & Hf & _)]; [|done]. split; [done|].
  intros Hf. apply Hst.
  by apply (mh_put_mem mh_hash mh_hash_key mh_cmp_eq mh_cmp_key_eq av_key (fun _ => eq_refl) cmp_eq_spec cmp_key_eq_spec _ _ _ _ _ _ _ _ E).
Qed.

Lemma assoc_del_ok h M c k x :
  assoc_repr h M c -> mh_assoc_find h k = Some x ->
  exists h', mh_assoc_del h x = Some h' /\ cap h' <= cap h /\ assoc_repr h' (delete k M) c.
Proof. apply (delete_key mh_hash mh_hash_key mh_cmp_eq mh_cmp_key_eq av_key (fun _ => eq_refl) cmp_eq_spec cmp_key_eq_spec). Qed.

(** A table that is not growing. *)
Definition assoc_settled h (M : gmap assoc_key (assoc_val V)) (c : Z) : Prop := exists i, settled mh_hash_key av_key h M i c.

Lemma assoc_repr_settled h M c : assoc_repr h M c -> resize_position (main h) = 0 -> assoc_settled h M c.
Proof. intros (_ & i & [H|(Ms & k & d & _ & H)]) Hp; [by exists i|done]. Qed.

Lemma assoc_del_settled h M c k x :
  assoc_settled h M c -> mh_assoc_find h k = Some x ->
  exists h', mh_assoc_del h x = Some h' /\ assoc_settled h' (delete k M) c /\ n_buckets (main h') = n_buckets (main h) /\
    t_p (main h') = t_p (main h) /\ forall j, 0 <= j < n_buckets (main h) -> E (main h') j = true -> E (main h) j = true.
Proof.
  intros [i Hs] Ef.
  destruct (delete_key_settled mh_hash mh_hash_key mh_cmp_eq mh_cmp_key_eq av_key cmp_key_eq_spec
    h M i c k x Hs Ef) as (h' & Ed & Hs' & Hres).
  exists h'. split; [done|]. split; [by exists i|done].
Qed.

(** The entries of the map and the slots in use. *)
Lemma assoc_slot h M c x :
  assoc_repr h M c -> 0 <= x < n_buckets (main h) -> E (main h) x = true ->
  exists v, mh_assoc_node h x = Some v /\ M !! av_key v = Some v.
Proof.
  intros [i Hk]%repr_main Hx He. destruct (wf_node _ _ _ (tk_wf _ _ _ _ _ Hk) x Hx He) as [v Hv]. exists v. split; [done|].
  apply (tk_models _ _ _ _ _ Hk). by exists x.
Qed.

Lemma assoc_entry h M c k v : assoc_repr h M c -> M !! k = Some v -> exists x, 0 <= x < n_buckets (main h) /\ E (main h) x = true.
Proof. intros [i Hk]%repr_main Hv. apply (tk_models _ _ _ _ _ Hk) in Hv as (x & Hx & He & _). by exists x. Qed.

Lemma assoc_wf h M c : assoc_repr h M c -> wf mh_hash_key av_key (main h).
Proof. intros [i Hk]%repr_main. apply Hk. Qed.

Lemma assoc_new_ok st :
  match mh_assoc_new st with
  | (Some h, _) => assoc_repr h ∅ 0
  | (None, _) => Refuse ∈ st
  end.
Proof.
  unfold mh_assoc_new, mh_new.
  destruct st as [|[|?] st]; cbn [pop]; [apply new_repr|set_solver|].
  destruct st as [|[|?] st]; cbn [pop]; [apply new_repr|set_solver|].
  destruct st as [|[|?] st]; cbn [pop]; [apply new_repr|set_solver|].
  destruct st as [|[|?] st]; cbn [pop]; [apply new_repr|set_solver|].
  apply new_repr.
Qed.

(** ** Refinement of the finite map *)

Inductive assoc_op := Find (k : assoc_key) | Put (v : assoc_val V) | Del (k : assoc_key).

(** The entry found, replaced or deleted. *)
Definition run_assoc (op : assoc_op) h st : option (option (assoc_val V) * mh_t (assoc_val V) * malloc_state) :=
  match op with
  | Find k =>
      x ← mh_assoc_find h k;
      if decide (x = n_buckets (main h)) then Some (None, h, st)
      else v ← mh_assoc_node h x; Some (Some v, h, st)
  | Put v => '(_, old, h, st) ← mh_assoc_put h v st; Some (default None old, h, st)
  | Del k =>
      x ← mh_assoc_find h k;
      if decide (x = n_buckets (main h)) then Some (None, h, st)
      else v ← mh_assoc_node h x; h ← mh_assoc_del h x; Some (Some v, h, st)
  end.

Definition op_key (op : assoc_op) : assoc_key := match op with Find k | Del k => k | Put v => av_key v end.

Definition spec_assoc (op : assoc_op) (M : gmap assoc_key (assoc_val V)) : gmap assoc_key (assoc_val V) :=
  match op with Find _ => M | Put v => <[av_key v := v]> M | Del k => delete k M end.

(** The insertions of an operation. *)
Definition puts (op : assoc_op) : Z := match op with Put _ => 1 | _ => 0 end.

(** C21: the associative array refines a finite map: a new array is the empty
    map; on an array that stands for a map (also one whose entries are moving
    to a larger table) every operation is defined, gives the entry of its key
    in the map and leaves an array that stands for the updated map; only an
    insertion may fail, when the allocator refuses a larger table, and then
    the array still stands for the old map.  [c] counts the insertions, at
    most 2^26 of them. *)
Theorem assoc_refines :
  (forall st, match mh_assoc_new st with (Some h, _) => assoc_repr h ∅ 0 | (None, _) => Refuse ∈ st end) /\
  forall op h M c st, assoc_repr h M c -> c <= 2 ^ 26 ->
  exists r h' st', run_assoc op h st = Some (r, h', st') /\
    ((r = M !! op_key op /\ assoc_repr h' (spec_assoc op M) (c + puts op)) \/
     (exists v, op = Put v /\ Refuse ∈ st /\ r = None /\ assoc_repr h' M c)).
Proof.
  split; [exact assoc_new_ok|]. intros op h M c st Hr Hn. destruct op as [k|v|k]; simpl; rewrite ?Z.add_0_r.
  - destruct (assoc_find_ok h M c k Hr) as (x & -> & Hx). cbn [mbind option_bind]. destruct (M !! k) as [v|].
    + destruct Hx as (Hx & -> & _). rewrite decide_False by lia. do 3 eexists. split; [done|]. by left.
    + rewrite decide_True by done. do 3 eexists. split; [done|]. by left.
  - destruct (assoc_put_ok h M c v st Hr Hn) as (x & ret & h' & st' & -> & Hres). cbn [mbind option_bind].
    do 3 eexists. split; [done|]. destruct Hres as [(-> & Hr' & _)|(-> & Hrf & Hr' & _)]; [by left|right; by exists v].
  - destruct (assoc_find_ok h M c k Hr) as (x & Ef & Hx). rewrite Ef. cbn [mbind option_bind]. destruct (M !! k) as [v|] eqn:Ek.
    + destruct Hx as (Hx & -> & _). rewrite decide_False by lia. cbn [mbind option_bind].
      destruct (assoc_del_ok h M c k x Hr Ef) as (h' & -> & _ & Hr'). do 3 eexists. split; [done|]. by left.
    + rewrite decide_True by done. do 3 eexists. split; [done|]. left. rewrite delete_id by done. by split.
Qed.

End assoc.

Lemma assoc_refines_witness :
  exists r h' st', run_assoc (Put (AssocVal [97] true)) (Mh new_tab zero_tab) [] = Some (r, h', st') /\
    ((r = None /\ assoc_repr h' (<[ [97] := AssocVal [97] true ]> ∅) 1) \/
     (exists v : assoc_val bool, Put (AssocVal [97] true) = Put v /\ Refuse ∈ ([] : malloc_state) /\ r = None /\ assoc_repr h' ∅ 0)).
Proof.
  destruct (proj2 assoc_refines (Put (AssocVal [97] true)) (Mh new_tab zero_tab) ∅ 0 []) as (r & h' & st' & E & H).
  - apply (new_repr mh_hash_key av_key).
  - discriminate.
  - exists r, h', st'. split; [exact E|]. destruct H as [[-> H]|H]; [left|right; exact H]. split; [apply lookup_empty|exact H].
Defined.

Section assoc_run.
Context {V : Type}.

(** A run of operations. *)
Fixpoint run_assocs (ops : list (assoc_op (V := V))) (h : mh_t (assoc_val V)) : option (list (option (assoc_val V)) * mh_t (assoc_val V)) :=
  match ops with
  | [] => Some ([], h)
  | op :: ops => '(r, h, _) ← run_assoc op h []; '(rs, h) ← run_assocs ops h; Some (r :: rs, h)
  end.

End assoc_run.

(** 300 insertions, which grow the table from 3 to 769 buckets, the last time
    step by step, then deletions in the middle of the growth. *)
Example assoc_run_example :
  let ins := (fun i => Put (AssocVal [Z.of_nat (i / 256); Z.of_nat (i mod 256)] i)) <$> seq 0 300 in
  (fun '(rs, h) => (last rs, resize_position (main h), t_size (main h), n_buckets (main h)))
    <$> run_assocs (ins ++ [Del [0; 7]; Del [0; 8]; Find [0; 7]; Find [1; 43]]) (Mh new_tab zero_tab)
  = Some (Some (Some (AssocVal [1; 43] 299%nat)), 0, 298, 769).
Proof. vm_compute. reflexivity. Qed.
