(* ===== verification/Schema.v ===== *)
(** * tnt/tnt_schema.c: the schema cache

    Two levels of the same structure: a hash of the spaces, and in each space
    a hash of its indexes.  Every object is entered twice, under its name and
    under the four bytes of its number, so the entries share the object by its
    address; [htab A] is such a hash with the objects it has allocated, by
    address.  A freed object is gone from [objs] and using it is undefined.

    The [struct assoc_val] blocks of the entries and the keys, which point into
    the objects, are not objects of their own: [assoc_val] holds a copy of the
    key, and [SchemaSpec.htab_ok] says that it is the name or the number of a
    live object. *)

From stdpp Require Import gmap.
From S2P Require Import Prelude Msgpuck MsgpuckRef Mem Stream Buf Proto Object Commands Reply Mhash Assoc.

Record htab (A : Type) := Htab {
  hh : mh_t (assoc_val nat);
  objs : gmap nat A;
  brk : nat;                  (** the next address *)
}.
Arguments Htab {A}. Arguments hh {A}. Arguments objs {A}. Arguments brk {A}.

Record tnt_schema_ival := Ival { i_name : bytes; i_number : Z }.
Record tnt_schema_sval := Sval { s_name : bytes; s_number : Z; s_index : htab tnt_schema_ival }.

(** [space_hash] is [NULL] when its allocation was refused. *)
Record tnt_schema := Schema { space_hash : option (htab tnt_schema_sval); s_alloc : bool }.

(** The four bytes at [&number] of a little endian machine. *)
Definition number_key (n : Z) : assoc_key := rev (be 4 n).

(** [tnt_mem_alloc(n) != NULL]: the default allocator gives [NULL] for 0 bytes. *)
Definition granted_block (n : nat) (st : malloc_state) : bool * malloc_state :=
  if decide (n = 0%nat) then (false, st)
  else let '(a, st) := pop st in (match a with Refuse => false | Grant _ => true end, st).

Section htab.
Context {A : Type}.
Variables (name : A -> bytes) (number : A -> Z).
Implicit Types (h : htab A).

Definition set_hh m h : htab A := Htab m (objs h) (brk h).

(** [mh_assoc_new] *)
Definition htab_new (st : malloc_state) : option (htab A) * malloc_state :=
  match mh_assoc_new st with (Some m, st) => (Some (Htab m ∅ 0), st) | (None, st) => (None, st) end.

(** The object that [mh_assoc_find(h, key)] gives, [Some None] at [mh_end]. *)
Definition find_obj h (k : assoc_key) : option (option (nat * A)) :=
  x ← mh_assoc_find (hh h) k;
  if decide (x = n_buckets (main (hh h))) then Some None
  else v ← mh_assoc_node (hh h) x; a ← objs h !! av_data v; Some (Some (av_data v, a)).

(** The two [mh_assoc_put]s of a new object; their results are ignored. *)
Definition add_obj h (a : A) (st : malloc_state) : option (htab A * malloc_state) :=
  let p := brk h in
  '(_, _, m, st) ← mh_assoc_put (hh h) (AssocVal (name a) p) st;
  '(_, _, m, st) ← mh_assoc_put m (AssocVal (number_key (number a)) p) st;
  Some (Htab m (<[p := a]> (objs h)) (S p), st).

(** One [do { } while (0)]: delete the entry of the key. *)
Definition del_key h (k : assoc_key) : option (htab A) :=
  x ← mh_assoc_find (hh h) k;
  if decide (x = n_buckets (main (hh h))) then Some h
  else m ← mh_assoc_del (hh h) x; Some (set_hh m h).

(** [mh_foreach]: free the object of every entry with its two entries.
    [free_obj] frees what the object owns; the object itself is freed here. *)
Variable free_obj : A -> option unit.

Definition free_step h (x : Z) : option (htab A) :=
  v ← mh_assoc_node (hh h) x;
  a ← objs h !! av_data v;
  h ← del_key h (number_key (number a));
  h ← del_key h (name a);
  _ ← free_obj a;
  Some (Htab (hh h) (delete (av_data v) (objs h)) (brk h)).

Fixpoint free_loop (n : nat) h (x : Z) : option (htab A) :=
  if decide (n_buckets (main (hh h)) <= x) then Some h else
  match n with
  | O => None
  | S n => h ← free_step h x; x ← mh_next (main (hh h)) x; free_loop n h x
  end.

(** A slot is visited at most once; a resize in progress can end in the loop. *)
Definition htab_free h : option (htab A) :=
  x ← mh_first (main (hh h));
  free_loop (rounds (main (hh h)) + rounds (shadow (hh h))) h x.

End htab.

(** [tnt_schema_ival_free] *)
Definition tnt_schema_ival_free (i : tnt_schema_ival) : option unit := Some tt.

(** [tnt_schema_index_free] *)
Definition tnt_schema_index_free (h : htab tnt_schema_ival) : option (htab tnt_schema_ival) :=
  htab_free i_name i_number tnt_schema_ival_free h.

(** [tnt_schema_sval_free] *)
Definition tnt_schema_sval_free (s : tnt_schema_sval) : option unit :=
  _ ← tnt_schema_index_free (s_index s); Some tt.

(** [tnt_schema_space_free] *)
Definition tnt_schema_space_free (h : htab tnt_schema_sval) : option (htab tnt_schema_sval) :=
  htab_free s_name s_number tnt_schema_sval_free h.

Definition SVAL_SIZE : nat := 24.
Definition IVAL_SIZE : nat := 16.
Definition ASSOC_VAL_SIZE : nat := 24.

Section schema.
Context {MP : MsgPuck}.

(** [tnt_schema_add_space]: the code and the data after the tuple. *)
Definition tnt_schema_add_space (h : htab tnt_schema_sval) (data : bytes) (st : malloc_state)
    : option (Z * htab tnt_schema_sval * bytes * malloc_state) :=
  let error st := data ← mp_next data; Some (-1, h, data, st) in
  t ← mp_typeof_at data;
  if decide (t <> MP_ARRAY) then error st else
  '(_, tuple) ← mp_decode_array data;
  let '(ok, st) := granted_block SVAL_SIZE st in
  if negb ok then error st else
  t ← mp_typeof_at tuple;
  if decide (t <> MP_UINT) then error st else
  '(number, tuple) ← mp_decode_uint tuple;
  tuple ← mp_next tuple; (* skip owner id *)
  t ← mp_typeof_at tuple;
  if decide (t <> MP_STR) then error st else
  '(name, tuple) ← mp_decode_str tuple;
  let '(ok, st) := granted_block (length name) st in
  if negb ok then error st else
  let '(index, st) := htab_new st in
  match index with
  | None => error st
  | Some index =>
      let '(ok, st) := granted_block ASSOC_VAL_SIZE st in
      if negb ok then error st else
      let '(ok, st) := granted_block ASSOC_VAL_SIZE st in
      if negb ok then error st else
      '(h, st) ← add_obj s_name s_number h (Sval name (u32 number) index) st;
      data ← mp_next data;
      Some (0, h, data, st)
  end.

(** [tnt_schema_add_index]; the space of an unknown number ends the call at
    once, before [mp_next(data)]. *)
Definition tnt_schema_add_index (h : htab tnt_schema_sval) (data : bytes) (st : malloc_state)
    : option (Z * htab tnt_schema_sval * bytes * malloc_state) :=
  let error st := data ← mp_next data; Some (-1, h, data, st) in
  t ← mp_typeof_at data;
  if decide (t <> MP_ARRAY) then error st else
  '(_, tuple) ← mp_decode_array data;
  '(space_number, tuple) ← mp_decode_uint tuple;
  t ← mp_typeof_at tuple;
  if decide (t <> MP_UINT) then error st else
  space ← find_obj h (number_key (u32 space_number));
  match space with
  | None => Some (-1, h, data, st)
  | Some (p, space) =>
      let '(ok, st) := granted_block IVAL_SIZE st in
      if negb ok then error st else
      t ← mp_typeof_at tuple;
      if decide (t <> MP_UINT) then error st else
      '(number, tuple) ← mp_decode_uint tuple;
      t ← mp_typeof_at tuple;
      if decide (t <> MP_STR) then error st else
      '(name, tuple) ← mp_decode_str tuple;
      let '(ok, st) := granted_block (length name) st in
      if negb ok then error st else
      let '(ok, st) := granted_block ASSOC_VAL_SIZE st in
      if negb ok then error st else
      let '(ok, st) := granted_block ASSOC_VAL_SIZE st in
      if negb ok then error st else
      '(index, st) ← add_obj i_name i_number (s_index space) (Ival name (u32 number)) st;
      data ← mp_next data;
      Some (0, Htab (hh h) (<[p := Sval (s_name space) (s_number space) index]> (objs h)) (brk h), data, st)
  end.

(** [while (space_count-- > 0)] *)
Fixpoint add_tuples (add : htab tnt_schema_sval -> bytes -> malloc_state -> option (Z * htab tnt_schema_sval * bytes * malloc_state))
    (n : nat) (h : htab tnt_schema_sval) (tuple : bytes) (st : malloc_state) : option (Z * htab tnt_schema_sval * malloc_state) :=
  match n with
  | O => Some (0, h, st)
  | S n =>
      '(rc, h, tuple, st) ← add h tuple st;
      if decide (rc <> 0) then Some (-1, h, st) else add_tuples add n h tuple st
  end.

(** The body that [tnt_schema_add_spaces] and [tnt_schema_add_indexes] share. *)
Definition add_reply add (s : tnt_schema) (r : reply) (st : malloc_state) : option (Z * tnt_schema * malloc_state) :=
  let data := default [] (rdata r) in
  match mp_check data with
  | None => Some (-1, s, st)
  | Some _ =>
      t ← mp_typeof_at data;
      if decide (t <> MP_ARRAY) then Some (-1, s, st) else
      '(count, tuple) ← mp_decode_array data;
      if decide (count = 0) then Some (0, s, st) else
      h ← space_hash s;
      '(rc, h, st) ← add_tuples add (Z.to_nat count) h tuple st;
      Some (rc, Schema (Some h) (s_alloc s), st)
  end.

Definition tnt_schema_add_spaces := add_reply tnt_schema_add_space.
Definition tnt_schema_add_indexes := add_reply tnt_schema_add_index.

Definition tnt_schema_stosid (s : tnt_schema) (name : bytes) : option Z :=
  h ← space_hash s;
  space ← find_obj h name;
  match space with
  | None => Some (-1)
  | Some (_, space) => Some (s32 (s_number space))
  end.

Definition tnt_schema_stoiid (s : tnt_schema) (sid : Z) (name : bytes) : option Z :=
  h ← space_hash s;
  space ← find_obj h (number_key sid);
  match space with
  | None => Some (-1)
  | Some (_, space) =>
      index ← find_obj (s_index space) name;
      match index with
      | None => Some (-1)
      | Some (_, index) => Some (s32 (i_number index))
      end
  end.

(** [tnt_schema_new]: [given] is the caller's struct, absent for [NULL]; the
    result of [mh_assoc_new] is not checked. *)
Definition tnt_schema_new (given : bool) (st : malloc_state) : option tnt_schema * malloc_state :=
  let '(ok, st) := if given then (true, st) else granted_block 16 st in
  if negb ok then (None, st) else
  let '(h, st) := htab_new st in
  (Some (Schema h (negb given)), st).

Definition tnt_schema_flush (s : tnt_schema) : option tnt_schema :=
  h ← space_hash s;
  h ← tnt_schema_space_free h;
  Some (Schema (Some h) (s_alloc s)).

(** [tnt_schema_free]: the struct itself is not freed, its hash is dangling. *)
Definition tnt_schema_free (s : option tnt_schema) : option unit :=
  match s with
  | None => Some tt
  | Some s => h ← space_hash s; _ ← tnt_schema_space_free h; Some tt
  end.

(** The index by name of the system spaces. *)
Definition tnt_vin_name : Z := 2.

(** [tnt_get_space] and [tnt_get_index]. *)
Section get.
Context {T : Type} {SK : Sink T}.

Definition get_system (space : Z) (s : stream T) (st : malloc_state) : option (Z * stream T) :=
  obj ← tnt_object false st;
  match obj with
  | None => Some (-1, s)
  | Some obj =>
      '(_, obj) ← tnt_object_add_array obj 0;
      '(retval, s) ← tnt_select s space tnt_vin_name UINT32_MAX 0 (iterator_code TNT_ITER_ALL) obj;
      _ ← tnt_stream_free (Some (tnt_buf_free (Some tnt_sbuf_object_free))) (Some obj);
      Some (retval, s)
  end.

Definition tnt_get_space := get_system tnt_vsp_space.
Definition tnt_get_index := get_system tnt_vsp_index.
End get.

End schema.
