(* ===== verification/SchemaSpec.v ===== *)
(** * The schema cache is a map from names and numbers

    First the hash of objects ([htab]) for any kind of object: what its
    operations do to the map of its entries, and that freeing every entry ends
    and is safe.  Then the two levels of the schema: loading the rows of the
    system spaces, lookups, and the invariant of every operation. *)

From stdpp Require Import gmap.
From S2P Require Import Prelude Msgpuck MsgpuckRef Mem Stream Buf Proto Object Commands Reply Murmur Mhash MhashSpec Assoc Schema.

Section htab_spec.
Context {A : Type}.
Variables (name : A -> bytes) (number : A -> Z) (free_obj : A -> option unit) (okA : A -> Prop).
Implicit Types (h : htab A) (M : gmap assoc_key (assoc_val nat)).

(** The keys of an object. *)
Definition has_key (k : assoc_key) (a : A) : Prop := k = name a \/ k = number_key (number a).

(** Every entry is the name or the number of a live object; [c] insertions. *)
Record htab_ok h M (c : Z) : Prop := {
  ho_repr : assoc_repr (hh h) M c;
  ho_live : forall k v, M !! k = Some v -> exists a, objs h !! av_data v = Some a /\ has_key k a;
  ho_objs : forall p a, objs h !! p = Some a -> okA a /\ (p < brk h)%nat;
}.

Lemma find_obj_repr h M c k :
  assoc_repr (hh h) M c ->
  find_obj h k = match M !! k with None => Some None | Some v => (fun a => Some (av_data v, a)) <$> objs h !! av_data v end.
Proof.
  intros Hr. unfold find_obj. destruct (assoc_find_ok (hh h) M c k Hr) as (x & -> & Hx). cbn [mbind option_bind].
  destruct (M !! k) as [v|].
  - destruct Hx as (Hx & -> & _). rewrite decide_False by lia. done.
  - by rewrite decide_True.
Qed.

Lemma find_obj_ok h M c k :
  htab_ok h M c -> find_obj h k = Some None \/ exists p a, find_obj h k = Some (Some (p, a)) /\ objs h !! p = Some a /\ okA a.
Proof.
  intros [Hr Hl Ho]. rewrite (find_obj_repr h M c k Hr). destruct (M !! k) as [v|] eqn:Ek; [right|by left].
  destruct (Hl k v Ek) as (a & Ha & _). rewrite Ha. exists (av_data v), a. split; [done|]. split; [done|]. by apply (Ho _ _ Ha).
Qed.

(** Both insertions, when no allocation is refused. *)
Lemma add_obj_granted h M c a st :
  assoc_repr (hh h) M c -> c + 2 <= 2 ^ 26 -> Refuse ∉ st ->
  exists m st', add_obj name number h a st = Some (Htab m (<[brk h := a]> (objs h)) (S (brk h)), st') /\ Refuse ∉ st' /\
    assoc_repr m (<[number_key (number a) := AssocVal (number_key (number a)) (brk h)]> (<[name a := AssocVal (name a) (brk h)]> M)) (c + 2).
Proof.
  intros Hr Hc Hst. unfold add_obj.
  destruct (assoc_put_granted (hh h) M c (AssocVal (name a) (brk h)) st Hr ltac:(lia) Hst) as (x & ret & m & st1 & -> & Hr1 & Hst1).
  cbn [mbind option_bind].
  destruct (assoc_put_granted m _ (c + 1) (AssocVal (number_key (number a)) (brk h)) st1 Hr1 ltac:(lia) Hst1) as (x2 & ret2 & m2 & st2 & -> & Hr2 & Hst2).
  cbn [mbind option_bind]. exists m2, st2. split; [done|]. split; [done|]. by replace (c + 2) with (c + 1 + 1) by lia.
Qed.

(** In general each of the two may be missing. *)
Lemma put_maybe (m : mh_t (assoc_val nat)) M c k p st :
  assoc_repr m M c -> c <= 2 ^ 26 ->
  exists x ret m' st' M' c', mh_assoc_put m (AssocVal k p) st = Some (x, ret, m', st') /\ assoc_repr m' M' c' /\
    c <= c' <= c + 1 /\ (M' = M \/ M' = <[k := AssocVal k p]> M).
Proof.
  intros Hr Hc. destruct (assoc_put_ok m M c (AssocVal k p) st Hr Hc) as (x & ret & m' & st' & -> & [(_ & H' & _)|(_ & _ & H' & _)]).
  - exists x, ret, m', st', (<[k := AssocVal k p]> M), (c + 1). split; [done|]. split; [done|]. split; [lia|by right].
  - exists x, ret, m', st', M, c. split; [done|]. split; [done|]. split; [lia|by left].
Qed.

Lemma add_obj_ok h M c a st :
  htab_ok h M c -> c + 2 <= 2 ^ 26 -> okA a ->
  exists h' st' M' c', add_obj name number h a st = Some (h', st') /\ htab_ok h' M' c' /\ c <= c' <= c + 2.
Proof.
  intros [Hr Hl Ho] Hc Ha. unfold add_obj.
  destruct (put_maybe (hh h) M c (name a) (brk h) st Hr) as (x & ret & m1 & st1 & M1 & c1 & -> & Hr1 & Hc1 & H1); [lia|]. cbn [mbind option_bind].
  destruct (put_maybe m1 M1 c1 (number_key (number a)) (brk h) st1 Hr1) as (x2 & ret2 & m2 & st2 & M2 & c2 & -> & Hr2 & Hc2 & H2); [lia|]. cbn [mbind option_bind].
  do 2 eexists. exists M2, c2. split; [done|]. split; [|lia]. split; simpl.
  - done.
  - assert (forall k v, M2 !! k = Some v -> M !! k = Some v \/ av_data v = brk h /\ has_key k a) as Hsub.
    { unfold has_key. intros k v. destruct H1 as [->| ->], H2 as [->| ->]; rewrite ?lookup_insert_Some; intros; naive_solver. }
    intros k v [Hk|[-> Hk]]%Hsub; [|exists a; by rewrite lookup_insert_eq].
    destruct (Hl k v Hk) as (a' & Ha' & Hk'). exists a'. split; [|done]. rewrite lookup_insert_ne; [done|].
    apply Ho in Ha' as [_ ?]. lia.
  - intros p a'. rewrite lookup_insert_Some. intros [[<- <-]|[_ Hp]]; [split; [done|lia]|]. apply Ho in Hp as [? ?]. split; [done|lia].
Qed.

(** ** Freeing *)

Hypothesis free_ok : forall a, okA a -> free_obj a = Some tt.

Lemma del_key_ok h M c k :
  assoc_repr (hh h) M c ->
  exists h', del_key h k = Some h' /\ assoc_repr (hh h') (delete k M) c /\ cap (hh h') <= cap (hh h) /\ objs h' = objs h /\ brk h' = brk h.
Proof.
  intros Hr. unfold del_key. destruct (assoc_find_ok (hh h) M c k Hr) as (x & Ef & Hx). rewrite Ef. cbn [mbind option_bind].
  destruct (M !! k) as [v|] eqn:Ek.
  - rewrite decide_False by lia. destruct (assoc_del_ok (hh h) M c k x Hr Ef) as (m & -> & Hc & Hr'). cbn [mbind option_bind]. eexists. done.
  - rewrite decide_True by done. exists h. rewrite delete_id by done. done.
Qed.

(** After the object [a] is freed with its two entries. *)
Lemma htab_ok_delete h M c v a h2 :
  htab_ok h M c -> M !! av_key v = Some v -> objs h !! av_data v = Some a ->
  assoc_repr (hh h2) (delete (name a) (delete (number_key (number a)) M)) c -> objs h2 = objs h -> brk h2 = brk h ->
  htab_ok (Htab (hh h2) (delete (av_data v) (objs h2)) (brk h2)) (delete (name a) (delete (number_key (number a)) M)) c.
Proof.
  intros [Hr Hl Ho] Hv Ha Hr2 Ho2 Hb2. split; simpl.
  - exact Hr2.
  - intros k v' [Hne [Hne' Hv']%lookup_delete_Some]%lookup_delete_Some. destruct (Hl k v' Hv') as (a' & Ha' & Hk').
    exists a'. split; [|done]. rewrite Ho2. rewrite lookup_delete_ne; [done|].
    intros Hd. rewrite Hd in Ha. destruct Hk'; congruence.
  - intros p a' [_ Hp]%lookup_delete_Some. rewrite Ho2 in Hp. rewrite Hb2. by apply Ho.
Qed.

Lemma free_step_ok h M c x :
  htab_ok h M c -> 0 <= x < n_buckets (main (hh h)) -> E (main (hh h)) x = true ->
  exists h' M', free_step name number free_obj h x = Some h' /\ htab_ok h' M' c /\ cap (hh h') <= cap (hh h).
Proof.
  intros Hok Hx He. pose proof Hok as [Hr Hl Ho]. unfold free_step.
  destruct (assoc_slot (hh h) M c x Hr Hx He) as (v & -> & Hv). cbn [mbind option_bind].
  destruct (Hl _ _ Hv) as (a & Ha & Hk). rewrite Ha. cbn [mbind option_bind].
  destruct (del_key_ok h M c (number_key (number a)) Hr) as (h1 & -> & Hr1 & Hc1 & Ho1 & Hb1). cbn [mbind option_bind].
  destruct (del_key_ok h1 _ c (name a) Hr1) as (h2 & -> & Hr2 & Hc2 & Ho2 & Hb2). cbn [mbind option_bind].
  rewrite free_ok by apply (Ho _ _ Ha). cbn [mbind option_bind].
  do 2 eexists. split; [done|]. split; [|simpl; lia]. apply (htab_ok_delete h); done || congruence.
Qed.

Lemma free_loop_ok n : forall h M c x,
  htab_ok h M c -> 0 <= x -> cap (hh h) - x <= Z.of_nat n -> (x < n_buckets (main (hh h)) -> E (main (hh h)) x = true) ->
  exists h' M', free_loop name number free_obj n h x = Some h' /\ htab_ok h' M' c.
Proof.
  induction n as [|n IH]; intros h M c x Hok Hx Hn He; cbn [free_loop].
  { rewrite decide_True by (unfold cap in *; lia). by exists h, M. }
  case_decide as Hend; [by exists h, M|].
  destruct (free_step_ok h M c x Hok ltac:(lia) ltac:(apply He; lia)) as (h1 & M1 & -> & Hok1 & Hc1). cbn [mbind option_bind].
  destruct (decide (x < n_buckets (main (hh h1)))) as [Hx1|Hx1].
  - destruct (mh_next_ok mh_hash_key av_key (main (hh h1)) x (assoc_wf _ _ _ (ho_repr _ _ _ Hok1)) ltac:(lia)) as (j & -> & Hj & Hej & _).
    cbn [mbind option_bind]. apply (IH h1 M1 c j Hok1); [lia|lia|done].
  - unfold mh_next. rewrite decide_False by lia. cbn [mbind option_bind].
    destruct n; cbn [free_loop]; rewrite decide_True by lia; by exists h1, M1.
Qed.

(** Freeing every entry is safe and ends, also when the table is growing. *)
Lemma htab_free_ok h M c :
  htab_ok h M c -> exists h' M', htab_free name number free_obj h = Some h' /\ htab_ok h' M' c.
Proof.
  intros Hok. unfold htab_free. pose proof (assoc_wf _ _ _ (ho_repr _ _ _ Hok)) as Hw.
  destruct (mh_first_ok mh_hash_key av_key _ Hw) as (j & -> & Hj & He & _). cbn [mbind option_bind].
  apply (free_loop_ok _ h M c j Hok); [lia| |done]. unfold cap, rounds. lia.
Qed.

(** ... and nothing is left when it is not growing. *)
Lemma del_key_settled h M c k :
  assoc_repr (hh h) M c -> assoc_settled (hh h) M c ->
  exists h', del_key h k = Some h' /\ assoc_repr (hh h') (delete k M) c /\ assoc_settled (hh h') (delete k M) c /\
    (objs h' = objs h /\ brk h' = brk h) /\ n_buckets (main (hh h')) = n_buckets (main (hh h)) /\
    t_p (main (hh h')) = t_p (main (hh h)) /\
    forall j, 0 <= j < n_buckets (main (hh h)) -> E (main (hh h')) j = true -> E (main (hh h)) j = true.
Proof.
  intros Hr Hs. destruct (del_key_ok h M c k Hr) as (h' & Ed & Hr' & _ & Ho). exists h'. split; [done|]. split; [done|].
  unfold del_key in Ed. destruct (assoc_find_ok (hh h) M c k Hr) as (x & Ef & Hx). rewrite Ef in Ed. cbn [mbind option_bind] in Ed.
  destruct (assoc_del_settled (hh h) M c k x Hs Ef) as (m & Em & Hm & Hn & He).
  case_decide as Hx'; [|rewrite Em in Ed; cbn [mbind option_bind] in Ed; injection Ed as <-; done].
  injection Ed as <-. unfold mh_assoc_del, mh_del in Em. rewrite decide_True in Em by done. by injection Em as <-.
Qed.

(** The slots before [x] are empty. *)
Definition emptied h (x : Z) : Prop := forall j, 0 <= j < x -> E (main (hh h)) j = false.

Lemma free_step_settled h M c x :
  htab_ok h M c -> assoc_settled (hh h) M c -> 0 <= x < n_buckets (main (hh h)) -> E (main (hh h)) x = true -> emptied h x ->
  exists h' M', free_step name number free_obj h x = Some h' /\ htab_ok h' M' c /\ assoc_settled (hh h') M' c /\
    n_buckets (main (hh h')) = n_buckets (main (hh h)) /\ emptied h' (x + 1).
Proof.
  intros Hok Hs Hx He Hem. pose proof Hok as [Hr Hl Ho]. unfold free_step.
  destruct (assoc_slot (hh h) M c x Hr Hx He) as (v & Ev & Hv). rewrite Ev. cbn [mbind option_bind].
  destruct (Hl _ _ Hv) as (a & Ha & Hk). rewrite Ha. cbn [mbind option_bind].
  destruct (del_key_settled h M c (number_key (number a)) Hr Hs) as (h1 & -> & Hr1 & Hs1 & [Ho1 Hb1] & Hn1 & Hp1 & He1). cbn [mbind option_bind].
  destruct (del_key_settled h1 _ c (name a) Hr1 Hs1) as (h2 & -> & Hr2 & Hs2 & [Ho2 Hb2] & Hn2 & Hp2 & He2). cbn [mbind option_bind].
  rewrite free_ok by apply (Ho _ _ Ha). cbn [mbind option_bind].
  do 2 eexists. split; [done|]. split; [apply (htab_ok_delete h); done || congruence|]. split; [done|]. split; [simpl; congruence|].
  intros j Hj. simpl. destruct (E (main (hh h2)) j) eqn:Ej; [|done]. exfalso.
  assert (E (main (hh h)) j = true) as Ejh by (apply He1; [lia|apply He2; [lia|done]]).
  destruct (decide (j = x)) as [->|]; [|rewrite Hem in Ejh by lia; done].
  destruct (assoc_slot (hh h2) _ c x Hr2 ltac:(lia) Ej) as (v2 & Ev2 & Hv2).
  unfold mh_assoc_node, mh_node in Ev, Ev2. rewrite Hp2, Hp1, Ev in Ev2. injection Ev2 as <-.
  apply lookup_delete_Some in Hv2 as [Hne [Hne' _]%lookup_delete_Some]. destruct Hk; congruence.
Qed.

Lemma free_loop_settled n : forall h M c x,
  htab_ok h M c -> assoc_settled (hh h) M c -> 0 <= x <= n_buckets (main (hh h)) -> n_buckets (main (hh h)) - x <= Z.of_nat n ->
  (x < n_buckets (main (hh h)) -> E (main (hh h)) x = true) -> emptied h x ->
  exists h' M', free_loop name number free_obj n h x = Some h' /\ htab_ok h' M' c /\ assoc_settled (hh h') M' c /\ 
    emptied h' (n_buckets (main (hh h'))).
Proof.
  induction n as [|n IH]; intros h M c x Hok Hs Hx Hn He Hem; cbn [free_loop].
  { rewrite decide_True by lia. exists h, M. split; [done|]. split; [done|]. split; [done|].
    by replace (n_buckets (main (hh h))) with x by lia. }
  case_decide as Hend.
  { exists h, M. split; [done|]. split; [done|]. split; [done|]. by replace (n_buckets (main (hh h))) with x by lia. }
  destruct (free_step_settled h M c x Hok Hs ltac:(lia) ltac:(apply He; lia) Hem) as (h1 & M1 & -> & Hok1 & Hs1 & Hn1 & Hem1).
  cbn [mbind option_bind].
  destruct (mh_next_ok mh_hash_key av_key (main (hh h1)) x (assoc_wf _ _ _ (ho_repr _ _ _ Hok1)) ltac:(lia)) as (j & -> & Hj & Hej & Hlj).
  cbn [mbind option_bind]. apply (IH h1 M1 c j Hok1 Hs1); [lia|lia|done|].
  intros l Hl. destruct (decide (l < x + 1)); [apply Hem1|apply Hlj]; lia.
Qed.

(** ... and nothing is left when it is not growing. *)
Lemma htab_free_settled h M c :
  htab_ok h M c -> assoc_settled (hh h) M c ->
  exists h', htab_free name number free_obj h = Some h' /\ htab_ok h' ∅ c /\ assoc_settled (hh h') ∅ c.
Proof.
  intros Hok Hs. unfold htab_free. pose proof (assoc_wf _ _ _ (ho_repr _ _ _ Hok)) as Hw.
  destruct (mh_first_ok mh_hash_key av_key _ Hw) as (j & -> & Hj & He & Hl). cbn [mbind option_bind].
  destruct (free_loop_settled (rounds (main (hh h)) + rounds (shadow (hh h))) h M c j Hok Hs) as (h' & M' & -> & Hok' & Hs' & Hem);
    [lia|unfold rounds; lia|done|done|].
  assert (M' = ∅) as ->; [|by exists h'].
  apply map_empty. intros k. destruct (M' !! k) as [v|] eqn:Ek; [|done].
  destruct (assoc_entry _ _ _ k v (ho_repr _ _ _ Hok') Ek) as (x & Hx & Hex). by rewrite Hem in Hex by lia.
Qed.

End htab_spec.

(** The position of the last element with a property. *)
Definition last_index {A} (P : A -> Prop) `{!forall x, Decision (P x)} (l : list A) : option nat :=
  snd (foldl (fun '(i, r) a => (S i, if decide (P a) then Some i else r)) (O, None) l).

Section last_index.
Context {A : Type} (P : A -> Prop) `{!forall x, Decision (P x)}.

Lemma last_index_count (l : list A) i r : fst (foldl (fun '(i, r) a => (S i, if decide (P a) then Some i else r)) (i, r) l) = (i + length l)%nat.
Proof. revert i r. induction l as [|a l IH]; intros i r; simpl; [lia|]. rewrite IH. lia. Qed.

Lemma last_index_snoc (l : list A) a : last_index P (l ++ [a]) = if decide (P a) then Some (length l) else last_index P l.
Proof.
  unfold last_index. rewrite foldl_app. simpl. pose proof (last_index_count l O None) as Hc.
  destruct (foldl _ _ _) as [i r]. simpl in *. by subst.
Qed.

Lemma last_index_Some (l : list A) j : last_index P l = Some j -> exists a, l !! j = Some a /\ P a.
Proof.
  induction l as [|a l IH] using rev_ind; [done|]. rewrite last_index_snoc. case_decide as Ha.
  - intros [= <-]. exists a. split; [|done]. rewrite lookup_app_r by lia. by rewrite Nat.sub_diag.
  - intros (b & Hb & HP)%IH. exists b. split; [|done]. by apply lookup_app_l_Some.
Qed.

End last_index.

(** ** A hash that holds rows *)

Section holds.
Context {A R : Type}.
Variables (name : A -> bytes) (number : A -> Z) (rname : R -> bytes) (rnum : R -> Z) (base : nat).
Implicit Types (h : htab A) (rows : list R).

Definition keyed (k : assoc_key) (r : R) : Prop := k = rname r \/ k = number_key (rnum r).
#[export] Instance keyed_dec k r : Decision (keyed k r).
Proof. unfold keyed. apply _. Defined.

(** The objects from address [base] on are those of the rows; an entry leads
    to the last row with its key. *)
Definition holds (rel : nat -> R -> A -> Prop) h rows (c : Z) : Prop :=
  (exists M, assoc_repr (hh h) M c /\ forall k, M !! k = (fun j => AssocVal k (base + j)%nat) <$> last_index (keyed k) rows) /\
  (forall j r, rows !! j = Some r -> exists a, objs h !! (base + j)%nat = Some a /\ rel j r a) /\
  brk h = (base + length rows)%nat.

Lemma holds_find rel h rows c k :
  holds rel h rows c ->
  match last_index (keyed k) rows with
  | None => find_obj h k = Some None
  | Some j => exists r a, rows !! j = Some r /\ find_obj h k = Some (Some ((base + j)%nat, a)) /\ rel j r a
  end.
Proof.
  intros ((M & Hr & HM) & Ho & _). rewrite (find_obj_repr h M c k Hr), HM.
  destruct (last_index (keyed k) rows) as [j|] eqn:Ej; simpl; [|done].
  apply last_index_Some in Ej as (r & Hj & _). destruct (Ho j r Hj) as (a & -> & Ha). by exists r, a.
Qed.

Lemma holds_add rel h rows c r a st :
  holds rel h rows c -> c + 2 <= 2 ^ 26 -> Refuse ∉ st -> rel (length rows) r a -> name a = rname r -> number a = rnum r ->
  exists h' st', add_obj name number h a st = Some (h', st') /\ holds rel h' (rows ++ [r]) (c + 2) /\ Refuse ∉ st'.
Proof.
  intros ((M & Hr & HM) & Ho & Hb) Hc Hst Hrel En Ei.
  destruct (add_obj_granted name number h M c a st Hr Hc Hst) as (m & st' & -> & Hst' & Hr').
  do 2 eexists. split; [done|]. split; [|done]. split; [|split; simpl].
  - eexists. split; [exact Hr'|]. intros k. rewrite last_index_snoc, Hb, En, Ei. unfold keyed.
    destruct (decide (k = number_key (rnum r))) as [->|Hk]; [rewrite lookup_insert_eq, decide_True by auto; done|].
    rewrite lookup_insert_ne by done. destruct (decide (k = rname r)) as [->|Hk']; [rewrite lookup_insert_eq, decide_True by auto; done|].
    rewrite lookup_insert_ne by done. rewrite decide_False by tauto. apply HM.
  - rewrite Hb. intros j r'. rewrite lookup_app_Some, list_lookup_singleton_Some. intros [Hj|(Hl & Hj & <-)].
    + apply lookup_lt_Some in Hj as Hlt. rewrite lookup_insert_ne by lia. by apply Ho.
    + assert (j = length rows) as -> by lia. rewrite lookup_insert_eq. by exists a.
  - rewrite Hb, length_app. simpl. lia.
Qed.

(** Changing one object. *)
Lemma holds_update rel rel' h rows c j r a :
  holds rel h rows c -> rows !! j = Some r -> rel' j r a ->
  (forall j' r' a', j' <> j -> rel j' r' a' -> rel' j' r' a') ->
  holds rel' (Htab (hh h) (<[(base + j)%nat := a]> (objs h)) (brk h)) rows c.
Proof.
  intros ((M & Hr & HM) & Ho & Hb) Hj Ha Hne. split; [by exists M|]. split; [|done]. simpl. intros j' r' Hj'.
  destruct (decide (j' = j)) as [->|Hd].
  - rewrite lookup_insert_eq. exists a. split; [done|congruence].
  - rewrite lookup_insert_ne by lia. destruct (Ho j' r' Hj') as (a' & ? & ?). exists a'. auto.
Qed.

Lemma holds_nil rel h c : assoc_repr (hh h) ∅ c -> brk h = base -> holds rel h [] c.
Proof. intros Hr Hb. split; [exists ∅; split; [done|intros; apply lookup_empty]|]. split; [done|simpl; lia]. Qed.

End holds.

(** ** Rows of the system spaces *)

Record space_row := SpaceRow { sr_id : Z; sr_owner : bytes; sr_name : bytes; sr_rest : list bytes }.
Record index_row := IndexRow { ir_sid : Z; ir_iid : Z; ir_name : bytes; ir_rest : list bytes }.

Section rows.
Context {MP : MsgPuck}.

Definition tuple_bytes (fields : list bytes) : bytes := mp_encode_array (zlen fields) ++ concat fields.

Definition space_fields (r : space_row) : list bytes :=
  mp_encode_uint (sr_id r) :: sr_owner r :: mp_encode_str (sr_name r) :: sr_rest r.
Definition index_fields (r : index_row) : list bytes :=
  mp_encode_uint (ir_sid r) :: mp_encode_uint (ir_iid r) :: mp_encode_str (ir_name r) :: ir_rest r.

Definition space_row_ok (r : space_row) : Prop :=
  0 <= sr_id r < 2 ^ 32 /\ mp_object (sr_owner r) /\ 0 < zlen (sr_name r) < 2 ^ 32 /\
  Forall mp_object (sr_rest r) /\ zlen (sr_rest r) < 2 ^ 31.
Definition index_row_ok (r : index_row) : Prop :=
  0 <= ir_sid r < 2 ^ 32 /\ 0 <= ir_iid r < 2 ^ 32 /\ 0 < zlen (ir_name r) < 2 ^ 32 /\
  Forall mp_object (ir_rest r) /\ zlen (ir_rest r) < 2 ^ 31.

(** The data of a reply. *)
Definition rows_data {R} (fields : R -> list bytes) (rows : list R) : bytes :=
  tuple_bytes ((fun r => tuple_bytes (fields r)) <$> rows).
End rows.

Abbreviation space_keyed := (keyed sr_name sr_id).
Abbreviation index_keyed := (keyed ir_name ir_iid).

(** The row of the space that a number or name refers to. *)
Definition space_of (sps : list space_row) (k : assoc_key) : option nat := last_index (space_keyed k) sps.

(** The rows of the indexes of the [j]-th space. *)
Definition indexes_of (sps : list space_row) (ils : list index_row) (j : nat) : list index_row :=
  filter (fun i => space_of sps (number_key (ir_sid i)) = Some j) ils.

Definition stosid_spec (sps : list space_row) (name : bytes) : Z :=
  default (-1) (j ← space_of sps name; r ← sps !! j; Some (s32 (sr_id r))).

Definition stoiid_spec (sps : list space_row) (ils : list index_row) (sid : Z) (name : bytes) : Z :=
  default (-1) (j ← space_of sps (number_key sid);
                i ← last_index (index_keyed name) (indexes_of sps ils j);
                r ← indexes_of sps ils j !! i; Some (s32 (ir_iid r))).

Section load.
Context {MP : MsgPuck} {MPS : MsgPuckSpec MP}.

Definition index_rel (j : nat) (r : index_row) (i : tnt_schema_ival) : Prop := i_name i = ir_name r /\ i_number i = ir_iid r.

(** The object of the [j]-th space: its name, its number and its indexes. *)
Definition space_rel (sps : list space_row) (ils : list index_row) (j : nat) (r : space_row) (s : tnt_schema_sval) : Prop :=
  s_name s = sr_name r /\ s_number s = sr_id r /\
  holds ir_name ir_iid 0 index_rel (s_index s) (indexes_of sps ils j) (2 * zlen (indexes_of sps ils j)).

(** The spaces [sps] and the indexes [ils] are loaded. *)
Definition loaded (all sps : list space_row) (ils : list index_row) (base : nat) (h : htab tnt_schema_sval) (c : Z) : Prop :=
  holds sr_name sr_id base (space_rel all ils) h sps c.

Lemma tuple_object fields : Forall mp_object fields -> zlen fields < 2 ^ 32 -> mp_object (tuple_bytes fields).
Proof. intros. by apply mp_object_array. Qed.

Lemma granted_block_ok n st : (0 < n)%nat -> Refuse ∉ st -> exists st', granted_block n st = (true, st') /\ Refuse ∉ st'.
Proof.
  intros Hn Hst. unfold granted_block. rewrite decide_False by lia.
  destruct (pop st) as [a st'] eqn:E. destruct (pop_granted _ _ _ E Hst) as [Ha Hst']. exists st'. by destruct a.
Qed.

Lemma htab_new_granted {A} st : Refuse ∉ st ->
  exists m st', htab_new (A := A) st = (Some (Htab m ∅ 0), st') /\ Refuse ∉ st' /\ assoc_repr m ∅ 0.
Proof.
  intros Hst. unfold htab_new. pose proof (assoc_new_ok (V := nat) st) as Hn. 
  assert (forall a, a ∈ snd (mh_assoc_new (V := nat) st) -> a ∈ st) as Hsub.
  { unfold mh_assoc_new, mh_new. intros a. do 4 (destruct st as [|[|] st]; cbn [pop snd]; try set_solver). }
  destruct (mh_assoc_new st) as [[m|] st']; [|done]. exists m, st'. split; [done|]. split; [|done]. intros Hr. by apply Hst, Hsub.
Qed.

Lemma space_fields_ok r : space_row_ok r -> Forall mp_object (space_fields r) /\ 0 <= zlen (space_fields r) < 2 ^ 32.
Proof.
  intros (Hi & Ho & Hn & Hr & Hl). split; [|unfold space_fields; len].
  repeat constructor; [apply mp_object_uint; lia|done|apply mp_object_str; lia|done].
Qed.

Lemma index_fields_ok r : index_row_ok r -> Forall mp_object (index_fields r) /\ 0 <= zlen (index_fields r) < 2 ^ 32.
Proof.
  intros (Hi & Ho & Hn & Hr & Hl). split; [|unfold index_fields; len].
  repeat constructor; [apply mp_object_uint; lia|apply mp_object_uint; lia|apply mp_object_str; lia|done].
Qed.

Lemma add_space_ok all base h sps r c st p :
  space_row_ok r -> loaded all sps [] base h c -> c + 2 <= 2 ^ 26 -> Refuse ∉ st ->
  exists h' st', tnt_schema_add_space h (tuple_bytes (space_fields r) ++ p) st = Some (0, h', p, st') /\
    loaded all (sps ++ [r]) [] base h' (c + 2) /\ Refuse ∉ st'.
Proof.
  intros Hrow Hh Hc Hst. destruct (space_fields_ok r Hrow) as [Hf Hl]. pose proof Hrow as (Hi & Ho & Hn & _).
  pose proof (mp_object_next _ p (tuple_object _ Hf ltac:(lia))) as Hnext.
  unfold tnt_schema_add_space. rewrite Hnext. unfold tuple_bytes. rewrite <- app_assoc.
  rewrite spec_type_array by done. cbn [mbind option_bind]. rewrite decide_False by (intros []; done).
  rewrite spec_decode_array by done. cbn [mbind option_bind].
  destruct (granted_block_ok SVAL_SIZE st) as (st1 & -> & Hst1); [unfold SVAL_SIZE; lia|done|]. cbn [negb].
  unfold space_fields. cbn [concat]. unfold mp_encode_str. rewrite <- !app_assoc.
  rewrite spec_type_uint by lia. cbn [mbind option_bind]. rewrite decide_False by (intros []; done).
  rewrite spec_decode_uint by lia. cbn [mbind option_bind]. rewrite mp_object_next by done. cbn [mbind option_bind].
  rewrite spec_type_str by lia. cbn [mbind option_bind]. rewrite decide_False by (intros []; done).
  rewrite spec_decode_str by lia. cbn [mbind option_bind].
  destruct (granted_block_ok (length (sr_name r)) st1) as (st2 & -> & Hst2); [unfold zlen in *; lia|done|]. cbn [negb].
  destruct (htab_new_granted (A := tnt_schema_ival) st2 Hst2) as (m & st3 & -> & Hst3 & Hm).
  destruct (granted_block_ok ASSOC_VAL_SIZE st3) as (st4 & -> & Hst4); [unfold ASSOC_VAL_SIZE; lia|done|]. cbn [negb].
  destruct (granted_block_ok ASSOC_VAL_SIZE st4) as (st5 & -> & Hst5); [unfold ASSOC_VAL_SIZE; lia|done|]. cbn [negb].
  rewrite u32_small by lia.
  destruct (holds_add s_name s_number sr_name sr_id base (space_rel all []) h sps c r (Sval (sr_name r) (sr_id r) (Htab m ∅ 0)) st5 Hh Hc Hst5)
    as (h' & st6 & -> & Hh' & Hst6); [|done|done|].
  { split; [done|]. split; [done|]. simpl. by apply holds_nil. }
  cbn [mbind option_bind]. do 2 eexists. split; [done|]. done.
Qed.

Lemma indexes_snoc sps ils r j :
  indexes_of sps (ils ++ [r]) j = indexes_of sps ils j ++ (if decide (space_of sps (number_key (ir_sid r)) = Some j) then [r] else []).
Proof. unfold indexes_of. rewrite filter_app, filter_cons, filter_nil. done. Qed.

Lemma space_rel_snoc sps ils r j j' r' s :
  space_of sps (number_key (ir_sid r)) = Some j -> j' <> j -> space_rel sps ils j' r' s -> space_rel sps (ils ++ [r]) j' r' s.
Proof.
  intros Hj Hne. unfold space_rel. rewrite indexes_snoc, decide_False by congruence. by rewrite app_nil_r.
Qed.

Lemma add_index_ok sps ils base h c r st p :
  index_row_ok r -> loaded sps sps ils base h c -> is_Some (space_of sps (number_key (ir_sid r))) ->
  2 * zlen ils + 2 <= 2 ^ 26 -> Refuse ∉ st ->
  exists h' st', tnt_schema_add_index h (tuple_bytes (index_fields r) ++ p) st = Some (0, h', p, st') /\
    loaded sps sps (ils ++ [r]) base h' c /\ Refuse ∉ st'.
Proof.
  intros Hrow Hh [j Hj] Hc Hst. destruct (index_fields_ok r Hrow) as [Hf Hl]. pose proof Hrow as (Hs & Hi & Hn & _).
  pose proof (mp_object_next _ p (tuple_object _ Hf ltac:(lia))) as Hnext.
  unfold tnt_schema_add_index. rewrite Hnext. unfold tuple_bytes. rewrite <- app_assoc.
  rewrite spec_type_array by done. cbn [mbind option_bind]. rewrite decide_False by (intros []; done).
  rewrite spec_decode_array by done. cbn [mbind option_bind].
  unfold index_fields. cbn [concat]. unfold mp_encode_str. rewrite <- !app_assoc.
  rewrite spec_decode_uint by lia. cbn [mbind option_bind].
  rewrite spec_type_uint by lia. cbn [mbind option_bind]. rewrite decide_False by (intros []; done). rewrite (u32_small (ir_sid r)) by lia.
  pose proof (holds_find sr_name sr_id base _ h sps c (number_key (ir_sid r)) Hh) as Hfind. unfold space_of in Hj. rewrite Hj in Hfind.
  destruct Hfind as (sr & s & Hsr & -> & Hrel). cbn [mbind option_bind].
  destruct (granted_block_ok IVAL_SIZE st) as (st1 & -> & Hst1); [unfold IVAL_SIZE; lia|done|]. cbn [negb].
  cbn [mbind option_bind]. rewrite spec_decode_uint by lia. cbn [mbind option_bind].
  rewrite spec_type_str by lia. cbn [mbind option_bind]. rewrite decide_False by (intros []; done).
  rewrite spec_decode_str by lia. cbn [mbind option_bind].
  destruct (granted_block_ok (length (ir_name r)) st1) as (st2 & -> & Hst2); [unfold zlen in *; lia|done|]. cbn [negb].
  destruct (granted_block_ok ASSOC_VAL_SIZE st2) as (st3 & -> & Hst3); [unfold ASSOC_VAL_SIZE; lia|done|]. cbn [negb].
  destruct (granted_block_ok ASSOC_VAL_SIZE st3) as (st4 & -> & Hst4); [unfold ASSOC_VAL_SIZE; lia|done|]. cbn [negb].
  rewrite u32_small by lia. destruct Hrel as (En & Ei & Hix).
  assert (zlen (indexes_of sps ils j) <= zlen ils) as Hlen.
  { unfold zlen, indexes_of. pose proof (length_filter (fun i => space_of sps (number_key (ir_sid i)) = Some j) ils). lia. }
  destruct (holds_add i_name i_number ir_name ir_iid 0 index_rel (s_index s) _ _ r (Ival (ir_name r) (ir_iid r)) st4 Hix ltac:(lia) Hst4)
    as (x & st5 & -> & Hx & Hst5); [done..|].
  cbn [mbind option_bind]. do 2 eexists. split; [done|]. split; [|done].
  apply (holds_update _ _ _ (space_rel sps ils) _ _ _ _ _ sr); [done|done| |intros ???; by apply space_rel_snoc].
  split; [done|]. split; [done|]. simpl. rewrite indexes_snoc. unfold space_of. rewrite decide_True by done.
  replace (2 * zlen (indexes_of sps ils j ++ [r])) with (2 * zlen (indexes_of sps ils j) + 2) by len. done.
Qed.

(** The loop over the rows, by an invariant on the rows read so far. *)
Lemma add_tuples_ok {R} add (fields : R -> list bytes) (I : list R -> htab tnt_schema_sval -> Prop) (ok : R -> Prop) rows : forall done_ h st,
  (forall d h r st p, ok r -> d ++ [r] `prefix_of` done_ ++ rows -> I d h -> Refuse ∉ st ->
     exists h' st', add h (tuple_bytes (fields r) ++ p) st = Some (0, h', p, st') /\ I (d ++ [r]) h' /\ Refuse ∉ st') ->
  Forall ok rows -> I done_ h -> Refuse ∉ st ->
  exists h' st', add_tuples add (length rows) h (concat ((fun r => tuple_bytes (fields r)) <$> rows)) st = Some (0, h', st') /\
    I (done_ ++ rows) h' /\ Refuse ∉ st'.
Proof.
  induction rows as [|r rows IH]; intros d h st Hadd Hok HI Hst; cbn [add_tuples length fmap list_fmap concat].
  { exists h, st. by rewrite app_nil_r. }
  apply Forall_cons in Hok as [Hr Hok].
  destruct (Hadd d h r st (concat ((fun r => tuple_bytes (fields r)) <$> rows)) Hr) as (h1 & st1 & -> & HI1 & Hst1);
    [exists rows; by rewrite <- app_assoc|done|done|].
  cbn [mbind option_bind]. rewrite decide_False by lia.
  destruct (IH (d ++ [r]) h1 st1) as (h2 & st2 & -> & HI2 & Hst2); [|done|done|done|].
  - by rewrite <- app_assoc.
  - exists h2, st2. split; [done|]. split; [|done]. by rewrite <- app_assoc in HI2.
Qed.

(** The data of a reply is one object. *)
Lemma rows_object {R} (fields : R -> list bytes) (ok : R -> Prop) rows :
  (forall x, ok x -> Forall mp_object (fields x) /\ 0 <= zlen (fields x) < 2 ^ 32) ->
  Forall ok rows -> zlen rows < 2 ^ 32 -> mp_object (rows_data fields rows).
Proof.
  intros Hf Hok Hl. apply tuple_object; [|unfold zlen in *; by rewrite length_fmap].
  apply Forall_fmap. eapply Forall_impl; [exact Hok|]. intros x Hx%Hf. apply tuple_object; [apply Hx|lia].
Qed.

Lemma add_reply_ok {R} add (fields : R -> list bytes) (I : list R -> htab tnt_schema_sval -> Prop) (ok : R -> Prop) rows s h r st :
  (forall x, ok x -> Forall mp_object (fields x) /\ 0 <= zlen (fields x) < 2 ^ 32) ->
  (forall d h r st p, ok r -> d ++ [r] `prefix_of` rows -> I d h -> Refuse ∉ st ->
     exists h' st', add h (tuple_bytes (fields r) ++ p) st = Some (0, h', p, st') /\ I (d ++ [r]) h' /\ Refuse ∉ st') ->
  Forall ok rows -> zlen rows < 2 ^ 32 -> space_hash s = Some h -> I [] h -> Refuse ∉ st -> rdata r = Some (rows_data fields rows) ->
  exists h' st', add_reply add s r st = Some (0, Schema (Some h') (s_alloc s), st') /\ I rows h' /\ Refuse ∉ st'.
Proof.
  intros Hf Hadd Hok Hl Hs HI Hst Hd. unfold add_reply. rewrite Hd. simpl default.
  assert (mp_check (rows_data fields rows) = Some []) as -> by (by apply (rows_object fields ok)).
  assert (zlen ((fun r => tuple_bytes (fields r)) <$> rows) = zlen rows) as Hz by (unfold zlen; by rewrite length_fmap).
  assert (rows_data fields rows = mp_encode_array (zlen rows) ++ concat ((fun r => tuple_bytes (fields r)) <$> rows)) as -> by (by rewrite <- Hz).
  rewrite spec_type_array by len. cbn [mbind option_bind]. rewrite decide_False by (intros []; done).
  rewrite spec_decode_array by len. cbn [mbind option_bind].
  case_decide as H0.
  - assert (rows = []) as -> by (destruct rows; [done|exfalso; revert H0; len]). exists h, st. destruct s. simpl in *. by subst.
  - rewrite Hs. cbn [mbind option_bind]. replace (Z.to_nat (zlen _)) with (length rows) by len.
    destruct (add_tuples_ok add fields I ok rows [] h st Hadd Hok HI Hst) as (h' & st' & -> & HI' & Hst').
    cbn [mbind option_bind]. by exists h', st'.
Qed.

(** An empty schema: new, or flushed. *)
Definition schema_empty (s : tnt_schema) (c : Z) : Prop := exists h, space_hash s = Some h /\ assoc_repr (hh h) ∅ c.

Lemma loaded_stosid sps ils base h c b name :
  loaded sps sps ils base h c -> Forall space_row_ok sps -> tnt_schema_stosid (Schema (Some h) b) name = Some (stosid_spec sps name).
Proof.
  intros Hh Hok. unfold tnt_schema_stosid, stosid_spec, space_of. simpl.
  pose proof (holds_find sr_name sr_id base _ h sps c name Hh) as Hf. destruct (last_index _ sps) as [j|]; [|by rewrite Hf].
  destruct Hf as (r & a & Hj & -> & _ & Hn & _). simpl. rewrite Hj. simpl. by rewrite Hn.
Qed.

Lemma loaded_stoiid sps ils base h c b sid name :
  loaded sps sps ils base h c -> tnt_schema_stoiid (Schema (Some h) b) sid name = Some (stoiid_spec sps ils sid name).
Proof.
  intros Hh. unfold tnt_schema_stoiid, stoiid_spec, space_of. simpl.
  pose proof (holds_find sr_name sr_id base _ h sps c (number_key sid) Hh) as Hf. destruct (last_index _ sps) as [j|]; [|by rewrite Hf].
  destruct Hf as (r & a & Hj & -> & _ & _ & Hix). simpl.
  pose proof (holds_find ir_name ir_iid 0 _ _ _ _ name Hix) as Hf. destruct (last_index _ (indexes_of sps ils j)) as [i|]; [|by rewrite Hf].
  destruct Hf as (ir & ia & Hi & -> & _ & Hn). simpl. rewrite Hi. simpl. by rewrite Hn.
Qed.

(** Loading the replies to the two selects. *)
Lemma load_spaces_ok s c sps r st :
  schema_empty s c -> Refuse ∉ st -> Forall space_row_ok sps -> c + 2 * zlen sps <= 2 ^ 26 -> rdata r = Some (rows_data space_fields sps) ->
  exists base h st', tnt_schema_add_spaces s r st = Some (0, Schema (Some h) (s_alloc s), st') /\
    loaded sps sps [] base h (c + 2 * zlen sps) /\ Refuse ∉ st'.
Proof.
  intros (h & Hs & Hr) Hst Hsp Hc Hd. assert (0 <= c) as Hc0 by (destruct Hr as [Hr _]; lia).
  destruct (add_reply_ok tnt_schema_add_space space_fields (fun d h' => loaded sps d [] (brk h) h' (c + 2 * zlen d)) space_row_ok sps s h r st)
    as (h1 & st1 & E1 & HI1 & Hst1); [exact space_fields_ok| |done|unfold zlen in *; lia|done|by apply holds_nil; [rewrite Z.add_0_r|]|done|done|].
  { intros d h' x st' p Hrow [t Ht] HI Hst'. assert (zlen d + 1 <= zlen sps) by (rewrite Ht; len).
    destruct (add_space_ok sps (brk h) h' d x (c + 2 * zlen d) st' p Hrow HI ltac:(lia) Hst') as (h2 & st2 & -> & HI2 & Hst2).
    exists h2, st2. split; [done|]. split; [|done]. by replace (c + 2 * zlen (d ++ [x])) with (c + 2 * zlen d + 2) by len. }
  by exists (brk h), h1, st1.
Qed.

Lemma load_indexes_ok s h base c sps ils r st :
  space_hash s = Some h -> loaded sps sps [] base h c -> Refuse ∉ st -> Forall index_row_ok ils ->
  Forall (fun i => is_Some (space_of sps (number_key (ir_sid i)))) ils -> 2 * zlen ils <= 2 ^ 26 -> rdata r = Some (rows_data index_fields ils) ->
  exists h' st', tnt_schema_add_indexes s r st = Some (0, Schema (Some h') (s_alloc s), st') /\
    loaded sps sps ils base h' c /\ Refuse ∉ st'.
Proof.
  intros Hs Hh Hst Hil Hres Hc Hd.
  destruct (add_reply_ok tnt_schema_add_index index_fields (fun d h' => loaded sps sps d base h' c)
    (fun r => index_row_ok r /\ is_Some (space_of sps (number_key (ir_sid r)))) ils s h r st)
    as (h2 & st2 & E2 & HI2 & Hst2); [by intros x [? _]; apply index_fields_ok| | |unfold zlen in *; lia|done|done|done|done|].
  { intros d h' x st' p [Hrow Hsome] [t Ht] HI Hst'. assert (zlen d + 1 <= zlen ils) by (rewrite Ht; len).
    apply add_index_ok; [done..|lia|done]. }
  { apply Forall_and. done. }
  by exists h2, st2.
Qed.

(** Indexes of spaces that the schema does not know are not loaded. *)
Lemma load_indexes_unknown s c ils r st :
  schema_empty s c -> Refuse ∉ st -> Forall index_row_ok ils -> 2 * zlen ils <= 2 ^ 26 -> rdata r = Some (rows_data index_fields ils) ->
  exists rc, tnt_schema_add_indexes s r st = Some (rc, s, st).
Proof.
  intros (h & Hs & Hr) Hst Hil Hc Hd. unfold tnt_schema_add_indexes, add_reply. rewrite Hd. simpl default.
  assert (mp_check (rows_data index_fields ils) = Some []) as -> by (apply (rows_object index_fields index_row_ok); [apply index_fields_ok|done|lia]).
  assert (zlen ((fun r => tuple_bytes (index_fields r)) <$> ils) = zlen ils) as Hz by (unfold zlen; by rewrite length_fmap).
  assert (rows_data index_fields ils = mp_encode_array (zlen ils) ++ concat ((fun r => tuple_bytes (index_fields r)) <$> ils)) as -> by (by rewrite <- Hz).
  assert (0 <= zlen ils) by len.
  rewrite spec_type_array by lia. cbn [mbind option_bind]. rewrite decide_False by (intros []; done).
  rewrite spec_decode_array by lia. cbn [mbind option_bind]. case_decide as H0; [by exists 0|].
  rewrite Hs. cbn [mbind option_bind]. destruct ils as [|i ils]; [done|]. apply Forall_cons in Hil as [Hi _].
  replace (Z.to_nat (zlen (i :: ils))) with (S (length ils)) by len. cbn [fmap list_fmap concat add_tuples].
  destruct (index_fields_ok i Hi) as [_ Hl]. pose proof Hi as (Hsid & Hiid & _).
  unfold tnt_schema_add_index. change (tuple_bytes (index_fields i)) with (mp_encode_array (zlen (index_fields i)) ++ concat (index_fields i)). rewrite <- app_assoc.
  rewrite spec_type_array by done. cbn [mbind option_bind]. rewrite (decide_False (P := MP_ARRAY <> _)) by (intros []; done).
  rewrite spec_decode_array by done. cbn [mbind option_bind].
  change (concat (index_fields i)) with (mp_encode_uint (ir_sid i) ++ mp_encode_uint (ir_iid i) ++ concat (mp_encode_str (ir_name i) :: ir_rest i)).
  rewrite <- !app_assoc. rewrite spec_decode_uint by lia. cbn [mbind option_bind].
  rewrite spec_type_uint by lia. cbn [mbind option_bind]. rewrite decide_False by (intros []; done).
  rewrite (find_obj_repr h ∅ c _ Hr), lookup_empty. cbn [mbind option_bind]. rewrite decide_True by lia.
  exists (-1). destruct s. simpl in *. by subst.
Qed.

(** C23: the replies to the selects of the system spaces, loaded into an empty
    schema, make it the map of those spaces and indexes: a name leads to the
    number of the last space of that name, a number and a name to the last
    index of that name in that space, anything else to -1.  (Names and
    numbers share one map, in which a number is its four bytes.)  No
    allocation may be refused, and there are at most 2^25 rows. *)
Theorem schema_load s c sps ils r1 r2 st :
  schema_empty s c -> Refuse ∉ st ->
  Forall space_row_ok sps -> Forall index_row_ok ils ->
  Forall (fun i => is_Some (space_of sps (number_key (ir_sid i)))) ils ->
  c + 2 * zlen sps <= 2 ^ 26 -> 2 * zlen ils <= 2 ^ 26 ->
  rdata r1 = Some (rows_data space_fields sps) -> rdata r2 = Some (rows_data index_fields ils) ->
  exists s1 st1 s2 st2,
    tnt_schema_add_spaces s r1 st = Some (0, s1, st1) /\ tnt_schema_add_indexes s1 r2 st1 = Some (0, s2, st2) /\
    (forall name, tnt_schema_stosid s2 name = Some (stosid_spec sps name)) /\
    (forall sid name, tnt_schema_stoiid s2 sid name = Some (stoiid_spec sps ils sid name)).
Proof.
  intros Hs Hst Hsp Hil Hres Hc1 Hc2 Hd1 Hd2.
  destruct (load_spaces_ok s c sps r1 st Hs Hst Hsp Hc1 Hd1) as (base & h1 & st1 & E1 & HI1 & Hst1).
  destruct (load_indexes_ok (Schema (Some h1) (s_alloc s)) h1 base _ sps ils r2 st1 eq_refl HI1 Hst1 Hil Hres Hc2 Hd2) as (h2 & st2 & E2 & HI2 & _).
  do 4 eexists. split; [exact E1|]. split; [exact E2|]. split; intros; [by eapply loaded_stosid|by eapply loaded_stoiid].
Qed.

(** ** The invariant *)

(** The indexes of a space; [n] rows have been read. *)
Definition sval_ok (n : Z) (s : tnt_schema_sval) : Prop :=
  exists M c, htab_ok i_name i_number (fun _ => True) (s_index s) M c /\ c <= 2 * n.

Definition spaces_ok (n : Z) (h : htab tnt_schema_sval) : Prop :=
  exists M c, htab_ok s_name s_number (sval_ok n) h M c /\ c <= 2 * n.

(** Every entry of the two levels leads to a live object of its key. *)
Definition schema_ok (n : Z) (s : tnt_schema) : Prop := exists h, space_hash s = Some h /\ spaces_ok n h.

Lemma sval_ok_mono n n' s : n <= n' -> sval_ok n s -> sval_ok n' s.
Proof. intros Hn (M & c & H & Hc). exists M, c. split; [done|lia]. Qed.

Lemma htab_ok_weaken {A} name number (P Q : A -> Prop) h M c :
  (forall a, P a -> Q a) -> htab_ok name number P h M c -> htab_ok name number Q h M c.
Proof. intros HPQ [? ? Ho]. split; [done|done|]. intros p a [? ?]%Ho. auto. Qed.

Lemma sval_free_ok n s : sval_ok n s -> tnt_schema_sval_free s = Some tt.
Proof.
  intros (M & c & H & _). unfold tnt_schema_sval_free, tnt_schema_index_free.
  destruct (htab_free_ok i_name i_number tnt_schema_ival_free (fun _ => True) (fun _ _ => eq_refl) _ _ _ H) as (h' & M' & -> & _). done.
Qed.

Lemma htab_new_some {A} (P : A -> Prop) name number st h st' : htab_new st = (Some h, st') -> htab_ok name number P h ∅ 0.
Proof.
  unfold htab_new. pose proof (assoc_new_ok (V := nat) st) as Hn. destruct (mh_assoc_new st) as [[m|] st1]; [|done].
  intros [= <- <-]. split; simpl; [done|intros k v; by rewrite lookup_empty|intros p a; by rewrite lookup_empty].
Qed.

(** One branch of the readers of a row: a failed step leaves the hash. *)
Ltac branch :=
  match goal with
  | H : context [if decide ?P then _ else _] |- _ => destruct (decide P)
  | H : context [granted_block ?n ?st] |- _ => destruct (granted_block n st) as [[|] ?]; cbn [negb] in H
  | H : (let '(_, _) := ?x in _) = Some _ |- _ => destruct x eqn:?
  | H : (match ?x with _ => _ end) = Some _ |- _ => destruct x eqn:?
  end; inv_opt.

Lemma add_space_inv n h data st rc h' data' st' :
  tnt_schema_add_space h data st = Some (rc, h', data', st') -> spaces_ok n h -> 0 <= n < 2 ^ 25 -> spaces_ok (n + 1) h'.
Proof.
  intros E (M & c & Hok & Hc) Hn. pose proof (htab_ok_weaken _ _ _ (sval_ok (n + 1)) _ _ _ (fun a => sval_ok_mono n (n + 1) a ltac:(lia)) Hok) as Hok'.
  assert (spaces_ok (n + 1) h) as Hsame by (exists M, c; split; [done|lia]).
  unfold tnt_schema_add_space in E. inv_opt. repeat (branch; try done).
  match goal with H : add_obj _ _ _ (Sval ?nm ?i ?ix) ?s = Some (?h2, _), Hi : htab_new _ = (Some ?ix, _) |- _ =>
    destruct (add_obj_ok s_name s_number tnt_schema_sval_free (sval_ok (n + 1)) h M c (Sval nm i ix) s Hok') as (h3 & s3 & M3 & c3 & E3 & Hok3 & Hc3);
      [lia|exists ∅, 0; split; [by eapply htab_new_some|lia]|rewrite E3 in H; injection H as <- <-] end.
  exists M3, c3. split; [done|lia].
Qed.

Lemma update_sval n h M c p a a' :
  htab_ok s_name s_number (sval_ok n) h M c -> objs h !! p = Some a -> s_name a' = s_name a -> s_number a' = s_number a -> sval_ok n a' ->
  htab_ok s_name s_number (sval_ok n) (Htab (hh h) (<[p := a']> (objs h)) (brk h)) M c.
Proof.
  intros [Hr Hl Ho] Hp En Ei Ha. split; simpl; [done|..].
  - intros k v Hk. destruct (Hl k v Hk) as (b & Hb & Hkb). destruct (decide (av_data v = p)) as [Hv|Hv].
    + exists a'. rewrite Hv, lookup_insert_eq. split; [done|]. unfold has_key in *. rewrite Hv, Hp in Hb. injection Hb as <-. by rewrite En, Ei.
    + exists b. by rewrite lookup_insert_ne by done.
  - intros q b. rewrite lookup_insert_Some. intros [[<- <-]|[_ Hb]]; [|by apply Ho]. split; [done|]. by apply Ho in Hp as [_ ?].
Qed.

Lemma add_index_inv n h data st rc h' data' st' :
  tnt_schema_add_index h data st = Some (rc, h', data', st') -> spaces_ok n h -> 0 <= n < 2 ^ 25 -> spaces_ok (n + 1) h'.
Proof.
  intros E (M & c & Hok & Hc) Hn. pose proof (htab_ok_weaken _ _ _ (sval_ok (n + 1)) _ _ _ (fun a => sval_ok_mono n (n + 1) a ltac:(lia)) Hok) as Hok'.
  assert (spaces_ok (n + 1) h) as Hsame by (exists M, c; split; [done|lia]).
  unfold tnt_schema_add_index in E. inv_opt. repeat (branch; try done).
  match goal with H : find_obj h ?k = Some (Some (?p, ?a)) |- _ =>
    destruct (find_obj_ok s_name s_number (sval_ok n) h M c k Hok) as [Hf|(p' & a' & Hf & Hp & Ha)]; rewrite Hf in H; [done|injection H as -> ->] end.
  destruct Ha as (Mi & ci & Hi & Hci).
  match goal with H : add_obj _ _ (s_index ?a) ?i ?s = Some (?h2, _) |- _ =>
    destruct (add_obj_ok i_name i_number tnt_schema_ival_free (fun _ => True) (s_index a) Mi ci i s Hi ltac:(lia) I) as (h3 & s3 & M3 & c3 & E3 & Hok3 & Hc3);
      rewrite E3 in H; injection H as <- <- end.
  exists M, c. split; [|lia]. eapply update_sval; [done|done|done|done|]. exists M3, c3. split; [done|lia].
Qed.

Lemma add_tuples_inv add (I : Z -> htab tnt_schema_sval -> Prop) k : forall n h p st rc h' st',
  (forall n h data st rc h' data' st', add h data st = Some (rc, h', data', st') -> I n h -> 0 <= n < 2 ^ 25 -> I (n + 1) h') ->
  (forall n h, I n h -> I (n + 1) h) ->
  add_tuples add k h p st = Some (rc, h', st') -> I n h -> 0 <= n -> n + Z.of_nat k <= 2 ^ 25 -> I (n + Z.of_nat k) h'.
Proof.
  induction k as [|k IH]; intros n h p st rc h' st' Hadd Hm E HI Hn Hk; cbn [add_tuples] in E.
  { injection E as _ <- _. by rewrite Z.add_0_r. }
  apply bind_Some in E as ([[[rc1 h1] p1] st1] & E1 & E). pose proof (Hadd _ _ _ _ _ _ _ _ E1 HI ltac:(lia)) as H1.
  replace (n + Z.of_nat (S k)) with (n + 1 + Z.of_nat k) by lia. case_decide.
  - injection E as _ <- _. clear - H1 Hm. induction k as [|k IH]; [by rewrite Z.add_0_r|].
    replace (n + 1 + Z.of_nat (S k)) with (n + 1 + Z.of_nat k + 1) by lia. by apply Hm.
  - eapply IH; [done|done|exact E|done|lia|lia].
Qed.

Lemma spaces_ok_mono n n' h : n <= n' -> spaces_ok n h -> spaces_ok n' h.
Proof.
  intros Hn (M & c & H & Hc). exists M, c. split; [|lia]. eapply htab_ok_weaken; [|done]. intros a. by apply sval_ok_mono.
Qed.

Lemma schema_ok_mono n n' s : n <= n' -> schema_ok n s -> schema_ok n' s.
Proof. intros Hn (h & E & H). exists h. split; [done|]. by eapply spaces_ok_mono. Qed.

Lemma add_reply_inv add n s r st rc s' st' cnt p :
  (forall n h data st rc h' data' st', add h data st = Some (rc, h', data', st') -> spaces_ok n h -> 0 <= n < 2 ^ 25 -> spaces_ok (n + 1) h') ->
  add_reply add s r st = Some (rc, s', st') -> schema_ok n s ->
  mp_decode_array (default [] (rdata r)) = Some (cnt, p) -> 0 <= n -> 0 <= cnt -> n + cnt <= 2 ^ 25 -> schema_ok (n + cnt) s'.
Proof.
  intros Hadd E Hs Hd Hn Hcnt Hle. pose proof Hs as (h & Eh & Hh). unfold add_reply in E. rewrite Hd in E.
  destruct (mp_check _); [|inv_opt; apply (schema_ok_mono n); [lia|done]]. inv_opt. case_decide; [inv_opt; apply (schema_ok_mono n); [lia|done]|].
  inv_opt. cbn [mbind option_bind] in *. case_decide; [inv_opt; apply (schema_ok_mono n); [lia|done]|]. inv_opt.
  destruct x0 as [[rc1 h1] st1]. inv_opt. rewrite Eh in H1. injection H1 as <-. eexists. split; [done|].
  replace (n + cnt) with (n + Z.of_nat (Z.to_nat cnt)) by lia.
  eapply (add_tuples_inv add spaces_ok); [done|intros; apply (spaces_ok_mono n0); [lia|done]|done|done|lia|lia].
Qed.

(** ** Replies that are read without undefined behaviour

    The readers of a row check the types of the fields, not their number: a row
    that is an array must have three fields, and for an index the first must be
    an unsigned integer; the types of the others are free. *)
Definition space_shape (o : bytes) : Prop :=
  mp_object o /\ (mp_typeof_at o <> Some MP_ARRAY \/
    exists f1 f2 f3 fs, o = tuple_bytes (f1 :: f2 :: f3 :: fs) /\ Forall mp_object (f1 :: f2 :: f3 :: fs) /\ zlen fs < 2 ^ 31).

Definition index_shape (o : bytes) : Prop :=
  mp_object o /\ (mp_typeof_at o <> Some MP_ARRAY \/
    exists f1 f2 f3 fs, o = tuple_bytes (f1 :: f2 :: f3 :: fs) /\ Forall mp_object (f1 :: f2 :: f3 :: fs) /\ zlen fs < 2 ^ 31 /\
      mp_typeof_at f1 = Some MP_UINT).

(** One call on a row: it returns, and after 0 it stands behind the row. *)
Definition row_read (add : htab tnt_schema_sval -> bytes -> malloc_state -> option (Z * htab tnt_schema_sval * bytes * malloc_state))
    (shape : bytes -> Prop) : Prop :=
  forall n h o rest st, shape o -> spaces_ok n h -> 0 <= n < 2 ^ 25 ->
    exists rc h' data' st', add h (o ++ rest) st = Some (rc, h', data', st') /\ (rc = 0 -> data' = rest).

Lemma object_type o rest : mp_object o -> exists t, mp_typeof_at o = Some t /\ mp_typeof_at (o ++ rest) = Some t.
Proof.
  intros Ho. assert (mp_check (o ++ []) = Some []) as Hc by (by apply mp_object_check). rewrite app_nil_r in Hc.
  destruct (check_typeof _ _ Hc) as [t Ht]. exists t. split; [done|by apply typeof_app].
Qed.

(** One step of a reader in the goal. *)
Ltac read_branch := first
  [ case_decide; try (do 4 eexists; by split)
  | match goal with |- context [granted_block ?n ?st] =>
      destruct (granted_block n st) as [[|] ?]; cbn [negb mbind option_bind]; try (do 4 eexists; by split) end ].

Lemma add_space_total : row_read tnt_schema_add_space space_shape.
Proof.
  intros n h o rest st [Ho Hsh] (M & c & Hok & Hc) Hn. unfold tnt_schema_add_space.
  rewrite (mp_object_next o rest Ho). cbn [mbind option_bind].
  destruct (object_type o rest Ho) as (t & Ht & ->). cbn [mbind option_bind]. case_decide as Ha; [do 4 eexists; by split|].
  destruct Hsh as [Hsh|(f1 & f2 & f3 & fs & -> & Hfs & Hl)]; [rewrite Ht in Hsh; by destruct Hsh; f_equal|].
  apply Forall_cons in Hfs as [H1 Hfs]. apply Forall_cons in Hfs as [H2 Hfs]. apply Forall_cons in Hfs as [H3 _].
  unfold tuple_bytes. rewrite <- app_assoc, spec_decode_array by len. cbn [mbind option_bind concat]. rewrite <- !app_assoc.
  read_branch. destruct (object_type f1 (f2 ++ f3 ++ concat fs ++ rest) H1) as (t1 & _ & E1). rewrite E1. cbn [mbind option_bind].
  read_branch. assert (t1 = MP_UINT) as -> by done.
  destruct (spec_checked_uint _ _ (mp_object_check f1 (f2 ++ f3 ++ concat fs ++ rest) H1) E1) as (k & -> & _). cbn [mbind option_bind].
  rewrite (mp_object_next f2 _ H2). cbn [mbind option_bind].
  destruct (object_type f3 (concat fs ++ rest) H3) as (t3 & _ & E3). rewrite E3. cbn [mbind option_bind].
  read_branch. assert (t3 = MP_STR) as -> by done.
  destruct (spec_checked_str _ _ (mp_object_check f3 (concat fs ++ rest) H3) E3) as (hd & nm & -> & _). cbn [mbind option_bind].
  read_branch. destruct (htab_new _) as [[ix|] ?] eqn:Ei; [|do 4 eexists; by split]. do 2 read_branch.
  match goal with |- context [add_obj s_name s_number h ?x ?s] =>
    destruct (add_obj_ok s_name s_number tnt_schema_sval_free (fun _ => True) h M c x s) as (h' & st' & _ & _ & -> & _);
      [by eapply htab_ok_weaken|lia|done|] end.
  cbn [mbind option_bind]. do 4 eexists. by split.
Qed.

Lemma add_index_total : row_read tnt_schema_add_index index_shape.
Proof.
  intros n h o rest st [Ho Hsh] (M & c & Hok & Hc) Hn. unfold tnt_schema_add_index.
  rewrite (mp_object_next o rest Ho). cbn [mbind option_bind].
  destruct (object_type o rest Ho) as (t & Ht & ->). cbn [mbind option_bind]. case_decide as Ha; [do 4 eexists; by split|].
  destruct Hsh as [Hsh|(f1 & f2 & f3 & fs & -> & Hfs & Hl & E1)]; [rewrite Ht in Hsh; by destruct Hsh; f_equal|].
  apply Forall_cons in Hfs as [H1 Hfs]. apply Forall_cons in Hfs as [H2 Hfs]. apply Forall_cons in Hfs as [H3 _].
  unfold tuple_bytes. rewrite <- app_assoc, spec_decode_array by len. cbn [mbind option_bind concat]. rewrite <- !app_assoc.
  destruct (spec_checked_uint _ _ (mp_object_check f1 (f2 ++ f3 ++ concat fs ++ rest) H1)) as (k & -> & _); [by apply typeof_app|]. cbn [mbind option_bind].
  destruct (object_type f2 (f3 ++ concat fs ++ rest) H2) as (t2 & _ & E2). rewrite E2. cbn [mbind option_bind].
  read_branch. assert (t2 = MP_UINT) as -> by done.
  destruct (find_obj_ok s_name s_number (sval_ok n) h M c (number_key (u32 k)) Hok) as [->|(p & a & -> & _ & Mi & ci & Hi & Hci)];
    cbn [mbind option_bind]; [do 4 eexists; by split|]. read_branch.
  destruct (spec_checked_uint _ _ (mp_object_check f2 (f3 ++ concat fs ++ rest) H2) E2) as (i & -> & _). cbn [mbind option_bind].
  destruct (object_type f3 (concat fs ++ rest) H3) as (t3 & _ & E3). rewrite E3. cbn [mbind option_bind].
  read_branch. assert (t3 = MP_STR) as -> by done.
  destruct (spec_checked_str _ _ (mp_object_check f3 (concat fs ++ rest) H3) E3) as (hd & nm & -> & _). cbn [mbind option_bind].
  do 3 read_branch.
  match goal with |- context [add_obj i_name i_number (s_index a) ?x ?s] =>
    destruct (add_obj_ok i_name i_number tnt_schema_ival_free (fun _ => True) (s_index a) Mi ci x s Hi ltac:(lia) I) as (h' & st' & _ & _ & -> & _) end.
  cbn [mbind option_bind]. do 4 eexists. by split.
Qed.

Lemma add_tuples_total add shape os : forall n h rest st,
  row_read add shape ->
  (forall n h data st rc h' data' st', add h data st = Some (rc, h', data', st') -> spaces_ok n h -> 0 <= n < 2 ^ 25 -> spaces_ok (n + 1) h') ->
  Forall shape os -> spaces_ok n h -> 0 <= n -> n + zlen os <= 2 ^ 25 ->
  exists rc h' st', add_tuples add (length os) h (concat os ++ rest) st = Some (rc, h', st').
Proof.
  induction os as [|o os IH]; intros n h rest st Hadd Hinv Hos Hh Hn Hle; cbn [add_tuples length concat]; [by do 3 eexists|].
  apply Forall_cons in Hos as [Ho Hos]. rewrite <- app_assoc. assert (0 <= zlen os /\ zlen (o :: os) = zlen os + 1) as [H0 Ez] by len.
  destruct (Hadd n h o (concat os ++ rest) st Ho Hh ltac:(lia)) as (rc & h1 & d & st1 & E & Hd). rewrite E. cbn [mbind option_bind].
  destruct (decide (rc = 0)) as [->|Hrc]; [|rewrite decide_True by done; by do 3 eexists].
  rewrite decide_False by (intros H; by apply H). rewrite (Hd eq_refl). apply (IH (n + 1) h1 rest st1 Hadd Hinv Hos); [eapply Hinv; [exact E|done|lia]|lia|lia].
Qed.

Lemma add_reply_total add shape n s r st os :
  row_read add shape ->
  (forall n h data st rc h' data' st', add h data st = Some (rc, h', data', st') -> spaces_ok n h -> 0 <= n < 2 ^ 25 -> spaces_ok (n + 1) h') ->
  (forall o, shape o -> mp_object o) ->
  schema_ok n s -> 0 <= n -> n + zlen os <= 2 ^ 25 -> Forall shape os -> rdata r = Some (tuple_bytes os) ->
  exists rc s' st', add_reply add s r st = Some (rc, s', st').
Proof.
  intros Hadd Hinv Hobj (h & Eh & Hh) Hn Hle Hos Hd. unfold add_reply. rewrite Hd. simpl default.
  assert (mp_check (tuple_bytes os) = Some []) as ->.
  { apply tuple_object; [|lia]. eapply Forall_impl; [exact Hos|]. done. }
  unfold tuple_bytes. rewrite spec_type_array by len. cbn [mbind option_bind]. rewrite decide_False by (intros []; done).
  rewrite spec_decode_array by len. cbn [mbind option_bind]. case_decide; [by do 3 eexists|]. rewrite Eh. cbn [mbind option_bind].
  destruct (add_tuples_total add shape os n h [] st Hadd Hinv Hos Hh Hn Hle) as (rc & h' & st' & E).
  rewrite app_nil_r in E. replace (Z.to_nat (zlen os)) with (length os) by len. rewrite E. cbn [mbind option_bind]. by do 3 eexists.
Qed.

(** Data that are not one array, or none, are reported. *)
Lemma add_reply_malformed add s r st :
  (forall rest, mp_check (default [] (rdata r)) = Some rest -> mp_typeof_at (default [] (rdata r)) <> Some MP_ARRAY) ->
  add_reply add s r st = Some (-1, s, st).
Proof.
  intros H. unfold add_reply. destruct (mp_check _) as [rest|] eqn:Ec; [|done]. destruct (check_typeof _ _ Ec) as [t Et].
  specialize (H rest eq_refl). rewrite Et in *. cbn [mbind option_bind]. rewrite decide_True; [done|congruence].
Qed.

(** No resize of the hash of spaces is in progress. *)
Definition schema_settled (s : tnt_schema) : Prop :=
  match space_hash s with Some h => resize_position (main (hh h)) = 0 | None => False end.

Lemma schema_flush_ok n s : schema_ok n s -> exists s', tnt_schema_flush s = Some s' /\ schema_ok n s'.
Proof.
  intros (h & Eh & M & c & H & Hc). unfold tnt_schema_flush. rewrite Eh. cbn [mbind option_bind].
  destruct (htab_free_ok s_name s_number tnt_schema_sval_free (sval_ok n) (sval_free_ok n) _ _ _ H) as (h' & M' & Ef & H').
  unfold tnt_schema_space_free. rewrite Ef. cbn [mbind option_bind]. eexists. split; [done|]. exists h'. split; [done|]. by exists M', c.
Qed.

Lemma flush_settled n s : schema_ok n s -> schema_settled s ->
  exists s' c, tnt_schema_flush s = Some s' /\ c <= 2 * n /\ schema_empty s' c.
Proof.
  intros (h & Eh & M & c & H & Hc) Hs. unfold schema_settled in Hs. rewrite Eh in Hs. unfold tnt_schema_flush. rewrite Eh. cbn [mbind option_bind].
  destruct (htab_free_settled s_name s_number tnt_schema_sval_free (sval_ok n) (sval_free_ok n) _ _ _ H) as (h' & Ef & H' & _);
    [by apply assoc_repr_settled; [apply H|]|].
  unfold tnt_schema_space_free. rewrite Ef. cbn [mbind option_bind]. do 2 eexists. split; [done|]. split; [done|].
  exists h'. split; [done|]. apply H'.
Qed.

Lemma new_schema_ok given st s st' : tnt_schema_new given st = (Some s, st') -> space_hash s <> None -> schema_ok 0 s.
Proof.
  unfold tnt_schema_new. destruct (if given then _ else _) as [[|] st1]; cbn [negb]; [|done].
  destruct (htab_new st1) as [[h|] st2] eqn:Eh; intros [= <- <-] Hh; [|done].
  exists h. split; [done|]. exists ∅, 0. split; [by eapply htab_new_some|lia].
Qed.

(** Lookups and the destructor. *)
Lemma stosid_defined n s name : schema_ok n s -> exists id, tnt_schema_stosid s name = Some id.
Proof.
  intros (h & Eh & M & c & H & _). unfold tnt_schema_stosid. rewrite Eh. cbn [mbind option_bind].
  destruct (find_obj_ok s_name s_number _ h M c name H) as [->|(p & a & -> & _)]; cbn [mbind option_bind]; by eexists.
Qed.

Lemma stoiid_defined n s sid name : schema_ok n s -> exists id, tnt_schema_stoiid s sid name = Some id.
Proof.
  intros (h & Eh & M & c & H & _). unfold tnt_schema_stoiid. rewrite Eh. cbn [mbind option_bind].
  destruct (find_obj_ok s_name s_number _ h M c (number_key sid) H) as [->|(p & a & -> & _ & Mi & ci & Hi & _)]; cbn [mbind option_bind]; [by eexists|].
  destruct (find_obj_ok i_name i_number _ _ _ _ name Hi) as [->|(q & b & -> & _)]; cbn [mbind option_bind]; by eexists.
Qed.

Lemma schema_free_ok n s : schema_ok n s -> tnt_schema_free (Some s) = Some tt.
Proof.
  intros Hs. destruct (schema_flush_ok n s Hs) as (s' & Ef & _). destruct Hs as (h & Eh & _).
  unfold tnt_schema_free. unfold tnt_schema_flush in Ef. rewrite Eh in *. cbn [mbind option_bind] in *.
  by destruct (tnt_schema_space_free h).
Qed.

(** C24: the invariant of the schema cache: in both hashes every entry leads
    to a live object and is its name or its number.  A new schema has it.
    Reading a reply keeps it whenever the call returns, whichever allocations
    are refused; and the call does return when the data of the reply are not
    one msgpack array (-1, the schema as it was), or when they are an array
    whose rows that are arrays have at least three fields, of any type, the
    first an unsigned integer in a row of indexes.  (Shorter rows, and rows of
    indexes that start otherwise, can be undefined behaviour of the code.)
    Lookups are then safe, and flushing and freeing are safe, end, and keep
    it. *)
Theorem schema_invariant :
  (forall given st s st', tnt_schema_new given st = (Some s, st') -> space_hash s <> None -> schema_ok 0 s) /\
  forall n s, schema_ok n s -> 0 <= n ->
    (forall r st rc s' st' cnt p, mp_decode_array (default [] (rdata r)) = Some (cnt, p) -> 0 <= cnt -> n + cnt <= 2 ^ 25 ->
       tnt_schema_add_spaces s r st = Some (rc, s', st') \/ tnt_schema_add_indexes s r st = Some (rc, s', st') ->
       schema_ok (n + cnt) s') /\
    (forall r st, (forall rest, mp_check (default [] (rdata r)) = Some rest -> mp_typeof_at (default [] (rdata r)) <> Some MP_ARRAY) ->
       tnt_schema_add_spaces s r st = Some (-1, s, st) /\ tnt_schema_add_indexes s r st = Some (-1, s, st)) /\
    (forall r st os, rdata r = Some (tuple_bytes os) -> n + zlen os <= 2 ^ 25 ->
       (Forall space_shape os -> exists rc s' st', tnt_schema_add_spaces s r st = Some (rc, s', st')) /\
       (Forall index_shape os -> exists rc s' st', tnt_schema_add_indexes s r st = Some (rc, s', st'))) /\
    (forall name, exists id, tnt_schema_stosid s name = Some id) /\
    (forall sid name, exists id, tnt_schema_stoiid s sid name = Some id) /\
    (exists s', tnt_schema_flush s = Some s' /\ schema_ok n s') /\
    tnt_schema_free (Some s) = Some tt.
Proof.
  split; [exact new_schema_ok|].
  intros n s Hs Hn. split; [|split; [|split; [|split; [|split; [|split]]]]].
  - intros r st rc s' st' cnt p Hd Hcnt Hle [E|E];
      [by apply (add_reply_inv _ n s r st rc s' st' cnt p add_space_inv)|by apply (add_reply_inv _ n s r st rc s' st' cnt p add_index_inv)].
  - intros r st H. split; by apply add_reply_malformed.
  - intros r st os Hd Hle. split; intros Hos.
    + by apply (add_reply_total _ space_shape n s r st os add_space_total add_space_inv (fun o H => proj1 H)).
    + by apply (add_reply_total _ index_shape n s r st os add_index_total add_index_inv (fun o H => proj1 H)).
  - intros name. by apply (stosid_defined n s name).
  - intros sid name. by apply (stoiid_defined n s sid name).
  - by apply schema_flush_ok.
  - by apply (schema_free_ok n s).
Qed.

(** A flush empties the schema when no resize of its hash is in progress:
    no name is found any more, and the schema can be loaded again. *)
Theorem flush_empties n s :
  schema_ok n s -> schema_settled s ->
  exists s' c, tnt_schema_flush s = Some s' /\ c <= 2 * n /\ schema_empty s' c /\ forall name, tnt_schema_stosid s' name = Some (-1).
Proof.
  intros Hok Hs. destruct (flush_settled n s Hok Hs) as (s' & c & Ef & Hc & h & Eh & Hr). exists s', c. split; [done|]. split; [done|].
  split; [by exists h|]. intros name. unfold tnt_schema_stosid. rewrite Eh. cbn [mbind option_bind].
  by rewrite (find_obj_repr h ∅ c name Hr), lookup_empty.
Qed.

End load.

(** ** Witnesses *)

Definition demo_spaces : list space_row :=
  [ SpaceRow 281 [1] [95; 118] [mp_encode_str [109]; mp_encode_uint 0]; SpaceRow 512 [1] [116; 49] []; SpaceRow 513 [1] [116; 50] [] ].
Definition demo_indexes : list index_row :=
  [ IndexRow 512 0 [112; 107] [mp_encode_str [116]]; IndexRow 512 1 [105; 120] []; IndexRow 513 0 [112; 107] [] ].
Definition demo_reply (data : bytes) : reply := Reply false 0 PNull 0 0 0 0 None (Some data) None None.
Definition demo_schema : tnt_schema := Schema (Some (Htab (Mh new_tab zero_tab) ∅ 0)) false.

Lemma demo_spaces_ok : Forall space_row_ok demo_spaces.
Proof. repeat constructor; try done. Qed.

Lemma demo_indexes_ok : Forall index_row_ok demo_indexes.
Proof. repeat constructor; try done. Qed.

Lemma demo_resolved : Forall (fun i => is_Some (space_of demo_spaces (number_key (ir_sid i)))) demo_indexes.
Proof. repeat constructor; by eexists. Qed.

Lemma demo_empty : schema_empty demo_schema 0.
Proof. eexists. split; [reflexivity|]. apply (new_repr mh_hash_key av_key). Qed.

Lemma schema_load_witness :
  exists s1 st1 s2 st2,
    tnt_schema_add_spaces demo_schema (demo_reply (rows_data space_fields demo_spaces)) [] = Some (0, s1, st1) /\
    tnt_schema_add_indexes s1 (demo_reply (rows_data index_fields demo_indexes)) st1 = Some (0, s2, st2) /\
    (forall name, tnt_schema_stosid s2 name = Some (stosid_spec demo_spaces name)) /\
    (forall sid name, tnt_schema_stoiid s2 sid name = Some (stoiid_spec demo_spaces demo_indexes sid name)).
Proof.
  apply (schema_load demo_schema 0 demo_spaces demo_indexes).
  - exact demo_empty.
  - intros H. inversion H.
  - exact demo_spaces_ok.
  - exact demo_indexes_ok.
  - exact demo_resolved.
  - discriminate.
  - discriminate.
  - reflexivity.
  - reflexivity.
Defined.

Example schema_lookup_example :
  stosid_spec demo_spaces [116; 50] = 513 /\ stoiid_spec demo_spaces demo_indexes 512 [105; 120] = 1 /\
  stoiid_spec demo_spaces demo_indexes 513 [105; 120] = -1.
Proof. vm_compute. done. Qed.

Lemma demo_new : schema_ok 0 demo_schema.
Proof. eexists. split; [reflexivity|]. exists ∅, 0. split; [by apply (htab_new_some _ _ _ [] _ [])|done]. Qed.

(** A row that is not an array, one with a number for a name: read, and
    reported; the schema keeps its invariant. *)
Definition odd_rows : list bytes := [tuple_bytes (MP := RefPuck) [[7]; [1]; [0xa1; 97]]; tuple_bytes (MP := RefPuck) [[8]; [1]; [9]]; [5]].

Lemma odd_rows_shape : Forall (space_shape (MP := RefPuck)) odd_rows.
Proof.
  repeat apply Forall_cons_2; [| | |apply Forall_nil_2].
  - split; [by vm_compute|right]. do 4 eexists. split; [reflexivity|]. split; [|by vm_compute]. repeat constructor; by vm_compute.
  - split; [by vm_compute|right]. do 4 eexists. split; [reflexivity|]. split; [|by vm_compute]. repeat constructor; by vm_compute.
  - split; [by vm_compute|left]. by vm_compute.
Qed.

Lemma schema_invariant_witness :
  schema_ok 0 demo_schema /\ (exists s', tnt_schema_flush demo_schema = Some s' /\ schema_ok 0 s') /\
  exists rc s' st', tnt_schema_add_spaces (MP := RefPuck) demo_schema (demo_reply (tuple_bytes (MP := RefPuck) odd_rows)) [Grant []; Refuse] = Some (rc, s', st').
Proof.
  assert (schema_ok 0 demo_schema) as H by (apply (proj1 (schema_invariant (MP := RefPuck)) true [] demo_schema []); [reflexivity|discriminate]).
  destruct (proj2 (schema_invariant (MP := RefPuck)) 0 demo_schema H ltac:(discriminate)) as (_ & _ & Hr & _ & _ & Hf & _).
  split; [exact H|]. split; [exact Hf|]. apply (Hr _ _ odd_rows); [reflexivity|by vm_compute|exact odd_rows_shape].
Defined.

(** [rows] loaded into a new schema. *)
Definition load_spaces (rows : list space_row) : option (Z * tnt_schema * malloc_state) :=
  tnt_schema_add_spaces demo_schema (demo_reply (rows_data space_fields rows)) [].

Definition demo_loaded : tnt_schema := match load_spaces demo_spaces with Some (_, s, _) => s | None => demo_schema end.

Lemma demo_loaded_ok : schema_ok 3 demo_loaded.
Proof.
  apply (add_reply_inv tnt_schema_add_space 0 demo_schema (demo_reply (rows_data space_fields demo_spaces)) [] 0 demo_loaded [] 3
    (drop 1 (rows_data space_fields demo_spaces)) add_space_inv); [vm_compute; reflexivity|exact demo_new|vm_compute; reflexivity|done..].
Qed.

Lemma flush_empties_witness :
  tnt_schema_stosid demo_loaded [116; 50] = Some 513 /\
  exists s' c, tnt_schema_flush demo_loaded = Some s' /\ c <= 2 * 3 /\ schema_empty s' c /\ forall name, tnt_schema_stosid s' name = Some (-1).
Proof.
  split; [vm_compute; reflexivity|]. apply (flush_empties 3 demo_loaded); [exact demo_loaded_ok|vm_compute; reflexivity].
Defined.

(** A flush in the middle of a resize: 270 spaces leave the hash of 540 keys
    growing from 769 to 1543 buckets.  The first deletions of the flush finish
    the resize, the iteration goes on in the larger table, and the space 780,
    both of whose keys lie before the position reached, is kept. *)
Definition far (k : assoc_key) : bool := bool_decide (14 < PMurHash32 MUR_SEED 0 k mod 769).
Definition numbered (n : Z) : space_row :=
  SpaceRow n [1] [115; 48 + n / 1000; 48 + n / 100 mod 10; 48 + n / 10 mod 10; 48 + n mod 10] [].
Definition growing_spaces : list space_row :=
  SpaceRow 780 [1] [115; 50; 52; 48] [] ::
  take 269 (filter (fun r => far (sr_name r) && far (number_key (sr_id r)) = true) ((fun i => numbered (2612 + Z.of_nat i)) <$> seq 0 300)).

Example flush_keeps_a_space :
  (fun '(rc, s, _) => (rc, length growing_spaces, (fun h => resize_position (main (hh h))) <$> space_hash s,
     s' ← tnt_schema_flush s; tnt_schema_stosid s' [115; 50; 52; 48])) <$> load_spaces growing_spaces
  = Some (0, 270%nat, Some 512, Some 780).
Proof. vm_compute. reflexivity. Qed.
