(* ===== verification/Sha1.v ===== *)
(** * third_party/sha1.c: the hash SHA-1

    The second half is the reference, the algorithm of FIPS PUB 180-1, and the
    proof that any sequence of [SHA1Update]s hashes the concatenation. *)

From S2P Require Import Prelude Murmur.

Definition rol (value bits : Z) : Z := Z.lor (u32 (Z.shiftl value bits)) (Z.shiftr value (32 - bits)).

Record SHA1_CTX := Sha1Ctx { state : list Z; count0 : Z; count1 : Z; buffer : bytes }.

(** The union [CHAR64LONG16]: the words of a little endian machine. *)
Fixpoint words (bs : bytes) : list Z :=
  match bs with
  | a :: b :: c :: d :: bs => READ_UINT32 a b c d :: words bs
  | _ => []
  end.

(** [block->l\[i\]] *)
Definition wd (l : list Z) (i : nat) : Z := nth i l 0.

(** [blk0(i)] and [blk(i)]: the word and the block it is stored in. *)
Definition blk0 (i : nat) (l : list Z) : Z * list Z :=
  let x := Z.lor (Z.land (rol (wd l i) 24) 0xFF00FF00) (Z.land (rol (wd l i) 8) 0x00FF00FF) in
  (x, <[i := x]> l).
Definition blk (i : nat) (l : list Z) : Z * list Z :=
  let x := rol (Z.lxor (Z.lxor (Z.lxor (wd l ((i + 13) mod 16)) (wd l ((i + 8) mod 16))) (wd l ((i + 2) mod 16))) (wd l (i mod 16))) 1 in
  (x, <[(i mod 16)%nat := x]> l).

(** The working variables in the order of the arguments of the next macro. *)
Definition regs : Type := Z * Z * Z * Z * Z.

(** The common shape of the macros: [z += f + word + k + rol(v, 5); w = rol(w, 30)]. *)
Definition R (f : Z -> Z -> Z -> Z) (k word : Z) (r : regs) : regs :=
  let '(v, w, x, y, z) := r in
  (u32 (z + f w x y + word + k + rol v 5), v, rol w 30, x, y).

Definition R0 (i : nat) (s : regs * list Z) : regs * list Z :=
  let '(r, l) := s in let '(word, l) := blk0 i l in
  (R (fun w x y => Z.lxor (Z.land w (Z.lxor x y)) y) 0x5A827999 word r, l).
Definition R1 (i : nat) (s : regs * list Z) : regs * list Z :=
  let '(r, l) := s in let '(word, l) := blk i l in
  (R (fun w x y => Z.lxor (Z.land w (Z.lxor x y)) y) 0x5A827999 word r, l).
Definition R2 (i : nat) (s : regs * list Z) : regs * list Z :=
  let '(r, l) := s in let '(word, l) := blk i l in
  (R (fun w x y => Z.lxor (Z.lxor w x) y) 0x6ED9EBA1 word r, l).
Definition R3 (i : nat) (s : regs * list Z) : regs * list Z :=
  let '(r, l) := s in let '(word, l) := blk i l in
  (R (fun w x y => Z.lor (Z.land (Z.lor w x) y) (Z.land w x)) 0x8F1BBCDC word r, l).
Definition R4 (i : nat) (s : regs * list Z) : regs * list Z :=
  let '(r, l) := s in let '(word, l) := blk i l in
  (R (fun w x y => Z.lxor (Z.lxor w x) y) 0xCA62C1D6 word r, l).

(** The unrolled rounds. *)
Definition rounds80 (s : regs * list Z) : regs * list Z :=
  let s := foldl (fun s i => R0 i s) s (seq 0 16) in
  let s := foldl (fun s i => R1 i s) s (seq 16 4) in
  let s := foldl (fun s i => R2 i s) s (seq 20 20) in
  let s := foldl (fun s i => R3 i s) s (seq 40 20) in
  foldl (fun s i => R4 i s) s (seq 60 20).

Definition SHA1Transform (state : list Z) (buffer : bytes) : list Z :=
  let r := (nth 0 state 0, nth 1 state 0, nth 2 state 0, nth 3 state 0, nth 4 state 0) in
  let '((a, b, c, d, e), _) := rounds80 (r, words buffer) in
  zip_with (fun s v => u32 (s + v)) state [a; b; c; d; e].

Definition iv : list Z := [0x67452301; 0xEFCDAB89; 0x98BADCFE; 0x10325476; 0xC3D2E1F0].

(** [SHA1Init]; the buffer keeps whatever it holds. *)
Definition SHA1Init (buf : bytes) : SHA1_CTX := Sha1Ctx iv 0 0 buf.

(** [for ( ; i + 63 < len; i += 64)] on the data from [i] on. *)
Fixpoint update_loop (n : nat) (st : list Z) (data : bytes) : list Z * bytes :=
  match n with
  | O => (st, data)
  | S n => if decide (64 <= length data)%nat then update_loop n (SHA1Transform st (take 64 data)) (drop 64 data) else (st, data)
  end.

Definition SHA1Update (ctx : SHA1_CTX) (data : bytes) : option SHA1_CTX :=
  let len := zlen data in
  let j := count0 ctx in
  let c0 := u32 (count0 ctx + u32 (Z.shiftl len 3)) in
  let c1 := if decide (c0 < j) then u32 (count1 ctx + 1) else count1 ctx in
  let c1 := u32 (c1 + Z.shiftr len 29) in
  let j := Z.land (Z.shiftr j 3) 63 in
  if decide (63 < u32 (j + len)) then
    let i := Z.to_nat (64 - j) in
    buf ← splice (Z.to_nat j) (take i data) (buffer ctx);
    let st := SHA1Transform (state ctx) buf in
    let '(st, rest) := update_loop (length data) st (drop i data) in
    buf ← splice 0 rest buf;
    Some (Sha1Ctx st c0 c1 buf)
  else
    buf ← splice (Z.to_nat j) data (buffer ctx);
    Some (Sha1Ctx (state ctx) c0 c1 buf).

(** [while ((context->count\[0\] & 504) != 448)]: at most 64 bytes. *)
Fixpoint pad_loop (n : nat) (ctx : SHA1_CTX) : option SHA1_CTX :=
  match n with
  | O => None
  | S n =>
      if decide (Z.land (count0 ctx) 504 <> 448) then ctx ← SHA1Update ctx [0]; pad_loop n ctx else Some ctx
  end.

Definition finalcount (ctx : SHA1_CTX) : bytes :=
  (fun i : nat => Z.land (Z.shiftr (if decide (4 <= i)%nat then count0 ctx else count1 ctx) ((3 - Z.of_nat i mod 4) * 8)) 255) <$> seq 0 8.

(** The digest; the context is wiped. *)
Definition SHA1Final (ctx : SHA1_CTX) : option bytes :=
  let count := finalcount ctx in
  ctx ← SHA1Update ctx [0x80];
  ctx ← pad_loop 65 ctx;
  ctx ← SHA1Update ctx count;
  Some ((fun i : nat => Z.land (Z.shiftr (nth (i / 4) (state ctx) 0) ((3 - Z.of_nat i mod 4) * 8)) 255) <$> seq 0 20).

(** ** The reference *)

(** The message schedule: 64 words after the 16 of the block. *)
Fixpoint schedule (n : nat) (w : list Z) : list Z :=
  match n with
  | O => w
  | S n =>
      let t := length w in
      schedule n (w ++ [rol (Z.lxor (Z.lxor (Z.lxor (wd w (t - 3)) (wd w (t - 8))) (wd w (t - 14))) (wd w (t - 16))) 1])
  end.

Fixpoint be_words (bs : bytes) : list Z :=
  match bs with
  | a :: b :: c :: d :: bs => be_val [a; b; c; d] :: be_words bs
  | _ => []
  end.

(** The function and the constant of round [t]. *)
Definition sha_f (t : nat) (b c d : Z) : Z :=
  if decide (t < 20)%nat then Z.lxor (Z.land b (Z.lxor c d)) d
  else if decide (t < 40)%nat then Z.lxor (Z.lxor b c) d
  else if decide (t < 60)%nat then Z.lor (Z.land (Z.lor b c) d) (Z.land b c)
  else Z.lxor (Z.lxor b c) d.
Definition sha_k (t : nat) : Z :=
  if decide (t < 20)%nat then 0x5A827999 else if decide (t < 40)%nat then 0x6ED9EBA1
  else if decide (t < 60)%nat then 0x8F1BBCDC else 0xCA62C1D6.

Definition sha_round (w : list Z) (r : regs) (t : nat) : regs := R (sha_f t) (sha_k t) (wd w t) r.

(** The compression function on a block of 64 bytes. *)
Definition compress (st : list Z) (block : bytes) : list Z :=
  let w := schedule 64 (be_words block) in
  let r := (nth 0 st 0, nth 1 st 0, nth 2 st 0, nth 3 st 0, nth 4 st 0) in
  let '(a, b, c, d, e) := foldl (sha_round w) r (seq 0 80) in
  zip_with (fun s v => u32 (s + v)) st [a; b; c; d; e].

(** The blocks of a message, and what is left. *)
Fixpoint absorb (n : nat) (st : list Z) (m : bytes) : list Z * bytes :=
  match n with
  | O => (st, m)
  | S n => if decide (64 <= length m)%nat then absorb n (compress st (take 64 m)) (drop 64 m) else (st, m)
  end.

(** The message padded to whole blocks, with its length in bits at the end. *)
Definition sha_pad (m : bytes) : bytes :=
  m ++ [0x80] ++ replicate (Z.to_nat ((55 - zlen m) mod 64)) 0 ++ be 8 (8 * zlen m).

Definition sha1 (m : bytes) : bytes :=
  let p := sha_pad m in concat (be 4 <$> fst (absorb (length p) iv p)).

(** ** The compression function *)

Lemma testbit_byte a i : is_byte a -> 8 <= i -> Z.testbit a i = false.
Proof. intros Ha Hi. apply (testbit_high a 8); [exact Ha|done]. Qed.

(** Bit [k] of a combination of bytes, for [k] in the range of one byte. *)
Ltac bit_solve :=
  unfold rol, u32, READ_UINT32;
  repeat match goal with
  | |- context [Z.testbit (Z.lor ?x ?y) ?k] => rewrite (Z.lor_spec x y k)
  | |- context [Z.testbit (Z.land ?x ?y) ?k] => rewrite (Z.land_spec x y k)
  | |- context [Z.testbit ?x ?k] => rewrite (Z.testbit_neg_r x k) by lia
  | |- context [Z.testbit (?x mod 2 ^ ?n) ?k] => rewrite (Z.mod_pow2_bits_low x n k) by lia
  | |- context [Z.testbit (Z.shiftl ?x ?n) ?k] => rewrite (Z.shiftl_spec x n k) by lia
  | |- context [Z.testbit (Z.shiftr ?x ?n) ?k] => rewrite (Z.shiftr_spec x n k) by lia
  | H : is_byte ?x |- context [Z.testbit ?x ?k] => rewrite (testbit_byte x k H) by lia
  | |- context [Z.testbit (Z.ones 8) ?k] => rewrite (Z.ones_spec_low 8 k) by lia
  | |- context [Z.testbit (Z.ones 8) ?k] => rewrite (Z.ones_spec_high 8 k) by lia
  end;
  rewrite ?andb_true_r, ?andb_false_r, ?orb_false_l, ?orb_false_r;
  try (f_equal; lia).

(** Swapping the bytes of a word. *)
Lemma swap_bytes a b c d :
  Forall is_byte [a; b; c; d] ->
  Z.lor (Z.land (rol (READ_UINT32 a b c d) 24) 0xFF00FF00) (Z.land (rol (READ_UINT32 a b c d) 8) 0x00FF00FF) = be_val [a; b; c; d].
Proof.
  intros H. transitivity (READ_UINT32 d c b a).
  2: { rewrite read_uint32; [done|]. rewrite !Forall_cons in *. tauto. }
  rewrite !Forall_cons in H. destruct H as (Ha & Hb & Hc & Hd & _).
  change 0xFF00FF00 with (Z.lor (Z.shiftl (Z.ones 8) 24) (Z.shiftl (Z.ones 8) 8)).
  change 0x00FF00FF with (Z.lor (Z.shiftl (Z.ones 8) 16) (Z.ones 8)).
  apply Z.bits_inj'. intros i Hi.
  destruct (decide (i < 8)); [bit_solve|]. destruct (decide (i < 16)); [bit_solve|]. destruct (decide (i < 24)); [bit_solve|].
  destruct (decide (i < 32)); [bit_solve|]. rewrite Z.lor_spec, !Z.land_spec, !Z.lor_spec, !Z.shiftl_spec, !Z.ones_spec_high by lia.
  rewrite !andb_false_r. unfold READ_UINT32. rewrite !Z.lor_spec, !Z.shiftl_spec, !testbit_byte by (done || lia). done.
Qed.

Lemma words_length bs : (length (words bs) = length bs / 4)%nat /\ (length (be_words bs) = length bs / 4)%nat.
Proof.
  remember (length bs) as n eqn:En. revert bs En. induction (lt_wf n) as [n _ IH]. intros bs ->.
  destruct bs as [|a [|b [|c [|d bs]]]]; [done..|]. cbn [words be_words length].
  replace (S (S (S (S (length bs))))) with (length bs + 1 * 4)%nat by lia. rewrite Nat.div_add by lia.
  destruct (IH (length bs) ltac:(simpl; lia) bs eq_refl). lia.
Qed.

(** [blk0] turns a word of the machine into a word of the message. *)
Lemma words_swap bs : Forall is_byte bs -> forall i, (i < length bs / 4)%nat ->
  Z.lor (Z.land (rol (wd (words bs) i) 24) 0xFF00FF00) (Z.land (rol (wd (words bs) i) 8) 0x00FF00FF) = wd (be_words bs) i.
Proof.
  remember (length bs) as n eqn:En. revert bs En. induction (lt_wf n) as [n _ IH]. intros bs -> Hb i Hi.
  destruct bs as [|a [|b [|c [|d bs]]]]; try (simpl in Hi; lia).
  assert (Forall is_byte [a; b; c; d] /\ Forall is_byte bs) as [H4 Hr] by (rewrite !Forall_cons in Hb; destruct Hb as (?&?&?&?&?); by rewrite !Forall_cons, Forall_nil).
  destruct i as [|i]; [by apply swap_bytes|]. cbn [words be_words]. unfold wd in *. cbn [nth].
  apply (IH (length bs)); [simpl; lia|done|done|]. simpl length in Hi.
  replace (S (S (S (S (length bs))))) with (length bs + 1 * 4)%nat in Hi by lia. rewrite Nat.div_add in Hi by lia. lia.
Qed.

Lemma wd_insert l i j x : (i < length l)%nat -> wd (<[i := x]> l) j = if decide (j = i) then x else wd l j.
Proof.
  intros Hi. unfold wd. rewrite !nth_lookup. case_decide as Hj.
  - subst. by rewrite list_lookup_insert_eq.
  - by rewrite list_lookup_insert_ne by done.
Qed.

Lemma wd_app_l l k t : (t < length l)%nat -> wd (l ++ k) t = wd l t.
Proof. intros. unfold wd. by rewrite app_nth1. Qed.

(** The words of the schedule. *)
Lemma schedule_old n : forall w t, (t < length w)%nat -> wd (schedule n w) t = wd w t.
Proof.
  induction n as [|n IH]; intros w t Ht; [done|]. cbn [schedule]. rewrite IH by (rewrite length_app; simpl; lia). by apply wd_app_l.
Qed.

Definition next_word (w : list Z) (t : nat) : Z :=
  rol (Z.lxor (Z.lxor (Z.lxor (wd w (t - 3)) (wd w (t - 8))) (wd w (t - 14))) (wd w (t - 16))) 1.

Lemma schedule_new n : forall w t, (16 <= length w)%nat -> (length w <= t < length w + n)%nat ->
  wd (schedule n w) t = next_word (schedule n w) t.
Proof.
  induction n as [|n IH]; intros w t Hw Ht; [lia|]. cbn [schedule]. fold (next_word w (length w)).
  destruct (decide (t = length w)) as [->|Hne].
  - set (x := next_word w (length w)). rewrite schedule_old by (rewrite length_app; simpl; lia). transitivity x.
    + unfold wd. by rewrite app_nth2, Nat.sub_diag by lia.
    + unfold next_word. rewrite !schedule_old, !wd_app_l by (rewrite ?length_app; simpl; lia). done.
  - apply IH; rewrite length_app; simpl; lia.
Qed.

Section transform.
Variable block : bytes.
Hypothesis Hlen : length block = 64%nat.
Hypothesis Hbytes : Forall is_byte block.

Variable W : list Z.
Hypothesis W_old : forall t, (t < 16)%nat -> wd W t = wd (be_words block) t.
Hypothesis W_new : forall t, (16 <= t < 80)%nat -> wd W t = next_word W t.

(** The block of words before round [t]: the last sixteen words of the
    schedule, at first those not replaced yet. *)
Definition expanding (t : nat) (l : list Z) : Prop :=
  length l = 16%nat /\ (forall j, (j < t)%nat -> wd l j = wd W j) /\ (forall j, (t <= j)%nat -> wd l j = wd (words block) j).
Definition rolling (t : nat) (l : list Z) : Prop :=
  length l = 16%nat /\ (forall u, (t - 16 <= u < t)%nat -> wd l (u mod 16) = wd W u).

Lemma expanding_step t l : (t < 16)%nat -> expanding t l -> exists l', blk0 t l = (wd W t, l') /\ expanding (S t) l'.
Proof.
  intros Ht (Hl & Hlo & Hhi). unfold blk0. rewrite (Hhi t) by lia. rewrite words_swap by (done || (rewrite Hlen; done)).
  rewrite <- W_old by done.
  eexists. split; [done|]. split; [by rewrite length_insert|]. split; intros j Hj; rewrite wd_insert by lia; case_decide; subst;
    [done|apply Hlo; lia|lia|apply Hhi; lia].
Qed.

Lemma rolling_step t l : (16 <= t < 80)%nat -> rolling t l -> exists l', blk t l = (wd W t, l') /\ rolling (S t) l'.
Proof.
  intros Ht (Hl & Hw). unfold blk.
  assert (forall k, (0 < k <= 16)%nat -> wd l ((t + (16 - k)) mod 16) = wd W (t - k)) as Hk.
  { intros k Hk. replace ((t + (16 - k)) mod 16)%nat with ((t - k) mod 16)%nat; [apply Hw; lia|].
    replace (t + (16 - k))%nat with (t - k + 1 * 16)%nat by lia. by rewrite Nat.Div0.mod_add. }
  pose proof (Hk 3%nat ltac:(lia)) as H3. pose proof (Hk 8%nat ltac:(lia)) as H8. pose proof (Hk 14%nat ltac:(lia)) as H14.
  pose proof (Hk 16%nat ltac:(lia)) as H16. cbn [Nat.sub] in H3, H8, H14, H16. rewrite Nat.add_0_r in H16.
  rewrite H3, H8, H14, H16. pose proof (W_new t Ht) as Hnw. unfold next_word in Hnw. rewrite <- Hnw.
  eexists. split; [done|]. split; [by rewrite length_insert|]. intros u Hu.
  pose proof (Nat.mod_upper_bound t 16 ltac:(lia)). rewrite wd_insert by lia. case_decide as Hm.
  - assert (u = t) as ->; [|done]. destruct (decide (u < t)%nat); [|lia]. exfalso.
    pose proof (Nat.div_mod_eq u 16). pose proof (Nat.div_mod_eq t 16). lia.
  - apply Hw. destruct (decide (u = t)) as [->|]; [done|lia].
Qed.

Lemma fold_rounds (Rn : nat -> regs * list Z -> regs * list Z) (I : nat -> list Z -> Prop) t n r l :
  (forall t' r l, (t <= t' < t + n)%nat -> I t' l -> exists l', Rn t' (r, l) = (sha_round W r t', l') /\ I (S t') l') ->
  I t l -> exists l', foldl (fun s i => Rn i s) (r, l) (seq t n) = (foldl (sha_round W) r (seq t n), l') /\ I (t + n)%nat l'.
Proof.
  revert t r l. induction n as [|n IH]; intros t r l Hstep HI; cbn [seq foldl].
  - exists l. by rewrite Nat.add_0_r.
  - destruct (Hstep t r l ltac:(lia) HI) as (l1 & -> & HI1).
    destruct (IH (S t) (sha_round W r t) l1) as (l2 & -> & HI2); [intros; apply Hstep; [lia|done]|done|].
    exists l2. by replace (t + S n)%nat with (S t + n)%nat by lia.
Qed.

Lemma round_eq t r f k :
  (forall b c d, sha_f t b c d = f b c d) -> sha_k t = k -> R f k (wd W t) r = sha_round W r t.
Proof. intros Hf <-. destruct r as [[[[v w] x] y] z]. unfold sha_round, R. by rewrite Hf. Qed.

Ltac round_range := unfold sha_f, sha_k; intros; repeat first [rewrite decide_True by lia | rewrite decide_False by lia]; reflexivity.

Lemma rounds80_ok r : fst (rounds80 (r, words block)) = foldl (sha_round W) r (seq 0 80).
Proof.
  change (seq 0 80) with (seq 0 16 ++ seq 16 4 ++ seq 20 20 ++ seq 40 20 ++ seq 60 20). rewrite !foldl_app. unfold rounds80.
  destruct (fold_rounds R0 expanding 0 16 r (words block)) as (l0 & -> & (Hl0 & H0 & _)).
  { intros t r' l Ht HI. unfold R0. destruct (expanding_step t l ltac:(lia) HI) as (l' & -> & HI'). exists l'. split; [|done].
    f_equal. apply round_eq; round_range. }
  { split; [by destruct (words_length block) as [-> _]; rewrite Hlen|]. split; [lia|done]. }
  assert (rolling 16 l0) as HI0 by (split; [done|]; intros u Hu; rewrite Nat.mod_small by lia; apply H0; lia). clear Hl0 H0.
  destruct (fold_rounds R1 rolling 16 4 (foldl (sha_round W) r (seq 0 16)) l0) as (l1 & -> & HI1); [|done|].
  { intros t r' l Ht HI. unfold R1. destruct (rolling_step t l ltac:(lia) HI) as (l' & -> & HI'). exists l'. split; [|done].
    f_equal. apply round_eq; round_range. }
  set (r1 := foldl _ _ (seq 16 4)).
  destruct (fold_rounds R2 rolling 20 20 r1 l1) as (l2 & -> & HI2); [|done|].
  { intros t r' l Ht HI. unfold R2. destruct (rolling_step t l ltac:(lia) HI) as (l' & -> & HI'). exists l'. split; [|done].
    f_equal. apply round_eq; round_range. }
  set (r2 := foldl _ _ (seq 20 20)).
  destruct (fold_rounds R3 rolling 40 20 r2 l2) as (l3 & -> & HI3); [|done|].
  { intros t r' l Ht HI. unfold R3. destruct (rolling_step t l ltac:(lia) HI) as (l' & -> & HI'). exists l'. split; [|done].
    f_equal. apply round_eq; round_range. }
  set (r3 := foldl _ _ (seq 40 20)).
  destruct (fold_rounds R4 rolling 60 20 r3 l3) as (l4 & -> & HI4); [|done|done].
  { intros t r' l Ht HI. unfold R4. destruct (rolling_step t l ltac:(lia) HI) as (l' & -> & HI'). exists l'. split; [|done].
    f_equal. apply round_eq; round_range. }
Qed.

End transform.

Lemma SHA1Transform_ok st block : length block = 64%nat -> Forall is_byte block -> SHA1Transform st block = compress st block.
Proof.
  intros Hl Hb. unfold SHA1Transform, compress. destruct (words_length block) as [_ Hw]. rewrite Hl in Hw. change (64 / 4)%nat with 16%nat in Hw.
  rewrite <- (rounds80_ok block Hl Hb).
  - by destruct (rounds80 _) as [[[[[a b] c] d] e] l].
  - intros t Ht. apply schedule_old. lia.
  - intros t Ht. apply schedule_new; lia.
Qed.

(** ** Streaming *)

Lemma absorb_bytes n : forall st m, Forall is_byte m -> Forall is_byte (absorb n st m).2.
Proof. induction n as [|n IH]; intros st m Hm; simpl; [done|]. case_decide; [|done]. by apply IH, Forall_drop. Qed.

Lemma absorb_fuel n : forall n' st m, (length m <= n)%nat -> (length m <= n')%nat -> absorb n st m = absorb n' st m.
Proof.
  induction n as [|n IH]; intros n' st m Hn Hn'.
  - destruct n'; simpl; [done|]. by rewrite decide_False by lia.
  - destruct n' as [|n']; simpl; [by rewrite decide_False by lia|]. case_decide; [|done]. apply IH; rewrite length_drop; lia.
Qed.

Lemma absorb_rest n : forall st m, (length m <= n)%nat ->
  (length (absorb n st m).2 < 64)%nat /\ (length (absorb n st m).2 = length m mod 64)%nat.
Proof.
  induction n as [|n IH]; intros st m Hn; cbn [absorb].
  - assert (length m = 0)%nat as Hz by lia. cbn [snd]. rewrite Hz. split; [lia|done].
  - case_decide as Hm; cbn [snd].
    + destruct (IH (compress st (take 64 m)) (drop 64 m)) as [H1 H2]; [rewrite length_drop; lia|]. split; [done|].
      pose proof (Nat.Div0.mod_add (length m - 64) 1 64) as He.
      replace (length m - 64 + 1 * 64)%nat with (length m) in He by lia. by rewrite H2, length_drop, He.
    + split; [lia|]. by rewrite Nat.mod_small by lia.
Qed.

Lemma absorb_app n : forall st m d, (length m <= n)%nat ->
  absorb (length (m ++ d)) st (m ++ d) = let '(st', r) := absorb n st m in absorb (length (r ++ d)) st' (r ++ d).
Proof.
  induction n as [|n IH]; intros st m d Hn; cbn [absorb]; [done|]. case_decide as Hm; [|done].
  rewrite <- IH by (rewrite length_drop; lia). rewrite (absorb_fuel (length (m ++ d)) (S (length (m ++ d)))) by lia. cbn [absorb].
  rewrite decide_True by (rewrite length_app; lia). rewrite take_app_le, drop_app_le by lia.
  apply absorb_fuel; rewrite ?length_app, ?length_drop; lia.
Qed.

Lemma update_loop_absorb n : forall st d, Forall is_byte d -> update_loop n st d = absorb n st d.
Proof.
  induction n as [|n IH]; intros st d Hd; simpl; [done|]. case_decide; [|done].
  rewrite SHA1Transform_ok by (rewrite ?length_take; try lia; by apply Forall_take). by apply IH, Forall_drop.
Qed.

Lemma absorb_state n : forall st m, length st = 5%nat -> length (absorb n st m).1 = 5%nat.
Proof.
  induction n as [|n IH]; intros st m Hst; simpl; [done|]. case_decide; [|done]. apply IH. unfold compress.
  destruct (foldl _ _ _) as [[[[a b] c] d] e]. rewrite length_zip_with, Hst. done.
Qed.

(** The context after the message [m]. *)
Definition ctx_ok (m : bytes) (ctx : SHA1_CTX) : Prop :=
  exists r, absorb (length m) iv m = (state ctx, r) /\ length (buffer ctx) = 64%nat /\ take (length r) (buffer ctx) = r /\
    count0 ctx = u32 (8 * zlen m) /\ count1 ctx = 8 * zlen m / 2 ^ 32.

Lemma init_ok buf : length buf = 64%nat -> ctx_ok [] (SHA1Init buf).
Proof. intros H. exists []. done. Qed.

Lemma count_index n : 0 <= n -> Z.land (Z.shiftr (u32 (8 * n)) 3) 63 = n mod 64.
Proof.
  intros Hn. change 63 with (Z.ones 6). rewrite Z.land_ones, Z.shiftr_div_pow2 by lia. unfold u32.
  change (2 ^ 3) with 8. change (2 ^ 6) with 64. Z.to_euclidean_division_equations. lia.
Qed.

Lemma update_ok m ctx d :
  ctx_ok m ctx -> Forall is_byte m -> Forall is_byte d -> zlen d < 2 ^ 31 -> zlen m + zlen d < 2 ^ 61 ->
  exists ctx', SHA1Update ctx d = Some ctx' /\ ctx_ok (m ++ d) ctx'.
Proof.
  intros (r & Ha & Hb & Hr & H0 & H1) Hm Hd Hl Hml. pose proof (absorb_rest (length m) iv m ltac:(lia)) as [Hr64 Hrm].
  pose proof (absorb_bytes (length m) iv m Hm) as Hrb. rewrite Ha in Hr64, Hrm, Hrb. cbn [snd] in Hr64, Hrm, Hrb.
  unfold SHA1Update. rewrite H0, count_index by len.
  set (c0 := u32 (u32 (8 * zlen m) + u32 (Z.shiftl (zlen d) 3))).
  set (c1 := u32 ((if decide (c0 < u32 (8 * zlen m)) then u32 (count1 ctx + 1) else count1 ctx) + Z.shiftr (zlen d) 29)).
  assert (c0 = u32 (8 * zlen (m ++ d)) /\ c1 = 8 * zlen (m ++ d) / 2 ^ 32) as [Hc0 Hc1].
  { unfold c1, c0. rewrite H1, zlen_app, Z.shiftl_mul_pow2, Z.shiftr_div_pow2 by lia. assert (0 <= zlen m /\ 0 <= zlen d) by len.
    generalize dependent (zlen m). generalize dependent (zlen d). clear. intros b Hb a Ha Hb0. unfold u32.
    split; [rewrite <- Z.add_mod by lia; f_equal; lia|].
    assert (8 * (a + b) / 2 ^ 32 = 8 * a / 2 ^ 32 + b / 2 ^ 29 + (if decide ((8 * a mod 2 ^ 32 + (b * 2 ^ 3) mod 2 ^ 32) mod 2 ^ 32 < 8 * a mod 2 ^ 32) then 1 else 0)) as ->
      by (case_decide; Z.to_euclidean_division_equations; lia).
    case_decide; rewrite ?(Z.mod_small (8 * a / 2 ^ 32 + 1)), Z.mod_small; try (Z.to_euclidean_division_equations; lia). }
  assert (zlen m mod 64 = zlen r) as Hj by (unfold zlen; rewrite Hrm, Nat2Z.inj_mod; done). rewrite Hj.
  rewrite u32_small by len. rewrite to_nat_zlen. replace (Z.to_nat (64 - zlen r)) with (64 - length r)%nat by len.
  case_decide as Hfull.
  - rewrite splice_Some by (rewrite length_take, Hb; len). rewrite Hr. cbn [mbind option_bind].
    rewrite length_take, (Nat.min_l (64 - length r) (length d)), drop_ge, app_nil_r by (rewrite ?Hb; len).
    assert (take 64 (r ++ d) = r ++ take (64 - length r) d) as Ht by (rewrite take_app_ge by lia; done).
    rewrite SHA1Transform_ok; [|rewrite length_app, length_take; len|apply Forall_app; split; [done|by apply Forall_take]].
    rewrite update_loop_absorb by (by apply Forall_drop).
    assert (absorb (length (m ++ d)) iv (m ++ d) = absorb (length d) (compress (state ctx) (r ++ take (64 - length r) d)) (drop (64 - length r) d)) as Habs.
    { rewrite (absorb_app (length m)), Ha by lia. rewrite (absorb_fuel _ (S (length (r ++ d)))) by lia. cbn [absorb].
      rewrite decide_True by len. rewrite Ht, drop_app_ge by lia. apply absorb_fuel; rewrite length_drop, ?length_app; lia. }
    destruct (absorb (length d) _ _) as [st rest] eqn:Eab.
    assert (length rest < 64)%nat as Hrest.
    { pose proof (absorb_rest (length d) (compress (state ctx) (r ++ take (64 - length r) d)) (drop (64 - length r) d)) as [Hx _]; [rewrite length_drop; lia|]. by rewrite Eab in Hx. }
    rewrite splice_Some by (rewrite length_app, length_take; len). cbn [mbind option_bind]. eexists. split; [done|].
    exists rest. split; [exact Habs|]. cbn [state buffer count0 count1 take]. rewrite app_nil_l.
    split; [rewrite length_app, length_drop, length_app, length_take; len|]. split; [|done]. by rewrite take_app_length.
  - rewrite splice_Some by (rewrite Hb; len). rewrite Hr. cbn [mbind option_bind]. eexists. split; [done|].
    exists (r ++ d). split; [|cbn [state buffer count0 count1]; split; [|split; [|done]]].
    + rewrite (absorb_app (length m)), Ha by lia. rewrite (absorb_fuel _ (S (length (r ++ d)))) by lia. cbn [absorb].
      by rewrite decide_False by len.
    + rewrite !length_app, length_drop. len.
    + rewrite app_assoc. by rewrite take_app_length.
Qed.

Lemma byte_at x k : 0 <= k -> Z.land (Z.shiftr x k) 255 = (x / 2 ^ k) mod 256.
Proof. intros. change 255 with (Z.ones 8). by rewrite Z.land_ones, Z.shiftr_div_pow2 by lia. Qed.

Lemma byte_of_low n j : 0 <= j <= 24 -> (n mod 2 ^ 32 / 2 ^ j) mod 2 ^ 8 = (n / 2 ^ j) mod 2 ^ 8.
Proof.
  intros Hj. apply Z.bits_inj'. intros i Hi. destruct (decide (i < 8)).
  - by rewrite !Z.mod_pow2_bits_low, !Z.div_pow2_bits, Z.mod_pow2_bits_low by lia.
  - by rewrite !Z.mod_pow2_bits_high by lia.
Qed.

Lemma finalcount_ok m ctx : ctx_ok m ctx -> finalcount ctx = be 8 (8 * zlen m).
Proof.
  intros (r & _ & _ & _ & H0 & H1). unfold finalcount. cbn [seq fmap list_fmap]. rewrite !byte_at by (vm_compute; congruence). rewrite H0, H1.
  unfold u32. generalize (8 * zlen m). intros n.
  pose proof (byte_of_low n 24 ltac:(lia)) as H24. pose proof (byte_of_low n 16 ltac:(lia)) as H16. pose proof (byte_of_low n 8 ltac:(lia)) as H8.
  pose proof (byte_of_low n 0 ltac:(lia)) as Hz. 
  change (2 ^ 8) with 256 in H24, H16, Hz. change ((n mod 2 ^ 32 / 2 ^ 8) mod 256 = (n / 2 ^ 8) mod 256) in H8.
  repeat match goal with |- context [(3 - Z.of_nat ?i mod 4) * 8] =>
    let v := eval vm_compute in ((3 - Z.of_nat i mod 4) * 8) in change ((3 - Z.of_nat i mod 4) * 8) with v end.
  repeat first [rewrite (decide_True (P := (4 <= _)%nat)) by lia | rewrite (decide_False (P := (4 <= _)%nat)) by lia].
  rewrite H24, H16, H8, Hz, !Z.div_div by lia. done.
Qed.

Lemma digest_ok st : length st = 5%nat ->
  (fun i : nat => Z.land (Z.shiftr (nth (i / 4) st 0) ((3 - Z.of_nat i mod 4) * 8)) 255) <$> seq 0 20 = concat (be 4 <$> st).
Proof.
  intros Hst. destruct st as [|a [|b [|c [|d [|e [|]]]]]]; try done. cbn [seq fmap list_fmap]. rewrite !byte_at by (vm_compute; congruence). done.
Qed.

Lemma pad_test n : 0 <= n -> Z.land (u32 (8 * n)) 504 = 8 * (n mod 64).
Proof.
  intros Hn. change 504 with (Z.shiftl 63 3). replace (u32 (8 * n)) with (Z.shiftl (n mod 2 ^ 29) 3).
  - rewrite <- Z.shiftl_land, Z.shiftl_mul_pow2 by lia. change 63 with (Z.ones 6). rewrite Z.land_ones by lia.
    change (2 ^ 6) with 64. change (2 ^ 3) with 8. change (2 ^ 29) with (64 * 8388608). rewrite Z.rem_mul_r by lia.
    replace (n mod 64 + 64 * (n / 64 mod 8388608)) with (n mod 64 + (n / 64 mod 8388608) * 64) by lia.
    rewrite Z.mod_add, Z.mod_mod by lia. lia.
  - rewrite Z.shiftl_mul_pow2 by lia. unfold u32. Z.to_euclidean_division_equations. lia.
Qed.

Lemma pad_loop_ok k : forall m ctx n,
  ctx_ok m ctx -> Forall is_byte m -> (zlen m + Z.of_nat k) mod 64 = 56 -> (k < 64)%nat -> (k < n)%nat -> zlen m + Z.of_nat k < 2 ^ 61 ->
  exists ctx', pad_loop n ctx = Some ctx' /\ ctx_ok (m ++ replicate k 0) ctx'.
Proof.
  induction k as [|k IH]; intros m ctx n Hc Hm H56 Hk Hn Hl; (destruct n as [|n]; [lia|]); cbn [pad_loop];
    pose proof Hc as (r & _ & _ & _ & H0 & _); rewrite H0, pad_test by len.
  - rewrite Z.add_0_r in H56. rewrite decide_False by lia. exists ctx. by rewrite app_nil_r.
  - rewrite decide_True by (Z.to_euclidean_division_equations; lia).
    destruct (update_ok m ctx [0] Hc Hm) as (ctx1 & -> & Hc1); [by repeat constructor|done|len|]. cbn [mbind option_bind].
    destruct (IH (m ++ [0]) ctx1 n Hc1) as (ctx2 & -> & Hc2); [apply Forall_app; split; [done|by repeat constructor]|..]; try (len; fail).
    + replace (zlen (m ++ [0]) + Z.of_nat k) with (zlen m + Z.of_nat (S k)) by len. done.
    + exists ctx2. split; [done|]. by rewrite <- app_assoc in Hc2.
Qed.

Lemma final_ok m ctx : ctx_ok m ctx -> Forall is_byte m -> zlen m < 2 ^ 60 -> SHA1Final ctx = Some (sha1 m).
Proof.
  intros Hc Hm Hl. unfold SHA1Final. rewrite (finalcount_ok m ctx Hc).
  destruct (update_ok m ctx [0x80] Hc Hm) as (ctx1 & -> & Hc1); [by repeat constructor|done|len|]. cbn [mbind option_bind].
  set (k := Z.to_nat ((55 - zlen m) mod 64)). assert (0 <= (55 - zlen m) mod 64 < 64) by (apply Z.mod_pos_bound; lia).
  assert (Forall is_byte (m ++ [0x80])) as Hm1 by (apply Forall_app; split; [done|by repeat constructor]).
  destruct (pad_loop_ok k (m ++ [0x80]) ctx1 65 Hc1 Hm1) as (ctx2 & -> & Hc2); [|unfold k; lia|unfold k; lia|unfold k; len|].
  { rewrite zlen_app. unfold k. rewrite Z2Nat.id by lia. change (zlen [0x80]) with 1. Z.to_euclidean_division_equations. lia. }
  cbn [mbind option_bind].
  assert (Forall is_byte ((m ++ [0x80]) ++ replicate k 0)) as Hm2 by (apply Forall_app; split; [done|by apply Forall_replicate]).
  destruct (update_ok _ ctx2 (be 8 (8 * zlen m)) Hc2 Hm2) as (ctx3 & -> & Hc3); [apply be_bytes|len|unfold k; len|]. cbn [mbind option_bind].
  destruct Hc3 as (r & Ha & _). 
  replace (((m ++ [0x80]) ++ replicate k 0) ++ be 8 (8 * zlen m)) with (sha_pad m) in Ha by (unfold sha_pad; by rewrite <- !app_assoc).
  assert (length (state ctx3) = 5%nat) as Hst by (pose proof (absorb_state (length (sha_pad m)) iv (sha_pad m) eq_refl) as Hx; by rewrite Ha in Hx).
  rewrite (digest_ok _ Hst). unfold sha1. by rewrite Ha.
Qed.

(** A sequence of updates. *)
Fixpoint updates (ctx : SHA1_CTX) (chunks : list bytes) : option SHA1_CTX :=
  match chunks with [] => Some ctx | d :: chunks => ctx ← SHA1Update ctx d; updates ctx chunks end.

Lemma updates_ok chunks : forall m ctx,
  ctx_ok m ctx -> Forall is_byte m -> Forall (fun d => Forall is_byte d /\ zlen d < 2 ^ 31) chunks -> zlen m + zlen (concat chunks) < 2 ^ 60 ->
  exists ctx', updates ctx chunks = Some ctx' /\ ctx_ok (m ++ concat chunks) ctx' /\ Forall is_byte (m ++ concat chunks).
Proof.
  induction chunks as [|d chunks IH]; intros m ctx Hc Hm Hd Hl; cbn [updates concat].
  - exists ctx. by rewrite app_nil_r.
  - apply Forall_cons in Hd as [[Hd Hd31] Hds]. cbn [concat] in Hl. rewrite zlen_app in Hl. assert (0 <= zlen (concat chunks)) by len.
    destruct (update_ok m ctx d Hc Hm Hd Hd31) as (ctx1 & -> & Hc1); [lia|]. cbn [mbind option_bind].
    rewrite app_assoc. apply IH; [done|by apply Forall_app|done|]. rewrite zlen_app. lia.
Qed.

Lemma sha1_updates_eq buf chunks :
  length buf = 64%nat -> Forall (fun d => Forall is_byte d /\ zlen d < 2 ^ 31) chunks -> zlen (concat chunks) < 2 ^ 60 ->
  (ctx ← updates (SHA1Init buf) chunks; SHA1Final ctx) = Some (sha1 (concat chunks)).
Proof.
  intros Hb Hd Hl. destruct (updates_ok chunks [] (SHA1Init buf) (init_ok buf Hb)) as (ctx & -> & Hc & Hm); [done|done|done|].
  cbn [mbind option_bind]. by apply final_ok.
Qed.

(** C26: SHA-1: any sequence of updates, cut anywhere, followed by the final
    step is defined and gives the hash of FIPS 180 of the concatenation. *)
Theorem sha1_correct buf chunks :
  length buf = 64%nat -> Forall (fun d => Forall is_byte d /\ zlen d < 2 ^ 31) chunks -> zlen (concat chunks) < 2 ^ 60 ->
  (ctx ← updates (SHA1Init buf) chunks; SHA1Final ctx) = Some (sha1 (concat chunks)).
Proof. apply sha1_updates_eq. Qed.

Lemma sha1_correct_witness :
  (ctx ← updates (SHA1Init (replicate 64 7)) [[97]; []; [98; 99]]; SHA1Final ctx) = Some (sha1 [97; 98; 99]).
Proof.
  apply (sha1_correct (replicate 64 7) [[97]; []; [98; 99]]); [reflexivity| |reflexivity].
  repeat (apply Forall_cons; split; [split; [repeat (apply Forall_cons; split; [split; [discriminate|reflexivity]|]); apply Forall_nil_2|reflexivity]|]).
  apply Forall_nil_2.
Defined.

Example sha1_abc : sha1 [97; 98; 99] =
  [0xA9; 0x99; 0x3E; 0x36; 0x47; 0x06; 0x81; 0x6A; 0xBA; 0x3E; 0x25; 0x71; 0x78; 0x50; 0xC2; 0x6C; 0x9C; 0xD0; 0xD8; 0x9D].
Proof. vm_compute. reflexivity. Qed.
