(* ===== verification/Base64.v ===== *)
(** * third_party/base64.c: base64

    [base64_decode] decodes the salt of the server's greeting.  The output is
    a block; reading or writing outside of it, or outside of a table, is
    undefined.  The second half shows that the decoder inverts the encoding of
    RFC 4648; the encoder is related to it in Base64Spec. *)

From S2P Require Import Prelude.

(** [*out_pos = v] and [*out_pos |= v] *)
Definition put_at (out : bytes) (pos : nat) (v : Z) : option bytes := splice pos [u8 v] out.
Definition or_at (out : bytes) (pos : nat) (v : Z) : option bytes :=
  x ← out !! pos; put_at out pos (Z.lor x v).

(** ** Encoding *)

(** [enum base64_encodestep] *)
Inductive base64_encodestep := step_A | step_B | step_C.

Record base64_encodestate := EncodeState { es_step : base64_encodestep; es_result : Z; stepcount : Z }.

Definition base64_encodestate_init : base64_encodestate := EncodeState step_A 0 0.

(** The array [encoding], with the null that ends the literal. *)
Definition encoding : bytes :=
  [ 65; 66; 67; 68; 69; 70; 71; 72; 73; 74; 75; 76; 77; 78; 79; 80; 81; 82; 83; 84; 85; 86; 87; 88; 89; 90;
    97; 98; 99; 100; 101; 102; 103; 104; 105; 106; 107; 108; 109; 110; 111; 112; 113; 114; 115; 116; 117; 118; 119; 120; 121; 122;
    48; 49; 50; 51; 52; 53; 54; 55; 56; 57; 43; 47; 0 ].

(** [base64_encode_value]; 61 is '='. *)
Definition base64_encode_value (value : Z) : option Z :=
  let codepos := u32 value in
  if decide (Z.of_nat (length encoding) - 1 < codepos) then Some 61
  else encoding !! Z.to_nat codepos.

(** [*out_pos++ = base64_encode_value(v)] *)
Definition emit_value (out : bytes) (pos : nat) (v : Z) : option (bytes * nat) :=
  ch ← base64_encode_value v; out ← put_at out pos ch; Some (out, (pos + 1)%nat).

Definition BASE64_CHARS_PER_LINE : Z := 72.

(** [base64_encode_block], entered at [step] with the local [result]; [state]
    is the state as it is stored.  The result is the position, the output and
    the state at the return. *)
Fixpoint base64_encode_block (inp : bytes) (step : base64_encodestep) (result : Z) (out : bytes) (pos : nat)
    (state : base64_encodestate) : option (nat * bytes * base64_encodestate) :=
  match inp with
  | [] => Some (pos, out, EncodeState step result (stepcount state))
  | fragment :: inp =>
      if decide (length out <= match step with step_C => pos + 2 | _ => pos end)%nat then
        Some (pos, out, EncodeState step result (stepcount state)) else
      match step with
      | step_A =>
          let result := Z.shiftr (Z.land fragment 0x0fc) 2 in
          '(out, pos) ← emit_value out pos result;
          base64_encode_block inp step_B (Z.shiftl (Z.land fragment 0x003) 4) out pos state
      | step_B =>
          let result := Z.lor result (Z.shiftr (Z.land fragment 0x0f0) 4) in
          '(out, pos) ← emit_value out pos result;
          base64_encode_block inp step_C (Z.shiftl (Z.land fragment 0x00f) 2) out pos state
      | step_C =>
          let result := Z.lor result (Z.shiftr (Z.land fragment 0x0c0) 6) in
          '(out, pos) ← emit_value out pos result;
          let result := Z.shiftr (Z.land fragment 0x03f) 0 in
          '(out, pos) ← emit_value out pos result;
          let state := EncodeState (es_step state) (es_result state) (stepcount state + 1) in
          if decide (stepcount state * 4 = BASE64_CHARS_PER_LINE) then
            if decide (length out <= pos)%nat then Some (pos, out, state) else
            out ← put_at out pos 10;
            base64_encode_block inp step_A result out (pos + 1) (EncodeState (es_step state) (es_result state) 0)
          else base64_encode_block inp step_A result out pos state
      end
  end.

(** [base64_encode_blockend]; [pos] is where it starts to write. *)
Definition base64_encode_blockend (out : bytes) (pos : nat) (state : base64_encodestate) : option (nat * bytes) :=
  let finish out pos :=
    if decide (length out <= pos)%nat then Some (pos, out) else
    out ← put_at out pos 0; Some (pos, out) in
  match es_step state with
  | step_B =>
      if decide (length out <= pos + 2)%nat then Some (pos, out) else
      '(out, pos) ← emit_value out pos (es_result state);
      out ← put_at out pos 61; out ← put_at out (pos + 1) 61;
      finish out (pos + 2)%nat
  | step_C =>
      if decide (length out <= pos + 1)%nat then Some (pos, out) else
      '(out, pos) ← emit_value out pos (es_result state);
      out ← put_at out pos 61;
      finish out (pos + 1)%nat
  | step_A => finish out pos
  end.

(** [base64_encode(in, in_len, out, out_len)] *)
Definition base64_encode (inp out : bytes) : option (nat * bytes) :=
  '(res, out, state) ← base64_encode_block inp step_A 0 out 0 base64_encodestate_init;
  base64_encode_blockend out res state.

(** [base64_bufsize] on [int] *)
Definition base64_bufsize (binsize : Z) : option Z :=
  if decide (2 ^ 31 <= binsize * 4) then None else
  let datasize := binsize * 4 / 3 + 4 in
  let newlines := (datasize + BASE64_CHARS_PER_LINE - 1) / BASE64_CHARS_PER_LINE in
  Some (datasize + newlines).

(** ** Decoding *)

(** [enum base64_decodestep] *)
Inductive base64_decodestep := step_a | step_b | step_c | step_d.

(** The table [decoding]. *)
Definition decoding : list Z :=
  [ 62; -1; -1; -1; 63; 52; 53; 54; 55; 56; 57; 58;
    59; 60; 61; -1; -1; -1; -2; -1; -1; -1;  0;  1;
    2;   3;  4;  5;  6;  7;  8;  9; 10; 11; 12; 13;
    14; 15; 16; 17; 18; 19; 20; 21; 22; 23; 24; 25;
    -1; -1; -1; -1; -1; -1; 26; 27; 28; 29; 30; 31;
    32; 33; 34; 35; 36; 37; 38; 39; 40; 41; 42; 43;
    44; 45; 46; 47; 48; 49; 50; 51 ].

(** [(signed char) value] *)
Definition schar (value : Z) : Z := (value + 128) mod 256 - 128.

(** [base64_decode_value]; [char] is signed. *)
Definition base64_decode_value (value : Z) : option Z :=
  let codepos := schar value - 43 in
  if decide (codepos < 0 \/ Z.of_nat (length decoding) < codepos) then Some (-1)
  else decoding !! Z.to_nat codepos.

(** [if (out_pos < out_end) *out_pos = v] *)
Definition put_if (out : bytes) (pos : nat) (v : Z) : option bytes :=
  if decide (pos < length out)%nat then put_at out pos v else Some out.

(** The automaton of [base64_decode_block]: the bytes decoded and the output.
    At its end it reads [*out_pos]. *)
Fixpoint base64_decode_block (inp : bytes) (step : base64_decodestep) (out : bytes) (pos : nat) : option (nat * bytes) :=
  match inp with
  | [] => _ ← out !! pos; Some (pos, out)
  | ch :: inp =>
      if decide (length out <= pos)%nat then None else
      fragment ← base64_decode_value ch;
      if decide (fragment < 0) then base64_decode_block inp step out pos else
      match step with
      | step_a =>
          out ← put_at out pos (Z.shiftl (Z.land fragment 0x03f) 2);
          base64_decode_block inp step_b out pos
      | step_b =>
          out ← or_at out pos (Z.shiftr (Z.land fragment 0x030) 4);
          out ← put_if out (pos + 1) (Z.shiftl (Z.land fragment 0x00f) 4);
          base64_decode_block inp step_c out (pos + 1)
      | step_c =>
          out ← or_at out pos (Z.shiftr (Z.land fragment 0x03c) 2);
          out ← put_if out (pos + 1) (Z.shiftl (Z.land fragment 0x003) 6);
          base64_decode_block inp step_d out (pos + 1)
      | step_d =>
          out ← or_at out pos (Z.land fragment 0x03f);
          base64_decode_block inp step_a out (pos + 1)
      end
  end.

(** [base64_decode(in, in_len, out, out_len)] *)
Definition base64_decode (inp out : bytes) : option (nat * bytes) :=
  out ← put_at out 0 0; base64_decode_block inp step_a out 0.

(** ** The encoding of RFC 4648 *)

Definition alphabet (v : Z) : Z :=
  if decide (v < 26) then 65 + v else if decide (v < 52) then 97 + (v - 26)
  else if decide (v < 62) then 48 + (v - 52) else if decide (v = 62) then 43 else 47.

(** RFC 4648, without line breaks; 61 is '='. *)
Fixpoint b64 (bs : bytes) : bytes :=
  match bs with
  | [] => []
  | [a] => [alphabet (a / 4); alphabet (a mod 4 * 16); 61; 61]
  | [a; b] => [alphabet (a / 4); alphabet (a mod 4 * 16 + b / 16); alphabet (b mod 16 * 4); 61]
  | a :: b :: c :: bs =>
      alphabet (a / 4) :: alphabet (a mod 4 * 16 + b / 16) :: alphabet (b mod 16 * 4 + c / 64) :: alphabet (c mod 64) :: b64 bs
  end.

Lemma decode_alphabet v : 0 <= v < 64 -> base64_decode_value (alphabet v) = Some v.
Proof.
  intros Hv. assert (exists n : nat, (n < 64)%nat /\ v = Z.of_nat n) as (n & Hn & ->) by (exists (Z.to_nat v); lia).
  do 64 (destruct n as [|n]; [reflexivity|]). lia.
Qed.

Lemma decode_pad : base64_decode_value 61 = Some (-2).
Proof. reflexivity. Qed.

Lemma put_at_ok pre x post v : 0 <= v < 256 -> put_at (pre ++ x :: post) (length pre) v = Some (pre ++ v :: post).
Proof.
  intros Hv. unfold put_at. change (x :: post) with ([x] ++ post). rewrite splice_app by done. unfold u8. by rewrite Z.mod_small.
Qed.

(** Adding the low bits of a byte. *)
Lemma or_at_ok pre h post l k :
  0 <= k -> 0 <= l < 2 ^ k -> 0 <= h -> h * 2 ^ k + l < 256 ->
  or_at (pre ++ h * 2 ^ k :: post) (length pre) l = Some (pre ++ (h * 2 ^ k + l) :: post).
Proof.
  intros Hk Hl Hh Hb. unfold or_at. rewrite lookup_app_r, Nat.sub_diag by lia. cbn [lookup list_lookup mbind option_bind].
  rewrite Z.lor_comm, <- Z.shiftl_mul_pow2, lor_shiftl, Z.shiftl_mul_pow2, Z.add_comm by lia. rewrite <- Z.shiftl_mul_pow2 at 1 by lia.
  rewrite Z.shiftl_mul_pow2 by lia. by rewrite put_at_ok by nia.
Qed.

Lemma land_low x k : 0 <= k -> Z.land x (2 ^ k - 1) = x mod 2 ^ k.
Proof. intros. by rewrite <- Z.land_ones, Z.ones_equiv by done. Qed.

(** The bit fields of a value. *)
Lemma fragment_bits v : 0 <= v < 64 ->
  Z.shiftl (Z.land v 0x03f) 2 = v * 2 ^ 2 /\ Z.shiftr (Z.land v 0x030) 4 = v / 16 /\ Z.shiftl (Z.land v 0x00f) 4 = v mod 16 * 2 ^ 4 /\
  Z.shiftr (Z.land v 0x03c) 2 = v / 4 /\ Z.shiftl (Z.land v 0x003) 6 = v mod 4 * 2 ^ 6 /\ Z.land v 0x03f = v.
Proof.
  intros Hv. assert (exists n : nat, (n < 64)%nat /\ v = Z.of_nat n) as (n & Hn & ->) by (exists (Z.to_nat v); lia).
  do 64 (destruct n as [|n]; [repeat split; reflexivity|]). lia.
Qed.

Section steps.
Variables (pre : bytes) (x : Z) (post : bytes) (v : Z) (inp : bytes).
Hypothesis Hv : 0 <= v < 64.

Lemma enter step :
  base64_decode_block (alphabet v :: inp) step (pre ++ x :: post) (length pre) =
  match step with
  | step_a => out ← put_at (pre ++ x :: post) (length pre) (v * 2 ^ 2); base64_decode_block inp step_b out (length pre)
  | step_b =>
      out ← or_at (pre ++ x :: post) (length pre) (v / 16);
      out ← put_if out (length pre + 1) (v mod 16 * 2 ^ 4); base64_decode_block inp step_c out (length pre + 1)
  | step_c =>
      out ← or_at (pre ++ x :: post) (length pre) (v / 4);
      out ← put_if out (length pre + 1) (v mod 4 * 2 ^ 6); base64_decode_block inp step_d out (length pre + 1)
  | step_d => out ← or_at (pre ++ x :: post) (length pre) v; base64_decode_block inp step_a out (length pre + 1)
  end.
Proof.
  cbn [base64_decode_block]. rewrite (decide_False (P := (length _ <= _)%nat)) by (rewrite length_app; simpl; lia).
  rewrite decode_alphabet by done. cbn [mbind option_bind]. rewrite decide_False by lia.
  destruct (fragment_bits v Hv) as (-> & -> & -> & -> & -> & ->). done.
Qed.

Lemma step_a_ok :
  base64_decode_block (alphabet v :: inp) step_a (pre ++ x :: post) (length pre) =
  base64_decode_block inp step_b (pre ++ v * 2 ^ 2 :: post) (length pre).
Proof. rewrite enter, put_at_ok by lia. done. Qed.

End steps.

Section groups.
Variables (pre : bytes) (inp : bytes).

(** The last two bits of [a] and what [v] holds of the next byte. *)
Lemma step_b_ok a v y post :
  0 <= v < 64 -> is_byte a -> v / 16 = a mod 4 ->
  base64_decode_block (alphabet v :: inp) step_b (pre ++ a / 4 * 2 ^ 2 :: y :: post) (length pre) =
  base64_decode_block inp step_c ((pre ++ [a]) ++ v mod 16 * 2 ^ 4 :: post) (length (pre ++ [a])).
Proof.
  intros Hv Ha E. unfold is_byte in Ha. rewrite enter by done. rewrite E, or_at_ok by (Z.to_euclidean_division_equations; lia). cbn [mbind option_bind].
  replace (a / 4 * 2 ^ 2 + a mod 4) with a by (change (2 ^ 2) with 4; pose proof (Z.div_mod a 4); lia).
  replace (pre ++ a :: y :: post) with ((pre ++ [a]) ++ y :: post) by (by rewrite <- app_assoc).
  replace (length pre + 1)%nat with (length (pre ++ [a])) by (rewrite length_app; simpl; lia).
  unfold put_if. rewrite decide_True by (rewrite !length_app; simpl; lia).
  rewrite put_at_ok by (change (2 ^ 4) with 16; Z.to_euclidean_division_equations; lia). done.
Qed.

Lemma step_c_ok b v z post :
  0 <= v < 64 -> is_byte b -> v / 4 = b mod 16 ->
  base64_decode_block (alphabet v :: inp) step_c (pre ++ b / 16 * 2 ^ 4 :: z :: post) (length pre) =
  base64_decode_block inp step_d ((pre ++ [b]) ++ v mod 4 * 2 ^ 6 :: post) (length (pre ++ [b])).
Proof.
  intros Hv Ha E. unfold is_byte in Ha. rewrite enter by done. rewrite E, or_at_ok by (Z.to_euclidean_division_equations; lia). cbn [mbind option_bind].
  replace (b / 16 * 2 ^ 4 + b mod 16) with b by (change (2 ^ 4) with 16; pose proof (Z.div_mod b 16); lia).
  replace (pre ++ b :: z :: post) with ((pre ++ [b]) ++ z :: post) by (by rewrite <- app_assoc).
  replace (length pre + 1)%nat with (length (pre ++ [b])) by (rewrite length_app; simpl; lia).
  unfold put_if. rewrite decide_True by (rewrite !length_app; simpl; lia).
  rewrite put_at_ok by (change (2 ^ 6) with 64; Z.to_euclidean_division_equations; lia). done.
Qed.

Lemma step_d_ok c w post :
  is_byte c ->
  base64_decode_block (alphabet (c mod 64) :: inp) step_d (pre ++ c / 64 * 2 ^ 6 :: w :: post) (length pre) =
  base64_decode_block inp step_a ((pre ++ [c]) ++ w :: post) (length (pre ++ [c])).
Proof.
  intros Ha. unfold is_byte in Ha. rewrite enter by (apply Z.mod_pos_bound; lia).
  rewrite or_at_ok by (Z.to_euclidean_division_equations; lia). cbn [mbind option_bind].
  replace (c / 64 * 2 ^ 6 + c mod 64) with c by (change (2 ^ 6) with 64; pose proof (Z.div_mod c 64); lia).
  replace (pre ++ c :: w :: post) with ((pre ++ [c]) ++ w :: post) by (by rewrite <- app_assoc).
  by replace (length pre + 1)%nat with (length (pre ++ [c])) by (rewrite length_app; simpl; lia).
Qed.

(** A padding character is skipped. *)
Lemma pad_ok step x post :
  base64_decode_block (61 :: inp) step (pre ++ x :: post) (length pre) = base64_decode_block inp step (pre ++ x :: post) (length pre).
Proof.
  cbn [base64_decode_block]. rewrite (decide_False (P := (length _ <= _)%nat)) by (rewrite length_app; simpl; lia). done.
Qed.

End groups.

Lemma decode_end pre step x post : base64_decode_block [] step (pre ++ x :: post) (length pre) = Some (length pre, pre ++ x :: post).
Proof. cbn [base64_decode_block]. by rewrite lookup_app_r, Nat.sub_diag by lia. Qed.

(** The six-bit values of a group, and the last one of an incomplete group. *)
Lemma first_bits a : is_byte a -> 0 <= a / 4 < 64.
Proof. unfold is_byte. intros. Z.to_euclidean_division_equations. lia. Qed.

Lemma second_bits a h : 0 <= h < 16 ->
  0 <= a mod 4 * 16 + h < 64 /\ (a mod 4 * 16 + h) / 16 = a mod 4 /\ (a mod 4 * 16 + h) mod 16 = h.
Proof.
  intros Hh. pose proof (Z.mod_pos_bound a 4 ltac:(lia)). split; [lia|].
  rewrite Z.add_comm. rewrite Z.div_add, Z.mod_add, (Z.div_small h 16), (Z.mod_small h 16) by lia. lia.
Qed.

Lemma third_bits b h : 0 <= h < 4 ->
  0 <= b mod 16 * 4 + h < 64 /\ (b mod 16 * 4 + h) / 4 = b mod 16 /\ (b mod 16 * 4 + h) mod 4 = h.
Proof.
  intros Hh. pose proof (Z.mod_pos_bound b 16 ltac:(lia)). split; [lia|].
  rewrite Z.add_comm. rewrite Z.div_add, Z.mod_add, (Z.div_small h 4), (Z.mod_small h 4) by lia. lia.
Qed.

Lemma high_bits b : is_byte b -> 0 <= b / 16 < 16 /\ 0 <= b / 64 < 4.
Proof.
  unfold is_byte. intros. split; (split; [apply Z.div_pos; lia|apply Z.div_lt_upper_bound; lia]).
Qed.

Lemma decode_b64 n : forall bs pre rest, (length bs <= n)%nat -> Forall is_byte bs -> (length bs < length rest)%nat ->
  exists rest', base64_decode_block (b64 bs) step_a (pre ++ rest) (length pre) = Some ((length pre + length bs)%nat, pre ++ bs ++ rest') /\
    (length bs + length rest' = length rest)%nat.
Proof.
  induction n as [|n IH]; intros bs pre rest Hn Hb Hl.
  { assert (bs = []) as -> by (destruct bs; [done|simpl in Hn; lia]). destruct rest as [|x rest]; [simpl in Hl; lia|].
    exists (x :: rest). cbn [b64]. rewrite decode_end. by rewrite Nat.add_0_r. }
  destruct bs as [|a [|b [|c bs]]]; cbn [b64].
  - destruct rest as [|x rest]; [simpl in Hl; lia|]. exists (x :: rest). rewrite decode_end. by rewrite Nat.add_0_r.
  - apply Forall_cons in Hb as [Ha _]. destruct rest as [|x [|y rest]]; try (simpl in Hl; lia).
    destruct (second_bits a 0 ltac:(lia)) as (H2 & H2h & H2l). rewrite Z.add_0_r in *.
    rewrite step_a_ok by (by apply first_bits). rewrite step_b_ok by done. do 2 rewrite pad_ok. rewrite decode_end.
    rewrite length_app, <- app_assoc. eexists. split; [done|]. done.
  - apply Forall_cons in Hb as [Ha [Hb _]%Forall_cons]. destruct rest as [|x [|y [|z rest]]]; try (simpl in Hl; lia).
    destruct (second_bits a (b / 16)) as (H2 & H2h & H2l); [by apply high_bits|].
    destruct (third_bits b 0 ltac:(lia)) as (H3 & H3h & H3l). rewrite Z.add_0_r in *.
    rewrite step_a_ok by (by apply first_bits). rewrite step_b_ok, H2l by done. rewrite step_c_ok by done. rewrite pad_ok, decode_end.
    rewrite !length_app, <- !app_assoc. eexists. split; [simpl; f_equal; f_equal; lia|]. done.
  - apply Forall_cons in Hb as [Ha [Hb [Hc Hr]%Forall_cons]%Forall_cons]. destruct rest as [|x [|y [|z [|w rest]]]]; try (simpl in Hl; lia).
    destruct (second_bits a (b / 16)) as (H2 & H2h & H2l); [by apply high_bits|].
    destruct (third_bits b (c / 64)) as (H3 & H3h & H3l); [by apply high_bits|].
    rewrite step_a_ok by (by apply first_bits). rewrite step_b_ok, H2l by done. rewrite step_c_ok, H3l by done. rewrite step_d_ok by done.
    destruct (IH bs (((pre ++ [a]) ++ [b]) ++ [c]) (w :: rest)) as (rest' & -> & Hr'); [simpl in *; lia|done|simpl in *; lia|].
    exists rest'. rewrite !length_app, <- !app_assoc. split; [simpl; f_equal; f_equal; lia|simpl in *; lia].
Qed.

Lemma base64_decode_b64 bs out : Forall is_byte bs -> (length bs < length out)%nat ->
  exists rest, base64_decode (b64 bs) out = Some (length bs, bs ++ rest) /\ (length bs + length rest = length out)%nat.
Proof.
  intros Hb Hl. destruct out as [|x out]; [simpl in Hl; lia|]. unfold base64_decode.
  pose proof (put_at_ok [] x out 0 ltac:(lia)) as Hp. cbn [app length] in Hp. rewrite Hp. cbn [mbind option_bind].
  destruct (decode_b64 (length bs) bs [] (0 :: out)) as (rest & E & Hr); [lia|done|done|]. by exists rest.
Qed.

(** The character after the last of the table, '{', reads past its end. *)
Example decode_value_overrun : base64_decode_value 123 = None.
Proof. reflexivity. Qed.

(** A block that is filled is read past its end. *)
Example decode_full : base64_decode [65; 65; 65; 65] [0; 0; 0] = None.
Proof. reflexivity. Qed.
