(* ===== verification/Base64Spec.v ===== *)
(** * Correctness of base64 (third_party/base64.c)

    The encoder stays within its output, whatever its size; when it has the size
    [base64_bufsize] it writes the encoding of RFC 4648 in lines of 72
    characters, from which the decoder gets the input back. *)

From S2P Require Import Prelude Base64.

(** ** Values of six bits *)

Lemma encode_alphabet v : 0 <= v < 64 -> base64_encode_value v = Some (alphabet v).
Proof.
  intros Hv. assert (exists n : nat, (n < 64)%nat /\ v = Z.of_nat n) as (n & Hn & ->) by (exists (Z.to_nat v); lia).
  do 64 (destruct n as [|n]; [reflexivity|]). lia.
Qed.

Lemma alphabet_char v : 0 <= v < 64 -> is_byte (alphabet v) /\ alphabet v <> 10.
Proof. intros Hv. unfold alphabet, is_byte. repeat case_decide; lia. Qed.

Lemma lor_64 x y : 0 <= x < 64 -> 0 <= y < 64 -> 0 <= Z.lor x y < 64.
Proof.
  intros Hx Hy. split; [apply Z.lor_nonneg; lia|].
  destruct (decide (Z.lor x y = 0)) as [->|]; [lia|].
  assert (0 <= Z.lor x y) by (apply Z.lor_nonneg; lia).
  apply (Z.log2_lt_pow2 _ 6); [lia|]. rewrite Z.log2_lor by lia.
  assert (forall z, 0 <= z < 64 -> Z.log2 z < 6) as Hlog.
  { intros z Hz. destruct (decide (z = 0)) as [->|]; [done|]. apply Z.log2_lt_pow2; lia. }
  pose proof (Hlog x Hx). pose proof (Hlog y Hy). lia.
Qed.

(** The bit fields of a byte. *)
Lemma byte_fields f : is_byte f ->
  Z.shiftr (Z.land f 0x0fc) 2 = f / 4 /\ Z.shiftl (Z.land f 0x003) 4 = f mod 4 * 16 /\
  Z.shiftr (Z.land f 0x0f0) 4 = f / 16 /\ Z.shiftl (Z.land f 0x00f) 2 = f mod 16 * 4 /\
  Z.shiftr (Z.land f 0x0c0) 6 = f / 64 /\ Z.shiftr (Z.land f 0x03f) 0 = f mod 64.
Proof.
  intros Hf. assert (exists n : nat, (n < 256)%nat /\ f = Z.of_nat n) as (n & Hn & ->) by (unfold is_byte in Hf; exists (Z.to_nat f); lia).
  assert (forallb (fun n => let f := Z.of_nat n in
    (Z.shiftr (Z.land f 0x0fc) 2 =? f / 4) && (Z.shiftl (Z.land f 0x003) 4 =? f mod 4 * 16) &&
    (Z.shiftr (Z.land f 0x0f0) 4 =? f / 16) && (Z.shiftl (Z.land f 0x00f) 2 =? f mod 16 * 4) &&
    (Z.shiftr (Z.land f 0x0c0) 6 =? f / 64) && (Z.shiftr (Z.land f 0x03f) 0 =? f mod 64)) (seq 0 256) = true) as Hc by (vm_compute; reflexivity).
  rewrite forallb_forall in Hc. specialize (Hc n). rewrite in_seq in Hc. specialize (Hc ltac:(lia)).
  cbn zeta in Hc. rewrite !Bool.andb_true_iff, !Z.eqb_eq in Hc. tauto.
Qed.

Lemma field_bounds f : is_byte f ->
  0 <= f / 4 < 64 /\ 0 <= f mod 4 * 16 < 64 /\ 0 <= f / 16 < 16 /\ 0 <= f mod 16 * 4 < 64 /\ 0 <= f / 64 < 4 /\ 0 <= f mod 64 < 64.
Proof. unfold is_byte. intros. Z.to_euclidean_division_equations. lia. Qed.

(** ** The encoder stays within its output *)

Lemma put_at_within out pos v : (pos < length out)%nat -> exists out', put_at out pos v = Some out' /\ length out' = length out.
Proof.
  intros Hp. unfold put_at. rewrite splice_Some by (simpl; lia). eexists. split; [done|].
  rewrite !length_app, length_take, length_drop. simpl. lia.
Qed.

Lemma emit_value_within out pos v : (pos < length out)%nat -> 0 <= v < 64 ->
  exists out', emit_value out pos v = Some (out', (pos + 1)%nat) /\ length out' = length out.
Proof.
  intros Hp Hv. unfold emit_value. rewrite encode_alphabet by done. cbn [mbind option_bind].
  destruct (put_at_within out pos (alphabet v) Hp) as (out' & -> & Hl). by exists out'.
Qed.

Local Ltac emit_within :=
  match goal with |- context [emit_value ?o ?p ?v] =>
    let out := fresh "out" in let E := fresh "E" in let Hl := fresh "Hl" in
    destruct (emit_value_within o p v) as (out & E & Hl); [lia|lia|]; rewrite E; clear E; cbn [mbind option_bind] end.

Local Ltac put_within :=
  match goal with |- context [put_at ?o ?p ?v] =>
    let out := fresh "out" in let E := fresh "E" in let Hl := fresh "Hl" in
    destruct (put_at_within o p v) as (out & E & Hl); [lia|]; rewrite E; clear E; cbn [mbind option_bind] end.

Lemma encode_block_within inp : forall step result out pos st,
  Forall is_byte inp -> 0 <= result < 64 -> 0 <= es_result st < 64 -> (pos <= length out)%nat ->
  exists pos' out' st', base64_encode_block inp step result out pos st = Some (pos', out', st') /\
    (pos' <= length out')%nat /\ length out' = length out /\ 0 <= es_result st' < 64.
Proof.
  induction inp as [|f inp IH]; intros step result out pos st Hi Hr Hs Hp; cbn [base64_encode_block]; [eauto 10|].
  apply Forall_cons in Hi as [Hf Hi]. case_decide; [eauto 10|].
  destruct (byte_fields f Hf) as (-> & -> & -> & -> & -> & ->). pose proof (field_bounds f Hf).
  assert (0 <= Z.lor result (f / 16) < 64 /\ 0 <= Z.lor result (f / 64) < 64) as [? ?] by (split; apply lor_64; lia).
  destruct step; emit_within.
  - destruct (IH step_B (f mod 4 * 16) out0 (pos + 1)%nat st) as (? & ? & ? & -> & ? & Hl' & ?); try done; try lia. rewrite Hl' in *. eauto 10 with lia.
  - destruct (IH step_C (f mod 16 * 4) out0 (pos + 1)%nat st) as (? & ? & ? & -> & ? & Hl' & ?); try done; try lia. rewrite Hl' in *. eauto 10 with lia.
  - emit_within. set (st1 := EncodeState _ _ _). case_decide.
    + case_decide; [exists (pos + 1 + 1)%nat, out1, st1; simpl; split; [done|lia]|]. put_within.
      edestruct (IH step_A (f mod 64) out2 (pos + 1 + 1 + 1)%nat) as (? & ? & ? & -> & ? & Hl' & ?); try done; try lia.
      do 3 eexists. split; [done|]. lia.
    + edestruct (IH step_A (f mod 64) out1 (pos + 1 + 1)%nat st1) as (? & ? & ? & -> & ? & Hl' & ?); try done; try lia.
      do 3 eexists. split; [done|]. lia.
Qed.

Lemma blockend_within out pos st : (pos <= length out)%nat -> 0 <= es_result st < 64 ->
  exists n out', base64_encode_blockend out pos st = Some (n, out') /\ (n <= length out')%nat /\ length out' = length out.
Proof.
  intros Hp Hr. unfold base64_encode_blockend. destruct (es_step st); cbn zeta.
  - case_decide; [eauto 10|]. put_within. do 2 eexists. split; [done|lia].
  - case_decide; [eauto 10|]. emit_within. do 2 put_within. case_decide; [do 2 eexists; split; [done|lia]|].
    put_within. do 2 eexists. split; [done|lia].
  - case_decide; [eauto 10|]. emit_within. put_within. case_decide; [do 2 eexists; split; [done|lia]|].
    put_within. do 2 eexists. split; [done|lia].
Qed.

Lemma encode_within bs out : Forall is_byte bs ->
  exists n out', base64_encode bs out = Some (n, out') /\ (n <= length out')%nat /\ length out' = length out.
Proof.
  intros Hb. unfold base64_encode.
  destruct (encode_block_within bs step_A 0 out 0 base64_encodestate_init) as (pos & out1 & st & -> & Hp & Hl & Hr); try done; try (simpl; lia).
  cbn [mbind option_bind]. destruct (blockend_within out1 pos st Hp Hr) as (n & out' & -> & Hn & Hl'). exists n, out'. split; [done|lia].
Qed.

(** ** Lines *)

(** The encoding with a line break after every 72 characters; [k] groups are
    on the current line. *)
Fixpoint b64_lines (k : nat) (bs : bytes) : bytes :=
  match bs with
  | a :: b :: c :: bs =>
      alphabet (a / 4) :: alphabet (a mod 4 * 16 + b / 16) :: alphabet (b mod 16 * 4 + c / 64) :: alphabet (c mod 64) ::
      (if decide (k = 17%nat) then 10 :: b64_lines 0 bs else b64_lines (S k) bs)
  | _ => b64 bs
  end.

Lemma emit_value_ok pre x post v : 0 <= v < 64 ->
  emit_value (pre ++ x :: post) (length pre) v = Some ((pre ++ [alphabet v]) ++ post, length (pre ++ [alphabet v])).
Proof.
  intros Hv. unfold emit_value. rewrite encode_alphabet by done. cbn [mbind option_bind].
  rewrite put_at_ok by (by apply alphabet_char). cbn [mbind option_bind]. by rewrite length_app, <- app_assoc.
Qed.

Lemma put_char_ok n pre x post v : n = length pre -> 0 <= v < 256 ->
  put_at (pre ++ x :: post) n v = Some ((pre ++ [v]) ++ post).
Proof. intros ->. intros. by rewrite put_at_ok, <- app_assoc. Qed.

(** The low bits of a byte and the high bits of the next. *)
Lemma lor_fields x k h : 0 <= k -> 0 <= h < 2 ^ k -> Z.lor (x * 2 ^ k) h = x * 2 ^ k + h.
Proof. intros. rewrite <- Z.shiftl_mul_pow2, Z.lor_comm, lor_shiftl, Z.shiftl_mul_pow2 by done. lia. Qed.

Section enter.
Variables (pre : bytes) (x : Z) (post : bytes) (f : Z) (inp : bytes) (r : Z) (st : base64_encodestate).
Hypothesis Hf : is_byte f.

Lemma enc_a :
  base64_encode_block (f :: inp) step_A r (pre ++ x :: post) (length pre) st =
  base64_encode_block inp step_B (f mod 4 * 16) ((pre ++ [alphabet (f / 4)]) ++ post) (length (pre ++ [alphabet (f / 4)])) st.
Proof.
  cbn [base64_encode_block]. rewrite (decide_False (P := (length _ <= _)%nat)) by (rewrite length_app; simpl; lia).
  destruct (byte_fields f Hf) as (-> & -> & _). by rewrite emit_value_ok by apply field_bounds, Hf.
Qed.

Lemma enc_b a : is_byte a ->
  let v := a mod 4 * 16 + f / 16 in
  base64_encode_block (f :: inp) step_B (a mod 4 * 16) (pre ++ x :: post) (length pre) st =
  base64_encode_block inp step_C (f mod 16 * 4) ((pre ++ [alphabet v]) ++ post) (length (pre ++ [alphabet v])) st.
Proof.
  intros Ha v. cbn [base64_encode_block]. rewrite (decide_False (P := (length _ <= _)%nat)) by (rewrite length_app; simpl; lia).
  destruct (byte_fields f Hf) as (_ & _ & -> & -> & _). pose proof (field_bounds a Ha). pose proof (field_bounds f Hf).
  rewrite (lor_fields _ 4) by lia. change (2 ^ 4) with 16. rewrite emit_value_ok by (unfold is_byte in *; Z.to_euclidean_division_equations; lia). done.
Qed.

(** The third byte of a group, with its line break. *)
Lemma enc_c b y z : is_byte b ->
  let v := b mod 16 * 4 + f / 64 in
  let st' k := EncodeState (es_step st) (es_result st) k in
  let pre' := (pre ++ [alphabet v]) ++ [alphabet (f mod 64)] in
  base64_encode_block (f :: inp) step_C (b mod 16 * 4) (pre ++ x :: y :: z :: post) (length pre) st =
  if decide (stepcount st + 1 = 18) then base64_encode_block inp step_A (f mod 64) ((pre' ++ [10]) ++ post) (length (pre' ++ [10])) (st' 0)
  else base64_encode_block inp step_A (f mod 64) (pre' ++ z :: post) (length pre') (st' (stepcount st + 1)).
Proof.
  intros Hb v st' pre'. cbn [base64_encode_block]. rewrite (decide_False (P := (length _ <= _)%nat)) by (rewrite length_app; simpl; lia).
  destruct (byte_fields f Hf) as (_ & _ & _ & _ & -> & ->). pose proof (field_bounds b Hb). pose proof (field_bounds f Hf).
  rewrite (lor_fields _ 2) by lia. change (2 ^ 2) with 4. rewrite emit_value_ok by (unfold is_byte in *; Z.to_euclidean_division_equations; lia).
  cbn [mbind option_bind]. rewrite emit_value_ok by lia. cbn [mbind option_bind stepcount es_step es_result].
  fold v. fold pre'. unfold BASE64_CHARS_PER_LINE. destruct (decide (stepcount st + 1 = 18)) as [E|E];
    [rewrite (decide_True (P := _ * 4 = 72)) by lia|by rewrite (decide_False (P := _ * 4 = 72)) by lia].
  rewrite (decide_False (P := (length _ <= _)%nat)) by (rewrite length_app; simpl; lia).
  rewrite put_char_ok by (done || lia). cbn [mbind option_bind]. by rewrite (length_app pre' [10]).
Qed.

End enter.

(** [base64_encode] from the state of a line. *)
Definition encode_from bs r out pos st : option (nat * bytes) :=
  '(res, out, state) ← base64_encode_block bs step_A r out pos st; base64_encode_blockend out res state.

Local Ltac out_of_room := rewrite decide_False by (rewrite !length_app; simpl; lia).
Local Ltac put_chars := rewrite ?put_char_ok by (rewrite ?length_app; simpl; lia); cbn [mbind option_bind].

(** The end of the input: a group of one or two bytes, or none. *)
Lemma encode_end bs k r pre rest st : Forall is_byte bs -> (length bs < 3)%nat -> (length (b64 bs) < length rest)%nat ->
  exists rest', encode_from bs r (pre ++ rest) (length pre) st =
    Some ((length pre + length (b64_lines k bs))%nat, pre ++ b64_lines k bs ++ 0 :: rest').
Proof.
  intros Hb Hn Hl. unfold encode_from. destruct bs as [|a [|b [|c bs]]]; cbn [b64_lines b64] in *; [| | |simpl in Hn; lia].
  - destruct rest as [|x rest]; [simpl in Hl; lia|]. exists rest.
    cbn [base64_encode_block mbind option_bind]. unfold base64_encode_blockend. cbn [es_step].
    out_of_room. put_chars. by rewrite Nat.add_0_r, <- app_assoc.
  - apply Forall_cons in Hb as [Ha _]. destruct rest as [|x [|y [|z [|w [|v rest]]]]]; try (simpl in Hl; lia). exists rest.
    rewrite enc_a by done. cbn [base64_encode_block mbind option_bind]. unfold base64_encode_blockend. cbn [es_step es_result].
    out_of_room. rewrite emit_value_ok by apply field_bounds, Ha. cbn [mbind option_bind]. do 2 put_chars.
    out_of_room. put_chars. rewrite <- !app_assoc, !length_app. simpl. do 2 f_equal. lia.
  - apply Forall_cons in Hb as [Ha [Hb _]%Forall_cons]. destruct rest as [|x [|y [|z [|w [|v rest]]]]]; try (simpl in Hl; lia). exists rest.
    rewrite enc_a by done. cbn [app]. rewrite enc_b by done. cbn [base64_encode_block mbind option_bind]. unfold base64_encode_blockend. cbn [es_step es_result].
    out_of_room. rewrite emit_value_ok by apply field_bounds, Hb. cbn [mbind option_bind]. put_chars.
    out_of_room. put_chars. rewrite <- !app_assoc, !length_app. simpl. do 2 f_equal. lia.
Qed.

Lemma encode_lines n : forall bs k r pre rest st, (length bs <= n)%nat -> Forall is_byte bs -> (k < 18)%nat ->
  stepcount st = Z.of_nat k -> (length (b64_lines k bs) < length rest)%nat ->
  exists rest', encode_from bs r (pre ++ rest) (length pre) st =
    Some ((length pre + length (b64_lines k bs))%nat, pre ++ b64_lines k bs ++ 0 :: rest').
Proof.
  induction n as [|n IH]; intros bs k r pre rest st Hn Hb Hk Hst Hl;
    (destruct (decide (length bs < 3)%nat); [apply encode_end; [done|done|]; destruct bs as [|? [|? [|? ?]]]; simpl in *; lia|]); [lia|].
  destruct bs as [|a [|b [|c bs]]]; try (simpl in *; lia). cbn [b64_lines] in *.
  apply Forall_cons in Hb as [Ha [Hb [Hc Hr]%Forall_cons]%Forall_cons].
  destruct rest as [|x [|y [|z [|w [|v rest]]]]]; try (simpl in Hl; lia).
  unfold encode_from in *. rewrite enc_a by done. cbn [app]. rewrite enc_b by done. cbn [app]. rewrite enc_c by done. rewrite Hst.
  revert Hl. destruct (decide (k = 17%nat)) as [->|Hk']; intros Hl; [rewrite decide_True by lia|rewrite decide_False by lia]; [set (k' := 0%nat)|set (k' := S k)];
    (match goal with |- context [base64_encode_block bs step_A ?r (?p ++ ?q) _ ?s] =>
      destruct (IH bs k' r p q s) as (rest'' & E) end; [simpl in *; lia|done|unfold k'; lia|cbn [stepcount]; unfold k'; lia|cbn [length] in *; fold k' in Hl; lia|]);
    exists rest''; rewrite E, <- !app_assoc, !length_app; simpl; do 2 f_equal; lia.
Qed.

(** ** What the lines are *)

(** Induction on groups of three bytes. *)
Lemma groups_ind (P : bytes -> Prop) :
  (forall bs, (length bs < 3)%nat -> Forall is_byte bs -> P bs) ->
  (forall a b c bs, is_byte a -> is_byte b -> is_byte c -> Forall is_byte bs -> P bs -> P (a :: b :: c :: bs)) ->
  forall bs, Forall is_byte bs -> P bs.
Proof.
  intros Hend Hstep bs. assert (exists n, (length bs <= n)%nat) as (n & Hn) by eauto. revert bs Hn.
  induction n as [|n IH]; intros bs Hn Hb; [apply Hend; [lia|done]|].
  destruct bs as [|a [|b [|c bs]]]; try (apply Hend; [simpl; lia|done]).
  pose proof Hb as [Ha [Hb' [Hc Hr]%Forall_cons]%Forall_cons]%Forall_cons. apply Hstep; try done. apply IH; [simpl in Hn; lia|done].
Qed.

Lemma group_chars a b c : is_byte a -> is_byte b -> is_byte c ->
  Forall (fun ch => ch <> 10) [alphabet (a / 4); alphabet (a mod 4 * 16 + b / 16); alphabet (b mod 16 * 4 + c / 64); alphabet (c mod 64)].
Proof.
  intros Ha Hb Hc. pose proof (field_bounds a Ha). pose proof (field_bounds b Hb). pose proof (field_bounds c Hc).
  unfold is_byte in *.
  repeat (apply Forall_cons; split; [apply alphabet_char; Z.to_euclidean_division_equations; lia|]). apply Forall_nil_2.
Qed.

Lemma end_chars bs : (length bs < 3)%nat -> Forall is_byte bs -> Forall (fun ch => ch <> 10) (b64 bs).
Proof.
  intros Hn Hb. destruct bs as [|a [|b [|c bs]]]; [apply Forall_nil_2| | |simpl in Hn; lia].
  - apply Forall_cons in Hb as [Ha _]. pose proof (group_chars a 0 0 Ha ltac:(done) ltac:(done)) as Hg.
    rewrite Z.add_0_r in Hg. do 2 apply Forall_cons in Hg as [? Hg]. by repeat constructor.
  - apply Forall_cons in Hb as [Ha [Hb _]%Forall_cons]. pose proof (group_chars a b 0 Ha Hb ltac:(done)) as Hg.
    rewrite Z.add_0_r in Hg. do 3 apply Forall_cons in Hg as [? Hg]. by repeat constructor.
Qed.

Lemma filter_all {A} (P : A -> Prop) `{forall x, Decision (P x)} l : Forall P l -> filter P l = l.
Proof. induction 1 as [|x l Hx _ IH]; [done|]. rewrite filter_cons_True by done. by rewrite IH. Qed.

(** Without the line breaks: RFC 4648. *)
Lemma b64_lines_filter bs : Forall is_byte bs -> forall k, filter (fun ch => ch <> 10) (b64_lines k bs) = b64 bs.
Proof.
  revert bs. apply (groups_ind (fun bs => forall k, filter (fun ch => ch <> 10) (b64_lines k bs) = b64 bs)).
  - intros bs Hn Hb k. rewrite <- (filter_all _ (b64 bs) (end_chars bs Hn Hb)). by destruct bs as [|? [|? [|? ?]]]; [..|simpl in Hn; lia].
  - intros a b c bs Ha Hb Hc Hr IH k. pose proof (group_chars a b c Ha Hb Hc) as Hg. cbn [b64_lines b64].
    do 4 (apply Forall_cons in Hg as [? Hg]; rewrite filter_cons_True by done). do 4 f_equal.
    destruct (decide (k = 17%nat)); [rewrite filter_cons_False by (intros []; done)|]; apply IH.
Qed.

(** The line breaks are after every 72 characters. *)
Lemma b64_lines_breaks bs : Forall is_byte bs -> forall k i ch, (k < 18)%nat ->
  b64_lines k bs !! i = Some ch -> (ch = 10 <-> ((4 * k + i) mod 73 = 72)%nat).
Proof.
  revert bs. apply (groups_ind (fun bs => forall k i ch, (k < 18)%nat -> b64_lines k bs !! i = Some ch -> (ch = 10 <-> ((4 * k + i) mod 73 = 72)%nat))).
  - intros bs Hn Hb k i ch Hk Hi.
    assert (b64_lines k bs = b64 bs) as E by (by destruct bs as [|? [|? [|? ?]]]; [..|simpl in Hn; lia]). rewrite E in Hi.
    pose proof (Forall_lookup_1 _ _ _ _ (end_chars bs Hn Hb) Hi). apply lookup_lt_Some in Hi.
    assert (length (b64 bs) <= 4)%nat by (destruct bs as [|? [|? [|? ?]]]; simpl in *; lia). rewrite Nat.mod_small by lia. cbn beta in *. lia.
  - intros a b c bs Ha Hb Hc Hr IH k i ch Hk Hi. pose proof (group_chars a b c Ha Hb Hc) as Hg. cbn [b64_lines] in Hi.
    change (?w :: ?x :: ?y :: ?z :: ?l) with ([w; x; y; z] ++ l) in Hi.
    destruct (decide (i < 4)%nat) as [Hlt|Hge].
    + rewrite lookup_app_l in Hi by (simpl; lia). pose proof (Forall_lookup_1 _ _ _ _ Hg Hi). cbn beta in *.
      pose proof (Nat.mod_small (4 * k + i) 73 ltac:(lia)). lia.
    + rewrite lookup_app_r in Hi by (simpl; lia). cbn [length] in Hi. destruct (decide (k = 17%nat)) as [->|Hk'].
      * destruct (decide (i = 4%nat)) as [->|Hi4]; [cbn in Hi; injection Hi as <-; done|].
        replace (i - 4)%nat with (S (i - 5)) in Hi by lia. cbn [lookup list_lookup] in Hi.
        rewrite (IH 0%nat _ _ ltac:(lia) Hi). replace (4 * 17 + i)%nat with (4 * 0 + (i - 5) + 1 * 73)%nat by lia.
        by rewrite Nat.Div0.mod_add.
      * rewrite (IH (S k) _ _ ltac:(lia) Hi). by replace (4 * S k + (i - 4))%nat with (4 * k + i)%nat by lia.
Qed.

Lemma length_b64_lines bs : Forall is_byte bs -> forall k, (k < 18)%nat ->
  zlen (b64_lines k bs) = (zlen bs + 2) / 3 * 4 + (zlen bs / 3 + Z.of_nat k) / 18.
Proof.
  revert bs. apply (groups_ind (fun bs => forall k, (k < 18)%nat -> zlen (b64_lines k bs) = (zlen bs + 2) / 3 * 4 + (zlen bs / 3 + Z.of_nat k) / 18)).
  - intros bs Hn Hb k Hk. rewrite (Z.div_small (zlen bs) 3) by (unfold zlen; lia). rewrite (Z.div_small (0 + _)) by lia.
    by destruct bs as [|? [|? [|? ?]]]; [..|simpl in Hn; lia].
  - intros a b c bs Ha Hb Hc Hr IH k Hk. cbn [b64_lines].
    destruct (decide (k = 17%nat)) as [->|Hk']; [specialize (IH 0%nat ltac:(lia))|specialize (IH (S k) ltac:(lia))];
      unfold zlen in *; cbn [length]; Z.to_euclidean_division_equations; lia.
Qed.

(** [base64_bufsize] is enough for the lines and the null. *)
Lemma bufsize_enough bs size : Forall is_byte bs -> base64_bufsize (zlen bs) = Some size -> zlen (b64_lines 0 bs) < size.
Proof.
  intros Hb. unfold base64_bufsize, BASE64_CHARS_PER_LINE. case_decide; [done|]. intros [= <-].
  rewrite (length_b64_lines bs Hb 0) by lia. unfold zlen. Z.to_euclidean_division_equations. lia.
Qed.

(** ** Decoding *)

(** The decoder skips a line break. *)
Lemma decode_filter inp : forall step out pos,
  base64_decode_block inp step out pos = base64_decode_block (filter (fun ch => ch <> 10) inp) step out pos.
Proof.
  induction inp as [|ch inp IH]; intros step out pos; [done|].
  destruct (decide (ch = 10)) as [->|Hch].
  - rewrite filter_cons_False by (intros []; done). rewrite <- IH. cbn [base64_decode_block].
    change (base64_decode_value 10) with (Some (-1)). cbn [mbind option_bind]. rewrite (decide_True (P := -1 < 0)) by lia.
    case_decide as Hout; [|done]. destruct inp as [|ch' inp]; cbn [base64_decode_block]; [|by rewrite decide_True].
    rewrite lookup_ge_None_2 by done. done.
  - rewrite filter_cons_True by done. cbn [base64_decode_block]. case_decide; [done|].
    destruct (base64_decode_value ch) as [v|]; [|done]. cbn [mbind option_bind]. case_decide; [apply IH|].
    destruct step; repeat (match goal with |- context [?o ≫= _] => destruct o; [cbn [mbind option_bind]|done] end); apply IH.
Qed.

(** C27: whatever the size of its output, the encoder neither reads nor writes
    outside of its memory, and reports at most that size.  In an output of
    [base64_bufsize] bytes it writes the encoding of RFC 4648, broken after
    every 72 characters and terminated with a null, and returns its length; the
    decoder gets the input back from it, in a block that has room for one byte
    more, and touches nothing outside of the block. *)
Theorem base64_roundtrip bs out dst :
  Forall is_byte bs ->
  exists n out', base64_encode bs out = Some (n, out') /\ (n <= length out)%nat /\ length out' = length out /\
    (forall size, base64_bufsize (zlen bs) = Some size -> size <= zlen out -> (length bs < length dst)%nat ->
      exists enc rest, n = length enc /\ out' = enc ++ 0 :: rest /\
        filter (fun ch => ch <> 10) enc = b64 bs /\
        (forall i ch, enc !! i = Some ch -> (ch = 10 <-> (i mod 73 = 72)%nat)) /\
        exists rest', base64_decode enc dst = Some (length bs, bs ++ rest') /\ (length bs + length rest' = length dst)%nat).
Proof.
  intros Hb. destruct (encode_within bs out Hb) as (n & out' & E & Hn & Hl). exists n, out'. split_and!; [done|lia|done|].
  intros size Hsize Hout Hdst. pose proof (bufsize_enough bs size Hb Hsize) as Hlt.
  destruct (encode_lines (length bs) bs 0 0 [] out base64_encodestate_init) as (rest & E'); [done|done|lia|done|unfold zlen in *; lia|].
  unfold encode_from in E'. cbn [app length] in E'. change (base64_encode bs out = Some ((0 + length (b64_lines 0 bs))%nat, b64_lines 0 bs ++ 0 :: rest)) in E'.
  rewrite E in E'. injection E' as -> ->. exists (b64_lines 0 bs), rest. split_and!; [done|done|by apply b64_lines_filter| |].
  - intros i ch Hi. exact (b64_lines_breaks bs Hb 0 i ch ltac:(lia) Hi).
  - destruct (base64_decode_b64 bs dst Hb Hdst) as (rest' & E' & Hr). exists rest'. split; [|done].
    unfold base64_decode in *. destruct (put_at dst 0 0); [|done]. cbn [mbind option_bind] in *.
    by rewrite decode_filter, b64_lines_filter.
Qed.

Lemma base64_roundtrip_witness :
  exists n out', base64_encode [116; 97; 114; 97] (replicate 12 9) = Some (n, out') /\ (n <= 12)%nat /\ length out' = 12%nat /\
    exists enc rest, n = length enc /\ out' = enc ++ 0 :: rest /\ filter (fun ch => ch <> 10) enc = b64 [116; 97; 114; 97] /\
    exists rest', base64_decode enc (replicate 5 9) = Some (4%nat, [116; 97; 114; 97] ++ rest').
Proof.
  destruct (base64_roundtrip [116; 97; 114; 97] (replicate 12 9) (replicate 5 9)) as (n & out' & E & Hn & Hl & H).
  { repeat (apply Forall_cons; split; [split; [discriminate|reflexivity]|]). apply Forall_nil_2. }
  exists n, out'. split; [exact E|]. split; [exact Hn|]. split; [exact Hl|].
  destruct (H 10) as (enc & rest & H1 & H2 & H3 & _ & rest' & H4 & _); [reflexivity|discriminate|simpl; lia|].
  exists enc, rest. split; [exact H1|]. split; [exact H2|]. split; [exact H3|]. exists rest'. exact H4.
Defined.

(** A line that is full: 54 bytes. *)
Example encode_line : option_map (fun r => (fst r, take 2 (drop 71 (snd r)))) (base64_encode (replicate 54 0) (replicate 80 9)) = Some (73%nat, [65; 10]).
Proof. reflexivity. Qed.

(** An output of 4/3 of the input: the last byte is lost, and no error tells. *)
Example encode_truncates : base64_encode [116; 97; 114] [9; 9; 9; 9] = Some (4%nat, [100; 71; 69; 61]) /\ b64 [116; 97] = [100; 71; 69; 61].
Proof. split; reflexivity. Qed.
