(* ===== verification/Auth.v ===== *)
(** * tnt/tnt_auth.c: authentication

    The client proves that it knows the password: it sends the password's hash
    under a mask that depends on the salt of the server's greeting
    ([chap-sha1]).  The second half shows that the packet is the request AUTH
    and that the server's check accepts it. *)

From S2P Require Import Prelude Msgpuck MsgpuckRef Mem Stream Buf Proto Object Commands CommandsSpec Murmur Sha1 Base64.

(** [tnt_xor]; [to] is one of the two operands, of which each byte is read
    before it is written. *)
Definition tnt_xor (left right : bytes) (len : nat) : option bytes :=
  left ← slice 0 len left; right ← slice 0 len right; Some (zip_with Z.lxor left right).

(** [tnt_scramble_prepare]; [ctx] is what the buffer of the local [SHA1_CTX]
    holds before it is initialised; [SHA1Final] wipes it. *)
Definition tnt_scramble_prepare (ctx salt pass : bytes) : option bytes :=
  c ← SHA1Update (SHA1Init ctx) pass;
  hash1 ← SHA1Final c;
  c ← SHA1Update (SHA1Init (replicate 64 0)) hash1;
  hash2 ← SHA1Final c;
  salt ← slice 0 TNT_SCRAMBLE_SIZE salt;
  c ← SHA1Update (SHA1Init (replicate 64 0)) salt;
  c ← SHA1Update c hash2;
  out ← SHA1Final c;
  tnt_xor hash1 out TNT_SCRAMBLE_SIZE.

(** "guest" and "chap-sha1" *)
Definition guest_name : bytes := [103; 117; 101; 115; 116].
Definition chap_sha1 : bytes := [99; 104; 97; 112; 45; 115; 104; 97; 49].

Section auth.
Context {MP : MsgPuck} {T : Type} {SK : Sink T}.
Implicit Types (s : stream T).

(** [tnt_auth_raw]: [user] is [None] for [NULL]; [base64_salt] is the memory at
    that pointer; [salt0] and [ctx0] are the uninitialised [salt\[64\]] and
    SHA-1 buffer. *)
Definition tnt_auth_raw (salt0 ctx0 : bytes) s (user : option bytes) (pass : bytes) (base64_salt : bytes) : option (Z * stream T) :=
  let guest := match user with None => true | Some user => bool_decide (user = guest_name) end in
  let user := if guest then guest_name else default [] user in
  '(hdr, s) ← start_package s TNT_OP_AUTH;
  let body1 := mp_encode_map 2 ++ mp_encode_uint TNT_USERNAME ++ mp_encode_strl (zlen user) in
  if guest then
    let body2 := mp_encode_uint TNT_TUPLE ++ mp_encode_array 0 in
    _ ← local 64 (body1 ++ body2);
    send_package s [hdr; body1; user; body2]
  else
    let body2 := mp_encode_uint TNT_TUPLE ++ mp_encode_array 2 ++ mp_encode_str chap_sha1 ++ mp_encode_strl (Z.of_nat TNT_SCRAMBLE_SIZE) in
    _ ← local 64 (body1 ++ body2);
    encoded ← slice 0 TNT_SALT_SIZE base64_salt;
    '(_, salt) ← base64_decode encoded salt0;
    scramble ← tnt_scramble_prepare ctx0 salt pass;
    send_package s [hdr; body1; user; body2; scramble].

End auth.

(** ** The server *)

(** The server keeps the hash of the hash of the password.  It takes the mask
    off the scramble and hashes what is left. *)
Definition server_accepts (salt hash2 scramble : bytes) : bool :=
  bool_decide (sha1 (zip_with Z.lxor scramble (sha1 (take TNT_SCRAMBLE_SIZE salt ++ hash2))) = hash2).

Lemma xor_twice (a b : bytes) : length a = length b -> zip_with Z.lxor (zip_with Z.lxor a b) b = a.
Proof.
  revert b. induction a as [|x a IH]; intros [|y b] Hl; try done. simpl in *. injection Hl as Hl. rewrite IH by done. f_equal.
  by rewrite Z.lxor_assoc, Z.lxor_nilpotent, Z.lxor_0_r.
Qed.

Lemma sha1_length m : length (sha1 m) = 20%nat.
Proof.
  unfold sha1. pose proof (absorb_state (length (sha_pad m)) iv (sha_pad m) eq_refl) as Hs. simpl in Hs.
  destruct (fst _) as [|a [|b [|c [|d [|e [|]]]]]]; try done.
Qed.

Lemma sha1_bytes m : Forall is_byte (sha1 m).
Proof. unfold sha1. apply Forall_concat, Forall_fmap, Forall_true. intros x. apply be_bytes. Qed.

Definition scramble_of (salt pass : bytes) : bytes :=
  zip_with Z.lxor (sha1 pass) (sha1 (take TNT_SCRAMBLE_SIZE salt ++ sha1 (sha1 pass))).

Lemma one_update buf d : length buf = 64%nat -> Forall is_byte d -> zlen d < 2 ^ 31 ->
  exists c, SHA1Update (SHA1Init buf) d = Some c /\ SHA1Final c = Some (sha1 d).
Proof.
  intros Hb Hd Hl. pose proof (sha1_updates_eq buf [d] Hb) as H. cbn [updates concat] in H. rewrite app_nil_r in H.
  destruct (SHA1Update (SHA1Init buf) d) as [c|]; cbn [mbind option_bind] in H.
  - exists c. split; [done|]. apply H; [by repeat constructor|lia].
  - assert (None = Some (sha1 d)) by (apply H; [by repeat constructor|lia]). done.
Qed.

Lemma scramble_ok ctx salt pass :
  length ctx = 64%nat -> Forall is_byte pass -> zlen pass < 2 ^ 31 -> Forall is_byte (take TNT_SCRAMBLE_SIZE salt) -> (TNT_SCRAMBLE_SIZE <= length salt)%nat ->
  tnt_scramble_prepare ctx salt pass = Some (scramble_of salt pass).
Proof.
  intros Hc Hp Hl Hs Hsl. unfold tnt_scramble_prepare.
  destruct (one_update ctx pass Hc Hp Hl) as (c1 & -> & E1). cbn [mbind option_bind]. rewrite E1. cbn [mbind option_bind].
  destruct (one_update (replicate 64 0) (sha1 pass) eq_refl (sha1_bytes pass)) as (c2 & -> & E2); [unfold zlen; by rewrite sha1_length|].
  cbn [mbind option_bind]. rewrite E2. cbn [mbind option_bind].
  assert (slice 0 TNT_SCRAMBLE_SIZE salt = Some (take TNT_SCRAMBLE_SIZE salt)) as -> by (unfold slice; by rewrite decide_True).
  cbn [mbind option_bind].
  pose proof (sha1_updates_eq (replicate 64 0) [take TNT_SCRAMBLE_SIZE salt; sha1 (sha1 pass)] eq_refl) as H3.
  cbn [updates concat] in H3. rewrite app_nil_r in H3.
  assert (Forall (fun d => Forall is_byte d /\ zlen d < 2 ^ 31) [take TNT_SCRAMBLE_SIZE salt; sha1 (sha1 pass)]) as Hch.
  { repeat constructor; [done|unfold zlen; rewrite length_take; unfold TNT_SCRAMBLE_SIZE; lia|apply sha1_bytes|unfold zlen; by rewrite sha1_length]. }
  assert (zlen (take TNT_SCRAMBLE_SIZE salt ++ sha1 (sha1 pass)) < 2 ^ 60) as Hlen.
  { unfold zlen. rewrite length_app, sha1_length, length_take. unfold TNT_SCRAMBLE_SIZE. lia. }
  specialize (H3 Hch Hlen). destruct (SHA1Update _ (take TNT_SCRAMBLE_SIZE salt)) as [c3|]; cbn [mbind option_bind] in *; [|done].
  destruct (SHA1Update c3 _) as [c4|]; cbn [mbind option_bind] in *; [|done]. rewrite H3. cbn [mbind option_bind].
  unfold tnt_xor, slice. rewrite !sha1_length. change TNT_SCRAMBLE_SIZE with 20%nat. rewrite !decide_True by lia. cbn [mbind option_bind].
  rewrite !drop_0, !take_ge by (rewrite sha1_length; lia). done.
Qed.

(** ** The packet *)

Section packet.
Context {MP : MsgPuck} {MPS : MsgPuckSpec MP}.
Context {T : Type} {SK : Sink T} {SKS : SinkSpec T}.

Definition guest_fields : fields :=
  [obj TNT_USERNAME (mp_encode_str guest_name); obj TNT_TUPLE (mp_encode_array 0)].
Definition chap_fields (user scramble : bytes) : fields :=
  [obj TNT_USERNAME (mp_encode_str user); obj TNT_TUPLE (mp_encode_array 2 ++ mp_encode_str chap_sha1 ++ mp_encode_str scramble)].

Lemma scramble_length salt pass : length (scramble_of salt pass) = 20%nat.
Proof. unfold scramble_of. by rewrite length_zip_with, !sha1_length. Qed.

Lemma guest_map_len : zlen (body_map guest_fields) < 2 ^ 63.
Proof.
  unfold body_map. change (zlen guest_fields) with 2. pose proof (spec_len_map4 2 ltac:(lia)). pose proof (spec_len_array4 0 ltac:(lia)).
  pose proof (spec_len_strl5 (zlen guest_name) ltac:(done)). unfold guest_fields, obj, field_bytes, mp_encode_str. cbn [concat fmap list_fmap fst snd].
  rewrite ?app_nil_r, !zlen_app, !key_len. change (zlen guest_name) with 5 in *. lia.
Qed.

Lemma chap_map_len user sc : zlen user < 2 ^ 31 -> length sc = 20%nat -> zlen (body_map (chap_fields user sc)) < 2 ^ 63.
Proof.
  intros Hu Hsc. assert (zlen sc = 20) as Hz by (unfold zlen; by rewrite Hsc). unfold body_map. change (zlen (chap_fields user sc)) with 2.
  pose proof (spec_len_map4 2 ltac:(lia)). pose proof (spec_len_array4 2 ltac:(lia)). pose proof (spec_len_strl (zlen user) ltac:(len)).
  pose proof (spec_len_strl5 (zlen chap_sha1) ltac:(done)). pose proof (spec_len_strl5 (zlen sc) ltac:(lia)).
  unfold chap_fields, obj, field_bytes, mp_encode_str. cbn [concat fmap list_fmap fst snd].
  rewrite ?app_nil_r, !zlen_app, !key_len. change (zlen chap_sha1) with 9 in *. lia.
Qed.

Lemma auth_raw_guest salt0 ctx0 (s : stream T) user pass b :
  0 <= st_reqid s < 2 ^ 64 -> user = None \/ user = Some guest_name ->
  emits s (tnt_auth_raw salt0 ctx0 s user pass b) TNT_OP_AUTH guest_fields.
Proof.
  intros Hq Hu. unfold tnt_auth_raw. rewrite start_ok by done. cbn [mbind option_bind].
  assert ((match user with None => true | Some user => bool_decide (user = guest_name) end) = true) as ->
    by (destruct Hu as [->| ->]; [done|by rewrite bool_decide_eq_true]).
  pose proof (spec_len_map4 2 ltac:(lia)). pose proof (spec_len_array4 0 ltac:(lia)). pose proof (spec_len_strl5 (zlen guest_name) ltac:(done)).
  rewrite (local_Some 64) by (rewrite !zlen_app, !key_len; lia). cbn [mbind option_bind].
  apply send_fields; [done| |apply guest_map_len]. unfold body_map. change (zlen guest_fields) with 2.
  unfold guest_fields, obj, field_bytes, mp_encode_str. cbn [concat fmap list_fmap fst snd]. rewrite ?app_nil_r. by rewrite <- !app_assoc.
Qed.

Lemma auth_raw_chap salt0 ctx0 (s : stream T) user pass salt :
  0 <= st_reqid s < 2 ^ 64 -> user <> guest_name -> zlen user < 2 ^ 31 ->
  length salt0 = 64%nat -> length ctx0 = 64%nat -> Forall is_byte pass -> zlen pass < 2 ^ 31 ->
  Forall is_byte salt -> length salt = 32%nat -> forall rest,
  emits s (tnt_auth_raw salt0 ctx0 s (Some user) pass (b64 salt ++ rest)) TNT_OP_AUTH (chap_fields user (scramble_of salt pass)).
Proof.
  intros Hq Hu Hul Hs0 Hc0 Hp Hpl Hsb Hsl rest. unfold tnt_auth_raw. rewrite start_ok by done. cbn [mbind option_bind].
  rewrite bool_decide_eq_false_2 by done. change (default [] (Some user)) with user.
  pose proof (spec_len_map4 2 ltac:(lia)). pose proof (spec_len_array4 2 ltac:(lia)). pose proof (spec_len_strl (zlen user) ltac:(len)).
  pose proof (spec_len_strl5 (zlen chap_sha1) ltac:(done)). pose proof (spec_len_strl5 (Z.of_nat TNT_SCRAMBLE_SIZE) ltac:(done)).
  assert (zlen chap_sha1 = 9) as Hc9 by done.
  rewrite (local_Some 64) by (unfold mp_encode_str; rewrite !zlen_app, !key_len; lia). cbn [mbind option_bind].
  assert (length (b64 salt) = 44%nat) as H44.
  { do 32 (destruct salt as [|? salt]; [done|]). by destruct salt. }
  assert (slice 0 TNT_SALT_SIZE (b64 salt ++ rest) = Some (b64 salt)) as ->.
  { unfold slice. change TNT_SALT_SIZE with 44%nat. rewrite decide_True by (rewrite length_app; lia). by rewrite drop_0, take_app_length'. }
  cbn [mbind option_bind].
  destruct (base64_decode_b64 salt salt0 Hsb ltac:(lia)) as (junk & -> & Hj). cbn [mbind option_bind].
  assert (scramble_of (salt ++ junk) pass = scramble_of salt pass) as Esc.
  { unfold scramble_of. by rewrite (take_app_le salt junk) by (rewrite Hsl; unfold TNT_SCRAMBLE_SIZE; lia). }
  rewrite (scramble_ok ctx0 (salt ++ junk) pass Hc0 Hp Hpl).
  2: { rewrite take_app_le by (rewrite Hsl; unfold TNT_SCRAMBLE_SIZE; lia). by apply Forall_take. }
  2: { rewrite length_app, Hsl. unfold TNT_SCRAMBLE_SIZE. lia. }
  cbn [mbind option_bind]. rewrite Esc. pose proof (scramble_length salt pass) as Hscl. set (sc := scramble_of salt pass) in *.
  assert (zlen sc = 20) as Hz by (unfold zlen; by rewrite Hscl).
  apply send_fields; [done| |by apply chap_map_len]. unfold body_map. change (zlen (chap_fields user sc)) with 2.
  unfold chap_fields, obj, field_bytes, mp_encode_str. cbn [concat fmap list_fmap fst snd]. rewrite ?app_nil_r.
  change (Z.of_nat TNT_SCRAMBLE_SIZE) with 20. rewrite Hz. by rewrite <- !app_assoc.
Qed.

Lemma guest_fields_ok : Forall field_ok guest_fields.
Proof.
  unfold guest_fields, obj. apply Forall_cons; split; [|apply Forall_cons; split; [|apply Forall_nil_2]];
    (split; cbn [fst snd]; [by vm_compute|]).
  - apply mp_object_str. by vm_compute.
  - pose proof (mp_object_array [] (Forall_nil_2 _) eq_refl) as H. cbn [concat] in H. by rewrite app_nil_r in H.
Qed.

Lemma chap_fields_ok user sc : zlen user < 2 ^ 31 -> length sc = 20%nat -> Forall field_ok (chap_fields user sc).
Proof.
  intros Hu Hsc. unfold chap_fields, obj. apply Forall_cons; split; [|apply Forall_cons; split; [|apply Forall_nil_2]];
    (split; cbn [fst snd]; [by vm_compute|]).
  - apply mp_object_str. lia.
  - pose proof (mp_object_array [mp_encode_str chap_sha1; mp_encode_str sc]) as H. cbn [concat] in H. rewrite app_nil_r in H. apply H; [|done].
    repeat constructor; apply mp_object_str; [by vm_compute|]. unfold zlen. rewrite Hsc. done.
Qed.

(** The server's check takes the scramble that the client sends. *)
Lemma server_accepts_scramble salt pass : server_accepts salt (sha1 (sha1 pass)) (scramble_of salt pass) = true.
Proof. unfold server_accepts, scramble_of. rewrite xor_twice by (by rewrite !sha1_length). by apply bool_decide_eq_true. Qed.

Lemma auth_packet (s : stream T) res (fs : fields) :
  sends s res TNT_OP_AUTH fs -> 0 <= st_reqid s < 2 ^ 64 -> Forall field_ok fs -> zlen fs < 16 -> zlen (body_map fs) < 2 ^ 63 ->
  exists r s', res = Some (r, s') /\ st_reqid s' = u64 (st_reqid s + 1) /\ (sk_sure s -> r <> -1) /\
    (r = -1 \/ exists pkt, r = zlen pkt /\ sk_written s' = sk_written s ++ pkt /\
       forall rest, decode_packet (pkt ++ rest) = Some (header_fields TNT_OP_AUTH (st_reqid s), fs, rest)).
Proof.
  intros (r & s' & E & Er & Hsure & Hr) Hq Hf Hn Hl. exists r, s'. split; [done|]. split; [done|]. split; [intros Hs'; by apply Hsure|].
  destruct Hr as [?|(-> & _ & Hw)]; [by left|right]. eexists. split; [done|]. split; [done|]. intros rest.
  destruct (encode_header_ok TNT_OP_AUTH (st_reqid s) (request_code_bound _) Hq) as [_ Hh].
  apply decode_packet_app; try done; [lia|]. rewrite zlen_app. lia.
Qed.

(** C25: authentication: [tnt_auth_raw] with the salt of a greeting, for any
    user but guest, sends the request AUTH with the user's name, the method
    chap-sha1 and a scramble that the server's check accepts when it holds
    the double hash of the same password; a guest sends an empty tuple.
    Whatever the stack held does not matter. *)
Theorem auth_accepted salt0 ctx0 (s : stream T) user pass salt rest :
  sk_ok s -> 0 <= st_reqid s < 2 ^ 64 -> zlen user < 2 ^ 31 -> length salt0 = 64%nat -> length ctx0 = 64%nat ->
  Forall is_byte pass -> zlen pass < 2 ^ 31 -> Forall is_byte salt -> length salt = 32%nat ->
  exists r s', tnt_auth_raw salt0 ctx0 s (Some user) pass (b64 salt ++ rest) = Some (r, s') /\
    st_reqid s' = u64 (st_reqid s + 1) /\ (sk_sure s -> r <> -1) /\
    (r = -1 \/ exists pkt scramble, r = zlen pkt /\ sk_written s' = sk_written s ++ pkt /\
       server_accepts salt (sha1 (sha1 pass)) scramble = true /\
       forall rest, decode_packet (pkt ++ rest) =
         Some (header_fields TNT_OP_AUTH (st_reqid s), if bool_decide (user = guest_name) then guest_fields else chap_fields user scramble, rest)).
Proof.
  intros Hs Hq Hu Hs0 Hc0 Hp Hpl Hsb Hsl. pose proof (server_accepts_scramble salt pass) as Hacc. case_bool_decide as Hg.
  - destruct (auth_packet s _ guest_fields (emits_sends s _ _ _ Hs (auth_raw_guest salt0 ctx0 s (Some user) pass (b64 salt ++ rest) Hq ltac:(right; congruence))) Hq guest_fields_ok)
      as (r & s' & E & Er & Hsure & Hr); [done|apply guest_map_len|].
    exists r, s'. split; [done|]. split; [done|]. split; [done|]. destruct Hr as [?|(pkt & ? & ? & ?)]; [by left|right]. by exists pkt, (scramble_of salt pass).
  - pose proof (scramble_length salt pass) as Hscl.
    destruct (auth_packet s _ (chap_fields user (scramble_of salt pass)) (emits_sends s _ _ _ Hs (auth_raw_chap salt0 ctx0 s user pass salt Hq Hg Hu Hs0 Hc0 Hp Hpl Hsb Hsl rest))
      Hq (chap_fields_ok _ _ Hu Hscl)) as (r & s' & E & Er & Hsure & Hr); [done|by apply chap_map_len|].
    exists r, s'. split; [done|]. split; [done|]. split; [done|]. destruct Hr as [?|(pkt & ? & ? & ?)]; [by left|right]. by exists pkt, (scramble_of salt pass).
Qed.

End packet.

(** ** Witnesses *)

Definition demo_salt : bytes := (fun i => Z.of_nat (7 * i mod 256)) <$> seq 3 32.
Definition demo_user : bytes := [116; 101; 115; 116].

Lemma auth_accepted_witness :
  exists s' pkt scramble,
    tnt_auth_raw (MP := RefPuck) (replicate 64 5) (replicate 64 9) empty_buf (Some demo_user) [112; 119] (b64 demo_salt ++ [10]) = Some (zlen pkt, s') /\
    server_accepts demo_salt (sha1 (sha1 [112; 119])) scramble = true /\
    decode_packet (MP := RefPuck) (pkt ++ []) = Some (header_fields TNT_OP_AUTH 0, chap_fields demo_user scramble, []).
Proof.
  destruct (auth_accepted (MP := RefPuck) (SK := sbuf_sink unit) (replicate 64 5) (replicate 64 9) empty_buf demo_user [112; 119] demo_salt [10] empty_buf_ok)
    as (r & s' & E & _ & Hsure & Hr); try reflexivity.
  - split; [discriminate|reflexivity].
  - repeat (apply Forall_cons; split; [split; [discriminate|reflexivity]|]). apply Forall_nil_2.
  - apply (bool_decide_unpack _). vm_compute. exact I.
  - destruct Hr as [Hr|(pkt & sc & -> & _ & Ha & Hd)]; [exfalso; revert Hr; apply Hsure, empty_buf_sure|].
    exists s', pkt, sc. split; [exact E|]. split; [exact Ha|]. exact (Hd []).
Defined.

(** A greeting whose salt has the character '{' makes the decoder read past
    its table. *)
Example auth_bad_salt :
  tnt_auth_raw (MP := RefPuck) (replicate 64 5) (replicate 64 9) empty_buf (Some demo_user) [] (123 :: replicate 63 65) = None.
Proof. vm_compute. reflexivity. Qed.
