(* ===== verification/Connect.v ===== *)
(** * tnt/tnt_io.c: establishing a connection

    The system calls of this part are the class [SysConnect].  The constants
    are those of Linux.  The list that [getaddrinfo] stores is a Rocq list, []
    for [NULL]; a socket address is a byte string. *)

From S2P Require Import Prelude Mem Uri Stream Buf System Opt Io.

(** [struct addrinfo], the fields the code reads. *)
Record addrinfo := Addrinfo { ai_family : Z; ai_socktype : Z; ai_protocol : Z; ai_addr : bytes }.

Definition EAGAIN : Z := 11.
Definition EINPROGRESS : Z := 115.
Definition O_NONBLOCK : Z := 2048.
Definition SOCK_STREAM : Z := 1.
Definition IPPROTO_TCP : Z := 6.
Definition PF_UNIX : Z := 1.
Definition SO_SNDBUF : Z := 7.
Definition SO_RCVBUF : Z := 8.
Definition SO_RCVTIMEO : Z := 20.
Definition SO_SNDTIMEO : Z := 21.

Class SysConnect (W : Type) := {
  (** [getaddrinfo(host, port, hints, &res)] with the type and the protocol of the hints *)
  sys_getaddrinfo : bytes -> bytes -> Z -> Z -> W -> Z * list addrinfo * W;
  sys_freeaddrinfo : list addrinfo -> W -> W;
  sys_socket : Z -> Z -> Z -> W -> Z * W;
  (** [fcntl] with [F_GETFL] and [F_SETFL] *)
  sys_getfl : Z -> W -> Z * W;
  sys_setfl : Z -> Z -> W -> Z * W;
  (** [setsockopt(fd, IPPROTO_TCP, TCP_NODELAY, &val)] and [setsockopt(fd, SOL_SOCKET, opt, &tv)] *)
  sys_nodelay : Z -> Z -> W -> Z * W;
  sys_timeout : Z -> Z -> timeval -> W -> Z * W;
  sys_connect : Z -> bytes -> W -> Z * W;
  sys_gettimeofday : W -> Z * timeval * W;
  (** [poll] of one descriptor for [POLLOUT] with a timeout *)
  sys_poll : Z -> Z -> W -> Z * W;
  (** [getsockopt(fd, SOL_SOCKET, SO_ERROR, &opt)]: the result and [opt], which was 0 *)
  sys_so_error : Z -> W -> Z * Z * W;
}.

(** A [long]; overflow is undefined. *)
Definition to_long (z : Z) : option Z := if decide (- 2 ^ 63 <= z < 2 ^ 63) then Some z else None.

Definition TIMEVAL_TO_MSEC (tv : timeval) : option Z :=
  s ← to_long (tv_sec tv * 1000); to_long (s + Z.quot (tv_usec tv) 1000).
Definition TIMEVAL_DIFF_MSEC (tv1 tv2 : timeval) : option Z :=
  d ← to_long (tv_sec tv1 - tv_sec tv2); s ← to_long (d * 1000);
  u ← to_long (tv_usec tv1 - tv_usec tv2); to_long (s + Z.quot u 1000).

(** The string at the start of [mem]. *)
Definition c_string (mem : bytes) : option bytes := n ← strlen mem; Some (take n mem).

Section connect.
Context {W : Type} {SY : Sys W} {SC : SysConnect W} {Sch : Type}.
Implicit Types (s : snet W Sch) (w : W).

Definition put_errno e s : snet W Sch := Snet (opt s) (connected s) (fd s) (n_sbuf s) (rbuf s) (n_error s) e (greeting s) (n_schema s) (inited s).

Definition tnt_io_resolve (hostname port : bytes) w : tnt_error * list addrinfo * W :=
  let '(rc, addr_info, w) := sys_getaddrinfo hostname port SOCK_STREAM IPPROTO_TCP w in
  if decide (rc = 0 /\ addr_info <> []) then (TNT_EOK, addr_info, w) else (TNT_ERESOLVE, [], w).

Definition tnt_io_nonblock s (set : bool) w : tnt_error * snet W Sch * W :=
  let '(flags, w) := sys_getfl (fd s) w in
  if decide (flags = -1) then (TNT_ESYSTEM, put_errno (sys_errno w) s, w) else
  let flags := if set then Z.lor flags O_NONBLOCK else Z.land flags (Z.lnot O_NONBLOCK) in
  let '(rc, w) := sys_setfl (fd s) flags w in
  if decide (rc = -1) then (TNT_ESYSTEM, put_errno (sys_errno w) s, w) else (TNT_EOK, s, w).

(** [while (1)]: wait until the socket is writable. *)
Fixpoint wait_loop (fuel : nat) s (start_connect : timeval) (timeout : Z) w : option (tnt_error * snet W Sch * W) :=
  match fuel with
  | O => None
  | S fuel =>
      let '(ret, w) := sys_poll (fd s) timeout w in
      if decide (ret = -1) then
        if decide (sys_errno w = EINTR \/ sys_errno w = EAGAIN) then
          let '(rc, curr, w) := sys_gettimeofday w in
          if decide (rc = -1) then Some (TNT_ESYSTEM, put_errno (sys_errno w) s, w) else
          passed_time ← TIMEVAL_DIFF_MSEC curr start_connect;
          if decide (timeout <= s32 passed_time) then Some (TNT_ETMOUT, s, w)
          else wait_loop fuel s start_connect timeout w
        else Some (TNT_ESYSTEM, put_errno (sys_errno w) s, w)
      else if decide (ret = 0) then Some (TNT_ETMOUT, s, w)
      else Some (TNT_EOK, s, w)
  end.

Variable fuel : nat.

Definition tnt_io_connect_do s (addr : bytes) w : option (tnt_error * snet W Sch * W) :=
  let '(result, s, w) := tnt_io_nonblock s true w in
  if decide (result <> TNT_EOK) then Some (result, s, w) else
  let '(rc, w) := sys_connect (fd s) addr w in
  if decide (rc <> -1) then Some (TNT_EOK, s, w) else
  if decide (sys_errno w = EINPROGRESS) then
    let '(rc, start_connect, w) := sys_gettimeofday w in
    if decide (rc = -1) then Some (TNT_ESYSTEM, put_errno (sys_errno w) s, w) else
    timeout ← TIMEVAL_TO_MSEC (tmout_connect (opt s));
    '(result, s, w) ← wait_loop fuel s start_connect (s32 timeout) w;
    if decide (result <> TNT_EOK) then Some (result, s, w) else
    let '(rc, op, w) := sys_so_error (fd s) w in
    if decide (rc = -1 \/ op <> 0) then
      Some (TNT_ESYSTEM, put_errno (if decide (op <> 0) then op else sys_errno w) s, w)
    else Some (tnt_io_nonblock s false w)
  else Some (TNT_ESYSTEM, put_errno (sys_errno w) s, w).

Definition tnt_io_setopts s w : option (tnt_error * snet W Sch * W) :=
  u ← opt_uri (opt s);
  let '(rc, w) := if decide (host_hint u <> URI_UNIX) then sys_nodelay (fd s) 1 w else (0, w) in
  if decide (rc = -1) then Some (TNT_ESYSTEM, put_errno (sys_errno w) s, w) else
  '(_, w) ← tnt_io_xbufmax s SO_SNDBUF (send_buf (opt s)) w;
  '(_, w) ← tnt_io_xbufmax s SO_RCVBUF (recv_buf (opt s)) w;
  let '(rc, w) := sys_timeout (fd s) SO_SNDTIMEO (tmout_send (opt s)) w in
  if decide (rc = -1) then Some (TNT_ESYSTEM, put_errno (sys_errno w) s, w) else
  let '(rc, w) := sys_timeout (fd s) SO_RCVTIMEO (tmout_recv (opt s)) w in
  if decide (rc = -1) then Some (TNT_ESYSTEM, put_errno (sys_errno w) s, w) else
  Some (TNT_EOK, s, w).

(** The loop over the addresses. *)
Fixpoint addr_loop s (l : list addrinfo) (result : tnt_error) w : option (tnt_error * snet W Sch * W) :=
  match l with
  | [] => Some (result, s, w)
  | addr :: l =>
      let '(f, w) := sys_socket (ai_family addr) (ai_socktype addr) (ai_protocol addr) w in
      let s := put_fd (connected s) f s in
      if decide (f < 0) then addr_loop (put_errno (sys_errno w) s) l TNT_ESYSTEM w else
      '(result, s, w) ← tnt_io_setopts s w;
      if decide (result <> TNT_EOK) then let '(s, w) := tnt_io_close s w in addr_loop s l result w else
      '(result, s, w) ← tnt_io_connect_do s (ai_addr addr) w;
      if decide (result <> TNT_EOK) then let '(s, w) := tnt_io_close s w in addr_loop s l result w else
      Some (result, s, w)
  end.

Definition tnt_io_connect_tcp s (host port : bytes) w : option (tnt_error * snet W Sch * W) :=
  let '(result, addr_info, w) := tnt_io_resolve host port w in
  '(result, s, w) ← (if decide (result <> TNT_EOK) then Some (result, s, w) else addr_loop s addr_info result w);
  Some (result, s, if decide (addr_info <> []) then sys_freeaddrinfo addr_info w else w).

(** [sizeof(addr.sun_path)] *)
Definition SUN_PATH : nat := 108.

(** The zeroed [struct sockaddr_un] with the family and the path;
    [strcpy] must stay in the array. *)
Definition sockaddr_un (path : bytes) : option bytes :=
  p ← splice 0 (path ++ [0]) (replicate SUN_PATH 0); Some ([PF_UNIX; 0] ++ p).

Definition tnt_io_connect_unix s (path : bytes) w : option (tnt_error * snet W Sch * W) :=
  let '(f, w) := sys_socket PF_UNIX SOCK_STREAM 0 w in
  let s := put_fd (connected s) f s in
  if decide (f < 0) then Some (TNT_ESYSTEM, put_errno (sys_errno w) s, w) else
  '(result, s, w) ← tnt_io_setopts s w;
  if decide (result <> TNT_EOK) then let '(s, w) := tnt_io_close s w in Some (result, s, w) else
  addr ← sockaddr_un path;
  let '(rc, w) := sys_connect (fd s) addr w in
  if decide (rc <> -1) then Some (TNT_EOK, s, w) else
  let '(s, w) := tnt_io_close (put_errno (sys_errno w) s) w in Some (TNT_ESYSTEM, s, w).

(** [char buf\[128\]; memcpy(buf, p, len); buf\[len\] = '\0']: the string in
    [buf]; nothing is copied from [NULL]. *)
Definition copy128 (str : bytes) (p : range) : option bytes :=
  bs ← match p with None => Some [] | Some (off, len) => slice off len str end;
  buf ← splice 0 (bs ++ [0]) (replicate 128 0);
  c_string buf.

(** The same for the host, which may be a literal. *)
Definition copy_host (str : bytes) (h : host_ptr) : option bytes :=
  match h with
  | HostAt p => copy128 str p
  | HostUnix => copy128 URI_HOST_UNIX (Some (0%nat, length URI_HOST_UNIX))
  end.

(** "3301" *)
Definition default_port : bytes := [51; 51; 48; 49].

(** The port is the string from [uri->service] on. *)
Definition port_of (str : bytes) (service : range) : option bytes :=
  match service with
  | None => Some default_port
  | Some (off, _) => if decide (off <= length str)%nat then c_string (drop off str) else None
  end.

(** [tnt_io_connect] *)
Definition tnt_io_connect s w : option (tnt_error * snet W Sch * W) :=
  u ← opt_uri (opt s);
  let str := default [] (block_of (uristr (opt s))) in
  '(result, s, w) ←
    match host_hint u with
    | URI_NAME | URI_IPV4 | URI_IPV6 =>
        port ← port_of str (uri_service u);
        host ← copy_host str (uri_host u);
        tnt_io_connect_tcp s host port w
    | URI_UNIX =>
        service ← copy128 str (uri_service u);
        tnt_io_connect_unix s service w
    end;
  if decide (result <> TNT_EOK) then Some (result, s, w) else Some (TNT_EOK, put_fd true (fd s) s, w).

End connect.
