(* ===== verification/ConnectSpec.v ===== *)
(** * Correctness of establishing a connection (tnt/tnt_io.c)

    Whatever the system answers, [tnt_io_connect] returns; it either leaves one
    new descriptor open, connected to an address of the server, or none. *)

From stdpp Require Import gmap.
From S2P Require Import Prelude Mem Uri Stream Buf System Opt Io IoSpec Connect.

(** What a socket has reached; [Writable]: [poll] has reported an event. *)
Inductive sock_state := Fresh | Pending (addr : bytes) | Writable (addr : bytes) | Peer (addr : bytes).

Class ObserveFds (W : Type) := {
  fds : W -> gset Z;               (** the open descriptors *)
  sock : W -> Z -> sock_state;
}.

Section contracts.
Context {W : Type} {OB : Observe W} {OF : ObserveFds W}.

(** A call that transfers no data. *)
Definition calm (w w' : W) : Prop := (interrupts w' <= interrupts w)%nat /\ sent w' = sent w /\ got w' = got w.
(** ... and has no effect on descriptors. *)
Definition quiet (w w' : W) : Prop := calm w w' /\ fds w' = fds w /\ forall f, sock w' f = sock w f.

Lemma calm_refl w : calm w w.
Proof. by repeat split. Qed.
Lemma calm_trans w1 w2 w3 : calm w1 w2 -> calm w2 w3 -> calm w1 w3.
Proof. intros (? & E1 & E2) (? & E3 & E4). split; [lia|]. by rewrite E3, E4. Qed.
Lemma quiet_refl w : quiet w w.
Proof. by repeat split. Qed.
Lemma quiet_trans w1 w2 w3 : quiet w1 w2 -> quiet w2 w3 -> quiet w1 w3.
Proof.
  intros (H1 & E1 & F1) (H2 & E2 & F2). split; [by eapply calm_trans|]. split; [by rewrite E2|].
  intros f. by rewrite F2.
Qed.

Definition time_ok (tv : timeval) : Prop := 0 <= tv_sec tv < 2 ^ 40 /\ 0 <= tv_usec tv < 10 ^ 6.

End contracts.

(** The documented behaviour of the system calls. *)
Class ConnectSpec (W : Type) `{Sys W, SysConnect W, Observe W, ObserveFds W} : Prop := {
  spec_getaddrinfo host port ty pr w rc l w' : sys_getaddrinfo host port ty pr w = (rc, l, w') -> quiet w w';
  spec_freeaddrinfo l w : quiet w (sys_freeaddrinfo l w);
  spec_getfl fd w r w' : sys_getfl fd w = (r, w') -> quiet w w';
  spec_setfl fd fl w r w' : sys_setfl fd fl w = (r, w') -> quiet w w';
  spec_nodelay fd v w r w' : sys_nodelay fd v w = (r, w') -> quiet w w';
  spec_timeout fd o tv w r w' : sys_timeout fd o tv w = (r, w') -> quiet w w';
  spec_setsockopt fd o v w r w' : sys_setsockopt fd o v w = (r, w') -> quiet w w';
  spec_gettimeofday w rc tv w' : sys_gettimeofday w = (rc, tv, w') -> quiet w w' /\ time_ok tv;
  spec_socket fam ty pr w r w' : sys_socket fam ty pr w = (r, w') ->
    calm w w' /\ ((r < 0 /\ fds w' = fds w) \/ (0 <= r /\ (r ∉ fds w) /\ fds w' = fds w ∪ {[r]}));
  spec_connect fd a w rc w' : sys_connect fd a w = (rc, w') ->
    calm w w' /\ fds w' = fds w /\ (rc <> -1 -> sock w' fd = Peer a) /\
    (rc = -1 -> sys_errno w' = EINPROGRESS -> sock w' fd = Pending a);
  spec_poll fd n w r w' : sys_poll fd n w = (r, w') ->
    calm w w' /\ fds w' = fds w /\
    (r = -1 -> sock w' fd = sock w fd /\
      (sys_errno w' = EINTR \/ sys_errno w' = EAGAIN -> (interrupts w' < interrupts w)%nat)) /\
    (r <> -1 -> r <> 0 -> forall a, sock w fd = Pending a -> sock w' fd = Writable a);
  spec_so_error fd w rc op w' : sys_so_error fd w = (rc, op, w') ->
    calm w w' /\ fds w' = fds w /\ (rc <> -1 -> op = 0 -> forall a, sock w fd = Writable a -> sock w' fd = Peer a);
  spec_close_fds fd w : calm w (sys_close fd w) /\ fds (sys_close fd w) = fds w ∖ {[fd]};
}.
Arguments ConnectSpec W {_ _ _ _}.

Section connect.
Context {W : Type} {SY : Sys W} {SC : SysConnect W} {OB : Observe W} {OF : ObserveFds W} {CS : ConnectSpec W} {Sch : Type}.
Implicit Types (s : snet W Sch) (w : W).

(** The streams differ at most in the descriptor, the connection status and errno. *)
Definition same_conn s s' : Prop := exists c f e, s' = put_errno e (put_fd c f s).

Lemma same_conn_refl s : same_conn s s.
Proof. exists (connected s), (fd s), (errno_ s). by destruct s. Qed.
Lemma same_conn_trans s1 s2 s3 : same_conn s1 s2 -> same_conn s2 s3 -> same_conn s1 s3.
Proof. intros (? & ? & ? & ->) (? & ? & ? & ->). by do 3 eexists. Qed.
Lemma same_conn_opt s s' : same_conn s s' -> opt s' = opt s.
Proof. by intros (? & ? & ? & ->). Qed.
Lemma same_conn_errno e s : same_conn s (put_errno e s).
Proof. by exists (connected s), (fd s), e. Qed.
Lemma same_conn_fd c f s : same_conn s (put_fd c f s).
Proof. by exists c, f, (errno_ s). Qed.

(** ** One attempt *)

(** A step on a socket: at most errno changes in the stream, no descriptor is
    opened or closed. *)
Definition on_socket s w (r : option (tnt_error * snet W Sch * W)) (goal : W -> Prop) : Prop :=
  exists result e w', r = Some (result, put_errno e s, w') /\ calm w w' /\ fds w' = fds w /\
    result ∈ [TNT_EOK; TNT_ESYSTEM; TNT_ETMOUT] /\ (result = TNT_EOK -> goal w').

Lemma put_errno_same s : s = put_errno (errno_ s) s.
Proof. by destruct s. Qed.

Lemma on_socket_fail s w w' result e (goal : W -> Prop) :
  calm w w' -> fds w' = fds w -> result ∈ [TNT_ESYSTEM; TNT_ETMOUT] -> on_socket s w (Some (result, put_errno e s, w')) goal.
Proof. intros H1 H2 H3. exists result, e, w'. repeat (split; [done|]). split; [set_solver|]. intros ->. set_solver. Qed.

Lemma on_socket_fail_same s w w' result (goal : W -> Prop) :
  calm w w' -> fds w' = fds w -> result ∈ [TNT_ESYSTEM; TNT_ETMOUT] -> on_socket s w (Some (result, s, w')) goal.
Proof. intros. rewrite (put_errno_same s) at 2. by apply on_socket_fail. Qed.

Lemma on_socket_ok s w w' (goal : W -> Prop) :
  calm w w' -> fds w' = fds w -> goal w' -> on_socket s w (Some (TNT_EOK, s, w')) goal.
Proof. intros H1 H2 H3. exists TNT_EOK, (errno_ s), w'. split; [by rewrite <- put_errno_same|]. split; [done|]. split; [done|]. split; [set_solver|done]. Qed.

Lemma on_socket_weaken s w w1 r (goal : W -> Prop) :
  calm w w1 -> fds w1 = fds w -> on_socket s w1 r goal -> on_socket s w r goal.
Proof.
  intros H1 H2 (res & e & w' & -> & H3 & H4 & H). exists res, e, w'. split; [done|].
  split; [by eapply calm_trans|]. split; [by rewrite H4|done].
Qed.

Lemma nonblock_ok s b w :
  on_socket s w (Some (tnt_io_nonblock s b w)) (fun w' => forall f, sock w' f = sock w f).
Proof.
  unfold tnt_io_nonblock. destruct (sys_getfl (fd s) w) as [fl w1] eqn:E1. apply spec_getfl in E1 as Hq1.
  case_decide. { destruct Hq1 as (? & ? & _). apply on_socket_fail; [done..|set_solver]. }
  destruct (sys_setfl _ _ w1) as [rc w2] eqn:E2. apply spec_setfl in E2 as Hq2.
  pose proof (quiet_trans _ _ _ Hq1 Hq2) as (Hc & Hf & Hs). case_decide; [apply on_socket_fail; [done..|set_solver]|].
  by apply on_socket_ok.
Qed.

Lemma msec_diff_ok a b : time_ok a -> time_ok b -> is_Some (TIMEVAL_DIFF_MSEC a b).
Proof.
  intros [Ha1 Ha2] [Hb1 Hb2]. unfold TIMEVAL_DIFF_MSEC, to_long.
  assert (- 10 ^ 6 <= Z.quot (tv_usec a - tv_usec b) 1000 <= 10 ^ 6) by (Z.to_euclidean_division_equations; lia).
  repeat (rewrite decide_True by lia; cbn [mbind option_bind]). by eexists.
Qed.

Lemma wait_ok n s st timeout w addr :
  (interrupts w < n)%nat -> time_ok st -> sock w (fd s) = Pending addr ->
  on_socket s w (wait_loop n s st timeout w) (fun w' => sock w' (fd s) = Writable addr).
Proof.
  intros Hn Hst. revert w Hn. induction n as [|n IH]; intros w Hn Hp; [lia|]. cbn [wait_loop].
  destruct (sys_poll _ _ w) as [r w1] eqn:E. apply spec_poll in E as (Hc & Hf & Hi & Hev).
  case_decide as Hr.
  - destruct (Hi Hr) as [Hs Hint]. case_decide as Herr; [|apply on_socket_fail; [done..|set_solver]].
    destruct (sys_gettimeofday w1) as [[rc tv] w2] eqn:Et. apply spec_gettimeofday in Et as [(Hc2 & Hf2 & Hs2) Htv].
    assert (calm w w2) as Hc' by (by eapply calm_trans). assert (fds w2 = fds w) as Hf' by (by rewrite Hf2).
    case_decide; [apply on_socket_fail; [done..|set_solver]|].
    destruct (msec_diff_ok tv st Htv Hst) as [p ->]. cbn [mbind option_bind].
    case_decide. { apply on_socket_fail_same; [done..|set_solver]. }
    eapply on_socket_weaken; [exact Hc'|exact Hf'|]. apply IH; [|by rewrite Hs2, Hs].
    specialize (Hint Herr). destruct Hc2 as [? _]. lia.
  - case_decide as Hr0. { apply on_socket_fail_same; [done..|set_solver]. }
    apply on_socket_ok; [done..|]. by apply Hev.
Qed.

Variable fuel : nat.

Lemma connect_do_ok s addr w :
  (interrupts w < fuel)%nat -> is_Some (TIMEVAL_TO_MSEC (tmout_connect (opt s))) ->
  on_socket s w (tnt_io_connect_do fuel s addr w) (fun w' => sock w' (fd s) = Peer addr).
Proof.
  intros Hi [ms Hms]. unfold tnt_io_connect_do.
  destruct (nonblock_ok s true w) as (res & e & w1 & E & Hc & Hf & Hres & Hs). injection E as ->.
  case_decide as Hok. { apply on_socket_fail; [done..|]. revert Hres. rewrite !elem_of_cons. tauto. }
  change (fd (put_errno e s)) with (fd s). change (opt (put_errno e s)) with (opt s).
  destruct (sys_connect _ addr w1) as [rc w2] eqn:Ec. apply spec_connect in Ec as (Hc2 & Hf2 & Hpeer & Hpend).
  assert (calm w w2) as Hcw by (by eapply calm_trans). assert (fds w2 = fds w) as Hfw by (by rewrite Hf2).
  case_decide as Hrc. { exists TNT_EOK, e, w2. repeat (split; [done|]). split; [set_solver|]. intros _. by apply Hpeer. }
  case_decide as Hin; [|apply (on_socket_fail s); [done..|set_solver]].
  destruct (sys_gettimeofday w2) as [[rc' st] w3] eqn:Et. apply spec_gettimeofday in Et as [(Hc3 & Hf3 & Hs3) Htv].
  eapply on_socket_weaken; [exact Hcw|exact Hfw|]. case_decide; [apply (on_socket_fail s); [done|done|set_solver]|].
  rewrite Hms. cbn [mbind option_bind].
  destruct (wait_ok fuel (put_errno e s) st (s32 ms) w3 addr) as (res4 & e4 & w4 & -> & Hc4 & Hf4 & Hres4 & Hw4).
  { destruct Hcw as [? _], Hc3 as [? _]. lia. } { done. }
  { rewrite Hs3. by apply Hpend. }
  cbn [mbind option_bind]. eapply on_socket_weaken; [exact Hc3|exact Hf3|].
  case_decide. { apply (on_socket_fail s); [done..|]. revert Hres4. rewrite !elem_of_cons. tauto. }
  change (fd (put_errno e4 (put_errno e s))) with (fd s) in *.
  destruct (sys_so_error _ w4) as [[rc5 op] w5] eqn:E5. apply spec_so_error in E5 as (Hc5 & Hf5 & Hp5).
  eapply on_socket_weaken; [exact Hc4|exact Hf4|].
  case_decide as Hop; [apply (on_socket_fail s); [done..|set_solver]|].
  eapply on_socket_weaken; [exact Hc5|exact Hf5|].
  destruct (nonblock_ok (put_errno e4 (put_errno e s)) false w5) as (res6 & e6 & w6 & -> & Hc6 & Hf6 & Hres6 & Hs6).
  exists res6, e6, w6. repeat (split; [done|]). intros Hr6. rewrite Hs6 by done.
  apply Hp5; [tauto|by apply dec_stable; tauto|]. by apply Hw4.
Qed.

(** ** Socket options *)

Lemma xbuf_total n s o lo hi w :
  0 <= lo <= 2 ^ 31 - 1 -> -1 <= hi <= 2 ^ 27 -> hi - lo + 1 < 2 ^ Z.of_nat n ->
  exists w', xbuf_loop n s o lo hi w = Some w' /\ quiet w w'.
Proof.
  revert lo hi w. induction n as [|n IH]; intros lo hi w Hlo Hhi Hn; cbn [xbuf_loop].
  - change (2 ^ Z.of_nat 0) with 1 in Hn. rewrite decide_True by lia. exists w. split; [done|apply quiet_refl].
  - rewrite Nat2Z.inj_succ, Z.pow_succ_r in Hn by lia. case_decide as Hd.
    { exists w. split; [done|apply quiet_refl]. }
    rewrite decide_True by lia. rewrite (u32_small (lo + hi)) by lia.
    set (avg := (lo + hi) / 2). assert (lo <= avg <= hi /\ 2 * avg <= lo + hi < 2 * avg + 2) as [Ha Hb]
      by (unfold avg; Z.to_euclidean_division_equations; lia).
    destruct (sys_setsockopt _ _ avg w) as [rc w1] eqn:E. apply spec_setsockopt in E as Hq. case_decide.
    + rewrite u32_small, s32_small by lia. destruct (IH (avg + 1) hi w1) as (w2 & -> & Hq2); [lia..|].
      exists w2. split; [done|]. by eapply quiet_trans.
    + assert (s32 (u32 (avg - 1)) = avg - 1) as ->.
      { destruct (decide (avg = 0)) as [->|]; [done|]. by rewrite u32_small, s32_small by lia. }
      destruct (IH lo (avg - 1) w1) as (w2 & -> & Hq2); [lia..|]. exists w2. split; [done|]. by eapply quiet_trans.
Qed.

(** The call followed by [f]. *)
Lemma xbufmax_total {B} s o m w (f : tnt_error * W -> option B) :
  0 <= m < 2 ^ 31 -> exists w', (tnt_io_xbufmax s o m w ≫= f) = f (TNT_EOK, w') /\ quiet w w'.
Proof.
  intros Hm. unfold tnt_io_xbufmax.
  destruct (xbuf_total 28 s o (if decide (m = 0) then 16384 else m) (128 * 1024 * 1024) w) as (w' & -> & Hq); [case_decide; lia|lia|case_decide; lia|].
  by exists w'.
Qed.

(** What the options must satisfy. *)
Record options_ok (o : tnt_opt W) : Prop := {
  ok_send_buf : 0 <= send_buf o < 2 ^ 31;
  ok_recv_buf : 0 <= recv_buf o < 2 ^ 31;
  ok_tmout : is_Some (TIMEVAL_TO_MSEC (tmout_connect o));
}.

Lemma setopts_ok s w :
  options_ok (opt s) -> is_Some (opt_uri (opt s)) ->
  on_socket s w (tnt_io_setopts s w) (fun _ => True).
Proof.
  intros [Hsb Hrb _] [u Hu]. unfold tnt_io_setopts. rewrite Hu. cbn [mbind option_bind].
  destruct (if decide (host_hint u <> URI_UNIX) then _ else _) as [rc w1] eqn:E1.
  assert (quiet w w1) as Hq1. { case_decide; [by eapply spec_nodelay|]. injection E1 as <- <-. apply quiet_refl. }
  clear E1. case_decide. { destruct Hq1 as (? & ? & _). apply on_socket_fail; [done..|set_solver]. }
  match goal with |- context [tnt_io_xbufmax s SO_SNDBUF _ _ ≫= ?f] => destruct (xbufmax_total s SO_SNDBUF _ w1 f Hsb) as (w2 & -> & Hq2) end.
  match goal with |- context [tnt_io_xbufmax s SO_RCVBUF _ _ ≫= ?f] => destruct (xbufmax_total s SO_RCVBUF _ w2 f Hrb) as (w3 & -> & Hq3) end.
  destruct (sys_timeout _ SO_SNDTIMEO _ w3) as [rc4 w4] eqn:E4. apply spec_timeout in E4 as Hq4.
  assert (quiet w w4) as Hq by (repeat (eapply quiet_trans; [eassumption|]); apply quiet_refl).
  cbv beta iota. case_decide. { destruct Hq as (? & ? & _). apply on_socket_fail; [done..|set_solver]. }
  destruct (sys_timeout _ SO_RCVTIMEO _ w4) as [rc5 w5] eqn:E5. apply spec_timeout in E5 as Hq5.
  pose proof (quiet_trans _ _ _ Hq Hq5) as (? & ? & _).
  case_decide; [apply on_socket_fail; [done..|set_solver]|by apply on_socket_ok].
Qed.

(** ** All the attempts *)

(** From [w] to [w']: a new socket connected to one of [cand], or nothing. *)
Definition attempts (cand : list bytes) s w (result : tnt_error) s' w' : Prop :=
  same_conn s s' /\ calm w w' /\
  (result = TNT_EOK -> 0 < fd s' /\ (fd s' ∉ fds w) /\ fds w' = fds w ∪ {[fd s']} /\
     exists addr, addr ∈ cand /\ sock w' (fd s') = Peer addr) /\
  (result <> TNT_EOK -> fds w' = fds w /\ fd s' < 0 /\ (connected s' = true -> connected s = true)).

Lemma socket_positive fam ty pr w f w' :
  sys_socket fam ty pr w = (f, w') -> 0 ∈ fds w ->
  calm w w' /\ ((f < 0 /\ fds w' = fds w) \/ (0 < f /\ (f ∉ fds w) /\ fds w' = fds w ∪ {[f]})).
Proof.
  intros E H0. apply spec_socket in E as (Hc & [?|(Hf & Hn & E)]); split; auto. right.
  split; [|done]. destruct (decide (f = 0)) as [->|]; [done|lia].
Qed.

Lemma close_new s w F f :
  fd s = f -> 0 < f -> (f ∉ F) -> fds w = F ∪ {[f]} ->
  exists w', tnt_io_close s w = (put_fd false (-1) s, w') /\ calm w w' /\ fds w' = F.
Proof.
  intros <- Hf Hn Hw. unfold tnt_io_close. rewrite decide_True by done.
  destruct (spec_close_fds (fd s) w) as [Hc Hfds]. exists (sys_close (fd s) w). split; [done|]. split; [done|].
  rewrite Hfds, Hw. set_solver.
Qed.

Lemma attempts_next cand cand' s w result s1 w1 s' w' :
  same_conn s s1 -> (connected s1 = true -> connected s = true) -> calm w w1 -> fds w1 = fds w -> cand ⊆ cand' ->
  attempts cand s1 w1 result s' w' -> attempts cand' s w result s' w'.
Proof.
  intros H1 H2 H3 H4 H5 (A & B & C & D). split; [by eapply same_conn_trans|]. split; [by eapply calm_trans|].
  rewrite <- H4. split; [|naive_solver]. intros Hr. destruct (C Hr) as (? & ? & ? & a & ? & ?). eauto 10.
Qed.

Lemma attempts_failed cand s w result s' w' :
  same_conn s s' -> (connected s' = true -> connected s = true) -> calm w w' -> fds w' = fds w -> fd s' < 0 ->
  result <> TNT_EOK -> attempts cand s w result s' w'.
Proof. intros. split; [done|]. split; [done|]. by split. Qed.

Lemma addr_loop_ok l s w result :
  (interrupts w < fuel)%nat -> options_ok (opt s) -> is_Some (opt_uri (opt s)) -> 0 ∈ fds w ->
  (l = [] -> result <> TNT_EOK /\ fd s < 0) -> (result ∈ [TNT_EOK; TNT_ESYSTEM; TNT_ETMOUT]) ->
  exists result' s' w', addr_loop fuel s l result w = Some (result', s', w') /\
    result' ∈ [TNT_EOK; TNT_ESYSTEM; TNT_ETMOUT] /\ attempts (ai_addr <$> l) s w result' s' w'.
Proof.
  revert s w result. induction l as [|a l IH]; intros s w result Hi Ho Hu H0 Hnil Hres; cbn [addr_loop fmap list_fmap].
  { destruct (Hnil eq_refl). exists result, s, w. split; [done|]. split; [done|].
    apply attempts_failed; [apply same_conn_refl|done|apply calm_refl|done..]. }
  destruct (sys_socket _ _ _ w) as [f w1] eqn:E. apply socket_positive in E as (Hc & Hf); [|done].
  assert (forall s1 w1 res, same_conn s s1 -> (connected s1 = true -> connected s = true) -> calm w w1 -> fds w1 = fds w -> fd s1 < 0 ->
      res <> TNT_EOK -> res ∈ [TNT_EOK; TNT_ESYSTEM; TNT_ETMOUT] -> exists result' s' w', addr_loop fuel s1 l res w1 = Some (result', s', w') /\
      result' ∈ [TNT_EOK; TNT_ESYSTEM; TNT_ETMOUT] /\ attempts (ai_addr a :: (ai_addr <$> l)) s w result' s' w') as Hnext.
  { intros s1 w2 res Hs1 Hcn Hc2 Hf2 Hfd Hne Hin. pose proof (same_conn_opt _ _ Hs1) as Eo.
    destruct (IH s1 w2 res) as (r' & s' & w' & -> & Hr' & Hatt); [destruct Hc2; lia|by rewrite Eo..|by rewrite Hf2|done|done|].
    exists r', s', w'. split; [done|]. split; [done|]. eapply attempts_next; [exact Hs1|exact Hcn|exact Hc2|exact Hf2| |exact Hatt]. set_solver. }
  destruct Hf as [[Hf Hfds]|(Hf & Hn & Hfds)].
  { rewrite decide_True by done. apply Hnext; try done; [by exists (connected s), f, (sys_errno w1)|set_solver]. }
  rewrite decide_False by lia. set (s1 := put_fd (connected s) f s).
  assert (forall e w2 res, calm w w2 -> fds w2 = fds w1 -> res <> TNT_EOK -> res ∈ [TNT_EOK; TNT_ESYSTEM; TNT_ETMOUT] ->
    exists result' s' w', (let '(s0, w0) := tnt_io_close (put_errno e s1) w2 in addr_loop fuel s0 l res w0) = Some (result', s', w') /\
      result' ∈ [TNT_EOK; TNT_ESYSTEM; TNT_ETMOUT] /\ attempts (ai_addr a :: (ai_addr <$> l)) s w result' s' w') as Hclose.
  { intros e w2 res Hc2 Hf2 Hne Hin. destruct (close_new (put_errno e s1) w2 (fds w) f) as (w3 & -> & Hc3 & Hf3); [done..|by rewrite Hf2|].
    apply Hnext; try done; [by exists false, (-1), e|by eapply calm_trans]. }
  destruct (setopts_ok s1 w1 Ho Hu) as (r2 & e2 & w2 & -> & Hc2 & Hf2 & Hr2 & _). cbn [mbind option_bind].
  assert (calm w w2) as Hcw2 by (by eapply calm_trans).
  case_decide as Hne2; [by apply Hclose|].
  destruct (connect_do_ok (put_errno e2 s1) (ai_addr a) w2) as (r3 & e3 & w3 & -> & Hc3 & Hf3 & Hr3 & Hp3); [destruct Hcw2; lia|by destruct Ho|].
  cbn [mbind option_bind]. assert (calm w w3) as Hcw3 by (by eapply calm_trans). assert (fds w3 = fds w1) as Hfw3 by (by rewrite Hf3).
  case_decide as Hne3; [by apply (Hclose e3)|].
  exists r3, (put_errno e3 s1), w3. split; [done|]. split; [done|]. subst r3.
  split; [by exists (connected s), f, e3|]. split; [done|]. split; [|done]. intros _. split; [done|]. split; [done|].
  split; [by rewrite Hfw3|]. exists (ai_addr a). split; [set_solver|]. by apply Hp3.
Qed.

(** ** The whole *)

(** The part of the URI string that a field of [struct uri] designates, and
    the port, which goes on to the end of the string. *)
Definition part (chars : bytes) (p : range) : bytes :=
  match p with None => [] | Some (off, len) => take len (drop off chars) end.
Definition port_part (chars : bytes) (u : uri) : bytes :=
  match uri_service u with None => default_port | Some (off, _) => drop off chars end.

Definition host_part (chars : bytes) (h : host_ptr) : bytes :=
  match h with HostAt p => part chars p | HostUnix => URI_HOST_UNIX end.

Definition range_in (chars : bytes) (n : nat) (p : range) : Prop :=
  match p with None => True | Some (off, len) => (off + len <= length chars)%nat /\ (len < n)%nat end.

Definition host_in (chars : bytes) (h : host_ptr) : Prop :=
  match h with HostAt p => range_in chars 128 p | HostUnix => True end.

(** The parsed URI fits its string and the arrays it is copied to. *)
Definition uri_fits (chars : bytes) (u : uri) : Prop :=
  Forall (fun c => c <> 0) chars /\
  match host_hint u with
  | URI_UNIX => range_in chars SUN_PATH (uri_service u)
  | _ => host_in chars (uri_host u) /\ range_in chars (S (length chars)) (uri_service u)
  end.

(** The addresses of the server that the URI names. *)
Definition target (chars : bytes) (u : uri) (w : W) (a : bytes) : Prop :=
  match host_hint u with
  | URI_UNIX => sockaddr_un (part chars (uri_service u)) = Some a
  | _ => exists l w1, sys_getaddrinfo (host_part chars (uri_host u)) (port_part chars u) SOCK_STREAM IPPROTO_TCP w = (0, l, w1) /\ a ∈ (ai_addr <$> l)
  end.

Lemma c_string_ok bs r : Forall (fun c => c <> 0) bs -> c_string (bs ++ 0 :: r) = Some bs.
Proof. intros H. unfold c_string. rewrite strlen_app by done. cbn [mbind option_bind]. by rewrite take_app_length. Qed.

Lemma copy128_ok chars p :
  Forall (fun c => c <> 0) chars -> range_in chars 128 p -> copy128 (chars ++ [0]) p = Some (part chars p).
Proof.
  intros Hc Hp. unfold copy128. destruct p as [[off len]|]; [|by vm_compute]. destruct Hp as [H1 H2]. cbn [part].
  assert (slice off len (chars ++ [0]) = Some (take len (drop off chars))) as ->.
  { unfold slice. rewrite decide_True by (rewrite length_app; simpl; lia). by rewrite drop_app_le, take_app_le by (rewrite ?length_drop; lia). }
  cbn [mbind option_bind]. set (bs := take _ _). assert (length bs <= len)%nat by (unfold bs; rewrite length_take; lia).
  rewrite splice_Some by (rewrite length_app, length_replicate; simpl; lia). cbn [mbind option_bind take app].
  rewrite <- app_assoc. cbn [app]. apply c_string_ok. by apply Forall_take, Forall_drop.
Qed.

Lemma copy_host_ok chars h :
  Forall (fun c => c <> 0) chars -> host_in chars h -> copy_host (chars ++ [0]) h = Some (host_part chars h).
Proof. intros Hc. destruct h as [p|]; [by apply copy128_ok|]. intros _. by vm_compute. Qed.

Lemma port_ok chars u :
  Forall (fun c => c <> 0) chars -> range_in chars (S (length chars)) (uri_service u) ->
  port_of (chars ++ [0]) (uri_service u) = Some (port_part chars u).
Proof.
  intros Hc Hp. unfold port_of, port_part. destruct (uri_service u) as [[off len]|]; [|done]. destruct Hp as [H1 _].
  rewrite decide_True by (rewrite length_app; lia). rewrite drop_app_le by lia. apply c_string_ok. by apply Forall_drop.
Qed.

Lemma sockaddr_un_ok path : (length path < SUN_PATH)%nat -> is_Some (sockaddr_un path).
Proof.
  intros H. unfold sockaddr_un. rewrite splice_Some by (rewrite length_app, length_replicate; simpl; lia). by eexists.
Qed.

Definition connect_errors : list tnt_error := [TNT_EOK; TNT_ESYSTEM; TNT_ETMOUT; TNT_ERESOLVE].

(** The outcome: [attempts], but for a failed resolution the stream and the
    descriptors are as before. *)
Definition connect_outcome (ok : bytes -> Prop) s w (r : option (tnt_error * snet W Sch * W)) : Prop :=
  exists result s' w', r = Some (result, s', w') /\ result ∈ connect_errors /\ same_conn s s' /\ calm w w' /\
  (result = TNT_EOK -> 0 < fd s' /\ (fd s' ∉ fds w) /\ fds w' = fds w ∪ {[fd s']} /\ exists addr, ok addr /\ sock w' (fd s') = Peer addr) /\
  (result <> TNT_EOK -> fds w' = fds w /\ (fd s' < 0 \/ fd s' = fd s) /\ (connected s' = true -> connected s = true)).

Lemma connect_tcp_ok s host port w :
  (interrupts w < fuel)%nat -> options_ok (opt s) -> is_Some (opt_uri (opt s)) -> 0 ∈ fds w ->
  connect_outcome (fun a => exists l w1, sys_getaddrinfo host port SOCK_STREAM IPPROTO_TCP w = (0, l, w1) /\ a ∈ (ai_addr <$> l)) s w
    (tnt_io_connect_tcp fuel s host port w).
Proof.
  intros Hi Ho Hu H0. unfold tnt_io_connect_tcp, tnt_io_resolve.
  destruct (sys_getaddrinfo _ _ _ _ w) as [[rc l] w1] eqn:E. pose proof E as (Hc & Hf & _)%spec_getaddrinfo.
  case_decide as Hrc.
  - destruct Hrc as [-> Hl]. cbv beta iota. rewrite decide_False by (intros []; done).
    destruct (addr_loop_ok l s w1 TNT_EOK) as (r & s' & w' & -> & Hr & Hs & Hc2 & Hok & Hno); [destruct Hc; lia|done|done|by rewrite Hf|done|set_solver|].
    cbn [mbind option_bind]. rewrite decide_True by done. destruct (spec_freeaddrinfo l w') as (Hc3 & Hf3 & Hs3).
    exists r, s', (sys_freeaddrinfo l w'). split; [done|]. split; [revert Hr; unfold connect_errors; set_solver|]. split; [done|].
    split; [by repeat (eapply calm_trans; [eassumption|]); apply calm_refl|]. rewrite Hf3, <- Hf. split.
    + intros Hk. destruct (Hok Hk) as (? & ? & ? & a & Ha & Hp). repeat (split; [done|]). exists a. rewrite Hs3. split; [|done]. by exists l, w1.
    + intros Hk. destruct (Hno Hk) as (? & ? & ?). auto.
  - cbv beta iota. rewrite decide_True by done. cbn [mbind option_bind]. rewrite decide_False by (intros Hx; by apply Hx).
    exists TNT_ERESOLVE, s, w1. split; [done|]. split; [unfold connect_errors; set_solver|]. split; [apply same_conn_refl|]. split; [done|]. split; [done|]. auto.
Qed.

Lemma connect_unix_ok s path w :
  (interrupts w < fuel)%nat -> options_ok (opt s) -> is_Some (opt_uri (opt s)) -> 0 ∈ fds w -> (length path < SUN_PATH)%nat ->
  connect_outcome (fun a => sockaddr_un path = Some a) s w (tnt_io_connect_unix s path w).
Proof.
  intros Hi Ho Hu H0 Hp. set (good := fun a => sockaddr_un path = Some a). unfold tnt_io_connect_unix. destruct (sockaddr_un_ok path Hp) as [addr Ha].
  destruct (sys_socket _ _ _ w) as [f w1] eqn:E. apply socket_positive in E as (Hc & [[Hf Hfds]|(Hf & Hn & Hfds)]); [| |done].
  { rewrite decide_True by done. exists TNT_ESYSTEM. do 2 eexists. split; [done|]. split; [unfold connect_errors; set_solver|].
    split; [by exists (connected s), f, (sys_errno w1)|]. split; [done|]. split; [done|]. intros _. auto. }
  rewrite decide_False by lia. set (s1 := put_fd (connected s) f s).
  assert (forall e w2 res, calm w w2 -> fds w2 = fds w1 -> res ∈ connect_errors -> res <> TNT_EOK ->
    connect_outcome good s w (let '(s0, w0) := tnt_io_close (put_errno e s1) w2 in Some (res, s0, w0))) as Hclose.
  { intros e w2 res Hc2 Hf2 Hin Hne. destruct (close_new (put_errno e s1) w2 (fds w) f) as (w3 & -> & Hc3 & Hf3); [done..|by rewrite Hf2|].
    do 3 eexists. split; [done|]. split; [done|]. split; [by exists false, (-1), e|]. split; [by eapply calm_trans|]. split; [done|]. intros _. split; [done|].
    split; [by left|done]. }
  destruct (setopts_ok s1 w1 Ho Hu) as (r2 & e2 & w2 & -> & Hc2 & Hf2 & Hr2 & _). cbn [mbind option_bind].
  assert (calm w w2) as Hcw2 by (by eapply calm_trans).
  case_decide as Hne2; [apply Hclose; try done; revert Hr2; unfold connect_errors; set_solver|].
  rewrite Ha. cbn [mbind option_bind]. destruct (sys_connect _ addr w2) as [rc w3] eqn:Ec. apply spec_connect in Ec as (Hc3 & Hf3 & Hpeer & _).
  assert (calm w w3) as Hcw3 by (by eapply calm_trans). assert (fds w3 = fds w1) as Hfw3 by (by rewrite Hf3).
  case_decide as Hrc; [|apply Hclose; try done; unfold connect_errors; set_solver].
  exists TNT_EOK, (put_errno e2 s1), w3. split; [done|]. split; [unfold connect_errors; set_solver|]. split; [by exists (connected s), f, e2|].
  split; [done|]. split; [|done]. intros _. split; [done|]. split; [done|]. split; [by rewrite Hfw3|]. exists addr. split; [done|]. by apply Hpeer.
Qed.

(** [tnt_io_connect] after its switch. *)
Lemma connect_finish (ok : bytes -> Prop) s w m :
  connected s = false -> connect_outcome ok s w m ->
  exists result s' w',
    ('(result, s, w) ← m; if decide (result <> TNT_EOK) then Some (result, s, w) else Some (TNT_EOK, put_fd true (fd s) s, w)) = Some (result, s', w') /\
    result ∈ connect_errors /\ same_conn s s' /\ calm w w' /\
    (result = TNT_EOK -> connected s' = true /\ 0 < fd s' /\ (fd s' ∉ fds w) /\ fds w' = fds w ∪ {[fd s']} /\ exists addr, ok addr /\ sock w' (fd s') = Peer addr) /\
    (result <> TNT_EOK -> connected s' = false /\ fds w' = fds w /\ (fd s' < 0 \/ fd s' = fd s)).
Proof.
  intros Hconn (res & s1 & w1 & -> & Hr & Hs & Hc & Hok & Hno). cbn [mbind option_bind]. case_decide as Hk.
  - exists res, s1, w1. repeat (split; [done|]). intros _. destruct (Hno Hk) as (? & ? & Hcn). split; [|done].
    destruct (connected s1); [|done]. by rewrite Hcn in Hconn.
  - exists TNT_EOK, (put_fd true (fd s1) s1), w1. split; [done|]. split; [by rewrite <- Hk|]. split; [by eapply same_conn_trans, same_conn_fd|].
    split; [done|]. split; [|done]. intros _. split; [done|]. by apply Hok.
Qed.

Lemma connect_ok s chars u w :
  (interrupts w < fuel)%nat -> options_ok (opt s) -> opt_uri (opt s) = Some u -> uristr (opt s) = PHeap (chars ++ [0]) ->
  uri_fits chars u -> 0 ∈ fds w -> connected s = false ->
  exists result s' w', tnt_io_connect fuel s w = Some (result, s', w') /\ result ∈ connect_errors /\ same_conn s s' /\ calm w w' /\
    (result = TNT_EOK -> connected s' = true /\ 0 < fd s' /\ (fd s' ∉ fds w) /\ fds w' = fds w ∪ {[fd s']} /\
       exists addr, target chars u w addr /\ sock w' (fd s') = Peer addr) /\
    (result <> TNT_EOK -> connected s' = false /\ fds w' = fds w /\ (fd s' < 0 \/ fd s' = fd s)).
Proof.
  intros Hi Ho Hu Hstr [Hz Hfit] H0 Hconn. unfold tnt_io_connect. rewrite Hu, Hstr. cbn [mbind option_bind block_of default].
  assert (is_Some (opt_uri (opt s))) as Hus by (by rewrite Hu).
  unfold id. unfold target, uri_fits in *. destruct (host_hint u).
  4: { assert (range_in chars 128 (uri_service u)) by (unfold range_in, SUN_PATH in *; destruct (uri_service u) as [[]|]; [lia|done]).
       rewrite copy128_ok by done. cbn [mbind option_bind]. apply connect_finish; [done|]. apply connect_unix_ok; try done.
       unfold part, range_in in *. destruct (uri_service u) as [[off len]|]; [|simpl; unfold SUN_PATH; lia]. rewrite length_take. lia. }
  all: destruct Hfit as [Hh Hs]; rewrite port_ok, copy_host_ok by done; cbn [mbind option_bind]; apply connect_finish; [done|]; by apply connect_tcp_ok.
Qed.

(** C30: connecting, for a URI whose host is shorter than 128 bytes, or whose
    path is shorter than the 108 bytes of [sun_path] ([uri_fits]; a longer host
    overflows an array, [SetupSpec.long_host_overflows]), and with descriptor 0
    open at the start ([tnt_io_close] does not close descriptor 0, and leaks one
    that a socket gets, [Sim.descriptor_0_leaks]). Under these conditions, and
    as long as signals interrupt it finitely often, [tnt_io_connect] returns,
    whatever the system answers. On success there is exactly one descriptor
    more, it is the stream's, and it is connected to an address of the host and
    port, or of the path, that the URI names; after a failure every descriptor
    opened on the way is closed again, and the stream is not connected. *)
Theorem connect_correct s chars u w :
  (interrupts w < fuel)%nat -> options_ok (opt s) -> opt_uri (opt s) = Some u -> uristr (opt s) = PHeap (chars ++ [0]) ->
  uri_fits chars u -> 0 ∈ fds w -> connected s = false ->
  exists result s' w', tnt_io_connect fuel s w = Some (result, s', w') /\ result ∈ connect_errors /\ same_conn s s' /\ calm w w' /\
    (result = TNT_EOK -> connected s' = true /\ 0 < fd s' /\ (fd s' ∉ fds w) /\ fds w' = fds w ∪ {[fd s']} /\
       exists addr, target chars u w addr /\ sock w' (fd s') = Peer addr) /\
    (result <> TNT_EOK -> connected s' = false /\ fds w' = fds w /\ (fd s' < 0 \/ fd s' = fd s)).
Proof. apply connect_ok. Qed.

End connect.
