(* ===== verification/Sim.v ===== *)
(** * A concrete world with connections

    Data is transferred as in [Mock]; a script decides what the coming calls
    of [connect] and [poll] do: 0 is success, any other number the errno of a
    failure.  It instantiates the interfaces of System and Connect. *)

From stdpp Require Import gmap.
From S2P Require Import Prelude Mem Uri Stream Buf System Opt Io IoSpec Connect ConnectSpec.

Module Sim.

Record world := World {
  base : Mock.world;
  open : gset Z;
  next_fd : Z;
  socks : Z -> sock_state;
  flags : Z;                  (** of the descriptor last changed *)
  addrs : list addrinfo;      (** what names resolve to *)
  script : list Z;
}.

Definition set_base b (w : world) := World b (open w) (next_fd w) (socks w) (flags w) (addrs w) (script w).
Definition set_open o (w : world) := World (base w) o (next_fd w + 1) (socks w) (flags w) (addrs w) (script w).
Definition set_flags f (w : world) := World (base w) (open w) (next_fd w) (socks w) f (addrs w) (script w).
Definition set_socks f x (w : world) :=
  World (base w) (open w) (next_fd w) (fun g => if decide (g = f) then x else socks w g) (flags w) (addrs w) (script w).
Definition set_script l (w : world) := World (base w) (open w) (next_fd w) (socks w) (flags w) (addrs w) l.
Definition set_errno e (w : world) :=
  let b := base w in set_base (Mock.World (Mock.w_out b) (Mock.w_in b) (Mock.w_pending b) (Mock.w_events b) e) w.

(** The next entry of the script. *)
Definition pop (w : world) : Z * world :=
  match script w with [] => (0, w) | e :: l => (e, set_script l w) end.

Definition socket (w : world) : Z * world :=
  if decide (0 <= next_fd w /\ next_fd w ∉ open w) then (next_fd w, set_open (open w ∪ {[next_fd w]}) w) else (-1, w).

Definition connect (f : Z) (a : bytes) (w : world) : Z * world :=
  let '(e, w) := pop w in
  if decide (e = 0) then (0, set_socks f (Peer a) w)
  else (-1, set_errno e (if decide (e = EINPROGRESS) then set_socks f (Pending a) w else w)).

Definition poll (f : Z) (w : world) : Z * world :=
  let '(e, w) := pop w in
  if decide (e = 0) then (1, set_socks f (match socks w f with Pending a => Writable a | x => x end) w)
  else (-1, set_errno e w).

Definition so_error (f : Z) (w : world) : Z * Z * world :=
  (0, 0, set_socks f (match socks w f with Writable a => Peer a | x => x end) w).

Definition lift {A} (g : Mock.world -> A * Mock.world) (w : world) : A * world :=
  let '(r, b) := g (base w) in (r, set_base b w).

Definition interrupting (l : list Z) : nat := length (filter (fun e => e = EINTR \/ e = EAGAIN) l).

End Sim.

#[export] Instance sim_sys : Sys Sim.world := {
  sys_errno w := Mock.w_errno (Sim.base w);
  sys_send _ bs := Sim.lift (Mock.send bs);
  sys_writev _ iov := Sim.lift (Mock.send (concat iov));
  sys_recv _ n := Sim.lift (Mock.recv n);
  sys_close f w := Sim.World (Sim.base w) (Sim.open w ∖ {[f]}) (Sim.next_fd w) (Sim.socks w) (Sim.flags w) (Sim.addrs w) (Sim.script w);
  sys_setsockopt _ _ v w := (if decide (v <= 200000) then 0 else -1, w);
  sys_iovmax := 1024%nat;
}.

#[export] Instance sim_connect : SysConnect Sim.world := {
  sys_getaddrinfo _ _ _ _ w := (0, Sim.addrs w, w);
  sys_freeaddrinfo _ w := w;
  sys_socket _ _ _ := Sim.socket;
  sys_getfl _ w := (Sim.flags w, w);
  sys_setfl _ fl w := (0, Sim.set_flags fl w);
  sys_nodelay _ _ w := (0, w);
  sys_timeout _ _ _ w := (0, w);
  sys_connect := Sim.connect;
  sys_gettimeofday w := (0, Timeval 1000 0, w);
  sys_poll f _ := Sim.poll f;
  sys_so_error := Sim.so_error;
}.

#[export] Instance sim_observe : Observe Sim.world := {
  sent w := Mock.w_out (Sim.base w); got w := Mock.w_in (Sim.base w); incoming w := Mock.w_pending (Sim.base w);
  interrupts w := (interrupts (Sim.base w) + Sim.interrupting (Sim.script w))%nat;
  reliable w := reliable (Sim.base w);
}.

#[export] Instance sim_fds : ObserveFds Sim.world := { fds := Sim.open; sock := Sim.socks }.

Lemma sim_pop w e w' :
  Sim.pop w = (e, w') -> Sim.base w' = Sim.base w /\ Sim.open w' = Sim.open w /\ Sim.socks w' = Sim.socks w /\
    (Sim.interrupting (Sim.script w') <= Sim.interrupting (Sim.script w))%nat /\
    (e = EINTR \/ e = EAGAIN -> (Sim.interrupting (Sim.script w') < Sim.interrupting (Sim.script w))%nat).
Proof.
  unfold Sim.pop. destruct (Sim.script w) as [|x l] eqn:E; intros [= <- <-].
  - repeat (split; [done|]). split; [rewrite E; lia|]. by intros [].
  - repeat (split; [done|]). unfold Sim.interrupting. cbn [Sim.set_script Sim.script]. rewrite filter_cons.
    split; [case_decide; simpl; lia|]. intros Hx. rewrite decide_True by done. simpl. lia.
Qed.

#[export] Instance sim_spec : SysSpec Sim.world.
Proof.
  split; cbn [sim_sys sys_send sys_writev sys_recv sys_errno sys_close sys_iovmax].
  - intros _ bs w r w' E. unfold Sim.lift in E. destruct (Mock.send bs (Sim.base w)) as [r' b] eqn:Eb. injection E as <- <-.
    apply mock_send_ok in Eb as ((HA & HB & HC & HD) & HX & HY). split; [|split]; [|intros; simpl; specialize (HX ltac:(done) ltac:(done)); simpl in HX; lia|done].
    split; [done|]. split; [simpl in *; lia|done].
  - intros _ iov w r w' E. unfold Sim.lift in E. destruct (Mock.send _ (Sim.base w)) as [r' b] eqn:Eb. injection E as <- <-.
    apply mock_send_ok in Eb as ((HA & HB & HC & HD) & HX & HY). split; [|split]; [|intros; simpl; specialize (HX ltac:(done) ltac:(done)); simpl in HX; lia|done].
    split; [done|]. split; [simpl in *; lia|done].
  - intros _ n w r bs w' E. unfold Sim.lift in E. destruct (Mock.recv n (Sim.base w)) as [[r' bs'] b] eqn:Eb. injection E as <- <- <-.
    apply mock_recv_ok in Eb as ((HA & HB & HC & HD) & HX). split; [|intros; simpl; specialize (HX ltac:(done) ltac:(done)); simpl in HX; lia].
    split; [done|]. split; [simpl in *; lia|done].
  - done.
  - lia.
Qed.

#[export] Instance sim_connect_spec : ConnectSpec Sim.world.
Proof.
  assert (forall w, quiet w w) as Hq by apply quiet_refl.
  split; simpl; try (by intros; simplify_eq; repeat split).
  - intros _ _ _ w r w'. unfold Sim.socket. case_decide as Hd; intros [= <- <-]; (split; [by repeat split|]); [right|left; split; [lia|done]].
    destruct Hd. done.
  - intros f a w rc w'. unfold Sim.connect. destruct (Sim.pop w) as [e w1] eqn:E. apply sim_pop in E as (Eb & Eo & Es & Hi & _).
    case_decide as He; intros [= <- <-].
    + split; [split; simpl; rewrite Eb; [lia|done]|]. split; [done|]. split; [|done]. intros _. simpl. by rewrite decide_True.
    + case_decide as Hp; (split; [split; simpl; rewrite Eb; [lia|done]|]); (split; [done|]); (split; [done|]); intros _ He'; [|done].
      simpl. by rewrite decide_True.
  - intros f _ w r w'. unfold Sim.poll. destruct (Sim.pop w) as [e w1] eqn:E. apply sim_pop in E as (Eb & Eo & Es & Hi & Hi').
    case_decide as He; intros [= <- <-]; (split; [split; simpl; rewrite Eb; [lia|done]|]); (split; [done|]); split; try done.
    + intros _ _ a Ha. simpl. rewrite decide_True by done. by rewrite Es, Ha.
    + intros _. split; [simpl; by rewrite Es|]. simpl. rewrite Eb. intros Hx. specialize (Hi' Hx). lia.
  - intros f w rc op w' [= <- <- <-]. split; [by repeat split|]. split; [done|]. intros _ _ a Ha. simpl. rewrite decide_True by done. by rewrite Ha.
Qed.

(** ** Connecting in this world *)

(** "u:p@h:99", parsed. *)
Definition sim_chars : bytes := [117; 58; 112; 64; 104; 58; 57; 57].
Definition sim_uri : uri := Uri None (Some (0, 1)%nat) (Some (2, 1)%nat) (HostAt (Some (4, 1)%nat)) (Some (6, 2)%nat) None None None URI_NAME.

Definition sim_opt {W} : tnt_opt W :=
  set_uri (PHeap (sim_chars ++ [0])) (Some sim_uri) (snd (tnt_opt_init (Grant []))).
Definition sim_net : snet Sim.world unit :=
  Snet sim_opt false (-1) (Iob PNull 0 0 0 None None 0) (Iob PNull 0 0 0 None None 0) TNT_EOK 0 PNull None true.

Definition sim_addrs : list addrinfo := [Addrinfo 2 1 6 [10; 0; 0; 1]; Addrinfo 2 1 6 [10; 0; 0; 2]].
Definition sim_world (script : list Z) : Sim.world :=
  Sim.World (Mock.World [] [] [] [] 0) {[0; 1; 2]} 3 (fun _ => Fresh) 0 sim_addrs script.

(** The first address refuses, the second answers after an interrupted wait. *)
Lemma connect_correct_witness :
  exists s' w', tnt_io_connect 2 sim_net (sim_world [111; EINPROGRESS; EINTR; 0]) = Some (TNT_EOK, s', w') /\
    fd s' = 4 /\ connected s' = true /\ fds w' = {[0; 1; 2]} ∪ {[4]} /\ sock w' 4 = Peer [10; 0; 0; 2].
Proof.
  destruct (connect_correct 2 sim_net sim_chars sim_uri (sim_world [111; EINPROGRESS; EINTR; 0])) as (r & s' & w' & E & _ & _ & _ & Hok & _).
  - vm_compute. lia.
  - split; [simpl; lia|simpl; lia|eexists; vm_compute; reflexivity].
  - reflexivity.
  - reflexivity.
  - split; [repeat constructor; discriminate|]. simpl. lia.
  - simpl. set_solver.
  - reflexivity.
  - assert (match tnt_io_connect 2 sim_net (sim_world [111; EINPROGRESS; EINTR; 0]) with
      | Some (r, s', w') => r = TNT_EOK /\ fd s' = 4 /\ sock w' 4 = Peer [10; 0; 0; 2] | None => False end) as H by (vm_compute; repeat split).
    rewrite E in H. destruct H as (-> & Hfd & Hp). destruct (Hok eq_refl) as (Hc & _ & _ & Hf & _). rewrite Hfd in Hf.
    exists s', w'. split; [exact E|]. split; [exact Hfd|]. split; [exact Hc|]. split; [exact Hf|exact Hp].
Defined.

(** A connection that succeeds at once leaves the socket in non-blocking mode. *)
Example connected_nonblocking :
  match tnt_io_connect 1 sim_net (sim_world [0]) with
  | Some (result, s', w') => result = TNT_EOK /\ Sim.flags w' = O_NONBLOCK | None => False end.
Proof. vm_compute. split; reflexivity. Qed.

(** Descriptor 0 is used and not closed. *)
Example descriptor_0_leaks :
  match tnt_io_connect 1 sim_net (Sim.World (Mock.World [] [] [] [] 0) ∅ 0 (fun _ => Fresh) 0 [Addrinfo 2 1 6 []] [111]) with
  | Some (result, s', w') => result = TNT_ESYSTEM /\ connected s' = false /\ bool_decide (0 ∈ fds w') = true | None => False end.
Proof. vm_compute. repeat split. Qed.
