(* ===== verification/Net.v ===== *)
(** * tnt/tnt_net.c: the network stream

    The subclass data of a network stream is the [snet] of Io together with
    the world its calls act on.  The counter of writes is updated by one
    thread.  [tnt_auth] and [tnt_deauth] of tnt/tnt_auth.c are here too, since
    they read the greeting of the stream. *)

From stdpp Require Import gmap.
From Stdlib Require Ascii String.
From S2P Require Import Prelude Msgpuck MsgpuckRef Mem Uri Stream Buf Proto Object Commands Reply Iter System Opt Io IoSpec Connect Murmur Mhash Assoc Schema Sha1 Base64 Auth.

Definition net (W : Type) : Type := snet W tnt_schema * W.

(** ** Reading and writing *)

Section streams.
Context {W : Type} {SY : Sys W}.
Implicit Types (s : stream (net W)) (w : W).
Variable fuel : nat.

(** [TNT_SNET_CAST(s)] and the update of what it points to. *)
Definition put_net sn w s : stream (net W) := set_data (Some (sn, w)) s.

Definition tnt_net_read s (size : nat) : option (Z * bytes * stream (net W)) :=
  '(sn, w) ← st_data s;
  '(rc, out, sn, w) ← tnt_io_recv fuel sn size w;
  Some (rc, out, put_net sn w s).

Definition tnt_net_write s (buf : bytes) : option (Z * stream (net W)) :=
  '(sn, w) ← st_data s;
  '(rc, sn, w) ← tnt_io_send fuel sn buf w;
  let s := put_net sn w s in
  Some (rc, if decide (rc <> -1) then wrcnt_incr s else s).

Definition tnt_net_writev s (iov : list bytes) : option (Z * stream (net W)) :=
  '(sn, w) ← st_data s;
  '(rc, sn, w) ← tnt_io_sendv fuel sn iov w;
  let s := put_net sn w s in
  Some (rc, if decide (rc <> -1) then wrcnt_incr s else s).

Definition tnt_net_recv_cb : tnt_reply_t (stream (net W)) := fun s size => tnt_net_read s size.

(** [pm_atomic_fetch_sub(&s->wrcnt, 1)] *)
Definition wrcnt_decr s : stream (net W) := set_wrcnt (u32 (st_wrcnt s - 1)) s.

Definition tnt_net_reply {MP : MsgPuck} s (r : option reply) : option (Z * stream (net W) * option reply) :=
  if decide (st_wrcnt s = 0) then Some (1, s, r) else
  r ← r;
  '(rv, r, s, m) ← tnt_reply_from tnt_net_recv_cb r s (st_mem s);
  let s := set_mem m s in
  let s := if decide (is_Some (error r) \/ Z.land (code r) (response_type_code TNT_CHUNK) = 0) then wrcnt_decr s else s in
  Some (rv, s, Some r).

Definition tnt_flush s : option (Z * stream (net W)) :=
  '(sn, w) ← st_data s;
  '(rc, sn, w) ← tnt_io_flush fuel sn w;
  Some (rc, put_net sn w s).

Definition tnt_close s : option (stream (net W)) :=
  '(sn, w) ← st_data s;
  let sn := put_rbuf (tnt_iob_clear (rbuf sn)) (put_sbuf (tnt_iob_clear (n_sbuf sn)) sn) in
  let '(sn, w) := tnt_io_close sn w in
  Some (set_reqid 0 (set_wrcnt 0 (put_net sn w s))).

Definition tnt_fd s : option Z := '(sn, _) ← st_data s; Some (fd sn).
Definition tnt_error_of s : option tnt_error := '(sn, _) ← st_data s; Some (n_error sn).
Definition tnt_errno s : option Z := '(sn, _) ← st_data s; Some (errno_ sn).

(** ** Creation, options, initialisation *)

(** [tnt_net_free]: the destructor; the world outlives the stream. *)
Definition tnt_net_free s : option (stream (net W) * W) :=
  '(sn, w) ← st_data s;
  let '(sn, w) := tnt_io_close sn w in
  _ ← tnt_mem_free custom_realloc (greeting sn);
  _ ← tnt_iob_free (n_sbuf sn);
  _ ← tnt_iob_free (rbuf sn);
  _ ← tnt_opt_free (opt sn);
  _ ← tnt_schema_free (n_schema sn);
  Some (set_data None s, w).

(** What [tnt_net] returns: [NULL], a stream, or a pointer to a freed one. *)
Inductive net_result := NetNull | NetStream (s : stream (net W)) | NetDangling.

(** The zeroed [struct tnt_stream_net] with [fd], before the options. *)
Definition zero_net (g : ptr) : snet W tnt_schema :=
  let opt := Opt PNull None (Timeval 0 0) (Timeval 0 0) (Timeval 0 0) None None 0 0 None 0 0 in
  Snet opt false (-1) (Iob PNull 0 0 0 None None 0) (Iob PNull 0 0 0 None None 0) TNT_EOK 0 g None false.

(** [tnt_net s]; [given] as in [tnt_stream_init].  After a refused greeting the
    code goes on with the stream it has freed. *)
Definition tnt_net (given : bool) (w : W) (m : malloc_state) : option net_result :=
  match tnt_stream_init given m with
  | None => Some NetNull
  | Some s =>
      let '(a, m) := pop (st_mem s) in
      match a with
      | Refuse => _ ← tnt_stream_free None (Some s); Some NetNull
      | Grant _ =>
          let '(a, m) := pop m in
          g ← tnt_mem_alloc custom_realloc a TNT_GREETING_SIZE;
          let s := set_mem m (put_net (zero_net g) w s) in
          match g with
          | PNull => None
          | _ =>
              let '(a, m) := pop m in
              let '(rc, o) := tnt_opt_init a in
              let sn := Snet o false (-1) (Iob PNull 0 0 0 None None 0) (Iob PNull 0 0 0 None None 0) TNT_EOK 0 g None false in
              let s := set_mem m (put_net sn w s) in
              if decide (rc = -1) then
                s ← tnt_stream_free (Some (fun s => fst <$> tnt_net_free s)) (Some s);
                Some (match s with Some s => NetStream s | None => NetDangling end)
              else Some (NetStream s)
          end
      end
  end.

(** [tnt_set] *)
Definition tnt_set s (name : Z) (arg : opt_arg W) : option (Z * stream (net W)) :=
  '(sn, w) ← st_data s;
  '(e, o, m) ← tnt_opt_set (opt sn) (opt_type_of name) arg (st_mem s);
  let sn := Snet o (connected sn) (fd sn) (n_sbuf sn) (rbuf sn) e (errno_ sn) (greeting sn) (n_schema sn) (inited sn) in
  Some (if decide (e = TNT_EOK) then 0 else -1, set_mem m (put_net sn w s)).

Definition put_schema sch (sn : snet W tnt_schema) : snet W tnt_schema :=
  Snet (opt sn) (connected sn) (fd sn) (n_sbuf sn) (rbuf sn) (n_error sn) (errno_ sn) (greeting sn) sch (inited sn).
Definition put_inited (sn : snet W tnt_schema) : snet W tnt_schema :=
  Snet (opt sn) (connected sn) (fd sn) (n_sbuf sn) (rbuf sn) (n_error sn) (errno_ sn) (greeting sn) (n_schema sn) true.

(** A buffer size, an [int], as the [size_t] parameter of [tnt_iob_init]. *)
Definition buf_len (n : Z) : nat := Z.to_nat (u64 n).

Definition tnt_init s : option (Z * stream (net W)) :=
  '(sn, w) ← st_data s;
  let o := opt sn in
  let '(sch, m) := tnt_schema_new false (st_mem s) in
  let sn := put_schema sch sn in
  match sch with
  | None => Some (-1, set_mem m (put_net (put_error TNT_EMEMORY sn) w s))
  | Some _ =>
      '(rc, b, m) ← tnt_iob_init (buf_len (send_buf o)) (send_cb o) (send_cbv o) (send_cb_arg o) m;
      let sn := put_sbuf b sn in
      if decide (rc = -1) then Some (-1, set_mem m (put_net (put_error TNT_EMEMORY sn) w s)) else
      '(rc, b, m) ← tnt_iob_init (buf_len (recv_buf o)) (recv_cb o) None (recv_cb_arg o) m;
      let sn := put_rbuf b sn in
      if decide (rc = -1) then Some (-1, set_mem m (put_net (put_error TNT_EMEMORY sn) w s)) else
      Some (0, set_mem m (put_net (put_inited sn) w s))
  end.

(** ** Errors *)

(** The value of an [enum tnt_error]. *)
Definition tnt_error_code (e : tnt_error) : nat :=
  match e with
  | TNT_EOK => 0 | TNT_EFAIL => 1 | TNT_EMEMORY => 2 | TNT_ESYSTEM => 3 | TNT_EBIG => 4 | TNT_ESIZE => 5
  | TNT_ERESOLVE => 6 | TNT_ETMOUT => 7 | TNT_EBADVAL => 8 | TNT_ELOGIN => 9
  end.

Import String.StringSyntax.

Definition chars (s : String.string) : bytes := (fun c => Z.of_N (Ascii.N_of_ascii c)) <$> String.list_ascii_of_string s.
#[local] Arguments chars s%_string_scope.

Definition tnt_error_list : list (tnt_error * bytes) :=
  [ (TNT_EOK, chars "ok"); (TNT_EFAIL, chars "fail"); (TNT_EMEMORY, chars "memory allocation failed");
    (TNT_ESYSTEM, chars "system error"); (TNT_EBIG, chars "buffer is too big"); (TNT_ESIZE, chars "bad buffer size");
    (TNT_ERESOLVE, chars "gethostbyname(2) failed"); (TNT_ETMOUT, chars "operation timeout");
    (TNT_EBADVAL, chars "bad argument"); (TNT_ELOGIN, chars "failed to login") ].

(** [%d] *)
Fixpoint decimal (n : nat) (z : Z) : bytes :=
  match n with
  | O => []
  | S n => if decide (z < 10) then [48 + z] else decimal n (z / 10) ++ [48 + z mod 10]
  end.
Definition format_int (z : Z) : bytes := if decide (z < 0) then 45 :: decimal 10 (- z) else decimal 10 z.

(** [tnt_strerror]; [strerror] is the C library's.  The result fits the
    array [msg\[256\]] with its terminator. *)
Definition tnt_strerror (strerror : Z -> bytes) s : option bytes :=
  '(sn, _) ← st_data s;
  if decide (n_error sn = TNT_ESYSTEM) then
    Some (take 255 (strerror (errno_ sn) ++ chars " (errno: " ++ format_int (errno_ sn) ++ chars ")"))
  else snd <$> tnt_error_list !! tnt_error_code (n_error sn).

Definition tnt_get_spaceno s (space : bytes) : option Z :=
  '(sn, _) ← st_data s; sch ← n_schema sn; tnt_schema_stosid sch space.

Definition tnt_get_indexno s (spaceno : Z) (index : bytes) : option Z :=
  '(sn, _) ← st_data s; sch ← n_schema sn; tnt_schema_stoiid sch spaceno index.

End streams.

(** A network stream is written to by the encoders; it fails no write when it
    is unbuffered, on a socket on which no transmission fails. *)
#[export] Instance net_sink {W} {SY : Sys W} {OB : Observe W} (fuel : nat) : Sink (net W) := {
  sk_writev := tnt_net_writev fuel;
  sk_written s := match st_data s with Some (sn, w) => IoSpec.written sn w | None => [] end;
  sk_ok s := exists sn w, st_data s = Some (sn, w) /\ IoSpec.snet_ok sn /\ (interrupts w < fuel)%nat;
  sk_sure s := exists sn w, st_data s = Some (sn, w) /\ reliable w /\ i_buf (n_sbuf sn) = PNull /\ i_txv (n_sbuf sn) = None;
}.

(** ** Authentication and the schema *)

Section session.
Context {MP : MsgPuck} {W : Type} {SY : Sys W} {OB : Observe W} {SC : SysConnect W}.
Implicit Types (s : stream (net W)) (w : W).
Variable fuel : nat.
#[local] Existing Instance net_sink.

(** [tnt_auth]; [salt0] and [ctx0] as in [tnt_auth_raw]. *)
Definition tnt_auth (salt0 ctx0 : bytes) s (user : option bytes) (pass : bytes) : option (Z * stream (net W)) :=
  '(sn, _) ← st_data s;
  g ← block_of (greeting sn);
  tnt_auth_raw (SK := net_sink fuel) salt0 ctx0 s user pass (drop TNT_VERSION_SIZE g).

Definition tnt_deauth (salt0 ctx0 : bytes) s : option (Z * stream (net W)) := tnt_auth salt0 ctx0 s None [].

(** The reply the iterator of [tnt_reload_schema] holds. *)
Definition iter_reply_of (it : iter) : option reply := match it_data it with IReply r => Some r | _ => None end.
Definition put_iter_reply (r : reply) (it : iter) : iter := Iter (it_type it) (it_status it) (it_alloc it) (IReply r).

(** [tnt_schema_add_spaces(sn->schema, r)] and [tnt_schema_add_indexes] *)
Definition add_to_schema (add : tnt_schema -> reply -> malloc_state -> option (Z * tnt_schema * malloc_state)) (r : reply) s
    : option (stream (net W)) :=
  '(sn, w) ← st_data s;
  sch ← n_schema sn;
  '(_, sch, m) ← add sch r (st_mem s);
  Some (set_mem m (put_net (put_schema (Some sch) sn) w s)).

(** [while (tnt_next(&it))]: false when it ended with [goto error]; the
    iterator, the stream, [bkp] and [sloaded]. *)
Fixpoint reload_loop (n : nat) (it : iter) s (bkp : reply) (sloaded : Z) : option (bool * iter * stream (net W) * reply * Z) :=
  match n with
  | O => None
  | S n =>
      '(rc, it, s) ← tnt_next (tnt_net_reply fuel) it s;
      if decide (rc = 0) then Some (true, it, s, bkp, sloaded) else
      r ← iter_reply_of it;
      if decide (sync r = 127) then
        if decide (is_Some (error r)) then Some (false, it, s, bkp, sloaded) else
        s ← add_to_schema tnt_schema_add_spaces r s;
        reload_loop n it s bkp (sloaded + 1)
      else if decide (sync r = 128) then
        if decide (is_Some (error r)) then Some (false, it, s, bkp, sloaded) else
        if decide (Z.land sloaded 1 = 0) then
          reload_loop n (put_iter_reply (Reply (r_alloc r) (bitmap r) PNull (buf_size r) (code r) (sync r) (schema_id r) (error r) (rdata r) (metadata r) (sqlinfo r)) it) s r sloaded
        else
          s ← add_to_schema tnt_schema_add_indexes r s;
          reload_loop n it s bkp (sloaded + 2)
      else Some (false, it, s, bkp, sloaded)
  end.

(** [tnt_reload_schema]; [om] are the allocator's decisions for the objects of
    the two requests, [n] bounds the replies read. *)
Definition tnt_reload_schema (n : nat) (om : malloc_state * malloc_state) s : option (Z * stream (net W)) :=
  '(sn, _) ← st_data s;
  if decide (connected sn = false \/ st_wrcnt s <> 0) then Some (-1, s) else
  let '(oldsync, s) := tnt_stream_reqid s 127 in
  '(_, s) ← tnt_get_space (SK := net_sink fuel) s (fst om);
  '(_, s) ← tnt_get_index (SK := net_sink fuel) s (snd om);
  let '(_, s) := tnt_stream_reqid s oldsync in
  '(_, s) ← tnt_flush fuel s;
  it ← tnt_iter_reply true Refuse;
  '(done, it, s, bkp, sloaded) ← reload_loop n it s (zero_reply false) 0;
  if negb done then _ ← tnt_iter_free it; Some (-1, s) else
  '(s, sloaded) ←
    match r_buf bkp with
    | PNull => Some (s, sloaded)
    | _ => s ← add_to_schema tnt_schema_add_indexes bkp s; _ ← tnt_reply_free bkp; Some (s, sloaded + 2)
    end;
  _ ← tnt_iter_free it;
  Some (if decide (sloaded <> 3) then -1 else 0, s).

(** The bytes of a field of the URI; [None] for [NULL]. *)
Definition uri_part (sn : snet W tnt_schema) (p : range) : option (option bytes) :=
  match p with
  | None => Some None
  | Some (off, len) => str ← block_of (uristr (opt sn)); bs ← slice off len str; Some (Some bs)
  end.

Definition TNT_ER_PASSWORD_MISMATCH : Z := 47.

(** What the stack holds, the allocator's decisions for temporary objects and
    the bound of [tnt_reload_schema]. *)
Record session := Session { salt0 : bytes; ctx0 : bytes; om : malloc_state * malloc_state; replies : nat }.

Definition tnt_authenticate (x : session) s : option (Z * stream (net W)) :=
  '(sn, _) ← st_data s;
  if decide (connected sn = false \/ st_wrcnt s <> 0) then Some (-1, s) else
  u ← opt_uri (opt sn);
  login ← uri_part sn (uri_login u);
  password ← uri_part sn (uri_password u);
  '(_, s) ← tnt_auth (salt0 x) (ctx0 x) s login (default [] password);
  '(_, s) ← tnt_flush fuel s;
  '(rc, s, rep) ← tnt_net_reply fuel s (Some (zero_reply false));
  if decide (rc = -1) then Some (-1, s) else
  rep ← rep;
  if decide (is_Some (error rep)) then
    '(sn, w) ← st_data s;
    Some (-1, if decide (code rep = TNT_ER_PASSWORD_MISMATCH) then put_net (put_error TNT_ELOGIN sn) w s else s)
  else
    _ ← tnt_reply_free rep;
    '(_, s) ← tnt_reload_schema (replies x) (om x) s;
    Some (0, s).

Definition put_greeting g (sn : snet W tnt_schema) : snet W tnt_schema :=
  Snet (opt sn) (connected sn) (fd sn) (n_sbuf sn) (rbuf sn) (n_error sn) (errno_ sn) g (n_schema sn) (inited sn).

(** [tnt_connect]; the result of [tnt_init] is ignored. *)
Definition tnt_connect (x : session) s : option (Z * stream (net W)) :=
  '(sn, _) ← st_data s;
  '(_, s) ← (if inited sn then Some (0, s) else tnt_init s);
  '(sn, _) ← st_data s;
  s ← (if connected sn then tnt_close s else Some s);
  '(sn, w) ← st_data s;
  '(e, sn, w) ← tnt_io_connect fuel sn w;
  let s := put_net (put_error e sn) w s in
  if decide (e <> TNT_EOK) then Some (-1, s) else
  '(rc, out, s) ← tnt_net_read fuel s TNT_GREETING_SIZE;
  '(sn, w) ← st_data s;
  g ← store (greeting sn) 0 out;
  let s := put_net (put_greeting g sn) w s in
  if decide (rc = -1 \/ n_error sn <> TNT_EOK) then Some (-1, s) else
  u ← opt_uri (opt sn);
  if decide (is_Some (uri_login u) /\ is_Some (uri_password u)) then
    '(rc, s) ← tnt_authenticate x s;
    Some (if decide (rc = -1) then -1 else 0, s)
  else Some (0, s).

End session.
