(* ===== verification/NetSpec.v ===== *)
(** * Correctness of the network stream (tnt/tnt_net.c)

    A network stream is a sink: what is proved of the encoders for any sink
    holds for it.  The replies are read in order, one for each write. *)

From stdpp Require Import gmap.
From S2P Require Import Prelude Msgpuck MsgpuckRef Mem Uri Stream Buf Proto Object Request RequestSpec Commands CommandsSpec Reply ReplySpec Iter IterSpec System Opt Io IoSpec Connect ConnectSpec Murmur Mhash Assoc Schema Auth Net.

Section sink.
Context {W : Type} {SY : Sys W} {OB : Observe W} {SS : SysSpec W}.
Implicit Types (s : stream (net W)) (w : W).
Variable fuel : nat.

Lemma buffered_none (sn : snet W tnt_schema) : i_buf (n_sbuf sn) = PNull -> buffered sn = [].
Proof. intros H. unfold buffered. by rewrite H. Qed.

(** A vectored write on a network stream. *)
Lemma net_writev_ok s sn w iov :
  st_data s = Some (sn, w) -> snet_ok sn -> (interrupts w < fuel)%nat ->
  exists r sn' w', tnt_net_writev fuel s iov = Some (r, (if decide (r <> -1) then wrcnt_incr else id) (put_net sn' w' s)) /\
    write_outcome sn (concat iov) w r sn' w' /\
    (reliable w -> i_buf (n_sbuf sn) = PNull -> i_txv (n_sbuf sn) = None -> concat iov <> [] -> r <> -1).
Proof.
  intros Hs Hok Hf. unfold tnt_net_writev. rewrite Hs. cbn [mbind option_bind].
  destruct (sendv_ok fuel sn iov w Hok Hf) as (r & sn' & w' & -> & Hout & Hrel). cbn [mbind option_bind].
  exists r, sn', w'. split; [by case_decide|done].
Qed.

#[export] Instance net_sink_spec : SinkSpec (net W) (H := net_sink fuel).
Proof.
  split.
  - intros s iov (sn & w & Hs & Hok & Hf) Hne. cbn [sk_writev net_sink].
    destruct (net_writev_ok s sn w iov Hs Hok Hf) as (r & sn' & w' & -> & (Hok' & Hnet & Hi & _ & Hrel & Hout) & Hsure).
    eexists r, _. split; [done|]. split; [by case_decide|]. split.
    + intros (sn0 & w0 & Hs0 & Hw & Hb & Hv). rewrite Hs in Hs0. injection Hs0 as <- <-.
      pose proof (Hsure Hw Hb Hv Hne) as Hr. split; [done|]. rewrite decide_True by done.
      exists sn', w'. split; [done|]. split; [by apply Hrel|]. destruct Hnet as (p & off & e & er & -> & Hp). simpl. split; [tauto|done].
    + destruct Hout as [[-> Hw]|[(-> & _)|(-> & _)]]; [|by left..]. right. split; [done|].
      rewrite decide_True by (unfold zlen; lia). split; [exists sn', w'; split; [done|]; split; [done|lia]|].
      cbn [sk_written net_sink]. rewrite Hs. done.
  - intros s n (sn & w & H). by exists sn, w.
  - intros s n (sn & w & H). by exists sn, w.
  - done.
Qed.
End sink.

(** ** Replies *)

Section replies.
Context {MP : MsgPuck} {MPS : MsgPuckSpec MP}.
Context {W : Type} {SY : Sys W} {OB : Observe W} {SS : SysSpec W}.
Implicit Types (s : stream (net W)) (sn : snet W tnt_schema) (w : W).
Variable fuel : nat.

(** A live network stream. *)
Definition net_state s sn w : Prop := st_data s = Some (sn, w) /\ snet_ok sn /\ (interrupts w < fuel)%nat.

(** The bytes the peer has sent and is still to send that the client has not read. *)
Definition input sn w : bytes := waiting sn ++ incoming w.

(** The streams differ at most in what a reception changes. *)
Definition after_reading s sn w s' sn' w' : Prop :=
  net_state s' sn' w' /\ same_but_rbuf sn sn' /\ sent w' = sent w /\ st_reqid s' = st_reqid s /\ st_alloc s' = st_alloc s.

Lemma after_reading_trans s sn w s1 sn1 w1 s2 sn2 w2 :
  after_reading s sn w s1 sn1 w1 -> after_reading s1 sn1 w1 s2 sn2 w2 -> after_reading s sn w s2 sn2 w2.
Proof.
  intros (_ & H2 & H3 & H4 & H5) (G1 & G2 & G3 & G4 & G5). split; [done|]. split; [by eapply same_but_rbuf_trans|].
  split; [by rewrite G3|]. split; congruence.
Qed.

Lemma net_read_ok s sn w size :
  net_state s sn w ->
  exists r out sn' w', tnt_net_read fuel s size = Some (r, out, put_net sn' w' s) /\
    after_reading s sn w (put_net sn' w' s) sn' w' /\ (length out <= size)%nat /\
    ((r = Z.of_nat size /\ input sn w = out ++ input sn' w' /\ length out = size) \/ (r = -1 /\ n_error sn' = TNT_ESYSTEM)).
Proof.
  intros (Hs & Hok & Hf). unfold tnt_net_read. rewrite Hs. cbn [mbind option_bind].
  destruct (recv_ok fuel sn size w Hok Hf) as (r & out & sn' & w' & E & Hok' & Hsame & Hres). rewrite E. cbn [mbind option_bind].
  exists r, out, sn', w'. split; [done|].
  destruct Hres as [(-> & Hl & new & (Hsent & Hi & _ & _ & Hin) & Heq)|(-> & He & Hl & new & (Hsent & Hi & _))].
  - split; [split; [split; [done|split; [done|lia]]|done]|]. split; [lia|]. left. split; [done|]. split; [|done]. unfold input.
    simpl in Heq. by rewrite Hin, !app_assoc, Heq.
  - split; [split; [split; [done|split; [done|lia]]|done]|]. split; [done|]. by right.
Qed.

(** A reply that is the last one to its request. *)
Definition final (r : reply) : Prop := is_Some (error r) \/ Z.land (code r) (response_type_code TNT_CHUNK) = 0.
#[export] Instance final_dec r : Decision (final r).
Proof. unfold final. apply _. Defined.

(** The reply to a client, in a fresh structure of its own. *)
Definition client_reply (x : server_reply) : reply := expected_reply (owning false (reply_payload (fst x) (snd x))) (fst x) (snd x).

(** Reading one reply. *)
Lemma net_reply_one s sn w x rest :
  net_state s sn w -> granted s -> st_wrcnt s <> 0 -> server_reply_ok (fst x) (snd x) -> input sn w = reply_frame x ++ rest ->
  exists rv s' r' sn' w', tnt_net_reply fuel s (Some (zero_reply false)) = Some (rv, s', Some r') /\
    after_reading s sn w s' sn' w' /\ granted s' /\
    ((rv = 0 /\ r' = client_reply x /\ input sn' w' = rest /\ st_wrcnt s' = if decide (final r') then u32 (st_wrcnt s - 1) else st_wrcnt s) \/
     (rv = -1 /\ r' = zero_reply false /\ n_error sn' = TNT_ESYSTEM /\ st_wrcnt s' = u32 (st_wrcnt s - 1))).
Proof.
  intros Hst Hg Hw Hok Hin. pose proof Hok as (_ & _ & _ & Hl). unfold reply_frame in Hin. set (pl := reply_payload _ _) in *.
  rewrite frame_eq, <- app_assoc in Hin by done. unfold tnt_net_reply. rewrite decide_False by done. cbn [mbind option_bind].
  destruct (net_read_ok s sn w TNT_REPLY_IPROTO_HDR_SIZE Hst) as (r1 & o1 & sn1 & w1 & E1 & H1 & L1 & C1).
  destruct C1 as [(-> & Hin1 & Hl1)|(-> & He1)].
  2: { unfold tnt_reply_from. change (tnt_net_recv_cb fuel s TNT_REPLY_IPROTO_HDR_SIZE) with (tnt_net_read fuel s TNT_REPLY_IPROTO_HDR_SIZE). rewrite E1. cbn [mbind option_bind]. rewrite decide_True by done. cbn [mbind option_bind].
       do 5 eexists. split; [reflexivity|]. rewrite decide_True by (by right). split; [exact H1|]. split; [done|]. by right. }
  pose proof (app_inj_1 (0xce :: be 4 (zlen pl)) o1 (pl ++ rest) (input sn1 w1) ltac:(by rewrite Hl1) ltac:(by rewrite <- Hin, Hin1)) as [<- Hin2].
  destruct (net_read_ok (put_net sn1 w1 s) sn1 w1 (length pl) ltac:(by destruct H1)) as (r2 & o2 & sn2 & w2 & E2 & H2 & L2 & C2).
  pose proof (after_reading_trans _ _ _ _ _ _ _ _ _ H1 H2) as H12.
  destruct (pop (st_mem s)) as [a m] eqn:Ep. destruct (pop_granted _ _ _ Ep Hg) as [Ha Hm].
  pose proof (reply_from_full (tnt_net_recv_cb fuel) (zero_reply false) (fst x) (snd x) s _ _ _ _ _ (st_mem s) Hok E1 ltac:(done) E2 L2) as E.
  rewrite Ep in E. destruct a as [|junk]; [done|].
  destruct C2 as [(-> & Hin3 & Hl2)|(-> & He2)].
  - pose proof (app_inj_1 pl o2 rest (input sn2 w2) ltac:(by rewrite Hl2) ltac:(by rewrite Hin2, Hin3)) as [<- Hin4].
    rewrite E by done. clear E. rewrite decide_False by lia. cbn [mbind option_bind].
    eexists 0, _, (client_reply x), sn2, w2. split; [reflexivity|]. split; [case_decide; exact H12|]. split; [case_decide; exact Hm|].
    left. split; [done|]. split; [done|]. split; [done|]. case_decide as Hd1; case_decide as Hd2; [done| | |done].
    + destruct (Hd2 Hd1).
    + destruct (Hd1 Hd2).
  - rewrite E by done. rewrite decide_True by done. cbn [mbind option_bind].
    do 5 eexists. split; [reflexivity|]. rewrite decide_True by (by right). split; [exact H12|]. split; [exact Hm|]. by right.
Qed.

Lemma net_next_eq alloc r s rc s' r' :
  releasable r -> tnt_net_reply fuel s (Some (zero_reply false)) = Some (rc, s', Some r') ->
  tnt_next (tnt_net_reply fuel) (reply_iter alloc r) s =
    Some (if decide (rc = -1) then 0 else if decide (rc = 1) then 0 else 1,
          if decide (rc = -1) then Iter TNT_ITER_REPLY TNT_ITER_FAIL alloc (IReply r') else reply_iter alloc r', s').
Proof. apply reply_next_eq. Qed.

(** Without an outstanding request the iterator stops without reading. *)
Lemma net_next_idle alloc r s :
  releasable r -> st_wrcnt s = 0 ->
  tnt_next (tnt_net_reply fuel) (reply_iter alloc r) s = Some (0, reply_iter alloc (zero_reply false), s).
Proof.
  intros Hr Hw. rewrite (net_next_eq alloc r s 1 s (zero_reply false) Hr); [by rewrite !decide_False by done|].
  unfold tnt_net_reply. by rewrite decide_True.
Qed.

Lemma net_drain alloc (l : list server_reply) rest : forall s sn w r n,
  net_state s sn w -> granted s -> Forall (fun x => server_reply_ok (fst x) (snd x) /\ final (client_reply x)) l ->
  st_wrcnt s = zlen l -> zlen l < 2 ^ 32 -> input sn w = concat (reply_frame <$> l) ++ rest -> releasable r -> (length l < n)%nat ->
  exists k it s' sn' w', drain (tnt_net_reply fuel) TNT_IREPLY_PTR n (reply_iter alloc r) s = Some (client_reply <$> take k l, it, s') /\
    after_reading s sn w s' sn' w' /\
    ((k = length l /\ it_status it = TNT_ITER_OK /\ st_wrcnt s' = 0 /\ input sn' w' = rest) \/
     ((k < length l)%nat /\ it_status it = TNT_ITER_FAIL /\ n_error sn' = TNT_ESYSTEM)).
Proof.
  induction l as [|x l IH]; intros s sn w r [|n] Hst Hg Hl Hw Hmax Hin Hr Hn; try (simpl in Hn; lia); cbn [drain].
  - rewrite net_next_idle by done. cbn [mbind option_bind]. rewrite decide_True by done.
    exists 0%nat, (reply_iter alloc (zero_reply false)), s, sn, w. split; [done|].
    split; [split; [done|split; [apply same_but_rbuf_refl|done]]|]. by left.
  - apply Forall_cons in Hl as [[Hok Hfin] Hl]. csimpl in Hin. rewrite <- app_assoc in Hin.
    assert (zlen (x :: l) = zlen l + 1) as Ez by (unfold zlen; simpl length; lia). assert (0 <= zlen l) by len.
    destruct (net_reply_one s sn w x _ Hst Hg ltac:(lia) Hok Hin) as (rv & s1 & r1 & sn1 & w1 & E & H1 & Hg1 & Hres).
    rewrite (net_next_eq alloc r s rv s1 r1 Hr E). destruct Hres as [(-> & -> & Hin1 & Hw1)|(-> & -> & He & _)].
    + rewrite !decide_False by done. cbn [mbind option_bind]. rewrite decide_False by done.
      cbn [TNT_IREPLY_PTR reply_iter it_data mbind option_bind]. rewrite decide_True in Hw1 by done.
      destruct (IH s1 sn1 w1 (client_reply x) n) as (k & it & s' & sn' & w' & -> & H2 & Hres); try done;
        [by destruct H1|rewrite Hw1, u32_small; lia|lia|simpl in Hn; lia|].
      cbn [mbind option_bind]. exists (S k), it, s', sn', w'. split; [done|]. split; [by eapply after_reading_trans|].
      destruct Hres as [(-> & ?)|(? & ?)]; [by left|right]. split; [simpl; lia|done].
    + rewrite !decide_True by done. cbn [mbind option_bind]. rewrite decide_True by done.
      eexists 0%nat, _, s1, sn1, w1. split; [done|]. split; [done|]. right. split; [simpl; lia|done].
Qed.

(** C29: replies on a network stream: when the peer answers every write with
    one reply, the loop [while (tnt_next(it))] visits exactly these replies in
    order and then stops by itself, leaving whatever follows unread, or a
    reception has failed, which the status of the iterator and the error of the
    stream tell.  Whatever the sizes of the pieces in which the data arrives. *)
Theorem net_replies_in_order given a (l : list server_reply) s sn w rest :
  given = true \/ a <> Refuse ->
  net_state s sn w -> granted s -> Forall (fun x => server_reply_ok (fst x) (snd x) /\ final (client_reply x)) l ->
  st_wrcnt s = zlen l -> zlen l < 2 ^ 32 -> input sn w = concat (reply_frame <$> l) ++ rest ->
  exists it0 k it s' sn' w', tnt_iter_reply given a = Some it0 /\
    drain (tnt_net_reply fuel) TNT_IREPLY_PTR (S (length l)) it0 s = Some (client_reply <$> take k l, it, s') /\
    after_reading s sn w s' sn' w' /\
    ((k = length l /\ it_status it = TNT_ITER_OK /\ st_wrcnt s' = 0 /\ input sn' w' = rest) \/
     ((k < length l)%nat /\ it_status it = TNT_ITER_FAIL /\ n_error sn' = TNT_ESYSTEM)).
Proof.
  intros Ha Hst Hg Hl Hw Hmax Hin.
  destruct (net_drain (negb given) l rest s sn w (zero_reply false) (S (length l)) Hst Hg Hl Hw Hmax Hin) as (k & it & s' & sn' & w' & H); [done|lia|].
  exists (reply_iter (negb given) (zero_reply false)), k, it, s', sn', w'. split; [|exact H].
  destruct given, a; try done. by destruct Ha.
Qed.

End replies.

(** ** Requests *)

Section requests.
Context {MP : MsgPuck} {MPS : MsgPuckSpec MP}.
Context {W : Type} {SY : Sys W} {OB : Observe W} {SS : SysSpec W}.
Implicit Types (s : stream (net W)) (sn : snet W tnt_schema) (w : W).
Variable fuel : nat.
#[local] Existing Instance net_sink.
#[local] Existing Instance net_sink_spec.

(** A write that succeeds counts once. *)
Lemma writev_counts s iov rc s' :
  tnt_net_writev fuel s iov = Some (rc, s') -> rc <> -1 -> st_wrcnt s' = u32 (st_wrcnt s + 1).
Proof.
  unfold tnt_net_writev. intros E Hrc. destruct (st_data s) as [[sn w]|]; [|done]. cbn [mbind option_bind] in E.
  destruct (tnt_io_sendv _ _ _ _) as [[[rc' sn'] w']|]; [|done]. cbn [mbind option_bind] in E. injection E as <- <-.
  by rewrite decide_True.
Qed.

Lemma compile_counts s r z s' r' :
  tnt_request_compile (H := net_sink fuel) s r = Some (z, s', r') -> z <> -1 -> st_wrcnt s' = u32 (st_wrcnt s + 1).
Proof.
  unfold tnt_request_compile, tnt_request_writeout. intros E Hz.
  destruct (request_iov _) as [[v|]|]; cbn [mbind option_bind] in E; [| |done].
  - destruct (sk_writev _ v) as [[rv s1]|] eqn:Ew; cbn [mbind option_bind] in E; [|done].
    destruct (decide (rv = -1)); cbn [mbind option_bind] in E; [by injection E as <- <- <-|].
    rewrite decide_False in E by done. injection E as <- <- <-. rewrite (writev_counts _ _ _ _ Ew) by done.
    unfold take_sync. by case_decide.
  - rewrite decide_True in E by done. by injection E as <- <- <-.
Qed.

Lemma compile_all_counts rs : forall s z s',
  compile_all (SK := net_sink fuel) rs s = Some (z, s') -> z <> -1 -> u32 (st_wrcnt s') = u32 (st_wrcnt s + zlen rs).
Proof.
  induction rs as [|r rs IH]; intros s z s' E Hz; cbn [compile_all] in E.
  - injection E as <- <-. unfold zlen. simpl. by rewrite Z.add_0_r.
  - destruct (tnt_request_compile s r) as [[[z1 s1] r1]|] eqn:E1; cbn [mbind option_bind] in E; [|done].
    case_decide as Hd; [by injection E as <- <-|]. rewrite (IH _ _ _ E Hz), (compile_counts _ _ _ _ _ E1 Hd).
    unfold u32. rewrite Zplus_mod_idemp_l. f_equal. unfold zlen. simpl length. lia.
Qed.

(** C28: requests on a network stream: whatever pieces the socket takes,
    compiling well-formed requests and flushing either fails, which the results
    tell, or has sent exactly the bytes from which the server decodes these
    requests, in order, with consecutive ids; the stream then counts one
    outstanding write for each. *)
Theorem net_pipeline rs s sn w l :
  net_state fuel s sn w -> buffered sn = [] -> Forall (fun r => request_ok r /\ request_valid r) rs ->
  0 <= st_reqid s -> st_reqid s + zlen rs <= INT64_MAX -> expected rs (st_reqid s) = Some l ->
  exists z s1, compile_all (SK := net_sink fuel) rs s = Some (z, s1) /\
    (reliable w -> i_buf (n_sbuf sn) = PNull -> i_txv (n_sbuf sn) = None -> z <> -1) /\
    (z <> -1 -> u32 (st_wrcnt s1) = u32 (st_wrcnt s + zlen rs) /\
       exists rc s2 sn2 w2, tnt_flush fuel s1 = Some (rc, s2) /\ net_state fuel s2 sn2 w2 /\ st_wrcnt s2 = st_wrcnt s1 /\
         (rc <> -1 -> exists bs, sent w2 = sent w ++ bs /\ decode_stream (length rs) bs = Some (l, []))).
Proof.
  intros (Hs & Hok & Hf) Hb Hrs Hq Hmax Hl.
  destruct (compile_all_spec (SK := net_sink fuel) rs s l ltac:(by exists sn, w) Hrs Hq Hmax Hl) as (z & s1 & E & Hsure & Hz).
  exists z, s1. split; [exact E|]. split; [intros H1 H2 H3; apply Hsure; by exists sn, w|]. intros Hne.
  split; [exact (compile_all_counts rs s z s1 E Hne)|].
  destruct Hz as [?|(bs & (sn1 & w1 & Hs1 & Hok1 & Hf1) & Hw & Hlen & Hd)]; [done|].
  cbn [sk_written net_sink] in Hw. rewrite Hs, Hs1 in Hw. unfold written in Hw. rewrite Hb, app_nil_r in Hw.
  unfold tnt_flush. rewrite Hs1. cbn [mbind option_bind].
  destruct (flush_ok fuel sn1 w1 Hok1 Hf1) as (rc & sn2 & w2 & -> & Hok2 & _ & Hi & _ & _ & Hres). cbn [mbind option_bind].
  exists rc, (put_net sn2 w2 s1), sn2, w2. split; [done|]. split; [split; [done|split; [done|lia]]|]. split; [done|]. intros Hrc.
  destruct Hres as [(_ & _ & Hsent)|(? & _)]; [|done]. exists bs. split; [by rewrite Hsent|].
  rewrite <- Hlen. rewrite <- (app_nil_r bs). apply Hd.
Qed.

End requests.

(** ** Witnesses *)

(** A connected stream with a send buffer of [a] bytes and a receive buffer of
    [b], that has [n] writes to be answered by [bs], arriving in pieces. *)
Definition demo_net (a b : nat) : snet Mock.world tnt_schema :=
  Snet (snd (tnt_opt_init (Grant []))) true 3 (Iob (PHeap (replicate a 0)) 0 0 a None None 0)
    (Iob (PHeap (replicate b 0)) 0 0 b None None 0) TNT_EOK 0 PNull None true.
Definition demo_world (bs : bytes) (events : list Mock.event) : Mock.world := Mock.World [] [] bs events 0.
Definition demo_stream (a b : nat) (n : Z) (bs : bytes) (events : list Mock.event) : stream (net Mock.world) :=
  Stream false n 0 (Some (demo_net a b, demo_world bs events)) [].

Lemma demo_state a b n bs events :
  net_state (S (Mock.intr_count events)) (demo_stream a b n bs events) (demo_net a b) (demo_world bs events).
Proof.
  split; [done|]. split; [|simpl; lia]. split; [by split; [|split]| |].
  - simpl. split; [by rewrite length_replicate|lia].
  - split; [|simpl; lia]. simpl. split; [by rewrite length_replicate|lia].
Qed.

Definition demo_pieces : list Mock.event := [Mock.Xfer 3; Mock.Intr; Mock.Xfer 9; Mock.Xfer 1].

(** Two replies, then the first byte of something else. *)
Definition demo_replies : list server_reply := [sample_reply; sample_reply].
Definition demo_input : bytes := concat (reply_frame (MP := RefPuck) <$> demo_replies) ++ [7].
Definition demo_iter : iter := reply_iter false (zero_reply false).
#[local] Notation demo_drain := (drain (tnt_net_reply (MP := RefPuck) 2) TNT_IREPLY_PTR (S (length demo_replies)) demo_iter
  (demo_stream 0 16 2 demo_input demo_pieces)).

Lemma demo_drained : match demo_drain with Some (_, it, _) => it_status it = TNT_ITER_OK | None => False end.
Proof. vm_compute. reflexivity. Qed.

Lemma demo_replies_ok :
  Forall (fun x => server_reply_ok (MP := RefPuck) (fst x) (snd x) /\ final (client_reply (MP := RefPuck) x)) demo_replies.
Proof. repeat apply Forall_cons_2; try apply Forall_nil_2; (split; [exact sample_reply_ok|by right]). Qed.

Lemma net_replies_in_order_witness :
  exists it s', demo_drain = Some (client_reply (MP := RefPuck) <$> demo_replies, it, s') /\ it_status it = TNT_ITER_OK /\ st_wrcnt s' = 0.
Proof.
  destruct (net_replies_in_order (MP := RefPuck) 2 true Refuse demo_replies (demo_stream 0 16 2 demo_input demo_pieces)
      (demo_net 0 16) (demo_world demo_input demo_pieces) [7] (or_introl eq_refl) (demo_state 0 16 2 demo_input demo_pieces)
      (not_elem_of_nil _) demo_replies_ok eq_refl eq_refl eq_refl) as (it0 & k & it & s' & sn' & w' & E0 & E & _ & Hres).
  assert (Some demo_iter = Some it0) as E1 by exact E0. apply Some_inj in E1. subst it0.
  pose proof demo_drained as H. rewrite E in H. exists it, s'.
  destruct Hres as [(-> & _ & Hw & _)|(_ & Hf & _)]; [|rewrite Hf in H; discriminate H].
  split; [exact E|]. split; [exact H|exact Hw].
Defined.

(** An insert and a select through a small send buffer, in pieces. *)
#[local] Notation demo_compiled := (compile_all (MP := RefPuck) (SK := net_sink 2) [sample_insert; sample_select] (demo_stream 24 0 0 [] demo_pieces)).

Lemma demo_sent : match demo_compiled with
  | Some (z, s1) => z <> -1 /\ match tnt_flush 2 s1 with Some (rc, _) => rc <> -1 | None => False end | None => False end.
Proof. vm_compute. split; discriminate. Qed.

Lemma net_pipeline_witness :
  exists z s1 rc s2 sn2 w2, demo_compiled = Some (z, s1) /\ tnt_flush 2 s1 = Some (rc, s2) /\ st_data s2 = Some (sn2, w2) /\
    decode_stream (MP := RefPuck) 2 (sent w2) = Some (sample_pipeline, []).
Proof.
  destruct (net_pipeline (MP := RefPuck) 2 [sample_insert; sample_select] (demo_stream 24 0 0 [] demo_pieces) (demo_net 24 0)
      (demo_world [] demo_pieces) sample_pipeline (demo_state 24 0 0 [] demo_pieces) eq_refl sample_requests_ok) as (z & s1 & E & _ & H).
  - discriminate.
  - discriminate.
  - vm_compute. reflexivity.
  - pose proof demo_sent as Hd. rewrite E in Hd. destruct Hd as [Hz Hd].
    destruct (H Hz) as (_ & rc & s2 & sn2 & w2 & Ef & (Hs2 & _) & _ & Hrc). rewrite Ef in Hd.
    destruct (Hrc Hd) as (bs & Hb & Hdec). exists z, s1, rc, s2, sn2, w2. split; [exact E|]. split; [exact Ef|]. split; [exact Hs2|].
    rewrite Hb. exact Hdec.
Defined.
