(* ===== verification/Tp.v ===== *)
(** * include/tp.h: the header-only connector, requests

    [tp] is [struct tp].  The pointers [p], [e], [size] and [sync] point into
    the buffer that starts at [s]: they are offsets from [s].  A write outside
    of the buffer is undefined ([store]), as is a failed assertion.  The
    [reserve] callback gets the three pointers of the buffer (its other
    argument [obj] is its own business).  Sizes are computed by the functions
    [mp_sizeof_*] in [int]; 32-bit values are stored through [mp_bswap_u32], on
    a little endian machine: in network byte order. *)

From S2P Require Import Prelude Msgpuck MsgpuckRef Mem Sha1 Base64.

(** ** Constants *)

Inductive tp_type :=
  | TP_NIL | TP_UINT | TP_INT | TP_STR | TP_BIN | TP_ARRAY | TP_MAP
  | TP_BOOL | TP_FLOAT | TP_DOUBLE | TP_EXT.

(** [TP_NIL = MP_NIL, ...]: the cast of [tp_typeof]. *)
Definition tp_type_of (t : mp_type) : tp_type :=
  match t with
  | MP_NIL => TP_NIL | MP_UINT => TP_UINT | MP_INT => TP_INT | MP_STR => TP_STR
  | MP_BIN => TP_BIN | MP_ARRAY => TP_ARRAY | MP_MAP => TP_MAP | MP_BOOL => TP_BOOL
  | MP_FLOAT => TP_FLOAT | MP_DOUBLE => TP_DOUBLE | MP_EXT => TP_EXT
  end.

Inductive tp_header_key_t := TP_CODE | TP_SYNC.

Definition tp_header_key (k : tp_header_key_t) : Z :=
  match k with TP_CODE => 0x00 | TP_SYNC => 0x01 end.
Coercion tp_header_key : tp_header_key_t >-> Z.

Inductive tp_body_key_t :=
  | TP_SPACE | TP_INDEX | TP_LIMIT | TP_OFFSET | TP_ITERATOR | TP_KEY | TP_TUPLE
  | TP_FUNCTION | TP_USERNAME | TP_EXPRESSION | TP_SERVER_ID | TP_LSN | TP_TIMESTAMP
  | TP_SERVER_UUID | TP_CLUSTER_UUID | TP_VCLOCK.

Definition tp_body_key (k : tp_body_key_t) : Z :=
  match k with
  | TP_SPACE => 0x10 | TP_INDEX => 0x11 | TP_LIMIT => 0x12 | TP_OFFSET => 0x13
  | TP_ITERATOR => 0x14 | TP_KEY => 0x20 | TP_TUPLE => 0x21 | TP_FUNCTION => 0x22
  | TP_USERNAME => 0x23 | TP_EXPRESSION => 0x27 | TP_SERVER_ID => 0x02 | TP_LSN => 0x03
  | TP_TIMESTAMP => 0x04 | TP_SERVER_UUID => 0x24 | TP_CLUSTER_UUID => 0x25 | TP_VCLOCK => 0x26
  end.
Coercion tp_body_key : tp_body_key_t >-> Z.

Inductive tp_request_type :=
  | TP_SELECT | TP_INSERT | TP_REPLACE | TP_UPDATE | TP_DELETE | TP_CALL | TP_AUTH
  | TP_EVAL | TP_PING | TP_JOIN | TP_SUBSCRIBE.

Definition tp_request_code (r : tp_request_type) : Z :=
  match r with
  | TP_SELECT => 1 | TP_INSERT => 2 | TP_REPLACE => 3 | TP_UPDATE => 4 | TP_DELETE => 5
  | TP_CALL => 6 | TP_AUTH => 7 | TP_EVAL => 8 | TP_PING => 64 | TP_JOIN => 65
  | TP_SUBSCRIBE => 66
  end.
Coercion tp_request_code : tp_request_type >-> Z.

Inductive tp_iterator_type :=
  | TP_ITERATOR_EQ | TP_ITERATOR_REQ | TP_ITERATOR_ALL | TP_ITERATOR_LT | TP_ITERATOR_LE
  | TP_ITERATOR_GE | TP_ITERATOR_GT | TP_ITERATOR_BITS_ALL_SET | TP_ITERATOR_BITS_ANY_SET
  | TP_ITERATOR_BITS_ALL_NON_SET | TP_ITERATOR_OVERLAPS | TP_ITERATOR_NEIGHBOR.

Definition tp_iterator_code (i : tp_iterator_type) : Z :=
  match i with
  | TP_ITERATOR_EQ => 0 | TP_ITERATOR_REQ => 1 | TP_ITERATOR_ALL => 2 | TP_ITERATOR_LT => 3
  | TP_ITERATOR_LE => 4 | TP_ITERATOR_GE => 5 | TP_ITERATOR_GT => 6
  | TP_ITERATOR_BITS_ALL_SET => 7 | TP_ITERATOR_BITS_ANY_SET => 8
  | TP_ITERATOR_BITS_ALL_NON_SET => 9 | TP_ITERATOR_OVERLAPS => 10 | TP_ITERATOR_NEIGHBOR => 11
  end.
Coercion tp_iterator_code : tp_iterator_type >-> Z.

Definition SCRAMBLE_SIZE : nat := 20.

(** ** The buffer *)

(** [s], [p] and [e] of [struct tp]. *)
Record tp_block := Block { s : ptr; p : nat; e : nat }.

(** [tp_reserve]: the returned pointer, what [s] has become, [*size]. *)
Definition tp_reserve := tp_block -> Z -> malloc_state -> option (ptr * ptr * nat * malloc_state).

Record tp := Tp {
  tb : tp_block;
  size : option nat;          (** [None] is [NULL], as below *)
  sync : option nat;
  reserve : option tp_reserve;
}.

Definition set_tb (b : tp_block) (t : tp) : tp := Tp b (size t) (sync t) (reserve t).
Definition set_s (q : ptr) (t : tp) : tp := set_tb (Block q (p (tb t)) (e (tb t))) t.
Definition set_size (o : option nat) (t : tp) : tp := Tp (tb t) o (sync t) (reserve t).
Definition set_sync_at (o : option nat) (t : tp) : tp := Tp (tb t) (size t) o (reserve t).

Definition tp_buf (b : tp_block) : ptr := s b.
Definition tp_size (b : tp_block) : Z := u64 (Z.of_nat (e b)).
Definition tp_used (b : tp_block) : Z := u64 (Z.of_nat (p b)).
Definition tp_unused (b : tp_block) : Z := u64 (Z.of_nat (e b) - Z.of_nat (p b)).

(** libc's [realloc]: the new pointer and what the argument has become; the
    result of [realloc(p, 0)] is not specified. *)
Definition realloc (a : answer) (q : ptr) (n : nat) : option (ptr * ptr) :=
  if decide (n = 0)%nat then None else
  match q, a with
  | PNull, Refuse => Some (PNull, PNull)
  | PNull, Grant junk => Some (PHeap (resize n 0 junk), PNull)
  | PHeap b, Refuse => Some (PNull, PHeap b)
  | PHeap b, Grant junk => Some (PHeap (resize n 0 (b ++ junk)), PDangling)
  | _, _ => None
  end.

Definition tp_realloc : tp_reserve := fun b required m =>
  let toalloc := u64 (tp_size b * 2) in
  let toalloc := if decide (toalloc < required) then u64 (tp_size b + required) else toalloc in
  let '(a, m) := pop m in
  '(np, old) ← realloc a (s b) (Z.to_nat toalloc);
  Some (np, old, Z.to_nat toalloc, m).

(** [tp_free]: what [s] has become. *)
Definition tp_free (b : tp_block) : option ptr :=
  match s b with PNull => Some PNull | PHeap _ => Some PDangling | _ => None end.

Definition tp_init (buf : ptr) (n : nat) (f : option tp_reserve) : tp :=
  Tp (Block buf 0 n) None None f.

(** [tp_ensure] *)
Definition tp_ensure (t : tp) (n : Z) (m : malloc_state) : option (Z * tp * malloc_state) :=
  if decide (n <= tp_unused (tb t)) then Some (0, t, m) else
  match reserve t with
  | None => Some (-1, t, m)
  | Some f =>
      '(np, old, sz, m) ← f (tb t) n m;
      match np with
      | PNull => Some (-1, set_s old t, m)
      | _ => Some (s64 (Z.of_nat sz), set_tb (Block np (p (tb t)) sz) t, m)
      end
  end.

(** Writing [bs] at offset [h]; the offset after it. *)
Definition put (bs : bytes) (x : tp * nat) : option (tp * nat) :=
  let '(t, h) := x in
  q ← store (s (tb t)) h bs;
  Some (set_s q t, (h + length bs)%nat).

(** Several [h = mp_encode_*(h, ...)] in a row. *)
Fixpoint put_all (l : list bytes) (x : tp * nat) : option (tp * nat) :=
  match l with
  | [] => Some x
  | bs :: l => x ← put bs x; put_all l x
  end.

(** [h\[0\] = 0xce] and a 32-bit value after it. *)
Definition put_u32 (o : nat) (v : Z) (t : tp) : option tp :=
  fst <$> put (0xce :: be 4 (u32 v)) (t, o).

(** [tp_add]: the old position. *)
Definition tp_add (t : tp) (n : Z) : option (nat * tp) :=
  let ptr := p (tb t) in
  let t := set_tb (Block (s (tb t)) (ptr + Z.to_nat n) (e (tb t))) t in
  sz ← size t;
  t ← put_u32 sz (Z.of_nat (p (tb t)) - Z.of_nat sz - 5) t;
  Some (ptr, t).

(** [a + b] on [int]. *)
Definition int_add (a b : Z) : option Z :=
  if decide (- 2 ^ 31 <= a + b <= INT_MAX) then Some (a + b) else None.

(** [if (tp_ensure(p, n) == -1) return NULL; body; return tp_add(p, n);] with
    an [int] [n]; the result is an offset, [None] for [NULL]. *)
Definition tp_emit (n : Z) (body : tp -> option (tp * nat)) (t : tp) (m : malloc_state)
    : option (option nat * tp * malloc_state) :=
  '(rc, t, m) ← tp_ensure t (u64 n) m;
  if decide (rc = -1) then Some (None, t, m) else
  '(t, _) ← body t;
  '(r, t) ← tp_add t (u64 n);
  Some (Some r, t, m).

(** ** Requests *)

Section requests.
Context {MP : MsgPuck}.
Implicit Types (t : tp) (m : malloc_state).

Definition tpi_sizeof_header (code : Z) : Z :=
  u32 (5 + mp_sizeof_map 2 + mp_sizeof_uint TP_CODE + mp_sizeof_uint code +
       mp_sizeof_uint TP_SYNC + 5).

(** [tpi_encode_header]: the offset after the header. *)
Definition tpi_encode_header t (code : Z) : option (tp * nat) :=
  let t := set_size (Some (p (tb t))) t in
  '(t, h) ← put_all [mp_encode_map 2; mp_encode_uint TP_CODE; mp_encode_uint code;
                  mp_encode_uint TP_SYNC] (t, (p (tb t) + 5)%nat);
  put (0xce :: be 4 0) (set_sync_at (Some h) t, h).

Definition tp_ping t m :=
  let hsz := s32 (tpi_sizeof_header TP_PING) in
  let sz := s32 (mp_sizeof_map 0) in
  n ← int_add sz hsz;
  tp_emit n (fun t => x ← tpi_encode_header t TP_PING; put_all [mp_encode_map 0] x) t m.

Definition tp_select t (space index offset : Z) (iterator : tp_iterator_type) (limit : Z) m :=
  let hsz := s32 (tpi_sizeof_header TP_SELECT) in
  let sz := s32 (mp_sizeof_map 6 + mp_sizeof_uint TP_SPACE + mp_sizeof_uint space +
    mp_sizeof_uint TP_INDEX + mp_sizeof_uint index + mp_sizeof_uint TP_OFFSET + mp_sizeof_uint offset +
    mp_sizeof_uint TP_LIMIT + mp_sizeof_uint limit + mp_sizeof_uint TP_ITERATOR +
    mp_sizeof_uint iterator + mp_sizeof_uint TP_KEY) in
  n ← int_add sz hsz;
  tp_emit n (fun t => x ← tpi_encode_header t TP_SELECT;
    put_all [mp_encode_map 6; mp_encode_uint TP_SPACE; mp_encode_uint space; mp_encode_uint TP_INDEX;
          mp_encode_uint index; mp_encode_uint TP_OFFSET; mp_encode_uint offset; mp_encode_uint TP_LIMIT;
          mp_encode_uint limit; mp_encode_uint TP_ITERATOR; mp_encode_uint iterator; mp_encode_uint TP_KEY] x) t m.

Definition tpi_encode_store t (type : tp_request_type) (space : Z) m :=
  let hsz := s32 (tpi_sizeof_header type) in
  let sz := s32 (mp_sizeof_map 2 + mp_sizeof_uint TP_SPACE + mp_sizeof_uint space + mp_sizeof_uint TP_TUPLE) in
  n ← int_add sz hsz;
  tp_emit n (fun t => x ← tpi_encode_header t type;
    put_all [mp_encode_map 2; mp_encode_uint TP_SPACE; mp_encode_uint space; mp_encode_uint TP_TUPLE] x) t m.

Definition tp_insert t (space : Z) m := tpi_encode_store t TP_INSERT space m.
Definition tp_replace t (space : Z) m := tpi_encode_store t TP_REPLACE space m.

(** [tp_delete]: the map of the body is counted, not written. *)
Definition tp_delete t (space : Z) m :=
  let hsz := s32 (tpi_sizeof_header TP_DELETE) in
  let sz := s32 (mp_sizeof_map 2 + mp_sizeof_uint TP_SPACE + mp_sizeof_uint space + mp_sizeof_uint TP_KEY) in
  n ← int_add sz hsz;
  tp_emit n (fun t => x ← tpi_encode_header t TP_DELETE;
    put_all [mp_encode_uint TP_SPACE; mp_encode_uint space; mp_encode_uint TP_KEY] x) t m.

(** The [len] bytes at [str]. *)
Definition str_arg (str : bytes) (len : Z) : option bytes := slice 0 (Z.to_nat (u32 len)) str.

(** [mp_encode_str(h, str, len)] *)
Definition put_str (str : bytes) (len : Z) (x : tp * nat) : option (tp * nat) :=
  str ← str_arg str len; put_all [mp_encode_strl (u32 len) ++ str] x.

Definition tp_call t (function : bytes) (len : Z) m :=
  let hsz := s32 (tpi_sizeof_header TP_CALL) in
  let sz := s32 (mp_sizeof_map 2 + mp_sizeof_uint TP_FUNCTION + mp_sizeof_str (u32 len) + mp_sizeof_uint TP_TUPLE) in
  n ← int_add sz hsz;
  tp_emit n (fun t => x ← tpi_encode_header t TP_CALL;
    x ← put_all [mp_encode_map 2; mp_encode_uint TP_FUNCTION] x;
    x ← put_str function len x;
    put_all [mp_encode_uint TP_TUPLE] x) t m.

Definition tp_eval t (expr : bytes) (len : Z) m :=
  let hsz := s32 (tpi_sizeof_header TP_EVAL) in
  let sz := s32 (mp_sizeof_map 2 + mp_sizeof_uint TP_FUNCTION + mp_sizeof_str (u32 len) + mp_sizeof_uint TP_TUPLE) in
  n ← int_add sz hsz;
  tp_emit n (fun t => x ← tpi_encode_header t TP_EVAL;
    x ← put_all [mp_encode_map 2; mp_encode_uint TP_EXPRESSION] x;
    x ← put_str expr len x;
    put_all [mp_encode_uint TP_TUPLE] x) t m.

Definition tp_update t (space : Z) m :=
  let hsz := s32 (tpi_sizeof_header TP_UPDATE) in
  let sz := s32 (mp_sizeof_map 3 + mp_sizeof_uint TP_SPACE + mp_sizeof_uint space + mp_sizeof_uint TP_KEY) in
  n ← int_add sz hsz;
  tp_emit n (fun t => x ← tpi_encode_header t TP_UPDATE;
    put_all [mp_encode_map 3; mp_encode_uint TP_SPACE; mp_encode_uint space; mp_encode_uint TP_KEY] x) t m.

(** The functions that only add to the body write at [p->p]. *)
Definition at_p (f : tp * nat -> option (tp * nat)) t : option (tp * nat) := f (t, p (tb t)).

Definition tp_updatebegin t (op_count : Z) m :=
  let sz := s32 (mp_sizeof_uint TP_TUPLE + mp_sizeof_array op_count) in
  tp_emit sz (at_p (put_all [mp_encode_uint TP_TUPLE; mp_encode_array op_count])) t m.

Definition tp_op t (op field_no : Z) m :=
  let sz := s32 (mp_sizeof_array 3 + mp_sizeof_str 1 + mp_sizeof_uint field_no) in
  tp_emit sz (at_p (put_all [mp_encode_array 3; mp_encode_str [op]; mp_encode_uint field_no])) t m.

(** [tp_op_splice]: the size of [field_no] is counted three times. *)
Definition tp_op_splice t (field_no offset cut_limit : Z) (paste : bytes) (paste_len : Z) m :=
  let sz := s32 (mp_sizeof_array 5 + mp_sizeof_str 1 + mp_sizeof_uint field_no + mp_sizeof_uint field_no +
    mp_sizeof_uint field_no + mp_sizeof_str (u32 paste_len)) in
  tp_emit sz (at_p (fun x =>
    x ← put_all [mp_encode_array 5; mp_encode_str [58]; mp_encode_uint field_no; mp_encode_uint offset;
              mp_encode_uint cut_limit] x;
    put_str paste paste_len x)) t m.

(** [tpi_xor]; [to] is [right], each byte of which is read before it is written. *)
Definition tpi_xor (left right : bytes) (len : nat) : option bytes :=
  left ← slice 0 len left; right ← slice 0 len right; Some (zip_with Z.lxor left right).

(** [tpi_scramble_prepare]; [ctx] is what the uninitialised SHA-1 buffer holds. *)
Definition tpi_scramble_prepare (ctx salt password : bytes) (password_len : Z) : option bytes :=
  password ← slice 0 (Z.to_nat (u32 password_len)) password;
  c ← SHA1Update (SHA1Init ctx) password;
  hash1 ← SHA1Final c;
  c ← SHA1Update (SHA1Init (replicate 64 0)) hash1;
  hash2 ← SHA1Final c;
  salt ← slice 0 SCRAMBLE_SIZE salt;
  c ← SHA1Update (SHA1Init (replicate 64 0)) salt;
  c ← SHA1Update c hash2;
  out ← SHA1Final c;
  tpi_xor hash1 out SCRAMBLE_SIZE.

(** [tp_auth]; [salt0] and [ctx0] are the uninitialised [salt\[64\]] and SHA-1
    buffer.  The size counts neither the map, the keys, the user's name nor the
    name of the method. *)
Definition tp_auth (salt0 ctx0 : bytes) t (salt_base64 user : bytes) (ulen : Z) (pass : bytes) (plen : Z) m :=
  let hsz := s32 (tpi_sizeof_header TP_AUTH) in
  let sz := s32 (mp_sizeof_array 2 + mp_sizeof_str 0 + mp_sizeof_str (Z.of_nat SCRAMBLE_SIZE)) in
  n ← int_add sz hsz;
  tp_emit n (fun t => x ← tpi_encode_header t TP_AUTH;
    x ← put_all [mp_encode_map 2; mp_encode_uint TP_USERNAME] x;
    x ← put_str user ulen x;
    x ← put_all [mp_encode_uint TP_TUPLE; mp_encode_array 2;
              mp_encode_str [99; 104; 97; 112; 45; 115; 104; 97; 49]] x;
    encoded ← slice 0 44 salt_base64;
    '(_, salt) ← base64_decode encoded salt0;
    scramble ← tpi_scramble_prepare ctx0 salt pass plen;
    put_all [mp_encode_str scramble] x) t m.

Definition tp_deauth t m :=
  let hsz := s32 (tpi_sizeof_header TP_AUTH) in
  let sz := s32 (mp_sizeof_array 0) in
  n ← int_add sz hsz;
  tp_emit n (fun t => x ← tpi_encode_header (set_size (Some (p (tb t))) t) TP_AUTH;
    put_all [mp_encode_map 2; mp_encode_uint TP_USERNAME; mp_encode_str [103; 117; 101; 115; 116];
          mp_encode_uint TP_TUPLE; mp_encode_array 0] x) t m.

(** [tp_reqid] *)
Definition tp_reqid t (reqid : Z) : option tp := h ← sync t; put_u32 h reqid t.

(** ** Values *)

Definition tp_encode_nil t m := tp_emit (s32 mp_sizeof_nil) (at_p (put_all [mp_encode_nil])) t m.
Definition tp_encode_uint t (num : Z) m := tp_emit (s32 (mp_sizeof_uint num)) (at_p (put_all [mp_encode_uint num])) t m.
Definition tp_encode_int t (num : Z) m := tp_emit (s32 (mp_sizeof_int num)) (at_p (put_all [mp_encode_int num])) t m.
Definition tp_encode_str t (str : bytes) (len : Z) m :=
  tp_emit (s32 (mp_sizeof_str (u32 len))) (at_p (put_str str len)) t m.
(** [str] is the memory from the pointer on. *)
Definition tp_encode_sz t (str : bytes) m :=
  len ← strlen str;
  tp_emit (s32 (mp_sizeof_str (u32 (Z.of_nat len)))) (at_p (put_str str (Z.of_nat len))) t m.
Definition tp_sz t (str : bytes) m := tp_encode_sz t str m.
Definition tp_encode_bin t (str : bytes) (len : Z) m :=
  tp_emit (s32 (mp_sizeof_bin (u32 len)))
    (at_p (fun x => str ← str_arg str len; put_all [mp_encode_binl (u32 len) ++ str] x)) t m.
Definition tp_encode_array t (n : Z) m := tp_emit (s32 (mp_sizeof_array n)) (at_p (put_all [mp_encode_array n])) t m.
Definition tp_encode_map t (n : Z) m := tp_emit (s32 (mp_sizeof_map n)) (at_p (put_all [mp_encode_map n])) t m.
Definition tp_encode_bool t (val : bool) m := tp_emit (s32 (mp_sizeof_bool val)) (at_p (put_all [mp_encode_bool val])) t m.
(** floats are their bit patterns *)
Definition tp_encode_float t (num : Z) m := tp_emit (s32 (mp_sizeof_float num)) (at_p (put_all [mp_encode_float num])) t m.
Definition tp_encode_double t (num : Z) m := tp_emit (s32 (mp_sizeof_double num)) (at_p (put_all [mp_encode_double num])) t m.
Definition tp_tuple t (field_count : Z) m := tp_encode_array t field_count m.
Definition tp_key t (part_count : Z) m := tp_encode_array t part_count m.

(** [tp_format]; [mp_vformat room] stands for the call of msgpuck's function
    with the arguments: the bytes it stores in [room] bytes and the size it
    asks for.  A second call, with the same [va_list], is undefined. *)
Definition tp_format (mp_vformat : Z -> bytes * Z) t m : option (option nat * tp * malloc_state) :=
  let unused := tp_unused (tb t) in
  let '(bs, sz) := mp_vformat unused in
  '(t, _) ← put bs (t, p (tb t));
  if decide (unused < sz) then
    '(rc, t, m) ← tp_ensure t sz m;
    if decide (rc = -1) then Some (None, t, m) else None
  else '(r, t) ← tp_add t sz; Some (Some r, t, m).

End requests.
