(* ===== verification/TpSpec.v ===== *)
(** * Correctness of the requests of include/tp.h

    The abstract state of a request buffer ([asm]) is the packets it holds: the
    finished ones, and the code, the sync id and the body of the one under
    construction.  Each function of the header, as long as there is room, does
    one abstract step; without room it changes nothing.  A server decodes the
    packets of a sequence of complete requests. *)

From S2P Require Import Prelude Msgpuck MsgpuckRef Mem Stream Proto Tp.

(** ** Writing *)

(** The buffer is alive, and holds [A] before the offset of [x]. *)
Definition holds (x : tp * nat) (A : bytes) : Prop :=
  exists b, block_of (s (tb (fst x))) = Some b /\ length b = e (tb (fst x)) /\
    take (snd x) b = A /\ length A = snd x.

(** [f] appends [bs] where it is called. *)
Definition writes (f : tp * nat -> option (tp * nat)) (bs : bytes) : Prop :=
  forall t h A, holds (t, h) A -> (h + length bs <= e (tb t))%nat ->
    exists q, f (t, h) = Some (set_s q t, (h + length bs)%nat) /\ holds (set_s q t, (h + length bs)%nat) (A ++ bs) /\
      (forall b, s (tb t) = PHeap b -> exists b', q = PHeap b').

Lemma store_block q b o bs :
  block_of q = Some b -> (o + length bs <= length b)%nat ->
  exists q', store q o bs = Some q' /\ block_of q' = Some (take o b ++ bs ++ drop (o + length bs) b) /\
    (forall b, q = PHeap b -> exists b', q' = PHeap b').
Proof.
  intros Hb Hl. destruct q as [|b'|b'|]; try done; simpl in Hb; injection Hb as ->;
    unfold store; rewrite splice_Some by done; eexists; repeat split; intros; simplify_eq; eauto.
Qed.

(** A 32-bit number in its longest encoding. *)
Definition uint32 (v : Z) : bytes := 0xce :: be 4 (u32 v).
#[global] Arguments uint32 : simpl never.

Lemma length_uint32 v : length (uint32 v) = 5%nat.
Proof. done. Qed.
#[export] Hint Rewrite length_uint32 : len.

(** Five bytes are rewritten. *)
Lemma patch_u32 v t h D old X :
  holds (t, h) (D ++ old ++ X) -> length old = 5%nat ->
  exists q, put_u32 (length D) v t = Some (set_s q t) /\
    holds (set_s q t, h) (D ++ uint32 v ++ X) /\
    (forall b, s (tb t) = PHeap b -> exists b', q = PHeap b').
Proof.
  intros (b & Hb & Hl & Ht & Hh) Ho. unfold put_u32, put. fold (uint32 v).
  assert (length (uint32 v) = 5%nat) as HW by done. revert HW.
  generalize (uint32 v). intros W HW. simpl in *.
  assert (length (take h b) = h) as Hth by (rewrite Ht; exact Hh). rewrite length_take in Hth.
  destruct (store_block (s (tb t)) b (length D) W Hb) as (q & -> & Hq & Hp); [len|].
  exists q. split; [done|]. split; [|done]. eexists. split; [exact Hq|]. split; [simpl; len|]. simpl. split; [|len].
  assert (b = D ++ old ++ X ++ drop h b) as ->.
  { rewrite <- (take_drop h b) at 1. rewrite Ht. by rewrite <- !app_assoc. }
  rewrite take_app_length, HW, <- Ho, drop_app_add', drop_app_length by done.
  assert (forall Y : bytes, D ++ W ++ X ++ Y = (D ++ W ++ X) ++ Y) as -> by (intros; by rewrite <- !app_assoc).
  apply take_app_length'. len.
Qed.

Lemma writes_put bs : writes (put bs) bs.
Proof.
  intros t h A (b & Hb & Hl & Ht & Hh) Hr. simpl in *. unfold put.
  destruct (store_block (s (tb t)) b h bs Hb) as (q & -> & Hq & Hp); [lia|].
  exists q. split; [done|]. split; [|done]. eexists. split; [exact Hq|]. split; [simpl; len|]. simpl. split; [|len].
  rewrite app_assoc, take_app_length', Ht; len. done.
Qed.

Lemma writes_bind f g a b :
  writes f a -> writes g b -> writes (fun x => x ← f x; g x) (a ++ b).
Proof.
  intros Hf Hg t h A H Hr. rewrite length_app in Hr.
  destruct (Hf t h A H) as (q & -> & H1 & Hp); [lia|]. cbn [mbind option_bind].
  destruct (Hg _ _ _ H1) as (q' & -> & H2 & Hp'); [simpl; lia|]. exists q'.
  rewrite length_app, Nat.add_assoc, (app_assoc A). split; [done|]. split; [done|].
  intros c Hc. destruct (Hp c Hc) as [c' ->]. by apply (Hp' c').
Qed.

Lemma writes_put_all l : writes (put_all l) (concat l).
Proof.
  induction l as [|bs l IH].
  - intros t h A H Hr. exists (s (tb t)). simpl. rewrite Nat.add_0_r, app_nil_r.
    destruct t as [[? ? ?] ? ? ?]. split; [done|]. split; [done|]. eauto.
  - intros t h A H Hr. exact (writes_bind (put bs) (put_all l) bs (concat l) (writes_put bs) IH t h A H Hr).
Qed.

(** A hole to be filled later. *)
Lemma holds_skip k t h A :
  holds (t, h) A -> (h + k <= e (tb t))%nat -> exists hole, length hole = k /\ holds (t, (h + k)%nat) (A ++ hole).
Proof.
  intros (b & Hb & Hl & Ht & Hh) Hr. simpl in *. exists (take k (drop h b)). split; [len|].
  exists b. repeat split; try done; simpl; [|len]. rewrite <- Ht. by rewrite take_take_drop.
Qed.

(** [holds] only looks at the block. *)
Lemma holds_ext t t' h A :
  s (tb t') = s (tb t) -> e (tb t') = e (tb t) -> holds (t, h) A -> holds (t', h) A.
Proof. intros Es Ee (b & H). exists b. simpl in *. by rewrite Es, Ee. Qed.

(** [tp_add] completes the length prefix. *)
Lemma add_spec t (n : nat) D hole X :
  size t = Some (length D) -> length hole = 5%nat ->
  holds (t, (p (tb t) + n)%nat) (D ++ hole ++ X) ->
  exists q, tp_add t (Z.of_nat n) = Some (p (tb t), set_tb (Block q (p (tb t) + n) (e (tb t))) t) /\
    holds (set_tb (Block q (p (tb t) + n) (e (tb t))) t, (p (tb t) + n)%nat) (D ++ uint32 (zlen X) ++ X) /\
    (forall b, s (tb t) = PHeap b -> exists b', q = PHeap b').
Proof.
  intros Es Hh H. unfold tp_add. rewrite Nat2Z.id.
  set (t' := set_tb (Block (s (tb t)) (p (tb t) + n) (e (tb t))) t).
  assert (size t' = Some (length D)) as -> by done. cbn [mbind option_bind].
  assert (holds (t', (p (tb t) + n)%nat) (D ++ hole ++ X)) as H' by exact H.
  set (v := _ - 5). destruct (patch_u32 v _ _ _ _ _ H' Hh) as (q & E & Hq & Hp). rewrite E. cbn [mbind option_bind].
  exists q. split; [done|]. split; [|exact Hp].
  assert (v = zlen X) as Ev.
  { destruct H as (? & _ & _ & _ & Hl). simpl in Hl. unfold v, t'. simpl. unfold zlen.
    rewrite !length_app in Hl. lia. }
  rewrite Ev in Hq. exact Hq.
Qed.

(** ** The abstract state *)

Section tp.
Context {MP : MsgPuck} {MPS : MsgPuckSpec MP}.

(** The header up to the sync id. *)
Definition hdr_prefix (code : Z) : bytes :=
  mp_encode_map 2 ++ mp_encode_uint TP_CODE ++ mp_encode_uint code ++ mp_encode_uint TP_SYNC.

(** Code, sync id and body of a packet. *)
Definition pkt : Type := Z * Z * bytes.

Definition pkt_payload (c : pkt) : bytes :=
  let '(code, sy, body) := c in hdr_prefix code ++ uint32 sy ++ body.

Definition pkt_bytes (c : pkt) : bytes := uint32 (zlen (pkt_payload c)) ++ pkt_payload c.

Record asm := Asm { finished : bytes; current : option pkt }.

Definition asm_bytes (a : asm) : bytes :=
  finished a ++ match current a with Some c => pkt_bytes c | None => [] end.

(** The abstract steps. *)
Definition start (code : Z) (prefix : bytes) (a : asm) : asm := Asm (asm_bytes a) (Some (code, 0, prefix)).
Definition add (bs : bytes) (a : asm) : asm :=
  Asm (finished a) ((fun '(code, sy, body) => (code, sy, body ++ bs)) <$> current a).
Definition reqid (sy : Z) (a : asm) : asm :=
  Asm (finished a) ((fun '(code, _, body) => (code, sy, body)) <$> current a).

(** A [reserve] callback serves requests of at most [N] bytes from a heap block
    of at least [N] bytes: it returns [NULL] and leaves the block, or a block
    with the same contents and room for the request. *)
Definition reserve_ok (N : nat) (f : tp_reserve) : Prop :=
  forall bl o req m, (o <= length bl)%nat -> (N <= length bl)%nat -> Z.of_nat (length bl) < 2 ^ 32 ->
    0 <= req <= Z.of_nat N ->
    exists np old sz m', f (Block (PHeap bl) o (length bl)) req m = Some (np, old, sz, m') /\
      (Refuse ∉ m -> np <> PNull /\ Refuse ∉ m') /\
      match np with
      | PNull => old = PHeap bl
      | _ => exists bl', np = PHeap bl' /\ length bl' = sz /\ take o bl' = take o bl /\
          Z.of_nat o + req <= Z.of_nat sz < 2 ^ 63 /\ (length bl <= sz)%nat
      end.

(** The buffer can grow, if it has a callback. *)
Definition grows (N : nat) (t : tp) : Prop :=
  match reserve t with
  | None => True
  | Some f => reserve_ok N f /\ (N <= e (tb t))%nat /\ exists bl, s (tb t) = PHeap bl
  end.

(** The buffer [t] represents [a]. *)
Record tp_rep (N : nat) (t : tp) (a : asm) : Prop := {
  rep_holds : holds (t, p (tb t)) (asm_bytes a);
  rep_room : (p (tb t) <= e (tb t))%nat;
  rep_small : Z.of_nat (e (tb t)) < 2 ^ 63;
  rep_current : match current a with
    | None => size t = None /\ sync t = None
    | Some (code, _, _) => size t = Some (length (finished a)) /\
        sync t = Some (length (finished a) + 5 + length (hdr_prefix code))%nat
    end;
  rep_grows : grows N t;
}.

Lemma rep_pos N t a : tp_rep N t a -> p (tb t) = length (asm_bytes a).
Proof. intros [(? & _ & _ & _ & Hl)]. by rewrite Hl. Qed.

(** A step from [(t, m)] to [(t', m')] keeps the means to grow. *)
Definition kept (t : tp) (m : malloc_state) (t' : tp) (m' : malloc_state) : Prop :=
  reserve t' = reserve t /\ (reserve t = None -> e (tb t') = e (tb t)) /\ (Refuse ∉ m -> Refuse ∉ m').

(** [n] more bytes cannot be refused. *)
Definition willing (t : tp) (m : malloc_state) (n : nat) : Prop :=
  match reserve t with None => (p (tb t) + n <= e (tb t))%nat | Some _ => Refuse ∉ m end.

Lemma kept_refl t m : kept t m t m.
Proof. done. Qed.

Lemma kept_trans t1 m1 t2 m2 t3 m3 : kept t1 m1 t2 m2 -> kept t2 m2 t3 m3 -> kept t1 m1 t3 m3.
Proof.
  intros (R1 & E1 & G1) (R2 & E2 & G2). split; [congruence|]. split; [|auto].
  intros H. rewrite E2 by congruence. auto.
Qed.

(** The block has grown. *)
Lemma grow_rep N t a bl bl' sz :
  tp_rep N t a -> s (tb t) = PHeap bl -> length bl' = sz ->
  take (p (tb t)) bl' = take (p (tb t)) bl -> (length bl <= sz)%nat -> Z.of_nat sz < 2 ^ 63 ->
  tp_rep N (set_tb (Block (PHeap bl') (p (tb t)) sz) t) a.
Proof.
  intros [(b & Hb & Hl & Ht & Hn) Hr He Hc Hf] Es Hlen Htk Hle Hs. simpl in *. rewrite Es in Hb. injection Hb as <-.
  split; simpl; try done; try lia.
  - exists bl'. simpl. by rewrite Htk.
  - unfold grows in *. simpl. destruct (reserve t) as [f|]; [|done]. destruct Hf as (Hf & HN & _). split; [done|]. split; [lia|]. by eexists.
Qed.

Lemma set_s_id t : set_s (s (tb t)) t = t.
Proof. by destruct t as [[? ? ?] ? ? ?]. Qed.

Lemma ensure_spec N t a (n : nat) m :
  tp_rep N t a -> (n <= N)%nat -> zlen (asm_bytes a) + Z.of_nat n < 2 ^ 31 ->
  exists rc t' m', tp_ensure t (Z.of_nat n) m = Some (rc, t', m') /\ kept t m t' m' /\ tp_rep N t' a /\
    (willing t m n -> rc <> -1) /\ (rc <> -1 -> (p (tb t') + n <= e (tb t'))%nat).
Proof.
  intros H Hn Hs. pose proof (rep_pos _ _ _ H) as Hp. pose proof H as [Hh Hr He Hc Hf].
  unfold grows in Hf. unfold willing. unfold tp_ensure, tp_unused. rewrite u64_small by lia. case_decide as Hd.
  { exists 0, t, m. split; [done|]. split; [apply kept_refl|]. split; [done|]. split; [done|]. lia. }
  destruct (reserve t) as [f|] eqn:Ef.
  2: { do 3 eexists. split; [done|]. split; [apply kept_refl|]. split; [done|]. split; [|done]. lia. }
  destruct Hf as (Hf & HN & bl & Es). pose proof Hh as (b & Hb & Hl & _). simpl in Hb, Hl.
  rewrite Es in Hb. injection Hb as <-.
  destruct (Hf bl (p (tb t)) (Z.of_nat n) m) as (np & old & sz & m' & E & Hg & Hnp); [lia|lia|unfold zlen in *; lia|lia|].
  assert (Block (PHeap bl) (p (tb t)) (length bl) = tb t) as Eb by (rewrite <- Es, Hl; by destruct (tb t)).
  rewrite Eb in E. rewrite E. cbn [mbind option_bind]. destruct np as [|bl'| |].
  - subst old. rewrite <- Es, set_s_id. do 3 eexists. split; [done|].
    split; [split; [done|split; [done|intros; by apply Hg]]|]. split; [done|].
    split; [|done]. intros Hm. by destruct (Hg Hm).
  - destruct Hnp as (bl0 & [= <-] & H1 & H2 & H3 & H4). do 3 eexists. split; [done|].
    split; [split; [done|split; [by rewrite Ef|intros; by apply Hg]]|].
    split; [apply (grow_rep N t a bl); done || lia|]. rewrite s64_small by lia. simpl. lia.
  - by destruct Hnp as (? & [=] & _).
  - by destruct Hnp as (? & [=] & _).
Qed.

(** ** The steps *)

(** [res] is a step from [a] to [a'] that needs [n] more bytes, or [NULL]. *)
Definition emits (N : nat) t m (a a' : asm) (n : nat) (res : option (option nat * tp * malloc_state)) : Prop :=
  exists r t' m', res = Some (r, t', m') /\ kept t m t' m' /\ (willing t m n -> r <> None) /\
    tp_rep N t' (match r with Some _ => a' | None => a end).

Lemma emit_ok N t m a a' n body :
  tp_rep N t a -> (n <= N)%nat -> zlen (asm_bytes a) + Z.of_nat n < 2 ^ 31 ->
  (forall t1, tp_rep N t1 a -> (p (tb t1) + n <= e (tb t1))%nat ->
    exists t2 h r t3, body t1 = Some (t2, h) /\ tp_add t2 (Z.of_nat n) = Some (r, t3) /\ tp_rep N t3 a' /\
      reserve t3 = reserve t1 /\ e (tb t3) = e (tb t1)) ->
  emits N t m a a' n (tp_emit (Z.of_nat n) body t m).
Proof.
  intros H Hn Hs Hb. assert (0 <= zlen (asm_bytes a)) by len. unfold tp_emit. rewrite u64_small by lia.
  destruct (ensure_spec N t a n m H Hn Hs) as (rc & t1 & m1 & -> & Hk & H1 & Hw & Hroom). cbn [mbind option_bind].
  case_decide as Hrc.
  - exists None, t1, m1. split; [done|]. split; [done|]. split; [|done]. intros Hw'. by destruct (Hw Hw').
  - destruct (Hb t1 H1 (Hroom Hrc)) as (t2 & h & r & t3 & -> & E & H3 & Er & Ee). cbn [mbind option_bind].
    rewrite E. cbn [mbind option_bind]. exists (Some r), t3, m1. split; [done|]. split; [|done].
    destruct Hk as (K1 & K2 & K3). split; [congruence|]. split; [|done]. intros. rewrite Ee. auto.
Qed.

Lemma grows_ext N t t' :
  grows N t -> reserve t' = reserve t -> e (tb t') = e (tb t) ->
  (forall b, s (tb t) = PHeap b -> exists b', s (tb t') = PHeap b') -> grows N t'.
Proof.
  unfold grows. intros H -> Ee Hp. destruct (reserve t) as [f|]; [|done]. destruct H as (? & ? & bl & Es).
  rewrite Ee. split; [done|]. split; [done|]. eauto.
Qed.

(** The end of a step: the packet [c] after the finished ones is complete but
    for its length. *)
Lemma add_rep N t n D hole code sy body :
  holds (t, (p (tb t) + n)%nat) (D ++ hole ++ pkt_payload (code, sy, body)) -> length hole = 5%nat ->
  size t = Some (length D) -> sync t = Some (length D + 5 + length (hdr_prefix code))%nat ->
  (p (tb t) + n <= e (tb t))%nat -> Z.of_nat (e (tb t)) < 2 ^ 63 -> grows N t ->
  exists r t3, tp_add t (Z.of_nat n) = Some (r, t3) /\ tp_rep N t3 (Asm D (Some (code, sy, body))) /\
    reserve t3 = reserve t /\ e (tb t3) = e (tb t).
Proof.
  intros H Hh Es Ey Hr He Hg. destruct (add_spec t n D hole _ Es Hh H) as (q & -> & H3 & Hp).
  do 2 eexists. split; [done|]. split; [|done]. split; try done.
  by apply (grows_ext N t).
Qed.

Lemma emit_value N t m a code sy body f bs :
  tp_rep N t a -> current a = Some (code, sy, body) -> writes f bs -> (length bs <= N)%nat ->
  zlen (asm_bytes a) + zlen bs < 2 ^ 31 ->
  emits N t m a (add bs a) (length bs) (tp_emit (zlen bs) (at_p f) t m).
Proof.
  intros H Ec Hf Hn Hs. apply emit_ok; [done|done|done|]. clear t H. intros t H Hr.
  destruct a as [D [c|]]; [|done]. simpl in Ec. injection Ec as ->.
  pose proof H as [Hh _ He [Es Ey] Hg]. simpl in Es, Ey. unfold at_p.
  destruct (Hf _ _ _ Hh Hr) as (q & E & Hq & Hp). unfold asm_bytes, pkt_bytes in Hq.
  cbn [current finished] in Hq.
  destruct (add_rep N (set_s q t) (length bs) D (uint32 (zlen (pkt_payload (code, sy, body)))) code sy (body ++ bs))
    as (r & t3 & E3 & H3 & Er & Ee); try done.
  - revert Hq. unfold pkt_payload. by rewrite <- !app_assoc.
  - apply (grows_ext N t); done.
  - do 4 eexists. split; [exact E|]. split; [exact E3|]. done.
Qed.

(** The header of a request, after five bytes for its length. *)
Lemma header_spec t code A :
  holds (t, p (tb t)) A -> (p (tb t) + (5 + length (hdr_prefix code) + 5) <= e (tb t))%nat ->
  exists q hole t', length hole = 5%nat /\
    t' = Tp (Block q (p (tb t)) (e (tb t))) (Some (p (tb t))) (Some (p (tb t) + 5 + length (hdr_prefix code))%nat) (reserve t) /\
    tpi_encode_header t code = Some (t', (p (tb t) + (5 + length (hdr_prefix code) + 5))%nat) /\
    holds (t', (p (tb t) + (5 + length (hdr_prefix code) + 5))%nat) (A ++ hole ++ hdr_prefix code ++ uint32 0) /\
    (forall b, s (tb t) = PHeap b -> exists b', q = PHeap b').
Proof.
  intros H Hr. set (t0 := set_size (Some (p (tb t))) t).
  destruct (holds_skip 5 t0 (p (tb t)) A H) as (hole & Hh & H0); [simpl; lia|].
  assert (concat [mp_encode_map 2; mp_encode_uint TP_CODE; mp_encode_uint code; mp_encode_uint TP_SYNC] = hdr_prefix code) as Ec
    by (unfold hdr_prefix; simpl; by rewrite app_nil_r).
  pose proof (writes_put_all [mp_encode_map 2; mp_encode_uint TP_CODE; mp_encode_uint code; mp_encode_uint TP_SYNC]) as Hw.
  rewrite Ec in Hw. destruct (Hw t0 _ _ H0) as (q1 & E1 & H1 & Hp1); [simpl; lia|].
  set (h := (p (tb t) + 5 + length (hdr_prefix code))%nat) in *.
  set (t1 := set_sync_at (Some h) (set_s q1 t0)).
  assert (holds (t1, h) ((A ++ hole) ++ hdr_prefix code)) as H1' by exact H1.
  destruct (writes_put (uint32 0) t1 _ _ H1') as (q & E2 & H2 & Hp2); [simpl; lia|].
  exists q, hole. eexists. split; [done|]. split; [reflexivity|]. unfold tpi_encode_header.
  cbv zeta. fold t0. change (p (tb t0)) with (p (tb t)). rewrite E1. cbn [mbind option_bind].
  assert (h + length (uint32 0) = p (tb t) + (5 + length (hdr_prefix code) + 5))%nat as Eh by (rewrite length_uint32; lia).
  rewrite Eh in E2, H2. rewrite <- !app_assoc in H2. split; [exact E2|]. split; [exact H2|].
  intros b Hb. destruct (Hp1 b Hb) as [b1 ->]. by apply (Hp2 b1).
Qed.

Definition start_size (code : Z) (prefix : bytes) : nat := (10 + length (hdr_prefix code) + length prefix)%nat.

Lemma emit_start N t m a code f prefix :
  tp_rep N t a -> writes f prefix -> (start_size code prefix <= N)%nat ->
  zlen (asm_bytes a) + Z.of_nat (start_size code prefix) < 2 ^ 31 ->
  emits N t m a (start code prefix a) (start_size code prefix)
    (tp_emit (Z.of_nat (start_size code prefix)) (fun t => x ← tpi_encode_header t code; f x) t m).
Proof.
  intros H Hf Hn Hs. apply emit_ok; [done|done|done|]. clear t H. intros t H Hr. unfold start_size in Hr.
  pose proof (rep_pos _ _ _ H) as Ep. pose proof H as [Hh _ He _ Hg].
  destruct (header_spec t code _ Hh) as (q & hole & t1 & Hl & Et & E1 & H1 & Hp1); [lia|].
  destruct (Hf t1 _ _ H1) as (q' & E2 & H2 & Hp2); [subst t1; simpl; lia|].
  assert (p (tb (set_s q' t1)) = p (tb t)) as Ep' by by subst t1.
  destruct (add_rep N (set_s q' t1) (start_size code prefix) (asm_bytes a) hole code 0 prefix) as (r & t3 & E3 & H3 & Er & Ee).
  - rewrite Ep'. unfold start_size. unfold pkt_payload. rewrite <- !app_assoc in H2.
    replace (p (tb t) + (10 + length (hdr_prefix code) + length prefix))%nat
      with (p (tb t) + (5 + length (hdr_prefix code) + 5) + length prefix)%nat by lia. exact H2.
  - done.
  - subst t1. simpl. by rewrite Ep.
  - subst t1. simpl. by rewrite Ep.
  - subst t1. simpl. unfold start_size. lia.
  - by subst t1.
  - apply (grows_ext N t); [done|by subst t1|by subst t1|]. intros b Hb. destruct (Hp1 b Hb) as [b' ->].
    apply (Hp2 b'). by subst t1.
  - do 4 eexists. rewrite E1. cbn [mbind option_bind]. split; [exact E2|]. split; [exact E3|]. split; [exact H3|].
    subst t1. done.
Qed.

Lemma reqid_ok N t a id :
  tp_rep N t a -> current a <> None ->
  exists t', tp_reqid t id = Some t' /\ tp_rep N t' (reqid id a) /\ reserve t' = reserve t /\
    e (tb t') = e (tb t).
Proof.
  intros H Hc. destruct a as [D [[[code sy] body]|]]; [|done]. pose proof H as [Hh Hr He [Es Ey] Hg].
  unfold tp_reqid. rewrite Ey. cbn [mbind option_bind finished].
  set (P := D ++ uint32 (zlen (pkt_payload (code, sy, body))) ++ hdr_prefix code).
  assert (length D + 5 + length (hdr_prefix code) = length P)%nat as -> by (unfold P; rewrite !length_app, length_uint32; lia).
  destruct (patch_u32 id t (p (tb t)) P (uint32 sy) body) as (q & E & Hq & Hp); [|done|].
  { unfold P. rewrite <- !app_assoc. exact Hh. }
  exists (set_s q t). split; [exact E|]. split; [|done]. split; try done.
  - unfold P in Hq. rewrite <- !app_assoc in Hq.
    assert (zlen (pkt_payload (code, sy, body)) = zlen (pkt_payload (code, id, body))) as El
      by (unfold pkt_payload, zlen; by rewrite !length_app, !length_uint32).
    rewrite El in Hq. exact Hq.
  - by apply (grows_ext N t).
Qed.

(** ** The functions of the header *)

Inductive tp_val :=
  | VNil | VUint (n : Z) | VInt (n : Z) | VStr (s : bytes) | VSz (s : bytes) | VBin (s : bytes)
  | VArray (n : Z) | VMap (n : Z) | VBool (b : bool) | VFloat (n : Z) | VDouble (n : Z)
  | VTuple (n : Z) | VKey (n : Z)
  | VUpdate (n : Z) | VOp (op field : Z) | VSplice (field offset cut : Z) (paste : bytes).

Definition run_val (v : tp_val) (t : tp) (m : malloc_state) : option (option nat * tp * malloc_state) :=
  match v with
  | VNil => tp_encode_nil t m
  | VUint n => tp_encode_uint t n m
  | VInt n => tp_encode_int t n m
  | VStr s => tp_encode_str t s (zlen s) m
  | VSz s => tp_encode_sz t (s ++ [0]) m
  | VBin s => tp_encode_bin t s (zlen s) m
  | VArray n => tp_encode_array t n m
  | VMap n => tp_encode_map t n m
  | VBool b => tp_encode_bool t b m
  | VFloat n => tp_encode_float t n m
  | VDouble n => tp_encode_double t n m
  | VTuple n => tp_tuple t n m
  | VKey n => tp_key t n m
  | VUpdate n => tp_updatebegin t n m
  | VOp op f => tp_op t op f m
  | VSplice f o c paste => tp_op_splice t f o c paste (zlen paste) m
  end.

(** What each appends. *)
Definition val_bytes (v : tp_val) : bytes :=
  match v with
  | VNil => mp_encode_nil
  | VUint n => mp_encode_uint n
  | VInt n => mp_encode_int n
  | VStr s | VSz s => mp_encode_str s
  | VBin s => mp_encode_bin s
  | VArray n | VTuple n | VKey n => mp_encode_array n
  | VMap n => mp_encode_map n
  | VBool b => mp_encode_bool b
  | VFloat n => mp_encode_float n
  | VDouble n => mp_encode_double n
  | VUpdate n => mp_encode_uint TP_TUPLE ++ mp_encode_array n
  | VOp op f => mp_encode_array 3 ++ mp_encode_str [op] ++ mp_encode_uint f
  | VSplice f o c paste => mp_encode_array 5 ++ mp_encode_str [58] ++ mp_encode_uint f ++ mp_encode_uint o ++
      mp_encode_uint c ++ mp_encode_str paste
  end.

(** The ranges of the C types; a splice whose size is what the code computes. *)
Definition val_ok (v : tp_val) : Prop :=
  match v with
  | VNil | VBool _ | VFloat _ | VDouble _ => True
  | VUint n => 0 <= n < 2 ^ 64
  | VInt n => - 2 ^ 63 <= n < 0
  | VStr s | VBin s => zlen s < 2 ^ 32
  | VSz s => zlen s < 2 ^ 32 /\ Forall (fun b => b <> 0) s
  | VArray n | VMap n | VTuple n | VKey n | VUpdate n => 0 <= n < 2 ^ 32
  | VOp _ f => 0 <= f < 2 ^ 32
  | VSplice f o c paste => 0 <= f < 2 ^ 32 /\ 0 <= o < 2 ^ 32 /\ 0 <= c < 2 ^ 32 /\ zlen paste < 2 ^ 32 /\
      mp_sizeof_uint o + mp_sizeof_uint c = 2 * mp_sizeof_uint f
  end.

Lemma writes_put_all_eq l bs : concat l = bs -> writes (put_all l) bs.
Proof. intros <-. apply writes_put_all. Qed.

Lemma str_arg_all str : zlen str < 2 ^ 32 -> str_arg str (zlen str) = Some str.
Proof. intros. unfold str_arg. rewrite u32_small by len. apply slice_all. Qed.

Lemma str_arg_sz str rest : zlen str < 2 ^ 32 -> str_arg (str ++ rest) (Z.of_nat (length str)) = Some str.
Proof.
  intros. unfold str_arg. rewrite u32_small by len. rewrite Nat2Z.id.
  exact (slice_app [] str rest).
Qed.

Lemma writes_str str mem : zlen str < 2 ^ 32 -> str_arg mem (zlen str) = Some str ->
  writes (put_str mem (zlen str)) (mp_encode_str str).
Proof.
  intros Hs E t h A. unfold put_str. rewrite E. cbn [mbind option_bind].
  apply writes_put_all_eq. simpl. rewrite u32_small by len. apply app_nil_r.
Qed.

Lemma size_str str : zlen str < 2 ^ 32 -> mp_sizeof_str (zlen str) = zlen (mp_encode_str str).
Proof. intros. rewrite spec_sizeof_str by len. unfold mp_encode_str. by rewrite zlen_app. Qed.

Lemma size_bin str : zlen str < 2 ^ 32 -> mp_sizeof_bin (zlen str) = zlen (mp_encode_bin str).
Proof. intros. rewrite spec_sizeof_bin by len. unfold mp_encode_bin. by rewrite zlen_app. Qed.

(** A size of less than 2 GB, as the code computes it. *)
Lemma int_size x n : x = n -> 0 <= n < 2 ^ 31 -> s32 x = n.
Proof. intros -> ?. apply s32_small. lia. Qed.

Ltac sizes := rewrite ?zlen_app, ?spec_sizeof_nil, ?spec_sizeof_bool, ?spec_sizeof_float, ?spec_sizeof_double,
  ?u32_small by len; repeat first
  [ rewrite size_str by (done || len) | rewrite size_bin by (done || len)
  | rewrite spec_sizeof_uint by (simpl; lia) | rewrite spec_sizeof_int by lia
  | rewrite spec_sizeof_array by lia | rewrite spec_sizeof_map by lia ].

Lemma val_step N t m a v :
  tp_rep N t a -> current a <> None -> val_ok v -> (length (val_bytes v) <= N)%nat ->
  zlen (asm_bytes a) + zlen (val_bytes v) < 2 ^ 31 ->
  emits N t m a (add (val_bytes v) a) (length (val_bytes v)) (run_val v t m).
Proof.
  intros H Hc Hv Hn Hs. destruct (current a) as [[[code sy] body]|] eqn:Ec; [|done].
  assert (0 <= zlen (asm_bytes a)) as H0 by len. assert (0 <= zlen (val_bytes v) < 2 ^ 31) as Hb by len.
  assert (forall x f, x = zlen (val_bytes v) -> writes f (val_bytes v) ->
    emits N t m a (add (val_bytes v) a) (length (val_bytes v)) (tp_emit (s32 x) (at_p f) t m)) as Hgo.
  { intros x f -> Hf. rewrite (int_size _ _ eq_refl Hb). by apply (emit_value N t m a code sy body). }
  clear H Ec Hn Hs H0 Hb. destruct v as [|n|n|str|str|str|n|n|b|n|n|n|n|n|op f|f o c paste]; simpl in Hv; unfold run_val.
  all: try (apply Hgo; [by sizes|apply writes_put_all_eq, app_nil_r]).
  - unfold tp_encode_str. rewrite u32_small by len. apply Hgo; [by apply size_str|].
    apply writes_str; [done|by apply str_arg_all].
  - destruct Hv as [Hv Hz]. unfold tp_encode_sz. rewrite strlen_app by done. cbn [mbind option_bind].
    change (Z.of_nat (length str)) with (zlen str). rewrite u32_small by len. apply Hgo; [by apply size_str|].
    apply writes_str; [done|by apply str_arg_sz].
  - unfold tp_encode_bin. rewrite u32_small by len. apply Hgo; [by apply size_bin|].
    intros t' h A. rewrite str_arg_all by done. cbn [mbind option_bind]. apply writes_put_all_eq, app_nil_r.
  - apply Hgo; [by unfold val_bytes; sizes|]. apply writes_put_all_eq. simpl. by rewrite app_nil_r.
  - apply Hgo; [|apply writes_put_all_eq; simpl; by rewrite app_nil_r]. unfold val_bytes. sizes.
    rewrite <- (size_str [op]) by (unfold zlen; simpl; lia). change (zlen [op]) with 1. lia.
  - destruct Hv as (H1 & H2 & H3 & H4 & H5). unfold tp_op_splice. rewrite u32_small by len. apply Hgo.
    + revert H5. unfold val_bytes. sizes. rewrite <- (size_str [58]) by (unfold zlen; simpl; lia).
      change (zlen [58]) with 1. lia.
    + assert (val_bytes (VSplice f o c paste) = concat [mp_encode_array 5; mp_encode_str [58]; mp_encode_uint f;
        mp_encode_uint o; mp_encode_uint c] ++ mp_encode_str paste) as ->
        by (unfold val_bytes; simpl; by rewrite <- !app_assoc, app_nil_l).
      apply writes_bind; [apply writes_put_all|]. apply writes_str; [done|by apply str_arg_all].
Qed.

(** The functions that start a request. *)
Inductive tp_start :=
  | SPing | SSelect (space index offset : Z) (it : tp_iterator_type) (limit : Z)
  | SInsert (space : Z) | SReplace (space : Z) | SCall (f : bytes) | SEval (e : bytes) | SUpdate (space : Z).

Definition run_start (x : tp_start) (t : tp) (m : malloc_state) : option (option nat * tp * malloc_state) :=
  match x with
  | SPing => tp_ping t m
  | SSelect sp ix off it lim => tp_select t sp ix off it lim m
  | SInsert sp => tp_insert t sp m
  | SReplace sp => tp_replace t sp m
  | SCall f => tp_call t f (zlen f) m
  | SEval e => tp_eval t e (zlen e) m
  | SUpdate sp => tp_update t sp m
  end.

Definition start_code (x : tp_start) : tp_request_type :=
  match x with
  | SPing => TP_PING | SSelect _ _ _ _ _ => TP_SELECT | SInsert _ => TP_INSERT
  | SReplace _ => TP_REPLACE | SCall _ => TP_CALL | SEval _ => TP_EVAL | SUpdate _ => TP_UPDATE
  end.

(** The number of fields of the body, and its first bytes: complete fields and
    the key of the field whose value the client appends. *)
Definition start_fields (x : tp_start) : Z * fields * option tp_body_key_t :=
  match x with
  | SPing => (0, [], None)
  | SSelect sp ix off it lim => (6, [(TP_SPACE : Z, mp_encode_uint sp); (TP_INDEX : Z, mp_encode_uint ix);
      (TP_OFFSET : Z, mp_encode_uint off); (TP_LIMIT : Z, mp_encode_uint lim);
      (TP_ITERATOR : Z, mp_encode_uint it)], Some TP_KEY)
  | SInsert sp | SReplace sp => (2, [(TP_SPACE : Z, mp_encode_uint sp)], Some TP_TUPLE)
  | SCall f => (2, [(TP_FUNCTION : Z, mp_encode_str f)], Some TP_TUPLE)
  | SEval e => (2, [(TP_EXPRESSION : Z, mp_encode_str e)], Some TP_TUPLE)
  | SUpdate sp => (3, [(TP_SPACE : Z, mp_encode_uint sp)], Some TP_KEY)
  end.

Definition start_prefix (x : tp_start) : bytes :=
  let '(n, fs, k) := start_fields x in
  mp_encode_map n ++ concat (field_bytes <$> fs) ++ match k with Some k => mp_encode_uint k | None => [] end.

Definition start_args_ok (x : tp_start) : Prop :=
  match x with
  | SPing => True
  | SSelect sp ix off _ lim => 0 <= sp < 2 ^ 32 /\ 0 <= ix < 2 ^ 32 /\ 0 <= off < 2 ^ 32 /\ 0 <= lim < 2 ^ 32
  | SInsert sp | SReplace sp | SUpdate sp => 0 <= sp < 2 ^ 32
  | SCall f | SEval f => zlen f < 2 ^ 32
  end.

Lemma tp_code_bound (c : tp_request_type) : 0 <= c < 128.
Proof. destruct c; simpl; lia. Qed.
Lemma tp_key_bound (k : tp_body_key_t) : 0 <= k < 128.
Proof. destruct k; simpl; lia. Qed.
Lemma tp_iter_bound (i : tp_iterator_type) : 0 <= i < 128.
Proof. destruct i; simpl; lia. Qed.

Lemma header_size (c : tp_request_type) :
  s32 (tpi_sizeof_header c) = 10 + zlen (hdr_prefix c).
Proof.
  pose proof (tp_code_bound c). pose proof (spec_len_map4 2). pose proof (spec_len_uint7 c).
  pose proof (spec_len_uint7 0). pose proof (spec_len_uint7 1).
  unfold tpi_sizeof_header, hdr_prefix, tp_header_key. sizes. rewrite u32_small, s32_small; lia.
Qed.

(** Calls and evaluations, whose keys have the same size. *)
Lemma call_size (k1 k2 : tp_body_key_t) str :
  zlen str < 2 ^ 32 ->
  s32 (mp_sizeof_map 2 + mp_sizeof_uint k1 + mp_sizeof_str (u32 (zlen str)) + mp_sizeof_uint TP_TUPLE) =
  s32 (zlen (mp_encode_map 2 ++ mp_encode_uint k2 ++ mp_encode_str str ++ mp_encode_uint TP_TUPLE)).
Proof.
  intros Hl. pose proof (tp_key_bound k1). pose proof (tp_key_bound k2). rewrite u32_small by len. f_equal.
  rewrite size_str by done. pose proof (spec_len_uint7 k1). pose proof (spec_len_uint7 k2). sizes. lia.
Qed.

Lemma writes_call (k : tp_body_key_t) str :
  zlen str < 2 ^ 32 ->
  writes (fun x => x ← put_all [mp_encode_map 2; mp_encode_uint k] x; x ← put_str str (zlen str) x;
                   put_all [mp_encode_uint TP_TUPLE] x)
    (mp_encode_map 2 ++ mp_encode_uint k ++ mp_encode_str str ++ mp_encode_uint TP_TUPLE).
Proof.
  intros Hl. assert (mp_encode_map 2 ++ mp_encode_uint k ++ mp_encode_str str ++ mp_encode_uint TP_TUPLE =
    concat [mp_encode_map 2; mp_encode_uint k] ++ mp_encode_str str ++ concat [mp_encode_uint TP_TUPLE]) as ->
    by (cbn [concat]; by rewrite !app_nil_r, <- !app_assoc).
  apply writes_bind; [apply writes_put_all|]. apply writes_bind; [|apply writes_put_all].
  apply writes_str; [done|by apply str_arg_all].
Qed.

Lemma start_step N t m a x :
  tp_rep N t a -> start_args_ok x -> (start_size (start_code x) (start_prefix x) <= N)%nat ->
  zlen (asm_bytes a) + Z.of_nat (start_size (start_code x) (start_prefix x)) < 2 ^ 31 ->
  emits N t m a (start (start_code x) (start_prefix x) a) (start_size (start_code x) (start_prefix x)) (run_start x t m).
Proof.
  intros H Hx Hn Hs. assert (0 <= zlen (asm_bytes a)) as H0 by len. pose proof (header_size (start_code x)) as Hh.
  assert (0 <= zlen (start_prefix x)) as Hp by len. assert (0 <= zlen (hdr_prefix (start_code x))) as Hq by len.
  assert (Z.of_nat (start_size (start_code x) (start_prefix x)) =
    zlen (start_prefix x) + s32 (tpi_sizeof_header (start_code x))) as Hsz by (rewrite Hh; unfold start_size, zlen; lia).
  assert (forall f y, y = zlen (start_prefix x) -> writes f (start_prefix x) ->
    emits N t m a (start (start_code x) (start_prefix x) a) (start_size (start_code x) (start_prefix x))
      (n ← int_add (s32 y) (s32 (tpi_sizeof_header (start_code x)));
       tp_emit n (fun t => z ← tpi_encode_header t (start_code x); f z) t m)) as Hgo.
  { intros f y -> Hf. rewrite (int_size _ _ eq_refl) by lia. unfold int_add, INT_MAX. rewrite decide_True by lia.
    cbn [mbind option_bind]. rewrite <- Hsz. by apply emit_start. }
  clear H Hn Hs H0 Hp Hq Hh Hsz.
  unfold start_prefix, field_bytes in *.
  destruct x as [|sp ix off it lim|sp|sp|f|e|sp]; simpl in Hx; unfold run_start, tp_insert, tp_replace, tpi_encode_store, tp_call, tp_eval;
    cbn [concat start_fields fmap list_fmap fst snd] in *; rewrite ?app_nil_r, <- ?app_assoc in *.
  5: rewrite (call_size _ TP_FUNCTION _ Hx); apply Hgo; [reflexivity|by apply (writes_call TP_FUNCTION)].
  5: rewrite (call_size _ TP_EXPRESSION _ Hx); apply Hgo; [reflexivity|by apply (writes_call TP_EXPRESSION)].
  all: apply Hgo; [|apply writes_put_all_eq; cbn [concat]; by rewrite ?app_nil_r].
  2: pose proof (tp_iter_bound it).
  all: sizes; lia.
Qed.

(** ** Requests *)

(** The requests of the header, with the values the client appends. *)
Inductive tp_req :=
  | RqPing | RqSelect (space index offset : Z) (it : tp_iterator_type) (limit : Z) (key : list tp_val)
  | RqInsert (space : Z) (tuple : list tp_val) | RqReplace (space : Z) (tuple : list tp_val)
  | RqCall (f : bytes) (args : list tp_val) | RqEval (e : bytes) (args : list tp_val)
  | RqUpdate (space : Z) (key : list tp_val) (n : Z) (ops : list tp_val).

Definition req_start (r : tp_req) : tp_start :=
  match r with
  | RqPing => SPing | RqSelect sp ix off it lim _ => SSelect sp ix off it lim
  | RqInsert sp _ => SInsert sp | RqReplace sp _ => SReplace sp | RqCall f _ => SCall f
  | RqEval e _ => SEval e | RqUpdate sp _ _ _ => SUpdate sp
  end.

Definition req_vals (r : tp_req) : list tp_val :=
  match r with
  | RqPing => []
  | RqSelect _ _ _ _ _ vs | RqInsert _ vs | RqReplace _ vs | RqCall _ vs | RqEval _ vs => vs
  | RqUpdate _ vs n ops => vs ++ VUpdate n :: ops
  end.

Definition vals_bytes (vs : list tp_val) : bytes := concat (val_bytes <$> vs).

(** The fields of the body a request stands for. *)
Definition req_fields (r : tp_req) : fields :=
  match r with
  | RqPing => []
  | RqSelect sp ix off it lim vs =>
      [(TP_SPACE : Z, mp_encode_uint sp); (TP_INDEX : Z, mp_encode_uint ix); (TP_OFFSET : Z, mp_encode_uint off);
       (TP_LIMIT : Z, mp_encode_uint lim); (TP_ITERATOR : Z, mp_encode_uint it); (TP_KEY : Z, vals_bytes vs)]
  | RqInsert sp vs | RqReplace sp vs => [(TP_SPACE : Z, mp_encode_uint sp); (TP_TUPLE : Z, vals_bytes vs)]
  | RqCall f vs => [(TP_FUNCTION : Z, mp_encode_str f); (TP_TUPLE : Z, vals_bytes vs)]
  | RqEval e vs => [(TP_EXPRESSION : Z, mp_encode_str e); (TP_TUPLE : Z, vals_bytes vs)]
  | RqUpdate sp vs n ops => [(TP_SPACE : Z, mp_encode_uint sp); (TP_KEY : Z, vals_bytes vs);
      (TP_TUPLE : Z, mp_encode_array n ++ vals_bytes ops)]
  end.

(** Arguments in range, and values that make one object for each field. *)
Definition req_ok (r : tp_req) : Prop :=
  start_args_ok (req_start r) /\ Forall val_ok (req_vals r) /\
  match r with
  | RqPing => True
  | RqSelect _ _ _ _ _ vs | RqInsert _ vs | RqReplace _ vs | RqCall _ vs | RqEval _ vs => mp_object (vals_bytes vs)
  | RqUpdate _ vs n ops => mp_object (vals_bytes vs) /\ mp_object (mp_encode_array n ++ vals_bytes ops)
  end.

(** No single call writes more than [N] bytes. *)
Definition req_chunks (N : nat) (r : tp_req) : Prop :=
  (start_size (start_code (req_start r)) (start_prefix (req_start r)) <= N)%nat /\
  Forall (fun v => (length (val_bytes v) <= N)%nat) (req_vals r).

Definition req_packet (x : tp_req * Z) : bytes :=
  pkt_bytes (start_code (req_start (fst x)) : Z, snd x, body_map (req_fields (fst x))).

(** What a server is to see. *)
Definition req_seen (x : tp_req * Z) : fields * fields :=
  ([(TP_CODE : Z, mp_encode_uint (start_code (req_start (fst x)))); (TP_SYNC : Z, uint32 (snd x))], req_fields (fst x)).

(** The client: each request with its sync id, until a call returns [NULL]. *)
Fixpoint run_vals (vs : list tp_val) (t : tp) (m : malloc_state) : option (bool * tp * malloc_state) :=
  match vs with
  | [] => Some (true, t, m)
  | v :: vs =>
      '(r, t, m) ← run_val v t m;
      match r with None => Some (false, t, m) | Some _ => run_vals vs t m end
  end.

Definition run_req (x : tp_req * Z) (t : tp) (m : malloc_state) : option (bool * tp * malloc_state) :=
  '(r, t, m) ← run_start (req_start (fst x)) t m;
  match r with
  | None => Some (false, t, m)
  | Some _ => t ← tp_reqid t (snd x); run_vals (req_vals (fst x)) t m
  end.

Fixpoint run_reqs (l : list (tp_req * Z)) (t : tp) (m : malloc_state) : option (bool * tp * malloc_state) :=
  match l with
  | [] => Some (true, t, m)
  | x :: l =>
      '(ok, t, m) ← run_req x t m;
      if ok : bool then run_reqs l t m else Some (false, t, m)
  end.

(** The [tp_used] bytes of the buffer. *)
Definition tp_contents (t : tp) : option bytes := take (p (tb t)) <$> block_of (s (tb t)).

Lemma req_body r : start_prefix (req_start r) ++ vals_bytes (req_vals r) = body_map (req_fields r).
Proof.
  unfold start_prefix, body_map, field_bytes, vals_bytes.
  destruct r; cbn [req_start start_fields req_vals req_fields concat fmap list_fmap fst snd app];
    rewrite ?app_nil_r, <- ?app_assoc; try done.
  unfold vals_bytes. rewrite fmap_app, concat_app. cbn [fmap list_fmap concat val_bytes].
  by rewrite ?app_nil_r, <- ?app_assoc.
Qed.

Lemma req_fields_ok r : req_ok r -> Forall field_ok (req_fields r).
Proof.
  intros (Hs & _ & Ho). pose proof tp_iter_bound.
  destruct r as [|sp ix off it lim vs|sp vs|sp vs|f vs|e vs|sp vs n ops]; simpl in Hs, Ho; destruct_and?;
    repeat apply Forall_cons_2; try apply Forall_nil_2; (split; simpl; [lia|]); auto with mp.
  all: apply mp_object_uint; try lia. specialize (H it). lia.
Qed.

(** ** Decoding *)

Lemma uint32_object v : mp_object (uint32 v).
Proof. apply mp_object_intro. intros r. apply (spec_check_uint32 (u32 v) r). Qed.

Lemma decode_tp_hdr code id q :
  0 <= code < 128 ->
  decode_map (hdr_prefix code ++ uint32 id ++ q)
    = Some ([(TP_CODE : Z, mp_encode_uint code); (TP_SYNC : Z, uint32 id)], q).
Proof.
  intros Hc. unfold decode_map, hdr_prefix. rewrite <- !app_assoc, spec_decode_map by lia. cbn [mbind option_bind].
  change (Z.to_nat 2) with 2%nat. cbn [decode_fields].
  rewrite spec_decode_uint by (simpl; lia). cbn [mbind option_bind].
  rewrite next_object_app by (apply mp_object_uint; lia). cbn [mbind option_bind].
  rewrite spec_decode_uint by (simpl; lia). cbn [mbind option_bind].
  by rewrite next_object_app by apply uint32_object.
Qed.

Lemma decode_req x rest :
  req_ok (fst x) -> zlen (req_packet x) < 2 ^ 31 ->
  decode_packet (req_packet x ++ rest) = Some (fst (req_seen x), snd (req_seen x), rest).
Proof.
  intros Hr Hl. destruct x as [r id]. unfold req_packet, req_seen in *. cbn [fst snd] in *.
  set (code := start_code (req_start r)) in *. set (fs := req_fields r) in *.
  assert (zlen fs < 2 ^ 32) as Hn by (unfold fs; destruct r; done).
  unfold pkt_bytes in *. rewrite zlen_app in Hl. set (pl := pkt_payload _) in *. unfold zlen at 1 in Hl. rewrite length_uint32 in Hl.
  assert (0 <= zlen pl < 2 ^ 31) as Hpl by len. unfold decode_packet.
  unfold uint32 at 1. rewrite <- app_assoc, u32_small by lia.
  change ((0xce :: be 4 (zlen pl)) ++ pl ++ rest) with (0xce :: be 4 (zlen pl) ++ pl ++ rest).
  rewrite spec_decode_uint32 by lia. cbn [mbind option_bind]. rewrite to_nat_zlen, decide_True by len.
  rewrite take_app_length, drop_app_length. unfold pl, pkt_payload. rewrite decode_tp_hdr by apply tp_code_bound.
  cbn [mbind option_bind]. rewrite <- (app_nil_r (body_map fs)), decode_body by (by apply req_fields_ok || done). done.
Qed.

Lemma decode_reqs l rest :
  Forall (fun x => req_ok (fst x)) l -> zlen (concat (req_packet <$> l)) < 2 ^ 31 ->
  decode_stream (length l) (concat (req_packet <$> l) ++ rest) = Some (req_seen <$> l, rest).
Proof.
  induction 1 as [|x l Hx _ IH]; intros Hl; [done|]. cbn [fmap list_fmap concat length decode_stream] in *.
  rewrite zlen_app in Hl. assert (0 <= zlen (req_packet x)) by len. assert (0 <= zlen (concat (req_packet <$> l))) by len.
  rewrite <- app_assoc, decode_req by (done || lia). cbn [mbind option_bind]. rewrite IH by lia.
  cbn [mbind option_bind]. by destruct (req_seen x).
Qed.

(** ** Running *)

Lemma asm_add bs a : current a <> None -> length (asm_bytes (add bs a)) = (length (asm_bytes a) + length bs)%nat.
Proof.
  destruct a as [D [[[code sy] body]|]]; [|done]. intros _. unfold asm_bytes, pkt_bytes, pkt_payload, add. cbn [finished current fmap option_fmap option_map].
  rewrite !length_app, !length_uint32. lia.
Qed.

Lemma asm_start code prefix a :
  length (asm_bytes (start code prefix a)) = (length (asm_bytes a) + start_size code prefix)%nat.
Proof.
  unfold asm_bytes at 1, pkt_bytes, pkt_payload, start, start_size. cbn [finished current].
  rewrite !length_app, !length_uint32. lia.
Qed.

Lemma asm_reqid id a : length (asm_bytes (reqid id a)) = length (asm_bytes a).
Proof.
  destruct a as [D [[[code sy] body]|]]; [|done]. unfold asm_bytes, pkt_bytes, pkt_payload, reqid. cbn [finished current fmap option_fmap option_map].
  by rewrite !length_app, !length_uint32.
Qed.

(** After a step of [n1] bytes that was not refused, the rest cannot be. *)
Lemma willing_step N t m a t' m' a' n1 n2 :
  tp_rep N t a -> tp_rep N t' a' -> kept t m t' m' -> length (asm_bytes a') = (length (asm_bytes a) + n1)%nat ->
  willing t m (n1 + n2) -> willing t' m' n2.
Proof.
  intros H H' (Er & Ee & Hm) El. unfold willing. rewrite Er. destruct (reserve t) eqn:E; [exact Hm|].
  rewrite Ee, (rep_pos _ _ _ H), (rep_pos _ _ _ H'), El by done. lia.
Qed.

Lemma willing_weaken t m n1 n2 : (n1 <= n2)%nat -> willing t m n2 -> willing t m n1.
Proof. intros. unfold willing in *. destruct (reserve t); [done|lia]. Qed.

(** Running until a refusal: the result is [a'], or some state with [Q]. *)
Definition runs (N : nat) t m (a' : asm) (n : nat) (Q : asm -> Prop) (res : option (bool * tp * malloc_state)) : Prop :=
  exists (ok : bool) t' m', res = Some (ok, t', m') /\ kept t m t' m' /\ (willing t m n -> ok = true) /\
    if ok then tp_rep N t' a' else exists a1, tp_rep N t' a1 /\ Q a1.

Lemma run_vals_ok N vs t m a :
  tp_rep N t a -> current a <> None -> Forall val_ok vs -> Forall (fun v => (length (val_bytes v) <= N)%nat) vs ->
  zlen (asm_bytes a) + zlen (vals_bytes vs) < 2 ^ 31 ->
  runs N t m (add (vals_bytes vs) a) (length (vals_bytes vs)) (fun a1 => finished a1 = finished a) (run_vals vs t m).
Proof.
  intros H Hc Hv. revert t m a H Hc. induction Hv as [|v vs Hv _ IH]; intros t m a H Hc Hn Hs.
  { exists true, t, m. split; [done|]. split; [apply kept_refl|]. split; [done|]. revert H.
    unfold vals_bytes. simpl. destruct a as [D [[[code sy] body]|]]; [|done]. unfold add. simpl. by rewrite app_nil_r. }
  apply Forall_cons in Hn as [Hnv Hn]. unfold vals_bytes in *. csimpl in *. rewrite zlen_app in Hs.
  assert (0 <= zlen (concat (val_bytes <$> vs))) by len.
  destruct (val_step N t m a v H Hc Hv Hnv) as (r & t1 & m1 & E & Hk & Hw & H1); [lia|].
  rewrite E. cbn [mbind option_bind]. destruct r as [r|].
  - pose proof (asm_add (val_bytes v) a Hc) as El.
    destruct (IH t1 m1 (add (val_bytes v) a) H1) as (ok & t2 & m2 & E2 & Hk2 & Hw2 & H2); [|done| |].
    { destruct a as [D [[[code sy] body]|]]; done. }
    { unfold zlen in *. rewrite El. lia. }
    exists ok, t2, m2. split; [exact E2|]. split; [by eapply kept_trans|]. rewrite length_app. split.
    + intros. apply Hw2. by eapply (willing_step N t m a t1 m1).
    + revert H2. destruct a as [D [[[code sy] body]|]]; [|done]. unfold add. simpl. by rewrite <- app_assoc.
  - exists false, t1, m1. split; [done|]. split; [done|]. split.
    + intros Hw'. exfalso. apply Hw; [|done]. eapply willing_weaken; [|exact Hw']. len.
    + by exists a.
Qed.

Lemma run_req_ok N x t m a :
  tp_rep N t a -> req_ok (fst x) -> req_chunks N (fst x) -> zlen (asm_bytes a) + zlen (req_packet x) < 2 ^ 31 ->
  runs N t m (Asm (asm_bytes a) (Some (start_code (req_start (fst x)) : Z, snd x, body_map (req_fields (fst x)))))
    (length (req_packet x)) (fun a1 => exists junk, asm_bytes a1 = asm_bytes a ++ junk) (run_req x t m).
Proof.
  destruct x as [r id]. intros H (Hs & Hv & _) [Hc1 Hc2] Hl. unfold run_req, req_packet in *. cbn [fst snd] in *.
  rewrite <- req_body in *. set (code := start_code (req_start r)) in *. set (pre := start_prefix (req_start r)) in *.
  assert (length (pkt_bytes (code : Z, id, pre ++ vals_bytes (req_vals r))) =
    (start_size code pre + length (vals_bytes (req_vals r)))%nat) as Elen
    by (unfold pkt_bytes, pkt_payload, start_size; rewrite !length_app, !length_uint32; lia).
  unfold zlen in Hl. rewrite Elen in *.
  destruct (start_step N t m a (req_start r) H Hs Hc1) as (x & t1 & m1 & E & Hk & Hw & H1); [fold code pre; unfold zlen; lia|].
  fold code pre in E, Hw, H1. rewrite E. cbn [mbind option_bind]. destruct x as [x|].
  - destruct (reqid_ok N t1 _ id H1) as (t2 & E2 & H2 & Er & Ee); [done|]. rewrite E2. cbn [mbind option_bind].
    assert (kept t m t2 m1) as Hk2 by (destruct Hk as (? & K & ?); repeat split; [congruence|intros; rewrite Ee; auto|done]).
    pose proof (asm_start code pre a) as El. rewrite <- (asm_reqid id) in El.
    destruct (run_vals_ok N (req_vals r) t2 m1 _ H2) as (ok & t3 & m3 & E3 & Hk3 & Hw3 & H3); [done|done|done| |].
    { unfold zlen. rewrite El. lia. }
    exists ok, t3, m3. split; [exact E3|]. split; [by eapply kept_trans|]. split.
    { intros. apply Hw3. by eapply (willing_step N t m a t2 m1). }
    destruct ok; [exact H3|]. destruct H3 as (a1 & Ha & Hf). exists a1. split; [done|]. unfold asm_bytes at 1. rewrite Hf.
    by eexists.
  - exists false, t1, m1. split; [done|]. split; [done|]. split.
    + intros Hw'. exfalso. apply Hw; [|done]. eapply willing_weaken; [|exact Hw']. lia.
    + exists a. split; [done|]. exists []. by rewrite app_nil_r.
Qed.

Lemma run_reqs_ok N l t m a :
  tp_rep N t a -> Forall (fun x => req_ok (fst x) /\ req_chunks N (fst x)) l ->
  zlen (asm_bytes a) + zlen (concat (req_packet <$> l)) < 2 ^ 31 ->
  exists (ok : bool) t' m' a' k rest, run_reqs l t m = Some (ok, t', m') /\ tp_rep N t' a' /\
    asm_bytes a' = asm_bytes a ++ concat (req_packet <$> take k l) ++ rest /\
    (if ok then k = length l /\ rest = [] else (k < length l)%nat) /\
    (willing t m (length (concat (req_packet <$> l))) -> ok = true).
Proof.
  intros H Hl. revert t m a H. induction Hl as [|x l [Hx Hc] _ IH]; intros t m a H Hs.
  { exists true, t, m, a, 0%nat, []. simpl. by rewrite app_nil_r. }
  cbn [fmap list_fmap concat run_reqs length] in *. rewrite zlen_app in Hs. assert (0 <= zlen (concat (req_packet <$> l))) by len.
  destruct (run_req_ok N x t m a H Hx Hc) as (ok & t1 & m1 & E & Hk & Hw & H1); [lia|]. rewrite E. cbn [mbind option_bind].
  destruct ok.
  - match type of H1 with tp_rep _ _ ?a => set (a1 := a) in * end.
    assert (asm_bytes a1 = asm_bytes a ++ req_packet x) as Ea by done.
    destruct (IH t1 m1 a1 H1) as (ok & t2 & m2 & a2 & k & rest & E2 & H2 & Ea2 & Hok & Hw2); [rewrite Ea, zlen_app; lia|].
    exists ok, t2, m2, a2, (S k), rest. split; [exact E2|]. split; [done|]. cbn [take fmap list_fmap concat].
    split; [rewrite Ea2, Ea; by rewrite <- !app_assoc|]. split; [destruct ok; [by destruct Hok as [-> ->]|lia]|].
    intros Hw'. apply Hw2. rewrite length_app in Hw'. eapply (willing_step N t m a t1 m1); try done.
    by rewrite Ea, length_app.
  - destruct H1 as (a1 & Ha1 & junk & Ej). exists false, t1, m1, a1, 0%nat, junk.
    split; [done|]. split; [done|]. split; [done|]. split; [lia|]. intros Hw'. apply Hw.
    eapply willing_weaken; [|exact Hw']. len.
Qed.

(** A fresh request buffer. *)
Lemma init_rep N buf b f :
  block_of buf = Some b -> Z.of_nat (length b) < 2 ^ 63 -> grows N (tp_init buf (length b) f) ->
  tp_rep N (tp_init buf (length b) f) (Asm [] None).
Proof. intros Hb Hs Hg. split; try done; simpl; [by exists b|lia]. Qed.

(** C31: Requests of the header-only connector that behave: a sequence of
    [tp_ping], [tp_select], [tp_insert], [tp_replace], [tp_call], [tp_eval] and
    [tp_update], each followed by [tp_reqid] and the values ([tp_encode_*],
    [tp_tuple], [tp_key], [tp_updatebegin], [tp_op], [tp_op_splice]) of its key,
    tuple or operations, with arguments in range and values that make one object
    for each field. Not covered, because the sizes they compute are wrong (see
    the Examples at the end): [tp_delete], [tp_auth], [tp_deauth], and a
    [tp_op_splice] whose offset and cut do not together take twice the bytes of
    its field number; nor [tp_format]. No single call writes more than [N]
    bytes, and all less than 2 GB. The buffer is given to [tp_init] without a
    [reserve] callback, or it is a heap block of at least [N] bytes with a
    callback that serves requests of at most [N] bytes ([reserve_ok];
    [tp_realloc] does on such a block, [tp_realloc_ok], but not from an empty
    buffer, [tp_realloc_overflows]). Then no call writes outside of the buffer;
    the client stops at the first call that returns [NULL], which does not
    happen when the packets fit the buffer or memory is granted; and what the
    buffer holds is decoded by a server as the requests completed before, in
    order, each with its sync id and its fields. *)
Theorem tp_requests_correct N buf b f l m :
  block_of buf = Some b -> Z.of_nat (length b) < 2 ^ 63 -> grows N (tp_init buf (length b) f) ->
  Forall (fun x => req_ok (fst x) /\ req_chunks N (fst x)) l -> zlen (concat (req_packet <$> l)) < 2 ^ 31 ->
  exists (ok : bool) t' m' data k rest,
    run_reqs l (tp_init buf (length b) f) m = Some (ok, t', m') /\ tp_contents t' = Some data /\
    decode_stream k data = Some (take k (req_seen <$> l), rest) /\
    (if ok then k = length l /\ rest = [] else (k < length l)%nat) /\
    (match f with None => (length (concat (req_packet <$> l)) <= length b)%nat | Some _ => Refuse ∉ m end -> ok = true).
Proof.
  intros Hb Hs Hg Hl Hlen.
  destruct (run_reqs_ok N l _ m _ (init_rep N buf b f Hb Hs Hg) Hl Hlen) as (ok & t' & m' & a' & k & rest & E & H & Ea & Hk & Hw).
  pose proof (rep_holds _ _ _ H) as (b' & Hb' & _ & Ht & _). exists ok, t', m', (asm_bytes a'), k, rest.
  split; [exact E|]. split; [unfold tp_contents; cbn [fst snd] in *; rewrite Hb'; simpl; by rewrite Ht|].
  split; [|split; [exact Hk|]; by destruct f]. rewrite Ea. cbn [asm_bytes finished current app].
  assert (length (take k l) = k) as Ek by (rewrite length_take; destruct ok; [destruct Hk as [-> _]|]; lia).
  rewrite <- Ek at 1. rewrite <- (fmap_take req_seen). apply decode_reqs.
  - apply Forall_take. eapply Forall_impl; [exact Hl|]. by intros ? [].
  - rewrite <- (take_drop k l), fmap_app, concat_app, zlen_app in Hlen. len.
Qed.
End tp.

(** ** [tp_realloc] *)

(** Doubling is enough for requests that are not larger than the block. *)
Lemma tp_realloc_ok N : (0 < N)%nat -> reserve_ok N tp_realloc.
Proof.
  intros HN bl o req m Ho Hl Hb Hr. unfold tp_realloc, tp_size. cbn [e s].
  rewrite (u64_small (Z.of_nat (length bl))), (u64_small (_ * 2)) by lia. rewrite decide_False by lia.
  destruct (pop m) as [a m'] eqn:Ep. unfold realloc. rewrite decide_False by lia.
  destruct a as [|junk]; cbn [mbind option_bind]; (do 4 eexists; split; [reflexivity|]; split;
    [intros Hm; by destruct (pop_granted _ _ _ Ep Hm)|]); [done|].
  eexists. split; [done|]. split; [by rewrite length_resize|]. split; [|lia].
  rewrite resize_spec, take_app_le by (rewrite length_take, length_app; lia).
  by rewrite take_take, Nat.min_l, take_app_le by lia.
Qed.

(** ** The theorem at work: an insert and an update in a buffer that grows *)

Definition sample_requests : list (tp_req * Z) :=
  [ (RqInsert 512 [VTuple 2; VUint 7; VStr [97; 98]], 1);
    (RqUpdate 512 [VKey 1; VUint 7] 2 [VOp 43 1; VUint 300; VSplice 1 0 0 [99]], 2) ].

Definition sample_seen : list (fields * fields) :=
  [ ([(0, [2]); (1, [206; 0; 0; 0; 1])], [(16, [205; 2; 0]); (33, [146; 7; 162; 97; 98])]);
    ([(0, [4]); (1, [206; 0; 0; 0; 2])],
     [(16, [205; 2; 0]); (32, [145; 7]);
      (33, [146; 147; 161; 43; 1; 205; 1; 44; 149; 161; 58; 1; 0; 0; 161; 99])]) ].

Lemma tp_requests_correct_witness :
  exists t' m' data,
    run_reqs (MP := RefPuck) sample_requests (tp_init (PHeap (replicate 24 0)) 24 (Some tp_realloc)) [] = Some (true, t', m') /\
    tp_contents t' = Some data /\ decode_stream (MP := RefPuck) 2 data = Some (sample_seen, []).
Proof.
  destruct (tp_requests_correct (MP := RefPuck) 24 (PHeap (replicate 24 0)) (replicate 24 0) (Some tp_realloc) sample_requests [])
    as (ok & t' & m' & data & k & rest & E & Ed & Hd & Hk & Hok); [reflexivity|done| | |vm_compute; reflexivity|].
  - split; [apply tp_realloc_ok; lia|]. split; [done|by eexists].
  - repeat apply Forall_cons_2; try apply Forall_nil_2; split.
    all: try (split; [vm_compute; lia|repeat apply Forall_cons_2; try apply Forall_nil_2; vm_compute; lia]).
    all: (split; [simpl; lia|]); (split; [repeat apply Forall_cons_2; try apply Forall_nil_2; simpl; unfold zlen; simpl; lia|]).
    all: simpl; try split; vm_compute; reflexivity.
  - assert (ok = true) as -> by (apply Hok; intros Hm; by apply elem_of_nil in Hm).
    destruct Hk as [-> ->]. exists t', m', data. split; [exact E|]. split; [exact Ed|exact Hd].
Defined.

(** ** What the header gets wrong *)

Definition run_seq (l : list (tp -> malloc_state -> option (option nat * tp * malloc_state))) (t : tp)
    : option (option nat * tp * malloc_state) :=
  foldl (fun x f => '(r, t, m) ← x; match r with None => None | Some _ => f t m end) (Some (Some 0%nat, t, [])) l.

(** [tp_realloc] doubles the block, or adds what is required to its size, not
    to what is used: in the documented use, from an empty buffer, a string
    written after an insert overflows the block. *)
Example tp_realloc_overflows :
  run_seq [fun t => tp_insert (MP := RefPuck) t 512; fun t => tp_tuple (MP := RefPuck) t 1;
           fun t => tp_encode_str (MP := RefPuck) t (replicate 60 97) 60] (tp_init PNull 0 (Some tp_realloc)) = None.
Proof. vm_compute. reflexivity. Qed.

(** What the buffer holds in the end, and what a server reads in it. *)
Definition server_view (x : option (option nat * tp * malloc_state)) : option (bytes * option (fields * fields * bytes)) :=
  '(r, t, _) ← x; _ ← r; data ← tp_contents t; Some (data, decode_packet (MP := RefPuck) data).

(** [tp_delete] leaves out the map of the body and counts it: the byte before
    the key is whatever was in the buffer, and the server cannot read the packet. *)
Example tp_delete_no_map :
  server_view (run_seq [fun t => tp_delete (MP := RefPuck) t 512; fun t => tp_key (MP := RefPuck) t 1;
    fun t => tp_encode_uint (MP := RefPuck) t 7] (tp_init (PUser (replicate 64 255)) 64 None)) =
  Some ([206; 0; 0; 0; 17] ++ [130; 0; 5; 1; 206; 0; 0; 0; 0] ++ [16; 205; 2; 0; 32] ++ [255] ++ [145; 7], None).
Proof. vm_compute. reflexivity. Qed.

(** [tp_deauth] asks for one byte after the header and writes ten. *)
Example tp_deauth_overflows : tp_deauth (MP := RefPuck) (tp_init (PUser (replicate 16 0)) 16 None) [] = None.
Proof. vm_compute. reflexivity. Qed.

(** [tp_auth] counts neither the map, the keys, the name nor the method: it
    overflows a buffer of the size it asks for, and in a larger one the packet
    is cut in the scramble. *)
Definition sample_auth (n : nat) : option (option nat * tp * malloc_state) :=
  tp_auth (MP := RefPuck) (replicate 64 0) (replicate 64 0) (tp_init (PUser (replicate n 0)) n None)
    (replicate 44 65) [117] 1 [112] 1 [].

Example tp_auth_overflows : sample_auth 37 = None.
Proof. vm_compute. reflexivity. Qed.

Example tp_auth_truncates :
  server_view (sample_auth 128) =
  Some ([206; 0; 0; 0; 32] ++ [130; 0; 7; 1; 206; 0; 0; 0; 0] ++
        [130; 35; 161; 117; 33; 146; 169; 99; 104; 97; 112; 45; 115; 104; 97; 49; 180; 192; 160; 190; 253; 178; 6], None).
Proof. vm_compute. reflexivity. Qed.

(** [tp_op_splice] counts the field number for the offset and the length: two
    bytes of the operation are lost, or the buffer overflows. *)
Definition sample_splice (n : nat) : option (option nat * tp * malloc_state) :=
  run_seq [fun t => tp_update (MP := RefPuck) t 512; fun t => tp_key (MP := RefPuck) t 0; fun t => tp_updatebegin (MP := RefPuck) t 1;
           fun t => tp_op_splice (MP := RefPuck) t 1 300 0 [97] 1] (tp_init (PUser (replicate n 0)) n None).

Example tp_op_splice_truncates : snd <$> server_view (sample_splice 64) = Some None /\ sample_splice 31 = None.
Proof. split; vm_compute; reflexivity. Qed.
