(* ===== verification/TpReply.v ===== *)
(** * include/tp.h: the header-only connector, greetings and responses

    A pointer into the response's buffer is the byte string from that pointer
    to the end of the memory the caller gave, [None] for [NULL]; the bytes
    between two pointers are [between p q].  Reading past the end of the memory
    is undefined, as is a shift by 64 or more. *)

From S2P Require Import Prelude Msgpuck MsgpuckRef Mem Reply Iter Tp.

(** [enum tp_response_key_t] *)
Inductive tp_response_key_t := TP_DATA | TP_ERROR.

Definition tp_response_key (k : tp_response_key_t) : Z :=
  match k with TP_DATA => 0x30 | TP_ERROR => 0x31 end.
Coercion tp_response_key : tp_response_key_t >-> Z.

Record tpgreeting := Greeting { description : bytes; salt_base64 : bytes }.

(** [tp_greeting]: the result, and the greeting when it is set. *)
Definition tp_greeting (buf : bytes) (size : Z) : option (Z * option tpgreeting) :=
  if decide (size < 128) then Some (0, None) else
  if decide (64 <= zlen buf) then Some (128, Some (Greeting buf (drop 64 buf))) else None.

Record tp_array_itr := ArrayItr {
  ta_data : option bytes; ta_first : option bytes;
  ta_elem : option bytes; ta_elem_end : option bytes;
  ta_count : Z;      (** [uint32_t] *)
  ta_index : Z;      (** [int] *)
}.

Record tp_map_itr := MapItr {
  tm_data : option bytes; tm_first : option bytes;
  tm_key : option bytes; tm_key_end : option bytes;
  tm_value : option bytes; tm_value_end : option bytes;
  tm_count : Z; tm_index : Z;
}.

(** [memset(itr, 0, sizeof( *itr))] *)
Definition zero_array_itr : tp_array_itr := ArrayItr None None None None 0 0.
Definition zero_map_itr : tp_map_itr := MapItr None None None None None None 0 0.

Record tpresponse := Response {
  p_bitmap : Z; p_buf : option bytes; p_code : Z; p_sync : Z;
  p_error : option bytes; p_error_end : option bytes;
  p_data : option bytes; p_data_end : option bytes;
  tuple_itr : tp_array_itr; field_itr : tp_array_itr;
}.

Definition zero_response : tpresponse :=
  Response 0 None 0 0 None None None None zero_array_itr zero_array_itr.

Definition set_itrs (ti fi : tp_array_itr) (r : tpresponse) : tpresponse :=
  Response (p_bitmap r) (p_buf r) (p_code r) (p_sync r) (p_error r) (p_error_end r) (p_data r) (p_data_end r) ti fi.

Section response.
Context {MP : MsgPuck}.

(** ** Iterators *)

Definition tp_array_itr_init (data : bytes) (size : nat) : option (Z * tp_array_itr) :=
  if decide (size = 0)%nat then Some (-1, zero_array_itr) else
  t ← mp_typeof_at data;
  if decide (t <> MP_ARRAY) then Some (-1, zero_array_itr) else
  region ← slice 0 size data;
  match mp_check region with
  | None => Some (-1, zero_array_itr)
  | Some _ =>
      '(n, first) ← mp_decode_array data;
      Some (0, ArrayItr (Some data) (Some first) None None n (-1))
  end.

Definition tp_array_itr_next (itr : tp_array_itr) : option (bool * tp_array_itr) :=
  idx ← int_incr (ta_index itr);
  if decide (ta_count itr <= u32 idx) then
    Some (false, ArrayItr (ta_data itr) (ta_first itr) (ta_elem itr) (ta_elem_end itr) (ta_count itr) idx)
  else
    elem ← (if decide (idx = 0) then ta_first itr else ta_elem_end itr);
    elem_end ← mp_next elem;
    Some (true, ArrayItr (ta_data itr) (ta_first itr) (Some elem) (Some elem_end) (ta_count itr) idx).

Definition tp_array_itr_reset (itr : tp_array_itr) : tp_array_itr :=
  ArrayItr (ta_data itr) (ta_first itr) None None (ta_count itr) (-1).

Definition tp_map_itr_init (data : bytes) (size : nat) : option (Z * tp_map_itr) :=
  if decide (size = 0)%nat then Some (-1, zero_map_itr) else
  t ← mp_typeof_at data;
  if decide (t <> MP_MAP) then Some (-1, zero_map_itr) else
  region ← slice 0 size data;
  match mp_check region with
  | None => Some (-1, zero_map_itr)
  | Some _ =>
      '(n, first) ← mp_decode_map data;
      Some (0, MapItr (Some data) (Some first) None None None None n (-1))
  end.

Definition tp_map_itr_next (itr : tp_map_itr) : option (bool * tp_map_itr) :=
  idx ← int_incr (tm_index itr);
  if decide (tm_count itr <= u32 idx) then
    Some (false, MapItr (tm_data itr) (tm_first itr) (tm_key itr) (tm_key_end itr) (tm_value itr)
                   (tm_value_end itr) (tm_count itr) idx)
  else
    key ← (if decide (idx = 0) then tm_first itr else tm_value_end itr);
    key_end ← mp_next key;
    value_end ← mp_next key_end;
    Some (true, MapItr (tm_data itr) (tm_first itr) (Some key) (Some key_end) (Some key_end)
                  (Some value_end) (tm_count itr) idx).

Definition tp_map_itr_reset (itr : tp_map_itr) : tp_map_itr :=
  MapItr (tm_data itr) (tm_first itr) None None None None (tm_count itr) (-1).

(** ** Parsing *)

Definition put_sync (v bit : Z) (r : tpresponse) : tpresponse :=
  Response (Z.lor (p_bitmap r) bit) (p_buf r) (p_code r) v (p_error r) (p_error_end r) (p_data r) (p_data_end r)
    (tuple_itr r) (field_itr r).
Definition put_code (v bit : Z) (r : tpresponse) : tpresponse :=
  Response (Z.lor (p_bitmap r) bit) (p_buf r) v (p_sync r) (p_error r) (p_error_end r) (p_data r) (p_data_end r)
    (tuple_itr r) (field_itr r).
Definition put_bit (bit : Z) (r : tpresponse) : tpresponse :=
  Response (Z.lor (p_bitmap r) bit) (p_buf r) (p_code r) (p_sync r) (p_error r) (p_error_end r) (p_data r)
    (p_data_end r) (tuple_itr r) (field_itr r).
Definition put_error_str (s e : bytes) (r : tpresponse) : tpresponse :=
  Response (p_bitmap r) (p_buf r) (p_code r) (p_sync r) (Some s) (Some e) (p_data r) (p_data_end r)
    (tuple_itr r) (field_itr r).
Definition put_data (s e : bytes) (r : tpresponse) : tpresponse :=
  Response (p_bitmap r) (p_buf r) (p_code r) (p_sync r) (p_error r) (p_error_end r) (Some s) (Some e)
    (tuple_itr r) (field_itr r).

(** The header loop of [tp_reply]: the response and the position after the
    loop, [None] for [return -1]. *)
Fixpoint tp_hdr_loop (n : nat) (p : bytes) (r : tpresponse) : option (tpresponse * option bytes) :=
  match n with
  | O => Some (r, Some p)
  | S n =>
      t ← mp_typeof_at p;
      if decide (t <> MP_UINT) then Some (r, None) else
      '(key, p) ← mp_decode_uint p;
      let key := u32 key in
      t ← mp_typeof_at p;
      if decide (t <> MP_UINT) then Some (r, None) else
      if decide (key = TP_SYNC) then
        '(v, p) ← mp_decode_uint p; b ← shl1 key; tp_hdr_loop n p (put_sync v b r)
      else if decide (key = TP_CODE) then
        '(v, p) ← mp_decode_uint p; b ← shl1 key; tp_hdr_loop n p (put_code (u32 v) b r)
      else
        p ← mp_next p; b ← shl1 key; tp_hdr_loop n p (put_bit b r)
  end.

(** One [switch] of the body loop. *)
Definition tp_body_field (key : Z) (p : bytes) (r : tpresponse) : option (tpresponse * option bytes) :=
  if decide (key = TP_ERROR) then
    t ← mp_typeof_at p;
    if decide (t <> MP_STR) then Some (r, None) else
    '(s, p) ← mp_decode_str p; Some (put_error_str (s ++ p) p r, Some p)
  else if decide (key = TP_DATA) then
    t ← mp_typeof_at p;
    if decide (t <> MP_ARRAY) then Some (r, None) else
    p' ← mp_next p; Some (put_data p p' r, Some p')
  else p ← mp_next p; Some (r, Some p).

Fixpoint tp_body_loop (n : nat) (p : bytes) (r : tpresponse) : option (tpresponse * option bytes) :=
  match n with
  | O => Some (r, Some p)
  | S n =>
      '(key, p) ← mp_decode_uint p;
      let key := u32 key in
      '(r, p) ← tp_body_field key p r;
      match p with
      | None => Some (r, None)
      | Some p => b ← shl1 key; tp_body_loop n p (put_bit b r)
      end
  end.

(** [tp_reply] is cut in three: what follows the body loop (at position [p]),
    the body, the whole.  The results are its result and the response; [buf] is
    the [size] bytes given. *)
Definition tp_reply_end (buf : bytes) (r : tpresponse) (p : bytes) : option (Z * tpresponse) :=
  match p_data r with
  | None => Some (zlen buf - zlen p, r)
  | Some d =>
      data_end ← p_data_end r;
      '(rc, itr) ← tp_array_itr_init d (length d - length data_end);
      let r := set_itrs itr (field_itr r) r in
      if decide (rc <> 0) then Some (-1, r) else Some (zlen buf - zlen p, r)
  end.

Definition tp_reply_body (buf : bytes) (r : tpresponse) (p : bytes) : option (Z * tpresponse) :=
  match mp_check p with
  | None => Some (-1, r)
  | Some _ =>
      t ← mp_typeof_at p;
      if decide (t <> MP_MAP) then Some (-1, r) else
      '(n, p) ← mp_decode_map p;
      '(r, p) ← tp_body_loop (Z.to_nat n) p r;
      match p with None => Some (-1, r) | Some p => tp_reply_end buf r p end
  end.

Definition tp_reply (buf : bytes) : option (Z * tpresponse) :=
  let r := zero_response in
  let size := zlen buf in
  if decide (size = 0) then Some (0, r) else
  match mp_check buf with
  | None => Some (-1, r)
  | Some _ =>
      t ← mp_typeof_at buf;
      if decide (t <> MP_UINT) then Some (-1, r) else
      '(len, p) ← mp_decode_uint buf;
      let len := u32 len in
      if decide (size < u32 (len + u32 (size - zlen p))) then Some (0, r) else
      match mp_check p with
      | None => Some (-1, r)
      | Some _ =>
          t ← mp_typeof_at p;
          if decide (t <> MP_MAP) then Some (-1, r) else
          '(n, p) ← mp_decode_map p;
          '(r, p) ← tp_hdr_loop (Z.to_nat n) p r;
          match p with
          | None => Some (-1, r)
          | Some p =>
              if decide (size - zlen p = len + 5) then Some (u32 (len + 5), r)
              else tp_reply_body buf r p
          end
      end
  end.

(** ** Access *)

Definition tp_getreqid (r : tpresponse) : Z := u32 (p_sync r).
Definition tp_hasdata (r : tpresponse) : bool := bool_decide (0 < ta_count (tuple_itr r)).
Definition tp_tuplecount (r : tpresponse) : Z := ta_count (tuple_itr r).

Definition tp_rewind (r : tpresponse) : tpresponse :=
  set_itrs (tp_array_itr_reset (tuple_itr r)) zero_array_itr r.

(** [q - p] on two pointers, or on two null pointers. *)
Definition ptr_diff (p q : option bytes) : option nat :=
  match p, q with
  | None, None => Some 0%nat
  | Some p, Some q => Some (length p - length q)%nat
  | _, _ => None
  end.

Definition tp_next (r : tpresponse) : option (bool * tpresponse) :=
  '(more, ti) ← tp_array_itr_next (tuple_itr r);
  if more : bool then
    elem ← ta_elem ti;
    n ← ptr_diff (Some elem) (ta_elem_end ti);
    '(_, fi) ← tp_array_itr_init elem n;
    Some (true, set_itrs ti fi r)
  else Some (false, set_itrs ti zero_array_itr r).

(** [cur_index + 1] is an [int]. *)
Definition tp_hasnext (r : tpresponse) : option bool :=
  i ← int_incr (ta_index (tuple_itr r)); Some (bool_decide (u32 i < ta_count (tuple_itr r))).

Definition tp_gettuple (r : tpresponse) : option bytes := ta_elem (tuple_itr r).
Definition tp_tuplesize (r : tpresponse) : option Z :=
  u32 ∘ Z.of_nat <$> ptr_diff (ta_elem (tuple_itr r)) (ta_elem_end (tuple_itr r)).
Definition tp_tupleend (r : tpresponse) : option bytes := ta_elem_end (tuple_itr r).

Definition tp_rewindfield (r : tpresponse) : tpresponse :=
  set_itrs (tuple_itr r) (tp_array_itr_reset (field_itr r)) r.

Definition tp_nextfield (r : tpresponse) : option (bool * tpresponse) :=
  '(more, fi) ← tp_array_itr_next (field_itr r); Some (more, set_itrs (tuple_itr r) fi r).

Definition tp_hasnextfield (r : tpresponse) : option bool :=
  i ← int_incr (ta_index (field_itr r)); Some (bool_decide (u32 i < ta_count (field_itr r))).

Definition tp_getfield (r : tpresponse) : option bytes := ta_elem (field_itr r).
Definition tp_getfieldsize (r : tpresponse) : option Z :=
  u32 ∘ Z.of_nat <$> ptr_diff (ta_elem (field_itr r)) (ta_elem_end (field_itr r)).

(** The value at a field. *)
Definition tp_typeof (c : Z) : tp_type := tp_type_of (mp_typeof c).
Definition tp_get_uint (field : bytes) : option Z := fst <$> mp_decode_uint field.
Definition tp_get_int (field : bytes) : option Z := fst <$> mp_decode_int field.
Definition tp_get_float (field : bytes) : option Z := fst <$> mp_decode_float field.
Definition tp_get_double (field : bytes) : option Z := fst <$> mp_decode_double field.
Definition tp_get_bool (field : bytes) : option bool := fst <$> mp_decode_bool field.
Definition tp_get_str (field : bytes) : option bytes := fst <$> mp_decode_str field.
Definition tp_get_bin (field : bytes) : option bytes := fst <$> mp_decode_bin field.

End response.
