(* ===== verification/TpReplySpec.v ===== *)
(** * Correctness of the responses of include/tp.h

    A response that a server encodes is parsed into its fields; the tuples of
    its data and the fields of the tuples are visited in order. *)

From S2P Require Import Prelude Msgpuck MsgpuckRef Mem Stream Buf Proto RequestSpec Reply ReplySpec Iter IterSpec Tp TpReply.

(** The bytes between two pointers, [None] for null pointers. *)
Definition field_str (p q : option bytes) : option bytes :=
  match p, q with Some p, Some q => Some (between p q) | _, _ => None end.

(** The pointers [p] and [q] delimit [x]. *)
Definition delimits (p q x : option bytes) : Prop :=
  match x with
  | None => p = None /\ q = None
  | Some d => exists r, p = Some (d ++ r) /\ q = Some r
  end.

Lemma delimits_str p q x : delimits p q x -> field_str p q = x.
Proof.
  destruct x as [d|]; simpl; [|by intros [-> ->]]. intros (r & -> & ->). simpl. by rewrite between_app.
Qed.

(** The client that walks over the fields of the current tuple, and over all
    tuples: it takes the bytes of each by their pointer and size. *)
Section clients.
Context {MP : MsgPuck}.

Fixpoint tp_fields (n : nat) (r : tpresponse) : option (list bytes * tpresponse) :=
  match n with
  | O => None
  | S n =>
      '(more, r) ← tp_nextfield r;
      if more : bool then
        f ← tp_getfield r; k ← tp_getfieldsize r;
        '(l, r) ← tp_fields n r; Some (take (Z.to_nat k) f :: l, r)
      else Some ([], r)
  end.

Fixpoint tp_tuples (n : nat) (r : tpresponse) : option (list (bytes * list bytes) * tpresponse) :=
  match n with
  | O => None
  | S k =>
      '(more, r) ← tp_next r;
      if more : bool then
        t ← tp_gettuple r; sz ← tp_tuplesize r;
        '(fs, r) ← tp_fields n r;
        '(l, r) ← tp_tuples k r; Some ((take (Z.to_nat sz) t, fs) :: l, r)
      else Some ([], r)
  end.

End clients.

Section spec.
Context {MP : MsgPuck} {MPS : MsgPuckSpec MP}.

(** ** Iterators *)

Definition array_of (os : list bytes) : bytes := mp_encode_array (zlen os) ++ concat os.

(** [i] has visited [k] of the elements [os], which [rest] follows. *)
Definition itr_at (os : list bytes) (rest : bytes) (k : nat) (i : tp_array_itr) : Prop :=
  ta_count i = zlen os /\ ta_index i = Z.of_nat k - 1 /\ ta_first i = Some (concat os ++ rest) /\
  (k <> O -> ta_elem_end i = Some (concat (drop k os) ++ rest)).

Lemma itr_init os rest :
  Forall mp_object os -> zlen os < 2 ^ 31 ->
  exists i, tp_array_itr_init (array_of os ++ rest) (length (array_of os)) = Some (0, i) /\ itr_at os rest 0 i.
Proof.
  intros Ho Hl. assert (0 <= zlen os < 2 ^ 32) as Hl' by (split; [len|lia]).
  assert (mp_object (array_of os)) as Hobj by (apply mp_object_array; [done|lia]).
  unfold tp_array_itr_init. rewrite decide_False by (intros E; apply (mp_object_nonempty _ Hobj); by destruct (array_of os)).
  assert (mp_typeof_at (array_of os ++ rest) = Some MP_ARRAY) as ->
    by (unfold array_of; rewrite <- app_assoc; by apply spec_type_array).
  cbn [mbind option_bind]. rewrite decide_False by (intros []; done).
  pose proof (slice_app [] (array_of os) rest) as Es. simpl app in Es. simpl length in Es. rewrite Es. cbn [mbind option_bind].
  rewrite Hobj. assert (mp_decode_array (array_of os ++ rest) = Some (zlen os, concat os ++ rest)) as ->
    by (unfold array_of; rewrite <- app_assoc; by apply spec_decode_array).
  cbn [mbind option_bind]. eexists. split; [done|]. by repeat split.
Qed.

Lemma itr_step os rest k o i :
  itr_at os rest k i -> os !! k = Some o -> mp_object o -> zlen os < 2 ^ 31 ->
  exists i', tp_array_itr_next i = Some (true, i') /\ itr_at os rest (S k) i' /\
    ta_elem i' = Some (o ++ concat (drop (S k) os) ++ rest) /\ ta_elem_end i' = Some (concat (drop (S k) os) ++ rest).
Proof.
  intros (Ec & Ei & Ef & Ee) Hk Ho Hl. pose proof (lookup_lt_Some _ _ _ Hk) as Hlt. unfold zlen in *.
  unfold tp_array_itr_next. rewrite Ei, int_incr_ok by (unfold INT_MAX; lia). cbn [mbind option_bind].
  replace (Z.of_nat k - 1 + 1) with (Z.of_nat k) by lia.
  rewrite index_u32, Ec by (unfold INT_MAX; lia). rewrite decide_False by lia.
  assert (concat (drop k os) ++ rest = o ++ concat (drop (S k) os) ++ rest) as Ed
    by (rewrite (drop_S _ o) by done; simpl; by rewrite <- app_assoc).
  assert ((if decide (Z.of_nat k = 0) then ta_first i else ta_elem_end i) = Some (o ++ concat (drop (S k) os) ++ rest)) as ->.
  { rewrite <- Ed. case_decide; [|apply Ee; lia]. assert (k = 0%nat) as -> by lia. by rewrite Ef. }
  cbn [mbind option_bind]. rewrite mp_object_next by done. cbn [mbind option_bind].
  eexists. split; [done|]. split; [|done]. repeat split; simpl; try done; lia.
Qed.

Lemma itr_stop os rest i :
  itr_at os rest (length os) i -> zlen os < 2 ^ 31 ->
  exists i', tp_array_itr_next i = Some (false, i').
Proof.
  intros (Ec & Ei & _) Hl. unfold zlen in *. unfold tp_array_itr_next.
  rewrite Ei, int_incr_ok by (unfold INT_MAX; lia). cbn [mbind option_bind].
  rewrite index_u32, Ec by (unfold INT_MAX; lia). rewrite decide_True by lia. by eexists.
Qed.

(** The bytes of an element from its pointer and its size. *)
Lemma sized_element (o q : bytes) : zlen o < 2 ^ 32 -> take (Z.to_nat (u32 (Z.of_nat (length (o ++ q) - length q)))) (o ++ q) = o.
Proof.
  intros Hl. rewrite length_app, Nat.add_sub, u32_small by len. rewrite Nat2Z.id. apply take_app_length.
Qed.

(** ** Walking over tuples *)

Definition elems_ok (os : list bytes) : Prop := Forall mp_object os /\ zlen os < 2 ^ 31 /\ zlen (concat os) < 2 ^ 32.

Lemma elem_small os k (o : bytes) : elems_ok os -> os !! k = Some o -> zlen o < 2 ^ 32.
Proof.
  intros (_ & _ & Hl) Hk. rewrite <- (take_drop_middle _ _ _ Hk) in Hl.
  rewrite concat_app in Hl. simpl in Hl. rewrite !zlen_app in Hl.
  assert (0 <= zlen (concat (take k os))) by len. assert (0 <= zlen (concat (drop (S k) os))) by len. lia.
Qed.

Lemma tp_fields_ok n os rest k r :
  elems_ok os -> itr_at os rest k (field_itr r) -> (k <= length os)%nat -> (length os - k < n)%nat ->
  exists r', tp_fields n r = Some (drop k os, r') /\ tuple_itr r' = tuple_itr r.
Proof.
  intros Ho. revert k r. induction n as [|n IH]; intros k r Hi Hk Hn; [lia|]. simpl. unfold tp_nextfield.
  destruct (decide (k = length os)) as [->|Hne].
  - destruct (itr_stop _ _ _ Hi) as (i' & ->); [apply Ho|]. cbn [mbind option_bind].
    rewrite drop_all. by eexists.
  - destruct (lookup_lt_is_Some_2 os k) as [o Eo]; [lia|]. pose proof Ho as (Hf & Hl & _).
    destruct (itr_step _ _ _ _ _ Hi Eo) as (i' & -> & Hi' & He & Hee); [by eapply Forall_lookup_1|done|]. cbn [mbind option_bind].
    unfold tp_getfield, tp_getfieldsize. simpl. rewrite He, Hee. simpl.
    destruct (IH (S k) (set_itrs (tuple_itr r) i' r)) as (r' & E & Et); [done|lia|lia|]. rewrite E. simpl.
    exists r'. split; [|by rewrite Et]. rewrite (sized_element o) by exact (elem_small _ _ _ Ho Eo).
    rewrite (drop_S os o k) by done. done.
Qed.

Definition tuples_ok (ts : list (list bytes)) : Prop := Forall elems_ok ts /\ elems_ok (array_of <$> ts).

Lemma tp_tuples_ok n ts rest k r :
  tuples_ok ts -> itr_at (array_of <$> ts) rest k (tuple_itr r) -> (k <= length ts)%nat -> (length ts - k < n)%nat ->
  Forall (fun fs => (length fs + (length ts - k) < n)%nat) ts ->
  exists r', tp_tuples n r = Some ((fun fs => (array_of fs, fs)) <$> drop k ts, r').
Proof.
  intros [Hts Ho]. revert k r. induction n as [|n IH]; intros k r Hi Hk Hn Hf; [lia|]. cbn [tp_tuples]. unfold tp_next at 1.
  destruct (decide (k = length ts)) as [->|Hne].
  - rewrite <- (length_fmap array_of ts) in Hi. destruct (itr_stop _ _ _ Hi) as (i' & ->); [apply Ho|]. cbn [mbind option_bind].
    rewrite drop_all. by eexists.
  - destruct (lookup_lt_is_Some_2 ts k) as [fs Efs]; [lia|]. pose proof Ho as (Hobj & Hl & _).
    assert ((array_of <$> ts) !! k = Some (array_of fs)) as Eo by (by rewrite list_lookup_fmap, Efs).
    destruct (itr_step _ _ _ _ _ Hi Eo) as (i' & -> & Hi' & He & Hee); [by eapply Forall_lookup_1|done|]. cbn [mbind option_bind].
    rewrite He, Hee. cbn [mbind option_bind ptr_diff]. set (q := concat _ ++ rest) in *.
    rewrite length_app, Nat.add_sub. pose proof (Forall_lookup_1 _ _ _ _ Hts Efs) as Hfs.
    destruct (itr_init fs q) as (fi & -> & Hfi); [apply Hfs|apply Hfs|]. cbn [mbind option_bind].
    unfold tp_gettuple, tp_tuplesize. cbn [tuple_itr set_itrs]. rewrite He, Hee. cbn [mbind option_bind ptr_diff fmap option_fmap option_map compose].
    pose proof (Forall_lookup_1 _ _ _ _ Hf Efs) as Hlen. cbn beta in Hlen.
    destruct (tp_fields_ok (S n) fs q 0 (set_itrs i' fi r) Hfs Hfi) as (r1 & -> & Et); [lia|lia|]. cbn [mbind option_bind].
    destruct (IH (S k) r1) as (r' & ->).
    + rewrite Et. exact Hi'.
    + lia.
    + lia.
    + eapply Forall_impl; [exact Hf|]. simpl. lia.
    + cbn [mbind option_bind]. exists r'. rewrite drop_0, (sized_element (array_of fs)) by exact (elem_small _ _ _ Ho Eo).
      rewrite (drop_S ts fs k) by done. done.
Qed.

(** ** Parsing *)

(** What the header loop has stored. *)
Definition hdr_rel (h : hdr_acc) (r : tpresponse) : Prop :=
  p_code r = u32 (h_code h) /\ p_sync r = h_sync h /\ p_bitmap r = h_bitmap h /\
  p_error r = None /\ p_error_end r = None /\ p_data r = None /\ p_data_end r = None.

Lemma tp_hdr_loop_ok fs h r rest :
  Forall hdr_field_ok fs -> hdr_rel h r ->
  exists r', tp_hdr_loop (length fs) (concat (field_bytes <$> (hdr_pair <$> fs)) ++ rest) r = Some (r', Some rest) /\
    hdr_rel (foldl hdr_step h fs) r'.
Proof.
  intros Hfs. revert h r. induction Hfs as [|[k v] fs [Hk Hv] _ IH]; intros h r Hr; [by exists r|].
  set (tl := concat (field_bytes <$> (hdr_pair <$> fs)) ++ rest) in *.
  match goal with |- context [tp_hdr_loop _ ?x _] =>
    assert (x = mp_encode_uint (header_key_code k) ++ mp_encode_uint v ++ tl) as ->
      by (unfold tl; csimpl; unfold field_bytes at 1; simpl; by rewrite <- !app_assoc) end.
  cbn [fst snd] in *.
  cbn [length tp_hdr_loop].
  assert (0 <= header_key_code k < 64) as Hk64 by (destruct k; simpl; lia).
  assert (0 <= header_key_code k < 2 ^ 64) as Hk' by (destruct k; simpl; lia).
  rewrite spec_type_uint by done. cbn [mbind option_bind]. rewrite decide_False by (intros []; done).
  rewrite spec_decode_uint by done. cbn [mbind option_bind].
  rewrite spec_type_uint by done. cbn [mbind option_bind]. rewrite decide_False by (intros []; done).
  rewrite u32_small, shl1_small by lia.
  rewrite mp_object_next by (by apply mp_object_uint).
  rewrite spec_decode_uint by done. cbn [mbind option_bind foldl].
  destruct Hr as (H1 & H2 & H3 & H4 & H5 & H6 & H7).
  destruct Hk as [E|[E|E]]; subst k; simpl; apply IH; (repeat split; simpl; try done); by rewrite ?H3.
Qed.

(** What the body loop has stored, after a header [h]. *)
Definition body_rel (h : hdr_acc) (b : body_acc) (r : tpresponse) : Prop :=
  p_code r = u32 (h_code h) /\ p_sync r = h_sync h /\ p_bitmap r = Z.lor (h_bitmap h) (b_bitmap b) /\
  delimits (p_error r) (p_error_end r) (b_error b) /\ delimits (p_data r) (p_data_end r) (b_data b).

Lemma tp_body_field_ok h b f r rest :
  body_field_ok f -> body_rel h b r ->
  exists r', tp_body_field (fst (body_pair f)) (snd (body_pair f) ++ rest) r = Some (r', Some rest) /\
    body_rel h (body_step b f) (put_bit (2 ^ fst (body_pair f)) r').
Proof.
  intros Hf (H1 & H2 & H3 & H4 & H5). unfold tp_body_field.
  destruct f as [msg|v|v|k v]; simpl in Hf; cbn [body_pair fst snd].
  - rewrite decide_True by done. unfold mp_encode_str. rewrite <- app_assoc.
    rewrite spec_type_str by len. cbn [mbind option_bind]. rewrite decide_False by (intros []; done).
    rewrite spec_decode_str by done. cbn [mbind option_bind]. eexists. split; [done|].
    repeat split; try done; simpl; [by rewrite H3, Z.lor_assoc|by eexists].
  - destruct Hf as [Ho Ht]. rewrite decide_False, decide_True by done.
    rewrite (typeof_app _ _ _ Ht). cbn [mbind option_bind]. rewrite decide_False by (intros []; done).
    rewrite mp_object_next by done. cbn [mbind option_bind]. eexists. split; [done|].
    repeat split; try done; simpl; [by rewrite H3, Z.lor_assoc|by eexists].
  - destruct Hf as [Ho Ht]. rewrite decide_False, decide_False by done.
    rewrite mp_object_next by done. cbn [mbind option_bind]. eexists. split; [done|].
    repeat split; try done. simpl. by rewrite H3, Z.lor_assoc.
  - destruct Hf as (Hk & K1 & K2 & K3 & Ho). rewrite decide_False, decide_False by (simpl in *; lia).
    rewrite mp_object_next by done. cbn [mbind option_bind]. eexists. split; [done|].
    repeat split; try done. simpl. by rewrite H3, Z.lor_assoc.
Qed.

Lemma tp_body_loop_ok h fs b r rest :
  Forall body_field_ok fs -> body_rel h b r ->
  exists r', tp_body_loop (length fs) (concat (field_bytes <$> (body_pair <$> fs)) ++ rest) r = Some (r', Some rest) /\
    body_rel h (foldl body_step b fs) r'.
Proof.
  intros Hfs. revert b r. induction Hfs as [|f fs Hf _ IH]; intros b r Hr; [by exists r|].
  destruct (body_pair_ok f Hf) as [[Hk Hv] Hk64].
  cbn [length tp_body_loop fmap list_fmap concat]. unfold field_bytes at 1. rewrite <- !app_assoc.
  rewrite spec_decode_uint by done. cbn [mbind option_bind]. rewrite u32_small by lia.
  destruct (tp_body_field_ok h b f r (concat (field_bytes <$> (body_pair <$> fs)) ++ rest) Hf Hr) as (r1 & E & H1).
  match goal with |- context [tp_body_field ?k ?p ?r] => replace (tp_body_field k p r) with (Some (r1, Some (concat (field_bytes <$> (body_pair <$> fs)) ++ rest))) end.
  cbn [mbind option_bind].
  rewrite shl1_small by done. cbn [mbind option_bind]. simpl foldl. exact (IH _ _ H1).
Qed.

(** The end of the parser: an array of data gets its iterator. *)
Lemma tp_reply_end_ok buf h b r p :
  body_rel h b r -> (forall d, b_data b = Some d -> mp_object d /\ mp_typeof_at d = Some MP_ARRAY) ->
  exists r', tp_reply_end buf r p = Some (zlen buf - zlen p, r') /\ body_rel h b r' /\
    forall os, b_data b = Some (array_of os) -> Forall mp_object os -> zlen os < 2 ^ 31 ->
      exists rest, itr_at os rest 0 (tuple_itr r').
Proof.
  intros Hr Hd. pose proof Hr as (_ & _ & _ & _ & Hp). unfold tp_reply_end.
  destruct (b_data b) as [d|] eqn:Eb; simpl in Hp.
  2: { destruct Hp as [-> _]. by exists r. }
  destruct Hp as (q & -> & ->). cbn [mbind option_bind]. rewrite length_app, Nat.add_sub.
  destruct (Hd d eq_refl) as [Ho Ht].
  assert (exists i, tp_array_itr_init (d ++ q) (length d) = Some (0, i)) as [i Ei].
  { unfold tp_array_itr_init. rewrite decide_False by (intros E; apply (mp_object_nonempty _ Ho); by destruct d).
    rewrite (typeof_app _ _ _ Ht). cbn [mbind option_bind]. rewrite decide_False by (intros []; done).
    pose proof (slice_app [] d q) as Es. simpl app in Es. simpl length in Es. rewrite Es. cbn [mbind option_bind].
    rewrite Ho. destruct (spec_checked_array (d ++ q) q) as (n & p' & -> & _); [by apply mp_object_check|by apply typeof_app|].
    by eexists. }
  rewrite Ei. cbn [mbind option_bind]. rewrite decide_False by (intros []; done).
  eexists. split; [done|]. split; [exact Hr|]. intros os [= ->] Hos Hl. exists q.
  destruct (itr_init os q Hos Hl) as (i' & Ei' & Hi'). rewrite Ei in Ei'. injection Ei' as ->. exact Hi'.
Qed.

Definition server_body (body : option (list body_field)) : body_acc :=
  match body with
  | Some fs => foldl body_step (BodyAcc None None None None 0) fs
  | None => BodyAcc None None None None 0
  end.

Lemma body_data_ok fs b d :
  Forall body_field_ok fs -> (forall d, b_data b = Some d -> mp_object d /\ mp_typeof_at d = Some MP_ARRAY) ->
  b_data (foldl body_step b fs) = Some d -> mp_object d /\ mp_typeof_at d = Some MP_ARRAY.
Proof.
  intros Hfs. revert b. induction Hfs as [|f fs Hf _ IH]; intros b Hb; [apply Hb|]. simpl. apply IH.
  destruct f; simpl; try exact Hb. intros ? [= <-]. exact Hf.
Qed.

(** A framed response is parsed to the end of its frame. *)
Lemma tp_reply_ok hs body rest :
  server_reply_ok hs body -> zlen (reply_payload hs body) + 5 < 2 ^ 32 ->
  let h := foldl hdr_step (HdrAcc 0 0 0 0) hs in
  exists r, tp_reply (frame (reply_payload hs body) ++ rest) = Some (zlen (frame (reply_payload hs body)), r) /\
    body_rel h (server_body body) r /\
    forall os, b_data (server_body body) = Some (array_of os) -> Forall mp_object os -> zlen os < 2 ^ 31 ->
      exists rest, itr_at os rest 0 (tuple_itr r).
Proof.
  intros (Hh & Hhl & Hb & Hpl) Hl5 h. set (pl := reply_payload hs body) in *.
  pose proof (frame_len pl Hpl) as Hfl. assert (0 <= zlen pl) as Hpos by len.
  assert (frame pl ++ rest = 0xce :: be 4 (zlen pl) ++ pl ++ rest) as Ef by (rewrite frame_eq by done; by rewrite <- app_assoc).
  set (buf := frame pl ++ rest) in *. assert (zlen buf = zlen pl + 5 + zlen rest) as Hbuf by (unfold buf; rewrite zlen_app; lia).
  assert (0 <= zlen rest) as Hrest by len.
  unfold tp_reply. rewrite decide_False by lia. rewrite Ef, spec_check_uint32, spec_type_uint32.
  cbn [mbind option_bind]. rewrite decide_False by (intros []; done). rewrite spec_decode_uint32 by lia. cbn [mbind option_bind].
  rewrite <- Ef, Hbuf. rewrite (u32_small (zlen pl)) by lia.
  assert (zlen pl + 5 + zlen rest - zlen (pl ++ rest) = 5) as -> by (rewrite zlen_app; lia).
  rewrite (u32_small 5), (u32_small (zlen pl + 5)) by lia. rewrite decide_False by lia.
  assert (pl ++ rest = hdr_bytes hs ++ (match body with Some fs => reply_body fs | None => [] end) ++ rest) as ->
    by (unfold pl, reply_payload; by rewrite <- app_assoc).
  assert (zlen (hdr_pair <$> hs) = zlen hs) as El by (unfold zlen; by rewrite length_fmap).
  rewrite mp_object_check by (apply body_map_object; [by apply hdr_pairs_ok|lia]).
  unfold hdr_bytes at 1 2. rewrite body_map_type by lia. cbn [mbind option_bind]. rewrite decide_False by (intros []; done).
  rewrite body_map_decode by lia. cbn [mbind option_bind]. rewrite El, to_nat_zlen.
  destruct (tp_hdr_loop_ok hs (HdrAcc 0 0 0 0) zero_response ((match body with Some fs => reply_body fs | None => [] end) ++ rest) Hh)
    as (r1 & -> & H1); [done|]. cbn [mbind option_bind]. fold h in H1.
  assert (body_rel h (BodyAcc None None None None 0) r1) as H1'.
  { destruct H1 as (? & ? & ? & ? & ? & ? & ?). repeat split; try done. by rewrite Z.lor_0_r. }
  destruct body as [fs|].
  - destruct Hb as [Hf Hfl']. assert (zlen (body_pair <$> fs) = zlen fs) as El' by (unfold zlen; by rewrite length_fmap).
    assert (zlen (body_pair <$> fs) < 2 ^ 31) as Hfl2 by (by rewrite El').
    pose proof (body_map_nonempty (body_pair <$> fs) Hfl2) as Hne. unfold reply_body at 1.
    rewrite decide_False.
    2: { unfold pl, reply_payload, reply_body in *. rewrite !zlen_app in *. pose proof (hdr_bytes_nonempty hs Hhl). lia. }
    unfold tp_reply_body, reply_body. rewrite mp_object_check.
    2: { apply body_map_object; [|lia]. apply Forall_fmap. eapply Forall_impl; [exact Hf|]. intros f Hf'. by apply body_pair_ok. }
    rewrite body_map_type by lia. cbn [mbind option_bind]. rewrite decide_False by (intros []; done).
    rewrite body_map_decode by lia. cbn [mbind option_bind]. rewrite El', to_nat_zlen.
    destruct (tp_body_loop_ok h fs _ r1 rest Hf H1') as (r2 & -> & H2). cbn [mbind option_bind].
    destruct (tp_reply_end_ok buf h _ r2 rest H2) as (r3 & -> & H3 & Hi).
    { intros d. by apply body_data_ok. }
    exists r3. split; [do 2 f_equal; lia|]. by split.
  - simpl app. rewrite decide_True by lia. exists r1. split; [do 2 f_equal; lia|].
    split; [exact H1'|]. done.
Qed.

(** C32: Responses of the header-only connector: from a buffer that starts with
    a framed server response, [tp_reply] returns its size and exactly the code,
    the sync id, the error and the data that were sent; when the data are an
    array of tuples, walking over it with [tp_next] and over each tuple with
    [tp_nextfield] visits every tuple and every field once, in order, and then
    stops. *)
Theorem tp_reply_roundtrip hs body rest :
  server_reply_ok hs body -> zlen (reply_payload hs body) + 5 < 2 ^ 32 ->
  let h := foldl hdr_step (HdrAcc 0 0 0 0) hs in
  let b := server_body body in
  exists r, tp_reply (frame (reply_payload hs body) ++ rest) = Some (zlen (frame (reply_payload hs body)), r) /\
    p_code r = u32 (h_code h) /\ p_sync r = h_sync h /\ p_bitmap r = Z.lor (h_bitmap h) (b_bitmap b) /\
    field_str (p_error r) (p_error_end r) = b_error b /\ field_str (p_data r) (p_data_end r) = b_data b /\
    forall ts n, b_data b = Some (array_of (array_of <$> ts)) -> tuples_ok ts ->
      (length ts < n)%nat -> Forall (fun fs => (length fs + length ts < n)%nat) ts ->
      tp_tuplecount r = zlen ts /\
      exists r', tp_tuples n r = Some ((fun fs => (array_of fs, fs)) <$> ts, r').
Proof.
  intros Hok Hl h b. destruct (tp_reply_ok hs body rest Hok Hl) as (r & E & (H1 & H2 & H3 & H4 & H5) & Hi).
  exists r. split; [exact E|]. split; [exact H1|]. split; [exact H2|]. split; [exact H3|].
  split; [by apply delimits_str|]. split; [by apply delimits_str|].
  intros ts n Ed Hts Hn Hf. pose proof Hts as [_ (Ho & Hlt & _)].
  destruct (Hi _ Ed Ho Hlt) as (q & Hq). split.
  - destruct Hq as (Ec & _). unfold tp_tuplecount. rewrite Ec. unfold zlen. by rewrite length_fmap.
  - destruct (tp_tuples_ok n ts q 0 r Hts Hq) as (r' & ->); [lia|lia| |by exists r'].
    eapply Forall_impl; [exact Hf|]. simpl. lia.
Qed.
End spec.

(** ** The theorem at work: two tuples *)

Definition sample_hdr : list hdr_field := [(TNT_CODE, 0); (TNT_SYNC, 7); (TNT_SCHEMA_ID, 80)].
Definition sample_tuples : list (list bytes) := [[[1]; [0xa2; 97; 98]]; [[5]]].
Definition sample_data : bytes := [0x92; 0x92; 1; 0xa2; 97; 98; 0x91; 5].

Lemma sample_elems (os : list bytes) :
  forallb (fun o => bool_decide (mp_check (MsgPuck := RefPuck) o = Some [])) os = true -> zlen os < 2 ^ 31 -> zlen (concat os) < 2 ^ 32 ->
  elems_ok (MP := RefPuck) os.
Proof.
  intros H ? ?. split; [|done]. clear -H. induction os as [|o os IH]; [constructor|].
  simpl in H. apply andb_prop in H as [Ho H]. constructor; [by apply bool_decide_eq_true_1 in Ho|by apply IH].
Qed.

Lemma tp_reply_roundtrip_witness :
  exists r r', tp_reply (MP := RefPuck) (frame (MP := RefPuck) (reply_payload (MP := RefPuck) sample_hdr (Some [BData sample_data])) ++ [9]) = Some (22, r) /\
    p_code r = 0 /\ p_sync r = 7 /\ field_str (p_data r) (p_data_end r) = Some sample_data /\
    tp_tuples (MP := RefPuck) 10 r = Some ([([0x92; 1; 0xa2; 97; 98], [[1]; [0xa2; 97; 98]]); ([0x91; 5], [[5]])], r').
Proof.
  destruct (tp_reply_roundtrip (MP := RefPuck) sample_hdr (Some [BData sample_data]) [9]) as (r & E & H1 & H2 & _ & _ & H5 & H6).
  - split; [|split; [done|split; [|vm_compute; reflexivity]]].
    + repeat apply Forall_cons_2; try apply Forall_nil_2; (split; simpl; [auto|lia]).
    + split; [|done]. apply Forall_cons_2; [|apply Forall_nil_2]. split; vm_compute; reflexivity.
  - vm_compute. reflexivity.
  - destruct (H6 sample_tuples 10%nat) as (_ & r' & E').
    + reflexivity.
    + split; [repeat apply Forall_cons_2; try apply Forall_nil_2|]; (apply sample_elems; vm_compute; reflexivity).
    + simpl. lia.
    + repeat apply Forall_cons_2; try apply Forall_nil_2; simpl; lia.
    + exists r, r'. split; [exact E|]. split; [exact H1|]. split; [exact H2|]. split; [exact H5|exact E'].
Defined.

(** ** What the header gets wrong *)

(** Part of the length of a response is not "part of the response" (0) but an
    error. *)
Example tp_reply_short : fst <$> tp_reply (MP := RefPuck) [0xce; 0; 0] = Some (-1).
Proof. reflexivity. Qed.

(** A key of the body that is not an unsigned integer is decoded as one. *)
Example tp_reply_bad_key : tp_reply (MP := RefPuck) [0xce; 0; 0; 0; 4; 0x80; 0x81; 0xa0; 1] = None.
Proof. reflexivity. Qed.

(** A key of the body of 64 or more is the amount of a shift of a 64-bit
    number. *)
Example tp_reply_big_key : tp_reply (MP := RefPuck) [0xce; 0; 0; 0; 4; 0x80; 0x81; 0x40; 1] = None.
Proof. reflexivity. Qed.
