(* ===== verification/SessionSpec.v ===== *)
(** * A session: connection, authentication, schema

    [tnt_connect] composes the whole library: the socket is connected, the
    greeting read, the request AUTH and the selects of the system spaces are
    written, the replies read and the schema loaded.  The code ignores the
    results of most of its calls, so a failure shows in the error of the stream
    only. *)

From stdpp Require Import gmap.
From S2P Require Import Prelude Msgpuck MsgpuckRef Mem Uri Stream Buf Proto Object ObjectSpec Request RequestSpec Commands CommandsSpec UpdateSpec Reply ReplySpec Iter IterSpec System Opt Io IoSpec Connect ConnectSpec Murmur Mhash MhashSpec Assoc Schema SchemaSpec Sha1 Base64 Auth Sim Net NetSpec.

Section writing.
Context {MP : MsgPuck} {MPS : MsgPuckSpec MP}.
Context {W : Type} {SY : Sys W} {OB : Observe W} {SS : SysSpec W}.
Implicit Types (s : stream (net W)) (sn : snet W tnt_schema) (w : W).
Variable fuel : nat.
#[local] Existing Instance net_sink.
#[local] Existing Instance net_sink_spec.

(** A transfer has failed. *)
Definition failed sn : Prop := io_error (n_error sn).

Lemma failed_kept sn sn' : failed sn -> error_kept (n_error sn) (n_error sn') -> failed sn'.
Proof. unfold failed. by intros H [-> |?]. Qed.

Lemma same_net_fields sn sn' : same_net sn sn' ->
  opt sn' = opt sn /\ connected sn' = connected sn /\ rbuf sn' = rbuf sn /\ greeting sn' = greeting sn /\ n_schema sn' = n_schema sn /\
  error_kept (n_error sn) (n_error sn').
Proof. by intros (p & off & e & er & -> & _ & He). Qed.

Lemma same_rbuf_fields sn sn' : same_but_rbuf sn sn' ->
  opt sn' = opt sn /\ connected sn' = connected sn /\ n_sbuf sn' = n_sbuf sn /\ greeting sn' = greeting sn /\ n_schema sn' = n_schema sn /\
  error_kept (n_error sn) (n_error sn').
Proof. by intros (p & off & top & e & er & -> & He). Qed.

(** Up to [n] packets, [bs], have been written; fewer if a transfer failed. *)
Definition wrote s sn w (bs : bytes) (n : Z) s' sn' w' : Prop :=
  net_state fuel s' sn' w' /\ same_net sn sn' /\ idle w w' /\ st_mem s' = st_mem s /\
  exists k, 0 <= k <= n /\ st_wrcnt s' = st_wrcnt s + k /\
    (failed sn' \/ (k = n /\ written sn' w' = written sn w ++ bs)).

Lemma wrote_trans s sn w bs1 n1 s1 sn1 w1 bs2 n2 s2 sn2 w2 :
  wrote s sn w bs1 n1 s1 sn1 w1 -> wrote s1 sn1 w1 bs2 n2 s2 sn2 w2 -> wrote s sn w (bs1 ++ bs2) (n1 + n2) s2 sn2 w2.
Proof.
  intros (_ & H2 & H3 & H4 & k1 & Hk1 & Hw1 & H1) (G1 & G2 & G3 & G4 & k2 & Hk2 & Hw2 & G). split; [done|].
  split; [by eapply same_net_trans|]. split; [by eapply idle_trans|]. split; [congruence|].
  exists (k1 + k2). split; [lia|]. split; [lia|].
  destruct (same_net_fields _ _ G2) as (_ & _ & _ & _ & _ & He).
  destruct H1 as [H1|[-> H1]]; [left; by eapply failed_kept|]. destruct G as [?|[-> G]]; [by left|right]. split; [done|].
  by rewrite G, H1, app_assoc.
Qed.

Lemma wrote_input s sn w bs n s' sn' w' : wrote s sn w bs n s' sn' w' -> input sn' w' = input sn w.
Proof.
  intros (_ & H2 & [_ Hi] & _). destruct (same_net_fields _ _ H2) as (_ & _ & Hr & _). unfold input, waiting. by rewrite Hi, Hr.
Qed.

(** A packet is written. *)
Lemma emits_wrote s sn w res op fs :
  net_state fuel s sn w -> 0 <= st_wrcnt s < 2 ^ 32 - 1 -> emits (SK := net_sink fuel) s res op fs ->
  exists r s' sn' w', res = Some (r, s') /\ st_reqid s' = u64 (st_reqid s + 1) /\
    wrote s sn w (packet op (st_reqid s) fs) 1 s' sn' w'.
Proof.
  intros (Hs & Hok & Hf) Hcnt (iov & -> & Ec & _). cbn [sk_writev net_sink].
  destruct (net_writev_ok fuel (reqid_incr s) sn w iov Hs Hok Hf) as (r & sn' & w' & -> & (Hok' & Hnet & Hi & Hidle & _ & Hout) & _).
  exists r. do 3 eexists. split; [done|]. split; [by case_decide|].
  split; [split; [by case_decide|split; [done|lia]]|]. split; [done|]. split; [done|]. split; [by case_decide|].
  rewrite Ec in Hout. destruct Hout as [[-> Hw]|[(-> & He & _)|(-> & He & _)]].
  - exists 1. split; [lia|]. rewrite decide_True by (unfold zlen; lia). split; [simpl; by rewrite u32_small by lia|]. by right.
  - exists 0. split; [lia|]. rewrite decide_False by (intros []; done). split; [simpl; lia|]. left. by left.
  - exists 0. split; [lia|]. rewrite decide_False by (intros []; done). split; [simpl; lia|]. left. by right.
Qed.

(** Everything written has been sent, or a transfer failed. *)
Definition flushed s sn w s' sn' w' : Prop :=
  net_state fuel s' sn' w' /\ same_net sn sn' /\ idle w w' /\ st_mem s' = st_mem s /\ st_wrcnt s' = st_wrcnt s /\ st_reqid s' = st_reqid s /\
  (failed sn' \/ (sent w' = written sn w /\ buffered sn' = [])).

Lemma tnt_flush_flushed s sn w : net_state fuel s sn w ->
  exists r s' sn' w', tnt_flush fuel s = Some (r, s') /\ flushed s sn w s' sn' w'.
Proof.
  intros (Hs & Hok & Hf). unfold tnt_flush. rewrite Hs. cbn [mbind option_bind].
  destruct (flush_ok fuel sn w Hok Hf) as (r & sn' & w' & -> & Hok' & Hnet & Hi & Hidle & _ & Hout). cbn [mbind option_bind].
  exists r. do 3 eexists. split; [done|]. split; [split; [done|split; [done|lia]]|]. repeat (split; [done|]).
  destruct Hout as [(_ & Hb & Hw)|(_ & He & _)]; [by right|left; by right].
Qed.

Lemma flushed_input s sn w s' sn' w' : flushed s sn w s' sn' w' -> input sn' w' = input sn w.
Proof.
  intros (_ & H2 & [_ Hi] & _). destruct (same_net_fields _ _ H2) as (_ & _ & Hr & _). unfold input, waiting. by rewrite Hi, Hr.
Qed.

(** ** The requests of a session *)

Definition auth_fields (user scramble : bytes) : fields :=
  if bool_decide (user = guest_name) then guest_fields else chap_fields user scramble.

(** The greeting that the stream holds: a version, a salt and a rest. *)
Record greeting_ok (g salt : bytes) : Prop := {
  gr_length : length g = TNT_GREETING_SIZE;
  gr_salt : exists rest, drop TNT_VERSION_SIZE g = b64 salt ++ rest;
  gr_bytes : Forall is_byte salt /\ length salt = 32%nat;
}.

Lemma auth_emits salt0 ctx0 s sn w g user pass salt :
  st_data s = Some (sn, w) -> greeting sn = PHeap g -> greeting_ok g salt -> 0 <= st_reqid s < 2 ^ 64 -> zlen user < 2 ^ 31 ->
  length salt0 = 64%nat -> length ctx0 = 64%nat -> Forall is_byte pass -> zlen pass < 2 ^ 31 ->
  emits (SK := net_sink fuel) s (tnt_auth fuel salt0 ctx0 s (Some user) pass) TNT_OP_AUTH (auth_fields user (scramble_of salt pass)).
Proof.
  intros Hs Hg [_ [rest Hd] [Hsb Hsl]] Hq Hu H1 H2 H3 H4. unfold tnt_auth. rewrite Hs. cbn [mbind option_bind]. rewrite Hg.
  cbn [block_of mbind option_bind]. rewrite Hd. unfold auth_fields. case_bool_decide as Hguest.
  - apply auth_raw_guest; [done|right; congruence].
  - by apply auth_raw_chap.
Qed.

Lemma empty_array_object : mp_object (mp_encode_array 0).
Proof. pose proof (mp_object_array [] (Forall_nil_2 _) eq_refl) as H. cbn [concat] in H. by rewrite app_nil_r in H. Qed.

(** The select of all rows of a system space. *)
Definition select_fields (space : Z) : fields :=
  [num TNT_SPACE space; num TNT_INDEX tnt_vin_name; num TNT_LIMIT UINT32_MAX; num TNT_OFFSET 0;
   num TNT_ITERATOR (iterator_code TNT_ITER_ALL); obj TNT_KEY (mp_encode_array 0)].

Lemma get_system_emits s space st :
  Refuse ∉ st -> 0 <= space < 2 ^ 32 -> 0 <= st_reqid s < 2 ^ 64 ->
  emits (SK := net_sink fuel) s (get_system (SK := net_sink fuel) space s st) TNT_OP_SELECT (select_fields space).
Proof.
  intros Hst Hsp Hq. unfold get_system. destruct (tnt_object_ok false st) as (r & -> & Hr). cbn [mbind option_bind].
  destruct r as [o|]; [|done]. destruct Hr as (Hg & _ & Hrepr & _).
  destruct (start_repr o _ false 0 Hrepr) as (z & o' & -> & _ & Hz & Hres); [simpl; lia|lia|]. cbn [mbind option_bind].
  destruct Hres as [->|(_ & _ & Hrepr')]; [by destruct (Hz (Hg Hst))|].
  pose proof (spec_len_array 0 ltac:(lia)) as Hlen. set (a := a_start false 0 _) in Hrepr'.
  assert (a_bytes a = mp_encode_array 0) as Ea by done.
  assert (tnt_stream_free (Some (tnt_buf_free (Some tnt_sbuf_object_free))) (Some o') <> None) as Hfree.
  { destruct Hrepr' as (sb & b & Hd & [_ Hc] & Has & _ & Hsub & _). unfold tnt_stream_free, tnt_buf_free. rewrite Hd. cbn [mbind option_bind].
    rewrite Hsub. destruct (data (sb_core sb)); try done; cbn; by destruct (st_alloc o'), (sb_as sb). }
  assert (array_arg o' (mp_encode_array 0)) as Harg.
  { split; [|split; [|split]].
    - rewrite <- Ea. apply repr_holds; [done|]. rewrite Ea. intros E. rewrite E in Hlen. unfold zlen in Hlen; simpl in Hlen; lia.
    - apply empty_array_object.
    - rewrite <- (app_nil_r (mp_encode_array 0)). by apply spec_type_array.
    - lia. }
  pose proof (run_command_emits (SK := net_sink fuel) (CSelect space tnt_vin_name UINT32_MAX 0 (iterator_code TNT_ITER_ALL) o' (mp_encode_array 0)) s Hq) as He.
  cbn [run_command command_op command_fields] in He. fold (select_fields space) in He.
  destruct He as (iov & E & Hiov); [by repeat (split; [done|])|]. exists iov. rewrite E. split; [|done].
  destruct (sk_writev _ iov) as [[rv s']|]; [|done]. cbn [mbind option_bind]. by destruct (tnt_stream_free _ _).
Qed.
(** Packets, [bs], have been written and sent; fewer than [n] if a transfer failed. *)
Record posted s sn w (bs : bytes) (n : Z) s' sn' w' : Prop := {
  po_state : net_state fuel s' sn' w';
  po_opt : opt sn' = opt sn;
  po_connected : connected sn' = connected sn;
  po_schema : n_schema sn' = n_schema sn;
  po_error : error_kept (n_error sn) (n_error sn');
  po_mem : st_mem s' = st_mem s;
  po_input : input sn' w' = input sn w;
  po_count : exists k, 0 <= k <= n /\ st_wrcnt s' = st_wrcnt s + k /\
    (failed sn' \/ (k = n /\ sent w' = written sn w ++ bs /\ buffered sn' = []));
}.

Lemma wrote_flushed s sn w bs n s1 sn1 w1 s2 sn2 w2 :
  wrote s sn w bs n s1 sn1 w1 -> flushed s1 sn1 w1 s2 sn2 w2 -> posted s sn w bs n s2 sn2 w2.
Proof.
  intros Hw Hf. pose proof (wrote_input _ _ _ _ _ _ _ _ Hw) as I1. pose proof (flushed_input _ _ _ _ _ _ Hf) as I2.
  destruct Hw as (_ & H2 & _ & H4 & k & Hk & Hc & H1). destruct Hf as (G1 & G2 & _ & G4 & G5 & _ & G).
  destruct (same_net_fields _ _ (same_net_trans _ _ _ H2 G2)) as (? & ? & _ & _ & ? & He).
  destruct (same_net_fields _ _ G2) as (_ & _ & _ & _ & _ & He2). split; try done; try congruence.
  exists k. split; [done|]. split; [by rewrite G5|]. destruct H1 as [H1|[-> H1]]; [left; by eapply failed_kept|].
  destruct G as [?|[G Hb]]; [by left|right]. by rewrite G, H1.
Qed.

(** The requests of [tnt_reload_schema]. *)
Definition schema_packets : bytes :=
  packet TNT_OP_SELECT 127 (select_fields tnt_vsp_space) ++ packet TNT_OP_SELECT 128 (select_fields tnt_vsp_index).

Lemma reload_requests s sn w (om : malloc_state * malloc_state) oldsync :
  net_state fuel s sn w -> st_wrcnt s = 0 -> Refuse ∉ fst om -> Refuse ∉ snd om ->
  exists r1 s1 r2 s2 r3 s3 sn3 w3,
    tnt_get_space (SK := net_sink fuel) (snd (tnt_stream_reqid s 127)) (fst om) = Some (r1, s1) /\
    tnt_get_index (SK := net_sink fuel) s1 (snd om) = Some (r2, s2) /\
    tnt_flush fuel (snd (tnt_stream_reqid s2 oldsync)) = Some (r3, s3) /\ posted s sn w schema_packets 2 s3 sn3 w3 /\ st_reqid s3 = u32 oldsync.
Proof.
  intros Hst Hc H1 H2. set (s0 := snd (tnt_stream_reqid s 127)).
  destruct (emits_wrote s0 sn w _ _ _ Hst ltac:(simpl; lia) (get_system_emits s0 tnt_vsp_space (fst om) H1 ltac:(done) ltac:(done)))
    as (r1 & s1 & sn1 & w1 & E1 & Eq1 & W1). change (st_reqid s0) with 127 in *.
  assert (st_reqid s1 = 128) as Eq by (by rewrite Eq1).
  assert (0 <= st_wrcnt s1 <= 1) as Hc1 by (destruct W1 as (_ & _ & _ & _ & k & ? & -> & _); simpl; lia).
  pose proof (get_system_emits s1 tnt_vsp_index (snd om) H2 ltac:(done)) as He. rewrite Eq in He. specialize (He ltac:(lia)).
  destruct (emits_wrote s1 sn1 w1 _ _ _ ltac:(by destruct W1) ltac:(lia) He) as (r2 & s2 & sn2 & w2 & E2 & _ & W2). rewrite Eq in W2.
  pose proof (wrote_trans _ _ _ _ _ _ _ _ _ _ _ _ _ W1 W2) as W12. set (s2' := snd (tnt_stream_reqid s2 oldsync)).
  assert (wrote s sn w schema_packets 2 s2' sn2 w2) as Hw by exact W12.
  destruct (tnt_flush_flushed s2' sn2 w2 ltac:(by destruct Hw)) as (r3 & s3 & sn3 & w3 & E3 & F).
  exists r1, s1, r2, s2, r3, s3, sn3, w3. split; [exact E1|]. split; [exact E2|]. split; [exact E3|].
  split; [by eapply wrote_flushed|]. by destruct F as (_ & _ & _ & _ & _ & -> & _).
Qed.

End writing.

(** ** The replies *)

Section reading.
Context {MP : MsgPuck} {MPS : MsgPuckSpec MP}.
Context {W : Type} {SY : Sys W} {OB : Observe W} {SS : SysSpec W}.
Implicit Types (s : stream (net W)) (sn : snet W tnt_schema) (w : W).
Variable fuel : nat.
#[local] Existing Instance net_sink.

(** Only the receive buffer, the schema, the error and the counter of writes
    have changed. *)
Definition later s sn w s' sn' w' : Prop :=
  net_state fuel s' sn' w' /\ granted s' /\ sent w' = sent w /\ st_reqid s' = st_reqid s /\
  opt sn' = opt sn /\ connected sn' = connected sn /\ error_kept (n_error sn) (n_error sn').

Lemma later_refl s sn w : net_state fuel s sn w -> granted s -> later s sn w s sn w.
Proof. intros. repeat (split; [done|]). by left. Qed.

Lemma later_trans s sn w s1 sn1 w1 s2 sn2 w2 : later s sn w s1 sn1 w1 -> later s1 sn1 w1 s2 sn2 w2 -> later s sn w s2 sn2 w2.
Proof.
  intros (_ & _ & E1 & E2 & E3 & E4 & E5) (? & ? & F1 & F2 & F3 & F4 & F5).
  repeat (split; [congruence|]). by eapply error_kept_trans.
Qed.

(** The next reply, or a failed reception: one round of the iterator. *)
Lemma next_reply r s sn w x rest :
  releasable r -> net_state fuel s sn w -> granted s -> 1 <= st_wrcnt s < 2 ^ 32 ->
  server_reply_ok (fst x) (snd x) -> final (client_reply x) -> input sn w = reply_frame x ++ rest ->
  exists rc it s1 sn1 w1, tnt_next (tnt_net_reply fuel) (reply_iter false r) s = Some (rc, it, s1) /\ later s sn w s1 sn1 w1 /\
    n_schema sn1 = n_schema sn /\ st_wrcnt s1 = st_wrcnt s - 1 /\
    ((rc = 1 /\ it = reply_iter false (client_reply x) /\ input sn1 w1 = rest) \/
     (rc = 0 /\ it = Iter TNT_ITER_REPLY TNT_ITER_FAIL false (IReply (zero_reply false)) /\ failed sn1)).
Proof.
  intros Hr Hst Hg Hc Hok Hfin Hin.
  destruct (net_reply_one fuel s sn w x rest Hst Hg ltac:(lia) Hok Hin) as (rv & s1 & r1 & sn1 & w1 & E & (H1 & H2 & H3 & H4 & _) & Hg1 & Hres).
  destruct (same_rbuf_fields _ _ H2) as (F1 & F2 & _ & _ & F3 & F4).
  rewrite (net_next_eq fuel false r s rv s1 r1 Hr E). do 5 eexists. split; [done|].
  split; [by repeat (split; [done|])|]. split; [done|].
  destruct Hres as [(-> & -> & Hin1 & Hc1)|(-> & -> & He & Hc1)].
  - rewrite decide_True in Hc1 by done. split; [by rewrite Hc1, u32_small by lia|]. left. by rewrite !decide_False by done.
  - split; [by rewrite Hc1, u32_small by lia|]. right. rewrite !decide_True by done. split; [done|]. split; [done|]. by right.
Qed.

(** Adding a reply to the schema. *)
Lemma add_to_schema_eq add r s sn w sch rc sch' m :
  net_state fuel s sn w -> granted s -> n_schema sn = Some sch -> add sch r (st_mem s) = Some (rc, sch', m) -> Refuse ∉ m ->
  exists s' sn', add_to_schema add r s = Some s' /\ later s sn w s' sn' w /\ n_schema sn' = Some sch' /\ n_error sn' = n_error sn /\
    st_wrcnt s' = st_wrcnt s /\ input sn' w = input sn w.
Proof.
  intros (Hs & [Hcb Hsb Hrb] & Hf) Hg Hsch Hadd Hm. unfold add_to_schema. rewrite Hs. cbn [mbind option_bind]. rewrite Hsch. cbn [mbind option_bind].
  rewrite Hadd. cbn [mbind option_bind]. eexists _, (put_schema (Some sch') sn). split; [done|]. split; [|done].
  split; [split; [done|split; [split; [exact Hcb|exact Hsb|exact Hrb]|done]]|].
  repeat (split; [done|]). by left.
Qed.

(** ** The replies that a server sends to the two selects *)

Definition good_reply (x : server_reply) (id : Z) (data : bytes) : Prop :=
  server_reply_ok (fst x) (snd x) /\ sync (client_reply x) = id /\ error (client_reply x) = None /\
  Z.land (code (client_reply x)) (response_type_code TNT_CHUNK) = 0 /\ rdata (client_reply x) = Some data.

Record schema_replies (sps : list space_row) (ils : list index_row) (sp ix : server_reply) : Prop := {
  sv_spaces : Forall space_row_ok sps;
  sv_indexes : Forall index_row_ok ils;
  sv_resolved : Forall (fun i => is_Some (space_of sps (number_key (ir_sid i)))) ils;
  sv_sizes : 2 * zlen sps <= 2 ^ 25 /\ 2 * zlen ils <= 2 ^ 26;
  sv_sp : good_reply sp 127 (rows_data space_fields sps);
  sv_ix : good_reply ix 128 (rows_data index_fields ils);
}.

(** What a loaded schema answers. *)
Definition resolves (sch : tnt_schema) (sps : list space_row) (ils : list index_row) : Prop :=
  (forall name, tnt_schema_stosid sch name = Some (stosid_spec sps name)) /\
  (forall sid name, tnt_schema_stoiid sch sid name = Some (stoiid_spec sps ils sid name)).

(** ** The loop of tnt_reload_schema *)

Section reload.
Variables (sps : list space_row) (ils : list index_row) (sp ix : server_reply) (c : Z).
Hypothesis Hsv : schema_replies sps ils sp ix.
Hypothesis Hc : c <= 2 ^ 25.

Inductive kind := Sp | Ix.
Definition reply_of (k : kind) : server_reply := match k with Sp => sp | Ix => ix end.

(** How far the loop has come: the indexes are kept aside when they come first. *)
Inductive phase := Start | Spaces | Kept | All_kept | Done.

Definition next_phase (ph : phase) (k : kind) : option phase :=
  match ph, k with
  | Start, Sp => Some Spaces
  | Start, Ix => Some Kept
  | Spaces, Ix => Some Done
  | Kept, Sp => Some All_kept
  | _, _ => None
  end.

Definition has_spaces (sch : tnt_schema) : Prop :=
  exists base h c, space_hash sch = Some h /\ loaded sps sps [] base h c.

Definition in_phase (ph : phase) (sch : tnt_schema) (bkp : reply) (sloaded : Z) : Prop :=
  match ph with
  | Start => schema_empty sch c /\ r_buf bkp = PNull /\ sloaded = 0
  | Spaces => has_spaces sch /\ r_buf bkp = PNull /\ sloaded = 1
  | Kept => schema_empty sch c /\ bkp = client_reply ix /\ sloaded = 0
  | All_kept => has_spaces sch /\ bkp = client_reply ix /\ sloaded = 1
  | Done => resolves sch sps ils /\ r_buf bkp = PNull /\ sloaded = 3
  end.

Lemma good_final x id data : good_reply x id data -> final (client_reply x).
Proof. intros (_ & _ & _ & Hc' & _). by right. Qed.

(** Loading each of the two replies. *)
Lemma load_sp sch st : schema_empty sch c -> Refuse ∉ st ->
  exists sch' st', tnt_schema_add_spaces sch (client_reply sp) st = Some (0, sch', st') /\ has_spaces sch' /\ Refuse ∉ st'.
Proof.
  intros Hs Hst. destruct Hsv as [H1 _ _ [Hl _] (_ & _ & _ & _ & Hd) _].
  destruct (load_spaces_ok sch c sps _ st Hs Hst H1 ltac:(lia) Hd) as (base & h & st' & E & Hh & Hst').
  do 2 eexists. split; [exact E|]. split; [|done]. by exists base, h, (c + 2 * zlen sps).
Qed.

Lemma load_ix sch st : has_spaces sch -> Refuse ∉ st ->
  exists sch' st', tnt_schema_add_indexes sch (client_reply ix) st = Some (0, sch', st') /\ resolves sch' sps ils /\ Refuse ∉ st'.
Proof.
  intros (base & h & c' & Hs & Hh) Hst. destruct Hsv as [H1 H2 H3 [_ Hl] _ (_ & _ & _ & _ & Hd)].
  destruct (load_indexes_ok sch h base c' sps ils _ st Hs Hh Hst H2 H3 Hl Hd) as (h' & st' & E & Hh' & Hst').
  do 2 eexists. split; [exact E|]. split; [|done]. split; intros; [by eapply loaded_stosid|by eapply loaded_stoiid].
Qed.

Lemma load_ix_unknown sch st : schema_empty sch c -> Refuse ∉ st ->
  exists rc, tnt_schema_add_indexes sch (client_reply ix) st = Some (rc, sch, st).
Proof.
  intros Hs Hst. destruct Hsv as [H1 H2 H3 [_ Hl] _ (_ & _ & _ & _ & Hd)]. by apply (load_indexes_unknown sch c ils).
Qed.

(** What [tnt_reload_schema] does after the loop. *)
Definition reload_tail s (bkp : reply) (sloaded : Z) : option (stream (net W) * Z) :=
  match r_buf bkp with
  | PNull => Some (s, sloaded)
  | _ => s ← add_to_schema tnt_schema_add_indexes bkp s; _ ← tnt_reply_free bkp; Some (s, sloaded + 2)
  end.

Lemma client_reply_buf x : exists b, r_buf (client_reply x) = PHeap b.
Proof. unfold client_reply, expected_reply. destruct (snd x); by eexists. Qed.

Lemma tail_ok ph s sn w sch bkp ld :
  net_state fuel s sn w -> granted s -> n_schema sn = Some sch -> in_phase ph sch bkp ld ->
  exists s' sn' ld' sch', reload_tail s bkp ld = Some (s', ld') /\ later s sn w s' sn' w /\ st_wrcnt s' = st_wrcnt s /\
    input sn' w = input sn w /\ n_schema sn' = Some sch' /\ (ph = Done \/ ph = All_kept -> ld' = 3 /\ resolves sch' sps ils).
Proof.
  intros Hst Hg Hsch Hph. unfold reload_tail. destruct (client_reply_buf ix) as [b Hb].
  assert (exists x, tnt_reply_free (client_reply ix) = Some x) as [x Hx] by (unfold tnt_reply_free; rewrite Hb; by eexists).
  assert (r_buf bkp = PNull -> ph <> All_kept /\ (ph = Done -> ld = 3 /\ resolves sch sps ils)) as Hnull.
  { intros H. destruct ph; cbn in Hph; try (split; [done|by intros]); [destruct Hph as (_ & -> & _); by rewrite Hb in H|split; [done|]; tauto]. }
  destruct ph; cbn in Hph; destruct Hph as (Hsch' & Hbkp & Hsl);
    try (rewrite Hbkp; exists s, sn, ld, sch; split; [done|]; split; [by apply later_refl|]; do 3 (split; [done|]); intros [E|E]; try done; by apply Hnull).
  - subst bkp. rewrite Hb. destruct (load_ix_unknown sch (st_mem s) Hsch' Hg) as (rc & E).
    destruct (add_to_schema_eq tnt_schema_add_indexes _ s sn w sch rc sch _ Hst Hg Hsch E Hg) as (s' & sn' & -> & H1 & H2 & _ & H3 & H4).
    cbn [mbind option_bind]. rewrite Hx. cbn [mbind option_bind]. exists s', sn', (ld + 2), sch. repeat (split; [done|]). by intros [|].
  - subst bkp. rewrite Hb. destruct (load_ix sch (st_mem s) Hsch' Hg) as (sch' & m & E & Hres & Hm).
    destruct (add_to_schema_eq tnt_schema_add_indexes _ s sn w sch 0 sch' _ Hst Hg Hsch E Hm) as (s' & sn' & -> & H1 & H2 & _ & H3 & H4).
    cbn [mbind option_bind]. rewrite Hx. cbn [mbind option_bind]. exists s', sn', (ld + 2), sch'. repeat (split; [done|]). intros _. split; [lia|done].
Qed.

(** Without an outstanding write the loop ends. *)
Lemma loop_stop n r s bkp ld : releasable r -> st_wrcnt s = 0 ->
  reload_loop fuel (S n) (reply_iter false r) s bkp ld = Some (true, reply_iter false (zero_reply false), s, bkp, ld).
Proof. intros Hr Hw. cbn [reload_loop]. by rewrite net_next_idle. Qed.

(** The iterator after a failed reception. *)
Definition failed_iter : iter := Iter TNT_ITER_REPLY TNT_ITER_FAIL false (IReply (zero_reply false)).

(** A round that adds the rows of a reply goes on with what they make of the
    schema: [Ea] is the addition to the schema of [Es], [Hm] that memory is not
    refused after it. *)
Ltac added Hst1 Hg1 Es Ea Hm rep sch1 ld1 :=
  let E := fresh in let H1 := fresh in let H3 := fresh in let H4 := fresh in
  destruct (add_to_schema_eq _ _ _ _ _ _ _ sch1 _ Hst1 Hg1 Es Ea Hm) as (? & ? & E & H1 & ? & _ & H3 & H4); rewrite E;
  cbn [mbind option_bind]; do 3 eexists; split; [by eapply later_trans; [|exact H1]|]; split; [by rewrite H3|];
  left; eexists rep, sch1, _, ld1; rewrite H4; done.

(** One round: the loop goes on in the next phase, or a reception failed. *)
Lemma loop_round n r s sn w sch ph k ph' bkp ld rest :
  releasable r -> net_state fuel s sn w -> granted s -> 1 <= st_wrcnt s < 2 ^ 32 -> n_schema sn = Some sch ->
  in_phase ph sch bkp ld -> next_phase ph k = Some ph' -> input sn w = reply_frame (reply_of k) ++ rest ->
  exists s1 sn1 w1, later s sn w s1 sn1 w1 /\ st_wrcnt s1 = st_wrcnt s - 1 /\
    ((exists r' sch1 bkp1 ld1,
        reload_loop fuel (S n) (reply_iter false r) s bkp ld = reload_loop fuel n (reply_iter false r') s1 bkp1 ld1 /\ releasable r' /\
        n_schema sn1 = Some sch1 /\ in_phase ph' sch1 bkp1 ld1 /\ input sn1 w1 = rest) \/
     (reload_loop fuel (S n) (reply_iter false r) s bkp ld = Some (true, failed_iter, s1, bkp, ld) /\ failed sn1 /\ n_schema sn1 = Some sch)).
Proof.
  intros Hr Hst Hg Hw Hsch Hph Hnext Hin.
  assert (exists id data, good_reply (reply_of k) id data /\ id = match k with Sp => 127 | Ix => 128 end) as (id & data & Hgood & Hid)
    by (destruct k; do 2 eexists; (split; [apply Hsv|done])).
  pose proof (good_final _ _ _ Hgood) as Hfin. destruct Hgood as (Hok & Hsync & Herr & _).
  destruct (next_reply r s sn w (reply_of k) rest Hr Hst Hg Hw Hok Hfin Hin) as (rc & it & s1 & sn1 & w1 & E & Hl & Es & Ew & Hres).
  cbn [reload_loop]. rewrite E. cbn [mbind option_bind]. destruct Hres as [(-> & -> & Hin1)|(-> & -> & Hf)].
  2: { rewrite decide_True by done. exists s1, sn1, w1. split; [done|]. split; [done|]. right. by rewrite Es. }
  rewrite decide_False by done. cbn [iter_reply_of reply_iter it_data mbind option_bind]. rewrite Hsync, Herr, Hid.
  rewrite Hsch in Es. destruct Hl as (Hst1 & Hg1 & Hl). 
  assert (releasable (client_reply (reply_of k))) as Hrel by apply expected_releasable.
  destruct ph, k; try done; injection Hnext as <-; cbn in Hph; destruct Hph as (Hsch' & Hbkp & ->); cbn [reply_of] in *.
  - rewrite decide_True by done. rewrite decide_False by (intros [? ?]; done).
    destruct (load_sp sch (st_mem s1) Hsch' Hg1) as (sch1 & m & Ea & Hsp & Hm). added Hst1 Hg1 Es Ea Hm (client_reply sp) sch1 1.
  - rewrite (decide_False (P := 128 = 127)), (decide_True (P := 128 = 128)) by done. rewrite decide_False by (intros [? ?]; done).
    rewrite (decide_True (P := Z.land 0 1 = 0)) by done. exists s1, sn1, w1. split; [done|]. split; [done|].
    left. eexists _, sch, (client_reply ix), 0. split; [reflexivity|]. split; [by split|]. done.
  - rewrite (decide_False (P := 128 = 127)), (decide_True (P := 128 = 128)) by done. rewrite decide_False by (intros [? ?]; done).
    rewrite (decide_False (P := Z.land 1 1 = 0)) by done.
    destruct (load_ix sch (st_mem s1) Hsch' Hg1) as (sch1 & m & Ea & Hix & Hm). added Hst1 Hg1 Es Ea Hm (client_reply ix) sch1 3.
  - rewrite decide_True by done. rewrite decide_False by (intros [? ?]; done).
    destruct (load_sp sch (st_mem s1) Hsch' Hg1) as (sch1 & m & Ea & Hsp & Hm). added Hst1 Hg1 Es Ea Hm (client_reply sp) sch1 1.
Qed.

(** The whole loop: it reads as many replies as there were writes. *)
Lemma loop_ok k1 k2 ph1 ph2 n s sn w sch rest :
  (3 <= n)%nat -> net_state fuel s sn w -> granted s -> 0 <= st_wrcnt s <= 2 -> (st_wrcnt s = 2 \/ failed sn) ->
  n_schema sn = Some sch -> schema_empty sch c -> next_phase Start k1 = Some ph1 -> next_phase ph1 k2 = Some ph2 ->
  input sn w = reply_frame (reply_of k1) ++ reply_frame (reply_of k2) ++ rest ->
  exists it s' sn' w' bkp ld sch' ph, reload_loop fuel n (reply_iter false (zero_reply false)) s (zero_reply false) 0 = Some (true, it, s', bkp, ld) /\
    is_Some (tnt_iter_free it) /\ later s sn w s' sn' w' /\ n_schema sn' = Some sch' /\ in_phase ph sch' bkp ld /\
    (failed sn' \/ (ph = ph2 /\ st_wrcnt s' = 0 /\ input sn' w' = rest)).
Proof.
  intros Hn Hst Hg Hw Hall Hsch Hempty Hk1 Hk2 Hin. destruct n as [|[|[|n]]]; try lia.
  assert (in_phase Start sch (zero_reply false) 0) as Hph by done.
  assert (is_Some (tnt_iter_free (reply_iter false (zero_reply false)))) as Hfree by by eexists.
  assert (is_Some (tnt_iter_free failed_iter)) as Hfree' by by eexists.
  destruct (decide (st_wrcnt s = 0)) as [E0|E0].
  { rewrite loop_stop by done. do 8 eexists. split; [reflexivity|]. split; [done|]. split; [by apply later_refl|]. split; [done|]. split; [exact Hph|].
    left. by destruct Hall; [lia|]. }
  destruct (loop_round (S (S n)) (zero_reply false) s sn w sch Start k1 ph1 _ _ _ ltac:(done) Hst Hg ltac:(lia) Hsch Hph Hk1 Hin) as (s1 & sn1 & w1 & Hl1 & Hw1 & Hres).
  assert (st_wrcnt s1 = 1 \/ failed sn1) as Hall1.
  { destruct Hall as [?|Hf]; [left; lia|right]. eapply failed_kept; [done|]. apply Hl1. }
  pose proof Hl1 as (Hst1 & Hg1 & _).
  destruct Hres as [(r1 & sch1 & bkp1 & ld1 & -> & Hr1 & Hsch1 & Hph1 & Hin1)|(-> & Hf1 & Hsch1)].
  2: { do 8 eexists. split; [reflexivity|]. split; [done|]. split; [done|]. split; [done|]. split; [exact Hph|]. by left. }
  destruct (decide (st_wrcnt s1 = 0)) as [E1|E1].
  { rewrite loop_stop by done. do 8 eexists. split; [reflexivity|]. split; [done|]. split; [done|]. split; [done|]. split; [exact Hph1|].
    left. by destruct Hall1; [lia|]. }
  destruct (loop_round (S n) _ s1 sn1 w1 sch1 ph1 k2 ph2 _ _ _ Hr1 Hst1 Hg1 ltac:(lia) Hsch1 Hph1 Hk2 Hin1) as (s2 & sn2 & w2 & Hl2 & Hw2 & Hres2).
  assert (later s sn w s2 sn2 w2) as Hl by (by eapply later_trans). 
  destruct Hres2 as [(r2 & sch2 & bkp2 & ld2 & -> & Hr2 & Hsch2 & Hph2 & Hin2)|(-> & Hf2 & Hsch2)].
  2: { do 8 eexists. split; [reflexivity|]. split; [done|]. split; [exact Hl|]. split; [done|]. split; [exact Hph1|]. by left. }
  rewrite loop_stop by (done || lia). do 8 eexists. split; [reflexivity|]. split; [done|]. split; [exact Hl|]. split; [done|]. split; [exact Hph2|].
  right. split; [done|]. split; [lia|done].
Qed.

End reload.

(** When the request AUTH has not been written, its reply is the first one. *)
Lemma loop_foreign n s sn w x rest :
  (2 <= n)%nat -> net_state fuel s sn w -> granted s -> 0 <= st_wrcnt s <= 2 -> failed sn ->
  server_reply_ok (fst x) (snd x) -> final (client_reply x) -> sync (client_reply x) <> 127 -> sync (client_reply x) <> 128 ->
  input sn w = reply_frame x ++ rest ->
  exists done_ it s' sn' w', reload_loop fuel n (reply_iter false (zero_reply false)) s (zero_reply false) 0 = Some (done_, it, s', zero_reply false, 0) /\
    is_Some (tnt_iter_free it) /\ later s sn w s' sn' w' /\ failed sn'.
Proof.
  intros Hn Hst Hg Hw Hf Hok Hfin H7 H8 Hin. destruct n as [|[|n]]; try lia.
  destruct (decide (st_wrcnt s = 0)) as [E0|E0].
  { rewrite loop_stop by done. do 5 eexists. split; [reflexivity|]. split; [by eexists|]. split; [by apply later_refl|done]. }
  destruct (next_reply (zero_reply false) s sn w x rest ltac:(done) Hst Hg ltac:(lia) Hok Hfin Hin) as (rc & it & s1 & sn1 & w1 & E & Hl & _ & _ & Hres).
  assert (failed sn1) as Hf1 by (eapply failed_kept; [done|]; apply Hl).
  cbn [reload_loop]. rewrite E. cbn [mbind option_bind]. destruct Hres as [(-> & -> & _)|(-> & -> & _)].
  - rewrite decide_False by done. cbn [iter_reply_of reply_iter it_data mbind option_bind]. rewrite !decide_False by done.
    do 5 eexists. split; [reflexivity|]. split; [|done]. destruct (client_reply_buf x) as [b Hb].
    unfold tnt_iter_free, tnt_iter_reply_free, tnt_reply_free. cbn [reply_iter it_data]. rewrite Hb.
    unfold client_reply, expected_reply. destruct (snd x); by eexists.
  - rewrite decide_True by done. do 5 eexists. split; [reflexivity|]. split; [by eexists|done].
Qed.

(** ** tnt_reload_schema *)

Lemma later_posted s sn w bs n s1 sn1 w1 s2 sn2 w2 :
  posted fuel s sn w bs n s1 sn1 w1 -> later s1 sn1 w1 s2 sn2 w2 ->
  net_state fuel s2 sn2 w2 /\ granted s2 /\ connected sn2 = connected sn /\ error_kept (n_error sn) (n_error sn2) /\ sent w2 = sent w1.
Proof.
  intros [_ _ E1 _ E2 _ _ _] (H1 & H2 & H3 & _ & _ & H4 & H5). repeat (split; [done || congruence|]). split; [|done].
  by eapply error_kept_trans.
Qed.

(** The part of [tnt_reload_schema] after its requests. *)
Lemma reload_unfold n om s sn w r1 s1 r2 s2 r3 s3 :
  st_data s = Some (sn, w) -> connected sn = true -> st_wrcnt s = 0 ->
  tnt_get_space (SK := net_sink fuel) (snd (tnt_stream_reqid s 127)) (fst om) = Some (r1, s1) ->
  tnt_get_index (SK := net_sink fuel) s1 (snd om) = Some (r2, s2) ->
  tnt_flush fuel (snd (tnt_stream_reqid s2 (fst (tnt_stream_reqid s 127)))) = Some (r3, s3) ->
  tnt_reload_schema fuel n om s =
    '(done_, it, s, bkp, ld) ← reload_loop fuel n (reply_iter false (zero_reply false)) s3 (zero_reply false) 0;
    if negb done_ then _ ← tnt_iter_free it; Some (-1, s) else
    '(s, ld) ← reload_tail s bkp ld; _ ← tnt_iter_free it; Some (if decide (ld <> 3) then -1 else 0, s).
Proof.
  intros Hs Hcon Hw E1 E2 E3. unfold tnt_reload_schema. rewrite Hs. cbn [mbind option_bind].
  rewrite decide_False by (intros [?|?]; congruence). rewrite (surjective_pairing (tnt_stream_reqid s 127)). rewrite E1.
  cbn [mbind option_bind]. rewrite E2. cbn [mbind option_bind]. rewrite (surjective_pairing (tnt_stream_reqid s2 _)). rewrite E3. done.
Qed.

(** The replies to the selects may come in either order. *)
Definition schema_input (sp ix : server_reply) (bs rest : bytes) : Prop :=
  bs = reply_frame sp ++ reply_frame ix ++ rest \/ bs = reply_frame ix ++ reply_frame sp ++ rest.

Lemma reload_ok sps ils sp ix c n om s sn w sch rest :
  schema_replies sps ils sp ix -> c <= 2 ^ 25 -> (3 <= n)%nat -> Refuse ∉ fst om -> Refuse ∉ snd om ->
  net_state fuel s sn w -> granted s -> st_wrcnt s = 0 -> connected sn = true -> n_schema sn = Some sch -> schema_empty sch c ->
  schema_input sp ix (input sn w) rest ->
  exists r s' sn' w', tnt_reload_schema fuel n om s = Some (r, s') /\ net_state fuel s' sn' w' /\ error_kept (n_error sn) (n_error sn') /\
    connected sn' = true /\
    (failed sn' \/
     (r = 0 /\ sent w' = written sn w ++ schema_packets /\ st_wrcnt s' = 0 /\ st_reqid s' = u32 (st_reqid s) /\ input sn' w' = rest /\
      exists sch', n_schema sn' = Some sch' /\ resolves sch' sps ils)).
Proof.
  intros Hsv Hc Hn H1 H2 Hst Hg Hw Hcon Hsch Hempty Hin.
  destruct (reload_requests fuel s sn w om (fst (tnt_stream_reqid s 127)) Hst Hw H1 H2) as (r1 & s1 & r2 & s2 & r3 & s3 & sn3 & w3 & E1 & E2 & E3 & Hp & Hq).
  rewrite (reload_unfold n om s sn w _ _ _ _ _ _ (proj1 Hst) Hcon Hw E1 E2 E3).
  assert (exists k1 k2 ph1 ph2, next_phase Start k1 = Some ph1 /\ next_phase ph1 k2 = Some ph2 /\ (ph2 = Done \/ ph2 = All_kept) /\
    input sn w = reply_frame (reply_of sp ix k1) ++ reply_frame (reply_of sp ix k2) ++ rest) as (k1 & k2 & ph1 & ph2 & Hk1 & Hk2 & Hph2 & Hin').
  { destruct Hin as [Hin|Hin]; [exists Sp, Ix|exists Ix, Sp]; do 2 eexists; (split; [done|]); (split; [done|]); (split; [auto|done]). }
  pose proof Hp as [Hst3 _ Hcon3 Hsch3 He3 Hm3 Hin3 (k & Hk & Hw3 & Hsent)]. rewrite Hw in Hw3.
  destruct (loop_ok sps ils sp ix c Hsv Hc k1 k2 ph1 ph2 n s3 sn3 w3 sch rest) as (it & s4 & sn4 & w4 & bkp & ld & sch4 & ph & -> & [it' Hit] & Hl4 & Hsch4 & Hph & Hres);
    [done|done|unfold granted; by rewrite Hm3|lia|destruct Hsent as [?|[? _]]; [by right|left; lia]|congruence|done|done|done|congruence|].
  cbn [mbind option_bind negb]. pose proof Hl4 as (Hst4 & Hg4 & _).
  destruct (tail_ok sps ils sp ix c Hsv ph s4 sn4 w4 sch4 bkp ld Hst4 Hg4 Hsch4 Hph) as (s5 & sn5 & ld' & sch5 & -> & Hl5 & Hw5 & Hin5 & Hsch5 & Hload).
  cbn [mbind option_bind]. rewrite Hit. cbn [mbind option_bind]. pose proof (later_trans _ _ _ _ _ _ _ _ _ Hl4 Hl5) as Hl.
  destruct (later_posted _ _ _ _ _ _ _ _ _ _ _ Hp Hl) as (Hst5 & Hg5 & Hcon5 & He5 & Hs5).
  do 4 eexists. split; [reflexivity|]. split; [exact Hst5|]. split; [done|]. split; [congruence|].
  destruct Hres as [Hf|(-> & Hw4 & Hin4)]; [left; eapply failed_kept; [exact Hf|apply Hl5]|].
  destruct Hsent as [Hf|(_ & Hsent & _)]; [left; eapply failed_kept; [exact Hf|apply Hl]|]. right.
  destruct (Hload Hph2) as [-> Hres]. rewrite decide_False by lia. split; [done|]. split; [congruence|]. split; [congruence|].
  split; [|split; [congruence|by exists sch5]]. destruct Hl as (_ & _ & _ & -> & _). rewrite Hq. simpl. apply u32_small. unfold u32. apply Z.mod_pos_bound. lia.
Qed.

(** ... and when an earlier request has failed. *)
Lemma reload_foreign n om s sn w x rest :
  (2 <= n)%nat -> Refuse ∉ fst om -> Refuse ∉ snd om -> net_state fuel s sn w -> granted s -> st_wrcnt s = 0 -> connected sn = true -> failed sn ->
  server_reply_ok (fst x) (snd x) -> final (client_reply x) -> sync (client_reply x) <> 127 -> sync (client_reply x) <> 128 ->
  input sn w = reply_frame x ++ rest ->
  exists r s' sn' w', tnt_reload_schema fuel n om s = Some (r, s') /\ net_state fuel s' sn' w' /\ connected sn' = true /\ failed sn'.
Proof.
  intros Hn H1 H2 Hst Hg Hw Hcon Hf Hok Hfin H7 H8 Hin.
  destruct (reload_requests fuel s sn w om (fst (tnt_stream_reqid s 127)) Hst Hw H1 H2) as (r1 & s1 & r2 & s2 & r3 & s3 & sn3 & w3 & E1 & E2 & E3 & Hp & _).
  rewrite (reload_unfold n om s sn w _ _ _ _ _ _ (proj1 Hst) Hcon Hw E1 E2 E3).
  pose proof Hp as [Hst3 _ Hcon3 _ He3 Hm3 Hin3 (k & Hk & Hw3 & _)]. rewrite Hw in Hw3.
  destruct (loop_foreign n s3 sn3 w3 x rest) as (d & it & s4 & sn4 & w4 & -> & [it' Hit] & Hl4 & Hf4); try done;
    [unfold granted; by rewrite Hm3|lia|by eapply failed_kept|congruence|].
  cbn [mbind option_bind]. unfold reload_tail. destruct (later_posted _ _ _ _ _ _ _ _ _ _ _ Hp Hl4) as (Hst4 & _ & Hcon4 & _ & _).
  exists (-1), s4, sn4, w4. split; [|split; [done|split; [congruence|done]]].
  destruct d; cbn [negb zero_reply r_buf mbind option_bind]; rewrite Hit; cbn [mbind option_bind]; [|done]. by rewrite decide_True by lia.
Qed.

(** ** tnt_authenticate *)

(** The credentials of the URI, what the stack holds and the allocations. *)
Record login_ok (x : session) sn (user pass : bytes) : Prop := {
  lo_uri : exists u, opt_uri (opt sn) = Some u /\ is_Some (uri_login u) /\ is_Some (uri_password u) /\
    uri_part sn (uri_login u) = Some (Some user) /\ uri_part sn (uri_password u) = Some (Some pass);
  lo_user : zlen user < 2 ^ 31;
  lo_pass : Forall is_byte pass /\ zlen pass < 2 ^ 31;
  lo_stack : length (salt0 x) = 64%nat /\ length (ctx0 x) = 64%nat;
  lo_granted : Refuse ∉ fst (om x) /\ Refuse ∉ snd (om x);
  lo_replies : (3 <= replies x)%nat;
}.

(** What the server sends: the reply to AUTH and, unless it is an error, the
    rows of the system spaces. *)
Record server_ok (auth : server_reply) (sps : list space_row) (ils : list index_row) (tail rest : bytes) : Prop := {
  so_auth : server_reply_ok (fst auth) (snd auth) /\ final (client_reply auth);
  so_sync : sync (client_reply auth) <> 127 /\ sync (client_reply auth) <> 128;
  so_schema : error (client_reply auth) = None -> exists sp ix, schema_replies sps ils sp ix /\ schema_input sp ix tail rest;
}.

Definition auth_packet_of s (user salt pass : bytes) : bytes :=
  packet TNT_OP_AUTH (st_reqid s) (auth_fields user (scramble_of salt pass)).

(** A session that no failed transfer has disturbed. *)
Definition session_end s sn w (user salt pass : bytes) auth sps ils tail rest (r : Z) s' sn' w' : Prop :=
  match error (client_reply auth) with
  | Some _ =>
      r = -1 /\ n_error sn' = (if decide (code (client_reply auth) = TNT_ER_PASSWORD_MISMATCH) then TNT_ELOGIN else TNT_EOK) /\
      input sn' w' = tail
  | None =>
      r = 0 /\ n_error sn' = TNT_EOK /\ sent w' = written sn w ++ auth_packet_of s user salt pass ++ schema_packets /\
      input sn' w' = rest /\ st_reqid s' = u32 (u64 (st_reqid s + 1)) /\
      exists sch, n_schema sn' = Some sch /\ resolves sch sps ils
  end /\ st_wrcnt s' = 0.

Lemma auth_sent x s sn w g user pass salt :
  net_state fuel s sn w -> st_wrcnt s = 0 -> 0 <= st_reqid s < 2 ^ 64 -> greeting sn = PHeap g -> greeting_ok g salt -> login_ok x sn user pass ->
  exists r1 s1 r2 s2 sn2 w2, tnt_auth fuel (salt0 x) (ctx0 x) s (Some user) pass = Some (r1, s1) /\ tnt_flush fuel s1 = Some (r2, s2) /\
    posted fuel s sn w (auth_packet_of s user salt pass) 1 s2 sn2 w2 /\ st_reqid s2 = u64 (st_reqid s + 1).
Proof.
  intros Hst Hw Hq Hg Hgr [_ Hu [Hp Hpl] [Hs0 Hc0] _ _].
  pose proof (auth_emits fuel (salt0 x) (ctx0 x) s sn w g user pass salt (proj1 Hst) Hg Hgr Hq Hu Hs0 Hc0 Hp Hpl) as He.
  destruct (emits_wrote fuel s sn w _ _ _ Hst ltac:(lia) He) as (r1 & s1 & sn1 & w1 & E1 & Eq & H1).
  destruct (tnt_flush_flushed fuel s1 sn1 w1 ltac:(by destruct H1)) as (r2 & s2 & sn2 & w2 & E2 & F).
  do 6 eexists. split; [exact E1|]. split; [exact E2|]. split; [by eapply wrote_flushed|].
  by destruct F as (_ & _ & _ & _ & _ & -> & _).
Qed.

Lemma authenticate_ok x s sn w g user pass salt sch c auth sps ils tail rest :
  net_state fuel s sn w -> granted s -> st_wrcnt s = 0 -> 0 <= st_reqid s < 2 ^ 64 -> connected sn = true -> n_error sn = TNT_EOK ->
  greeting sn = PHeap g -> greeting_ok g salt -> login_ok x sn user pass ->
  n_schema sn = Some sch -> schema_empty sch c -> c <= 2 ^ 25 ->
  server_ok auth sps ils tail rest -> input sn w = reply_frame auth ++ tail ->
  exists r s' sn' w', tnt_authenticate fuel x s = Some (r, s') /\ net_state fuel s' sn' w' /\ connected sn' = true /\
    (failed sn' \/ session_end s sn w user salt pass auth sps ils tail rest r s' sn' w').
Proof.
  intros Hst Hg Hw Hq Hcon Herr Hgr Hgo Hlo Hsch Hempty Hc [[Haok Hafin] [H7 H8] Hserv] Hin.
  destruct (auth_sent x s sn w g user pass salt Hst Hw Hq Hgr Hgo Hlo) as (r1 & s1 & r2 & s2 & sn2 & w2 & E1 & E2 & Hp & Hq2).
  destruct Hlo as [(u & Hu & _ & _ & Hlogin & Hpass) _ _ _ [Hom1 Hom2] Hn].
  unfold tnt_authenticate. rewrite (proj1 Hst). cbn [mbind option_bind]. rewrite decide_False by (intros [?|?]; congruence).
  rewrite Hu. cbn [mbind option_bind]. rewrite Hlogin. cbn [mbind option_bind]. rewrite Hpass. cbn [mbind option_bind].
  change (default [] (Some pass)) with pass. rewrite E1. cbn [mbind option_bind]. rewrite E2. cbn [mbind option_bind].
  destruct Hp as [Hst2 Hopt2 Hcon2 Hsch2 He2 Hm2 Hin2 (k & Hk & Hw2 & Hsent)]. rewrite Hw in Hw2.
  assert (granted s2) as Hg2 by (unfold granted; by rewrite Hm2).
  destruct (decide (st_wrcnt s2 = 0)) as [E0|E0].
  { assert (failed sn2) as Hf by (destruct Hsent as [?|[? _]]; [done|lia]).
    unfold tnt_net_reply. rewrite decide_True by done. cbn [mbind option_bind]. rewrite decide_False by done. cbn [mbind option_bind zero_reply error].
    rewrite decide_False by (intros [? ?]; done). cbn [tnt_reply_free r_buf r_alloc mbind option_bind].
    destruct (reload_foreign (replies x) (om x) s2 sn2 w2 auth tail) as (r & s' & sn' & w' & -> & Hst' & Hcon' & Hf'); try done; [lia|congruence|congruence|].
    cbn [mbind option_bind]. exists 0, s', sn', w'. repeat (split; [done|]). by left. }
  destruct (net_reply_one fuel s2 sn2 w2 auth tail Hst2 Hg2 E0 Haok ltac:(congruence)) as (rv & s3 & r3 & sn3 & w3 & -> & (Hst3 & Hsame & Hs3 & Hq3 & _) & Hg3 & Hres).
  cbn [mbind option_bind]. destruct (same_rbuf_fields _ _ Hsame) as (_ & Hcon3 & Hb3 & _ & Hsch3 & He3).
  destruct Hres as [(-> & -> & Hin3 & Hw3)|(-> & -> & Hf3 & _)].
  2: { rewrite decide_True by done. exists (-1), s3, sn3, w3. split; [done|]. split; [done|]. split; [congruence|]. left. by right. }
  rewrite decide_False by done. cbn [mbind option_bind]. rewrite decide_True in Hw3 by done.
  assert (st_wrcnt s3 = 0) as Hw3' by (rewrite Hw3, u32_small by lia; lia).
  pose proof (error_kept_trans _ _ _ He2 He3) as He. rewrite Herr in He. unfold session_end.
  destruct (error (client_reply auth)) as [msg|] eqn:Eauth.
  - rewrite decide_True by by eexists. rewrite (proj1 Hst3). cbn [mbind option_bind].
    case_decide.
    + exists (-1), (put_net (put_error TNT_ELOGIN sn3) w3 s3), (put_error TNT_ELOGIN sn3), w3. split; [done|].
      split; [split; [done|split; [destruct Hst3 as (_ & [? ? ?] & _); by split|apply Hst3]]|]. split; [simpl; congruence|].
      right. split; [|done]. split; [done|]. split; [done|exact Hin3].
    + exists (-1), s3, sn3, w3. split; [done|]. split; [done|]. split; [congruence|]. destruct He as [He|?]; [|by left]. by right.
  - rewrite decide_False by (intros [? ?]; done).
    assert (exists y, tnt_reply_free (client_reply auth) = Some y) as [y ->] by (apply releasable_free, expected_releasable).
    cbn [mbind option_bind]. destruct (Hserv eq_refl) as (sp & ix & Hsv & Hsi).
    destruct (reload_ok sps ils sp ix c (replies x) (om x) s3 sn3 w3 sch rest) as (r & s4 & sn4 & w4 & -> & Hst4 & He4 & Hcon4 & Hres);
      try done; [congruence|congruence|by rewrite Hin3|].
    cbn [mbind option_bind]. exists 0, s4, sn4, w4. split; [done|]. split; [done|]. split; [done|].
    destruct Hres as [?|(_ & Hs4 & Hw4 & Hq4 & Hin4 & Hsch4)]; [by left|].
    destruct Hsent as [Hf|(_ & Hsent & Hbuf)]; [left; eapply failed_kept; [eapply failed_kept; [exact Hf|done]|done]|].
    destruct (error_kept_trans _ _ _ He He4) as [He'|?]; [|by left]. right. split; [|done]. split; [done|]. split; [done|].
    split; [|split; [done|split; [congruence|done]]]. rewrite Hs4. unfold written at 1, buffered. rewrite Hb3. fold (buffered sn2).
    rewrite Hbuf, app_nil_r, Hs3, Hsent. by rewrite app_assoc.
Qed.

End reading.

(** ** tnt_connect *)

Section connecting.
Context {MP : MsgPuck} {MPS : MsgPuckSpec MP}.
Context {W : Type} {SY : Sys W} {SC : SysConnect W} {OB : Observe W} {OF : ObserveFds W} {SS : SysSpec W} {CS : ConnectSpec W}.
Implicit Types (s : stream (net W)) (sn : snet W tnt_schema) (w : W).
Variable fuel : nat.
#[local] Existing Instance net_sink.

Lemma login_ok_opt x sn sn' user pass : opt sn' = opt sn -> login_ok x sn user pass -> login_ok x sn' user pass.
Proof. intros E [H1 H2 H3 H4 H5 H6]. split; try done. unfold uri_part in *. by rewrite E. Qed.

(** The requests of a session, as the server sees them. *)
Definition session_requests (q : Z) (user scramble : bytes) : list (fields * fields) :=
  [ (header_fields TNT_OP_AUTH q, auth_fields user scramble);
    (header_fields TNT_OP_SELECT 127, select_fields tnt_vsp_space);
    (header_fields TNT_OP_SELECT 128, select_fields tnt_vsp_index) ].

Lemma select_fields_ok space : 0 <= space < 2 ^ 32 ->
  Forall field_ok (select_fields space) /\ zlen (select_fields space) < 16 /\ zlen (body_map (select_fields space)) < 2 ^ 63.
Proof.
  intros Hs. set (b := mp_encode_array 0). pose proof (spec_len_array 0 ltac:(lia)).
  set (o := Stream false 0 0 (Some (Sbuf (Core (PHeap b) (length b) (length b) 0) tnt_buf_resize (@None unit) false)) []).
  assert (array_arg o b) as Ho.
  { split; [|split; [apply empty_array_object|split; [|fold b in H; lia]]].
    - unfold CommandsSpec.holds, TNT_SBUF_DATA. cbn. unfold slice. rewrite decide_True by lia. by rewrite drop_0, firstn_all.
    - unfold b. rewrite <- (app_nil_r (mp_encode_array 0)). by apply spec_type_array. }
  apply (command_fields_ok (CSelect space tnt_vin_name UINT32_MAX 0 (iterator_code TNT_ITER_ALL) o b)).
  by repeat (split; [done|]).
Qed.

Lemma auth_fields_ok user salt pass : zlen user < 2 ^ 31 ->
  Forall field_ok (auth_fields user (scramble_of salt pass)) /\ zlen (auth_fields user (scramble_of salt pass)) < 16 /\
  zlen (body_map (auth_fields user (scramble_of salt pass))) < 2 ^ 63.
Proof.
  intros Hu. unfold auth_fields. pose proof (scramble_length salt pass) as Hl. case_bool_decide.
  - split; [apply guest_fields_ok|]. split; [done|apply guest_map_len].
  - split; [by apply chap_fields_ok|]. split; [done|by apply chap_map_len].
Qed.

Lemma packet_fits (op : tnt_request_t) q fs : 0 <= q < 2 ^ 64 ->
  Forall field_ok fs /\ zlen fs < 16 /\ zlen (body_map fs) < 2 ^ 63 ->
  0 <= (op : Z) < 2 ^ 64 /\ 0 <= q < 2 ^ 64 /\ Forall field_ok fs /\ zlen fs < 2 ^ 32 /\ zlen (header_map op q ++ body_map fs) < 2 ^ 64.
Proof.
  intros Hq (Hf & Hn & Hl). destruct (encode_header_ok op q (request_code_bound op) Hq) as [_ Hh]. pose proof (request_code_bound op).
  rewrite zlen_app. repeat (split; [done || lia|]). lia.
Qed.

Lemma session_decodes q user salt pass :
  0 <= q < 2 ^ 64 -> zlen user < 2 ^ 31 ->
  decode_stream 3 (packet TNT_OP_AUTH q (auth_fields user (scramble_of salt pass)) ++ schema_packets)
    = Some (session_requests q user (scramble_of salt pass), []).
Proof.
  intros Hq Hu. pose proof (decode_stream_app [(TNT_OP_AUTH : Z, q, auth_fields user (scramble_of salt pass));
    (TNT_OP_SELECT : Z, 127, select_fields tnt_vsp_space); (TNT_OP_SELECT : Z, 128, select_fields tnt_vsp_index)] []) as H.
  unfold schema_packets. cbn [fmap list_fmap concat length] in H. rewrite !app_nil_r in H. apply H. clear H.
  apply Forall_cons; split; [by apply packet_fits, auth_fields_ok|]. apply Forall_cons; split; [by apply packet_fits, select_fields_ok|].
  apply Forall_cons; split; [by apply packet_fits, select_fields_ok|]. apply Forall_nil_2.
Qed.
(** An initialised stream that is not connected, with an empty schema; [str]
    is the URI, [u] its parts. *)
Record ready s sn w (str : bytes) (u : uri) (sch : tnt_schema) : Prop := {
  rd_state : net_state fuel s sn w /\ granted s;
  rd_counters : st_wrcnt s = 0 /\ 0 <= st_reqid s < 2 ^ 64;
  rd_flags : inited sn = true /\ connected sn = false;
  rd_buffered : buffered sn = [];
  rd_greeting : exists g, greeting sn = PHeap g /\ length g = TNT_GREETING_SIZE;
  rd_schema : n_schema sn = Some sch /\ exists c, schema_empty sch c /\ c <= 2 ^ 25;
  rd_options : options_ok (opt sn) /\ opt_uri (opt sn) = Some u /\ uristr (opt sn) = PHeap (str ++ [0]) /\ uri_fits str u;
  rd_fds : 0 ∈ fds w;
}.

(** What a session comes to that no failed transfer has disturbed. *)
Definition session_result s w (user salt pass : bytes) auth sps ils tail rest (r : Z) s' sn' w' : Prop :=
  match error (client_reply auth) with
  | Some _ =>
      r = -1 /\ n_error sn' = (if decide (code (client_reply auth) = TNT_ER_PASSWORD_MISMATCH) then TNT_ELOGIN else TNT_EOK) /\
      input sn' w' = tail
  | None =>
      r = 0 /\ n_error sn' = TNT_EOK /\ input sn' w' = rest /\ st_reqid s' = u32 (u64 (st_reqid s + 1)) /\
      (exists bs scramble, sent w' = sent w ++ bs /\ decode_stream 3 bs = Some (session_requests (st_reqid s) user scramble, []) /\
         server_accepts salt (sha1 (sha1 pass)) scramble = true) /\
      exists sch, n_schema sn' = Some sch /\ resolves sch sps ils
  end /\ st_wrcnt s' = 0.

Lemma session_end_result s sn w user salt pass auth sps ils tail rest r s' sn' w' :
  0 <= st_reqid s < 2 ^ 64 -> zlen user < 2 ^ 31 -> buffered sn = [] ->
  session_end s sn w user salt pass auth sps ils tail rest r s' sn' w' -> session_result s w user salt pass auth sps ils tail rest r s' sn' w'.
Proof.
  intros Hq Hu Hb [H Hw]. split; [|done]. destruct (error (client_reply auth)); [done|].
  destruct H as (-> & He & Hs & Hin & Hq' & Hsch). repeat (split; [done|]). split; [|done].
  unfold written in Hs. rewrite Hb, app_nil_r in Hs. do 2 eexists. split; [exact Hs|]. split; [by apply session_decodes|]. apply server_accepts_scramble.
Qed.

Lemma read_greeting s sn w g greet rest :
  net_state fuel s sn w -> n_error sn = TNT_EOK -> greeting sn = PHeap g -> length g = TNT_GREETING_SIZE ->
  length greet = TNT_GREETING_SIZE -> input sn w = greet ++ rest ->
  exists r out sn' w' g', tnt_net_read fuel s TNT_GREETING_SIZE = Some (r, out, put_net sn' w' s) /\
    net_state fuel (put_net sn' w' s) sn' w' /\ same_but_rbuf sn sn' /\ sent w' = sent w /\ store (greeting sn') 0 out = Some g' /\
    ((r <> -1 /\ g' = PHeap greet /\ input sn' w' = rest) \/ (r = -1 /\ failed sn')).
Proof.
  intros Hst He Hg Hl Hlg Hin.
  destruct (net_read_ok fuel s sn w TNT_GREETING_SIZE Hst) as (r & out & sn' & w' & E & (Hst' & Hsame & Hsent & _) & Hlo & Hres).
  destruct (same_rbuf_fields _ _ Hsame) as (_ & _ & _ & Hg' & _).
  exists r, out, sn', w'. eexists. split; [exact E|]. split; [exact Hst'|]. split; [done|]. split; [done|]. rewrite Hg', Hg. split; [by rewrite store_heap by lia|].
  destruct Hres as [(-> & Hin' & Hlo')|(-> & He')]; [left|right; split; [done|by right]].
  split; [done|]. rewrite Hin in Hin'. apply app_inj_1 in Hin' as [-> ->]; [|congruence]. split; [|done].
  rewrite take_0, drop_ge by lia. by rewrite app_nil_r.
Qed.

(** [tnt_connect] on an initialised stream that is not connected. *)
Lemma connect_unfold x s sn w e sn1 w1 :
  st_data s = Some (sn, w) -> inited sn = true -> connected sn = false -> tnt_io_connect fuel sn w = Some (e, sn1, w1) ->
  tnt_connect fuel x s =
    let s := put_net (put_error e sn1) w1 s in
    if decide (e <> TNT_EOK) then Some (-1, s) else
    '(rc, out, s) ← tnt_net_read fuel s TNT_GREETING_SIZE;
    '(sn, w) ← st_data s; g ← store (greeting sn) 0 out;
    let s := put_net (put_greeting g sn) w s in
    if decide (rc = -1 \/ n_error sn <> TNT_EOK) then Some (-1, s) else
    u ← opt_uri (opt sn);
    if decide (is_Some (uri_login u) /\ is_Some (uri_password u)) then
      '(rc, s) ← tnt_authenticate fuel x s; Some (if decide (rc = -1) then -1 else 0, s)
    else Some (0, s).
Proof.
  intros Hs Hinit Hcon E. unfold tnt_connect. rewrite Hs. cbn [mbind option_bind]. rewrite Hinit. cbn [mbind option_bind]. rewrite Hs.
  cbn [mbind option_bind]. rewrite Hcon. cbn [mbind option_bind]. rewrite Hs. cbn [mbind option_bind]. by rewrite E.
Qed.

(** What [tnt_connect] promises: a failed connection is reported with its error;
    after a connection, whatever a server sends that keeps to the protocol, the
    result is that of a session unless a transfer has failed. *)
Definition session_spec x s sn w (user pass : bytes) : Prop :=
  exists e sn1 w1, tnt_io_connect fuel sn w = Some (e, sn1, w1) /\ sent w1 = sent w /\
    (e <> TNT_EOK -> exists s', tnt_connect fuel x s = Some (-1, s') /\ tnt_error_of s' = Some e) /\
    (e = TNT_EOK -> forall greet salt auth sps ils tail rest,
       greeting_ok greet salt -> server_ok auth sps ils tail rest -> input sn1 w1 = greet ++ reply_frame auth ++ tail ->
       exists r s' sn' w', tnt_connect fuel x s = Some (r, s') /\ net_state fuel s' sn' w' /\ connected sn' = true /\
         (failed sn' \/ session_result s w user salt pass auth sps ils tail rest r s' sn' w')).

Lemma session_ok x s sn w str u sch user pass :
  ready s sn w str u sch -> login_ok x sn user pass -> session_spec x s sn w user pass.
Proof.
  intros [[Hst Hg] [Hw Hq] [Hinit Hcon] Hbuf (g & Hgr & Hgl) [Hsch (c & Hempty & Hc)] (Ho & Hu & Hstr & Hfit) H0] Hlo.
  pose proof Hst as (Hs & Hok & Hi).
  destruct (connect_ok fuel sn str u w Hi Ho Hu Hstr Hfit H0 Hcon) as (e & sn1 & w1 & E & _ & (cn & f & er & ->) & (Hi1 & Hs1 & _) & Hcok & _).
  exists e, (put_errno er (put_fd cn f sn)), w1. split; [done|]. split; [done|].
  set (sn2 := put_errno er (put_fd cn f sn)) in *. set (s2 := put_net (put_error e sn2) w1 s).
  rewrite (connect_unfold x s sn w e sn2 w1 Hs Hinit Hcon E). fold s2.
  split.
  { intros He. rewrite decide_True by done. by exists s2. }
  intros -> greet salt auth sps ils tail rest Hgo Hserv Hin. rewrite decide_False by (intros []; done).
  destruct (Hcok eq_refl) as [Hcon2 _].
  assert (net_state fuel s2 (put_error TNT_EOK sn2) w1) as Hst2 by (split; [done|]; split; [destruct Hok; by split|lia]).
  destruct (read_greeting s2 _ w1 g greet (reply_frame auth ++ tail) Hst2 eq_refl Hgr Hgl (gr_length _ _ Hgo) Hin)
    as (r & out & sn3 & w3 & g' & -> & Hst3 & Hsame & Hs3 & Estore & Hres).
  cbn [mbind option_bind put_net set_data st_data]. rewrite Estore. cbn [mbind option_bind].
  destruct (same_rbuf_fields _ _ Hsame) as (Hopt3 & Hcon3 & Hb3 & _ & Hsch3 & He3).
  set (sn4 := put_greeting g' sn3). set (s4 := put_net sn4 w3 _).
  assert (net_state fuel s4 sn4 w3) as Hst4 by (split; [done|]; split; [destruct Hst3 as (_ & [? ? ?] & _); by split|apply Hst3]).
  assert (connected sn4 = true) as Hcon4 by (simpl; by rewrite Hcon3).
  case_decide as Hfail.
  { do 4 eexists. split; [done|]. split; [exact Hst4|]. split; [done|]. left.
    destruct Hres as [(Hr & _)|(_ & Hf)]; [|exact Hf]. destruct Hfail as [|Hf]; [done|]. by destruct He3. }
  destruct Hres as [(Hr & -> & Hin3)|(-> & _)]; [|by destruct Hfail; left].
  assert (n_error sn3 = TNT_EOK) as He4 by (apply dec_stable; intros H; by apply Hfail; right).
  assert (opt sn4 = opt sn) as Hopt4 by exact Hopt3.
  pose proof Hlo as [(u' & Hu' & Hl1 & Hl2 & _) _ _ _ _ _]. change (opt sn3) with (opt sn4) in *. rewrite Hopt4, Hu'. cbn [mbind option_bind]. rewrite decide_True by done.
  destruct (authenticate_ok fuel x s4 sn4 w3 greet user pass salt sch c auth sps ils tail rest) as (rc & s5 & sn5 & w5 & -> & Hst5 & Hcon5 & Hend);
    try done; [by eapply login_ok_opt|simpl; by rewrite Hsch3|].
  cbn [mbind option_bind]. do 4 eexists. split; [reflexivity|]. split; [exact Hst5|]. split; [done|]. destruct Hend as [?|Hend]; [by left|right].
  assert (buffered sn4 = []) as Hb4 by (unfold buffered; simpl; rewrite Hb3; exact Hbuf).
  pose proof (session_end_result s4 sn4 w3 user salt pass auth sps ils tail rest rc s5 sn5 w5 Hq (lo_user _ _ _ _ Hlo) Hb4 Hend) as H.
  unfold session_result in *. destruct (error (client_reply auth)).
  - destruct H as [(-> & H) Hw5]. by rewrite decide_True.
  - destruct H as [(-> & He5 & Hin5 & Hq5 & (bs & scr & Hs5 & Hd) & Hsch5) Hw5]. rewrite decide_False by lia.
    split; [|done]. repeat (split; [done|]). split; [|done]. exists bs, scr. split; [|exact Hd]. rewrite Hs5, Hs3. by rewrite <- Hs1.
Qed.
(** C35: a session. The stream is initialised ([ready]): in particular its URI
    fits the arrays of the connection (host shorter than 128 bytes, path shorter
    than 108) and descriptor 0 is open; the URI has a login and a password, and
    memory is granted ([login_ok]). Then [tnt_io_connect] returns, and a failed
    connection is reported by [tnt_connect] with its error. Once connected, and
    only for a server that sends a well-formed greeting, whose salt is base64
    ([greeting_ok]; [auth_bad_salt] is undefined), then a well-formed reply to
    AUTH and, unless that is an error, the well-formed rows of the system spaces
    ([server_ok]; malformed rows can be undefined), whatever pieces the data
    arrives in, [tnt_connect] returns. If the server accepts the login, it has
    decoded the request AUTH with a scramble that it accepts and the two selects
    of the system spaces, and the schema resolves exactly the names and numbers
    of the rows that it has answered, in either order; if it refuses the login,
    the result is -1, and TNT_ELOGIN the error for a wrong password. Unless a
    transfer has failed, which the error tells: the result may then be 0 all the
    same. *)
Theorem session_established x s sn w str u sch user pass :
  ready s sn w str u sch -> login_ok x sn user pass ->
  exists e sn1 w1, tnt_io_connect fuel sn w = Some (e, sn1, w1) /\ sent w1 = sent w /\
    (e <> TNT_EOK -> exists s', tnt_connect fuel x s = Some (-1, s') /\ tnt_error_of s' = Some e) /\
    (e = TNT_EOK -> forall greet salt auth sps ils tail rest,
       greeting_ok greet salt -> server_ok auth sps ils tail rest -> input sn1 w1 = greet ++ reply_frame auth ++ tail ->
       exists r s' sn' w', tnt_connect fuel x s = Some (r, s') /\ net_state fuel s' sn' w' /\ connected sn' = true /\
         (failed sn' \/ session_result s w user salt pass auth sps ils tail rest r s' sn' w')).
Proof. apply session_ok. Qed.

End connecting.

(** ** Witnesses *)

(** The greeting, the reply to AUTH and the rows of two system spaces, in the
    world of [Sim], for the URI "u:p@h:99". *)
Definition demo_greeting : bytes := replicate 64 32 ++ b64 demo_salt ++ replicate 20 32.
Definition demo_auth (code : Z) (body : option (list body_field)) : server_reply := ([(TNT_CODE, code); (TNT_SYNC, 0)], body).
Definition demo_sp : server_reply := ([(TNT_CODE, 0); (TNT_SYNC, 127)], Some [BData (rows_data (MP := RefPuck) space_fields demo_spaces)]).
Definition demo_ix : server_reply := ([(TNT_CODE, 0); (TNT_SYNC, 128)], Some [BData (rows_data (MP := RefPuck) index_fields demo_indexes)]).

Definition demo_sn (a : nat) : snet Sim.world tnt_schema :=
  Snet sim_opt false (-1) (Iob (if decide (a = 0%nat) then PNull else PHeap (replicate a 0)) 0 0 a None None 0) (Iob (PHeap (replicate 64 0)) 0 0 64 None None 0) TNT_EOK 0
    (PHeap (replicate 128 0)) (Some demo_schema) true.
Definition demo_sim (bs : bytes) : Sim.world :=
  Sim.World (Mock.World [] [] bs [Mock.Xfer 3; Mock.Intr; Mock.Xfer 100] 0) {[0; 1; 2]} 3 (fun _ => Fresh) 0 sim_addrs [].
Definition demo_session (a : nat) (bs : bytes) : stream (net Sim.world) := Stream false 0 0 (Some (demo_sn a, demo_sim bs)) [].
Definition demo_x : session := Session (replicate 64 5) (replicate 64 9) ([], []) 3.

Definition demo_accepted : bytes :=
  demo_greeting ++ reply_frame (MP := RefPuck) (demo_auth 0 None) ++ reply_frame (MP := RefPuck) demo_ix ++ reply_frame (MP := RefPuck) demo_sp ++ [7].

#[local] Notation demo_connect a bs := (tnt_connect (MP := RefPuck) 2 demo_x (demo_session a bs)).

(** The result, the error, what was sent and what the schema answers. *)
Definition outcome (r : option (Z * stream (net Sim.world))) : option (Z * tnt_error * nat * option Z) :=
  '(rc, s) ← r; '(sn, w) ← st_data s; Some (rc, n_error sn, length (sent w), tnt_get_spaceno s [116; 50]).

Example demo_outcome : outcome (demo_connect 0 demo_accepted) = Some (0, TNT_EOK, 106%nat, Some 513).
Proof. vm_compute. reflexivity. Qed.

(** A wrong password. *)
Definition demo_refused (code : Z) : bytes := demo_greeting ++ reply_frame (MP := RefPuck) (demo_auth code (Some [BError [110; 111]])).

Example demo_mismatch : outcome (demo_connect 0 (demo_refused (0x8000 + 47))) = Some (-1, TNT_ELOGIN, 47%nat, Some (-1)).
Proof. vm_compute. reflexivity. Qed.

(** With a send buffer of four bytes nothing is sent, and the result is 0. *)
Example unsent_login : outcome (demo_connect 4 demo_accepted) = Some (0, TNT_EBIG, 0%nat, Some (-1)).
Proof. vm_compute. reflexivity. Qed.

Lemma demo_ready : ready 2 (demo_session 0 demo_accepted) (demo_sn 0) (demo_sim demo_accepted) sim_chars sim_uri demo_schema.
Proof.
  split; try done.
  - split; [|apply not_elem_of_nil]. split; [done|]. split; [|apply Nat.ltb_lt; vm_compute; reflexivity]. split; [by split; [|split]|done|split; [simpl; split; [done|lia]|simpl; lia]].
  - by eexists.
  - split; [done|]. exists 0. split; [apply demo_empty|done].
  - split; [split; [simpl; lia|simpl; lia|eexists; vm_compute; reflexivity]|]. split; [done|]. split; [done|].
    split; [repeat constructor; discriminate|]. simpl. lia.
Qed.
Lemma demo_login : login_ok demo_x (demo_sn 0) [117] [112].
Proof.
  split; try done.
  - exists sim_uri. split; [done|]. split; [by eexists|]. split; [by eexists|]. by split.
  - split; [|done]. repeat (apply Forall_cons; split; [split; [discriminate|reflexivity]|]). apply Forall_nil_2.
  - split; apply not_elem_of_nil.
Qed.

Lemma demo_greeting_ok : greeting_ok demo_greeting demo_salt.
Proof.
  split; [done|by exists (replicate 20 32)|]. split; [|done].
  repeat (apply Forall_cons; split; [split; [discriminate|reflexivity]|]). apply Forall_nil_2.
Qed.

Lemma demo_good (id : Z) data : 0 <= id < 2 ^ 64 -> mp_object (MP := RefPuck) data -> mp_typeof_at (MP := RefPuck) data = Some MP_ARRAY ->
  let x := ([(TNT_CODE, 0); (TNT_SYNC, id)], Some [BData data]) in
  zlen (reply_payload (MP := RefPuck) (fst x) (snd x)) < 2 ^ 32 -> good_reply (MP := RefPuck) x id data.
Proof.
  intros Hid Ho Ht x Hl. split; [|done]. split; [|split; [done|split; [|exact Hl]]].
  - apply Forall_cons; split; [split; [by right; left|simpl; lia]|]. apply Forall_cons; split; [split; [by left|done]|apply Forall_nil_2].
  - split; [|done]. apply Forall_cons; split; [done|apply Forall_nil_2].
Qed.

Lemma demo_server : server_ok (MP := RefPuck) (demo_auth 0 None) demo_spaces demo_indexes
  (reply_frame (MP := RefPuck) demo_ix ++ reply_frame (MP := RefPuck) demo_sp ++ [7]) [7].
Proof.
  split.
  - split; [|by right]. split; [|by split].
    apply Forall_cons; split; [split; [by right; left|done]|]. apply Forall_cons; split; [split; [by left|done]|apply Forall_nil_2].
  - split; vm_compute; discriminate.
  - intros _. exists demo_sp, demo_ix. split; [|by right].
    split; [exact demo_spaces_ok|exact demo_indexes_ok|exact demo_resolved|by split; vm_compute|by apply demo_good; vm_compute..].
Qed.

(** The server decodes the three requests and accepts the scramble; the schema
    answers. *)
Lemma session_established_witness :
  exists s' sn' w' scramble, demo_connect 0 demo_accepted = Some (0, s') /\ st_data s' = Some (sn', w') /\
    decode_stream (MP := RefPuck) 3 (sent w') = Some (session_requests (MP := RefPuck) 0 [117] scramble, []) /\
    server_accepts demo_salt (sha1 (sha1 [112])) scramble = true /\ tnt_get_spaceno s' [116; 50] = Some 513.
Proof.
  destruct (session_established (MP := RefPuck) 2 demo_x (demo_session 0 demo_accepted) (demo_sn 0) (demo_sim demo_accepted) sim_chars sim_uri demo_schema
    [117] [112] demo_ready demo_login) as (e & sn1 & w1 & E & _ & _ & H).
  assert (match tnt_io_connect 2 (demo_sn 0) (demo_sim demo_accepted) with
    | Some (e, sn1, w1) => e = TNT_EOK /\ input sn1 w1 = demo_accepted | None => False end) as Hc by (vm_compute; split; reflexivity).
  rewrite E in Hc. destruct Hc as [-> Hin].
  destruct (H eq_refl demo_greeting demo_salt (demo_auth 0 None) demo_spaces demo_indexes _ [7] demo_greeting_ok demo_server Hin)
    as (r & s' & sn' & w' & Er & (Hs' & _) & _ & Hres).
  pose proof demo_outcome as Ho. rewrite Er in Ho. unfold outcome in Ho. cbn [mbind option_bind] in Ho. rewrite Hs' in Ho.
  cbn [mbind option_bind] in Ho. injection Ho as -> He _ Hsp.
  destruct Hres as [[Hf|Hf]|[(_ & _ & _ & _ & (bs & scr & Hsent & Hd & Ha) & _) _]]; [congruence|congruence|].
  exists s', sn', w', scr. split; [exact Er|]. split; [exact Hs'|]. change (sent (demo_sim demo_accepted)) with (@nil Z) in Hsent.
  cbn [app] in Hsent. rewrite Hsent. split; [exact Hd|]. split; [exact Ha|exact Hsp].
Defined.
