(* ===== verification/SetupSpec.v ===== *)
(** * From the URI to the session

    The first three calls of a program, [tnt_net], [tnt_set] with a URI and
    [tnt_connect], which initialises the stream: the theorem puts [UriSpec],
    [ConnectSpec] and [SessionSpec] together. *)

From stdpp Require Import gmap.
From S2P Require Import Prelude Msgpuck MsgpuckRef Mem Uri UriSpec Stream Buf Proto Object ObjectSpec Request RequestSpec Commands CommandsSpec UpdateSpec Reply ReplySpec Iter IterSpec System Opt Io IoSpec Connect ConnectSpec Murmur Mhash MhashSpec Assoc Schema SchemaSpec Sha1 Base64 Auth Sim Net NetSpec SessionSpec.

(** ** Creation and initialisation *)

Section setup.
Context {W : Type} {SY : Sys W}.
Implicit Types (s : stream (net W)) (sn : snet W tnt_schema) (w : W) (m : malloc_state).

(** A stream as [tnt_net] creates it, with a URI. *)
Definition fresh_net (g str : ptr) (u : uri) : snet W tnt_schema :=
  Snet (set_uri str (Some u) (snd (tnt_opt_init (Grant [])))) false (-1) (Iob PNull 0 0 0 None None 0) (Iob PNull 0 0 0 None None 0) TNT_EOK 0 g None false.

Definition fresh_greeting : ptr := PHeap (replicate TNT_GREETING_SIZE 0).

Lemma tnt_net_ok given w m : Refuse ∉ m ->
  exists s, tnt_net given w m = Some (NetStream s) /\ st_data s = Some (fresh_net fresh_greeting PNull zero_uri, w) /\
    granted s /\ st_wrcnt s = 0 /\ st_reqid s = 0.
Proof.
  intros Hm. unfold tnt_net, tnt_stream_init.
  assert (exists b m1, (if given then Some (Stream false 0 0 None m) else match pop m with (Refuse, _) => None | (Grant _, m) => Some (Stream true 0 0 None m) end)
    = Some (Stream (T := net W) b 0 0 None m1) /\ Refuse ∉ m1) as (b & m1 & -> & H1).
  { destruct given; [by do 2 eexists|]. destruct (pop m) as [a m'] eqn:E. destruct (pop_granted _ _ _ E Hm) as [Ha ?]. destruct a; [done|]. by do 2 eexists. }
  cbn [st_mem]. destruct (pop m1) as [a m2] eqn:E. destruct (pop_granted _ _ _ E H1) as [Ha H2]. destruct a; [done|].
  destruct (pop m2) as [a m3] eqn:E2. destruct (pop_granted _ _ _ E2 H2) as [Ha2 H3]. destruct a; [done|].
  rewrite tnt_mem_alloc_eq by (unfold TNT_GREETING_SIZE; lia). cbn [mbind option_bind].
  destruct (pop m3) as [a m4] eqn:E3. destruct (pop_granted _ _ _ E3 H3) as [Ha3 H4]. destruct a; [done|].
  cbn [tnt_opt_init]. rewrite decide_False by done. eexists. split; [reflexivity|]. by split.
Qed.

Lemma render_nonzero c a : credentials_ok c -> address_ok a -> Forall (fun b => b <> 0) (render c a).
Proof.
  intros Hc Ha. unfold render. apply Forall_app. split.
  - destruct c as [[login password]|]; [|apply Forall_nil_2]. destruct Hc. repeat (apply Forall_app; split); try (by eapply accepts_nonzero); by repeat constructor.
  - destruct a as [host port|path]; [destruct Ha as (? & ? & _)|destruct Ha]; [|by eapply accepts_nonzero].
    repeat (apply Forall_app; split); try (by eapply accepts_nonzero); by repeat constructor.
Qed.

Lemma tnt_set_uri_ok s g w c a : credentials_ok c -> address_ok a -> granted s ->
  st_data s = Some (fresh_net g PNull zero_uri, w) ->
  exists u s', uri_found c a u /\ tnt_set s 0 (ArgStr (render c a ++ [0])) = Some (0, s') /\
    st_data s' = Some (fresh_net g (PHeap (render c a ++ [0])) u, w) /\ granted s' /\ st_wrcnt s' = st_wrcnt s /\ st_reqid s' = st_reqid s.
Proof.
  intros Hc Ha Hg Hs. destruct (formats_ok c a Hc Ha) as (u & Hu & Hf). exists u.
  unfold tnt_set. rewrite Hs. cbn [mbind option_bind]. change (opt_type_of 0) with (Some TNT_OPT_URI). cbn [tnt_opt_set fresh_net opt set_uri uristr mbind option_bind].
  destruct (pop (st_mem s)) as [x m] eqn:E. destruct (pop_granted _ _ _ E Hg) as [Hx Hm]. destruct x; [done|].
  rewrite tnt_mem_dup_ok by (by apply render_nonzero). cbn [mbind option_bind opt_uri block_of]. rewrite Hu. cbn [mbind option_bind].
  rewrite decide_False by done. cbn [set_uri opt_uri mbind option_bind]. rewrite decide_True by done. eexists. split; [done|]. split; [reflexivity|]. by split.
Qed.

(** [tnt_init] with the default sizes. *)
Definition fresh_buf {F G} : iob F G := Iob (PHeap (replicate (buf_len 16384) 0)) 0 0 (buf_len 16384) None None 0.

Lemma iob_init_ok {F G} m : Refuse ∉ m -> exists m', tnt_iob_init (F := F) (G := G) (buf_len 16384) None None 0 m = Some (0, fresh_buf, m') /\ Refuse ∉ m'.
Proof.
  assert (0 < buf_len 16384)%nat as Hn by (unfold buf_len; rewrite u64_small by lia; lia).
  intros Hm. unfold tnt_iob_init, fresh_buf. generalize dependent (buf_len 16384). intros n Hn. rewrite decide_True by done.
  destruct (pop m) as [a m'] eqn:E. destruct (pop_granted _ _ _ E Hm) as [Ha Hm']. destruct a; [done|].
  rewrite tnt_mem_alloc_eq by done. cbn [mbind option_bind]. exists m'. split; [|done].
  rewrite store_heap by (rewrite !length_replicate; lia). rewrite take_0, drop_ge, app_nil_r by (rewrite !length_replicate; lia). done.
Qed.

Lemma tnt_init_ok s g str u w : granted s -> st_data s = Some (fresh_net g str u, w) ->
  exists sch s', schema_empty sch 0 /\ tnt_init s = Some (0, s') /\ granted s' /\ st_wrcnt s' = st_wrcnt s /\ st_reqid s' = st_reqid s /\
    st_data s' = Some (put_inited (put_rbuf fresh_buf (put_sbuf fresh_buf (put_schema (Some sch) (fresh_net g str u)))), w).
Proof.
  intros Hg Hs. unfold tnt_init. rewrite Hs. cbn [mbind option_bind]. unfold tnt_schema_new.
  destruct (granted_block_ok 16 (st_mem s) ltac:(lia) Hg) as (m1 & -> & H1). cbn [negb].
  destruct (htab_new_granted (A := tnt_schema_sval) m1 H1) as (h & m2 & -> & H2 & Hr).
  change (send_buf (opt (fresh_net g str u))) with 16384. change (recv_buf (opt (fresh_net g str u))) with 16384.
  change (send_cb (opt (fresh_net g str u))) with (@None (send_fn W)). change (send_cbv (opt (fresh_net g str u))) with (@None (sendv_fn W)).
  change (recv_cb (opt (fresh_net g str u))) with (@None (recv_fn W)). change (send_cb_arg (opt (fresh_net g str u))) with 0.
  change (recv_cb_arg (opt (fresh_net g str u))) with 0.
  destruct (iob_init_ok (F := send_fn W) (G := sendv_fn W) m2 H2) as (m3 & E3 & H3). rewrite E3. cbn [mbind option_bind]. rewrite decide_False by done.
  destruct (iob_init_ok (F := recv_fn W) (G := unit) m3 H3) as (m4 & E4 & H4). rewrite E4. cbn [mbind option_bind]. rewrite decide_False by done.
  exists (Schema (Some (Htab h ∅ 0)) true). eexists. split; [by eexists|]. split; [reflexivity|]. by split.
Qed.
End setup.

(** ** The session of a URI *)

Section session.
Context {MP : MsgPuck} {MPS : MsgPuckSpec MP}.
Context {W : Type} {SY : Sys W} {SC : SysConnect W} {OB : Observe W} {OF : ObserveFds W} {SS : SysSpec W} {CS : ConnectSpec W}.
Implicit Types (s : stream (net W)) (sn : snet W tnt_schema) (w : W).
Variable fuel : nat.
#[local] Existing Instance net_sink.

(** The addresses that a host and a port, or a path, stand for. *)
Definition named (a : address) w (addr : bytes) : Prop :=
  match a with
  | Tcp host port => exists l w1, sys_getaddrinfo host port SOCK_STREAM IPPROTO_TCP w = (0, l, w1) /\ addr ∈ (ai_addr <$> l)
  | Sock path => sockaddr_un path = Some addr
  end.

(** The arrays of [tnt_io_connect]. *)
Definition address_fits (a : address) : Prop :=
  match a with Tcp host _ => (length host < 128)%nat | Sock path => (length path < SUN_PATH)%nat end.

Lemma port_found (str port : bytes) (off : nat) : drop off str = port -> port <> [] -> (off + length port = length str)%nat.
Proof. intros <- H. rewrite length_drop. assert (off < length str)%nat; [|lia]. apply Nat.nle_gt. intros Hle. by rewrite drop_ge in H. Qed.

Lemma found_fits c a u : credentials_ok c -> address_ok a -> address_fits a -> uri_found c a u -> uri_fits (render c a) u.
Proof.
  intros Hc Ha Hf [_ _ Hfound _]. split; [by apply render_nonzero|]. destruct a as [host port|path].
  - destruct Hfound as (Hhint & (r & Hr & Hh) & off & Hs & Hp). assert (host_hint u <> URI_UNIX) as Hn by (by intros E; rewrite E in Hhint; destruct Hhint).
    destruct Ha as (_ & Hport & _). apply text_inv in Hh as (o & -> & Ho & _).
    pose proof (port_found _ _ _ Hp ltac:(by eapply accepts_nonempty)).
    destruct (host_hint u); try done; rewrite Hr, Hs; (split; [split; [done|exact Hf]|]); cbn; lia.
  - destruct Hfound as (-> & _ & Hs). apply text_inv in Hs as (o & -> & Ho & _). by split.
Qed.

Lemma found_target c a u w addr : uri_found c a u -> target (render c a) u w addr <-> named a w addr.
Proof.
  intros [_ _ Hf _]. unfold target, named, port_part. destruct a as [host port|path].
  - destruct Hf as (Hhint & (r & -> & Hh) & off & -> & Hp). apply text_inv in Hh as (o & -> & _ & Hh). cbn [host_part part]. rewrite Hh, Hp.
    by destruct Hhint as [-> | ->].
  - destruct Hf as (-> & _ & Hs). apply text_inv in Hs as (o & -> & _ & Hs). cbn [part]. by rewrite Hs.
Qed.

Lemma found_part sn str r bs : uristr (opt sn) = PHeap (str ++ [0]) -> text str r = Some bs -> uri_part sn r = Some (Some bs).
Proof.
  intros Hu Ht. apply text_inv in Ht as (off & -> & Hl & Ht). unfold uri_part. rewrite Hu. cbn [mbind option_bind block_of]. unfold slice.
  rewrite decide_True by (rewrite length_app; lia). cbn [mbind option_bind]. rewrite drop_app_le, take_app_le by (rewrite ?length_drop; lia). by rewrite Ht.
Qed.

Lemma word_bytes L k bs : accepts L k bs = true -> Forall is_byte bs.
Proof.
  revert k. induction bs as [|b bs IH]; intros k H; [apply Forall_nil_2|]. cbn [accepts] in H. apply andb_prop in H as [Hb H].
  destruct (delta L k b) as [k'|]; [|done]. apply Forall_cons. split; [|by eapply IH]. unfold Ragel.in_ in Hb. apply andb_prop in Hb as [H1 H2].
  apply Z.leb_le in H1, H2. unfold is_byte. lia.
Qed.

(** The first calls: the outcome of the connection, its descriptor and the
    stream before [tnt_connect]. *)
Definition first_calls (given : bool) w (m : malloc_state) (str : bytes) : option (tnt_error * Z * stream (net W)) :=
  s0 ← tnt_net given w m;
  match s0 with
  | NetStream s0 =>
      '(_, s1) ← tnt_set s0 0 (ArgStr (str ++ [0]));
      '(_, s2) ← tnt_init s1;
      '(sn, w) ← st_data s2;
      '(e, sn', _) ← tnt_io_connect fuel sn w;
      Some (e, fd sn', s1)
  | _ => None
  end.

Lemma first_calls_eq given w m str s0 r1 s1 r2 s2 sn w2 e sn' w' :
  tnt_net given w m = Some (NetStream s0) -> tnt_set s0 0 (ArgStr (str ++ [0])) = Some (r1, s1) -> tnt_init s1 = Some (r2, s2) ->
  st_data s2 = Some (sn, w2) -> tnt_io_connect fuel sn w2 = Some (e, sn', w') -> first_calls given w m str = Some (e, fd sn', s1).
Proof.
  intros E0 E1 E2 Hs E. unfold first_calls. rewrite E0. cbn [mbind option_bind]. rewrite E1. cbn [mbind option_bind]. rewrite E2. cbn [mbind option_bind].
  apply bind_Some. exists (sn, w2). split; [exact Hs|]. by rewrite E.
Qed.

(** The stream that [tnt_init] leaves is ready for the URI. *)
Lemma fresh_ready s u c a w sch :
  credentials_ok c -> address_ok a -> address_fits a -> uri_found c a u ->
  granted s -> st_wrcnt s = 0 -> st_reqid s = 0 -> schema_empty sch 0 -> (interrupts w < fuel)%nat -> 0 ∈ fds w ->
  let sn := put_inited (put_rbuf fresh_buf (put_sbuf fresh_buf (put_schema (Some sch) (fresh_net fresh_greeting (PHeap (render c a ++ [0])) u)))) in
  st_data s = Some (sn, w) -> ready fuel s sn w (render c a) u sch.
Proof.
  intros Hc Ha Hf Hu Hg Hw Hq Hsch Hi H0 sn Hs.
  assert (block_ok (F := send_fn W) (G := sendv_fn W) fresh_buf 0) as Hb1 by (split; [apply length_replicate|simpl; lia]).
  assert (block_ok (F := recv_fn W) (G := unit) fresh_buf 0) as Hb2 by (split; [apply length_replicate|simpl; lia]).
  split; try done.
  - split; [done|]. rewrite Hq. lia.
  - exists (replicate TNT_GREETING_SIZE 0). split; [done|apply length_replicate].
  - split; [done|]. exists 0. split; [done|lia].
  - split; [split; [simpl; lia|simpl; lia|eexists; vm_compute; reflexivity]|]. split; [done|]. split; [done|]. by apply found_fits.
Qed.

(** What the caller of [tnt_connect] provides besides the stream. *)
Record session_ok_for (x : session) (login password : bytes) : Prop := {
  sf_sizes : zlen login < 2 ^ 31 /\ zlen password < 2 ^ 31;
  sf_stack : length (salt0 x) = 64%nat /\ length (ctx0 x) = 64%nat;
  sf_granted : Refuse ∉ fst (om x) /\ Refuse ∉ snd (om x);
  sf_replies : (3 <= replies x)%nat;
}.

Lemma found_login x sn login password a u :
  credentials_ok (Some (login, password)) -> uri_found (Some (login, password)) a u -> session_ok_for x login password ->
  opt_uri (opt sn) = Some u -> uristr (opt sn) = PHeap (render (Some (login, password)) a ++ [0]) -> login_ok x sn login password.
Proof.
  intros [_ Hp] [Hlo Hpa _ _] [[? ?] ? ? ?] Hu Hstr. split; try done.
  - exists u. split; [done|]. split; [by apply text_inv in Hlo as (? & -> & _); eexists|].
    split; [by apply text_inv in Hpa as (? & -> & _); eexists|]. split; by eapply found_part.
  - split; [by eapply word_bytes|done].
Qed.

Lemma connect_inits x s s' sn sn' w w' :
  st_data s = Some (sn, w) -> inited sn = false -> tnt_init s = Some (0, s') -> st_data s' = Some (sn', w') -> inited sn' = true ->
  tnt_connect fuel x s = tnt_connect fuel x s'.
Proof.
  intros Hs Hi E Hs' Hi'. unfold tnt_connect. rewrite Hs, Hs'. cbn [mbind option_bind]. rewrite Hi, Hi', E. cbn [mbind option_bind]. by rewrite Hs'.
Qed.

(** C36: the first calls of a program, for a URI "login:password@host:port" with
    a host shorter than 128 bytes, or "login:password@/path" with a path shorter
    than 108 ([address_fits]; see [long_host_overflows] for longer ones), in a
    process whose descriptor 0 is open. [tnt_net], then [tnt_set] of the URI
    succeed when memory is granted, and [tnt_connect] initialises the stream. It
    connects, or reports the error of [tnt_io_connect] and leaves no descriptor
    open; a connection is to an address that the resolver gives for that host
    and port, or to that path; and what follows is the session of [SessionSpec]
    (C35, with its conditions on what the server sends) with that login and
    password. *)
Theorem uri_session given x w m login password a :
  Refuse ∉ m -> (interrupts w < fuel)%nat -> 0 ∈ fds w ->
  credentials_ok (Some (login, password)) -> address_ok a -> address_fits a -> session_ok_for x login password ->
  let str := render (Some (login, password)) a in
  exists s0 s1 s2 sn,
    tnt_net given w m = Some (NetStream s0) /\ tnt_set s0 0 (ArgStr (str ++ [0])) = Some (0, s1) /\
    tnt_init s1 = Some (0, s2) /\ tnt_connect fuel x s1 = tnt_connect fuel x s2 /\ st_data s2 = Some (sn, w) /\
    (exists e sn' w', tnt_io_connect fuel sn w = Some (e, sn', w') /\ e ∈ connect_errors /\
       (e = TNT_EOK -> exists addr, named a w addr /\ sock w' (fd sn') = Peer addr) /\
       (e <> TNT_EOK -> fds w' = fds w)) /\
    session_spec fuel x s2 sn w login password.
Proof.
  intros Hm Hi H0 Hc Ha Hf Hx str. destruct (tnt_net_ok given w m Hm) as (s0 & E0 & Hs0 & Hg0 & Hw0 & Hq0).
  destruct (tnt_set_uri_ok s0 fresh_greeting w _ a Hc Ha Hg0 Hs0) as (u & s1 & Hu & E1 & Hs1 & Hg1 & Hw1 & Hq1).
  destruct (tnt_init_ok s1 _ _ _ _ Hg1 Hs1) as (sch & s2 & Hsch & E2 & Hg2 & Hw2 & Hq2 & Hs2).
  assert (ready fuel s2 _ w str u sch) as Hr by (apply (fresh_ready s2 u _ a w sch Hc Ha Hf Hu Hg2); [congruence..|done|done|done|exact Hs2]).
  do 4 eexists. split; [exact E0|]. split; [exact E1|]. split; [exact E2|]. split; [by eapply connect_inits|]. split; [exact Hs2|]. split.
  - pose proof Hr as [_ _ [_ Hcon] _ _ _ (Ho & Hu' & Hstr & Hfit) _].
    destruct (connect_ok fuel _ str u w Hi Ho Hu' Hstr Hfit H0 Hcon) as (e & sn' & w' & E & He & _ & _ & Hok & Hno).
    exists e, sn', w'. split; [exact E|]. split; [done|]. split; [|by intros H; apply Hno].
    intros H. destruct (Hok H) as (_ & _ & _ & _ & addr & Ht & Hp). exists addr. split; [by apply (found_target _ _ _ _ _ Hu)|done].
  - eapply session_ok; [exact Hr|]. by eapply found_login.
Qed.

(** The parser accepts hosts of up to 1024 characters; from 128 on
    [tnt_io_connect] writes out of its array. *)
Lemma long_host_overflows sn w c host port u :
  uri_found c (Tcp host port) u -> (128 <= length host)%nat ->
  opt_uri (opt sn) = Some u -> uristr (opt sn) = PHeap (render c (Tcp host port) ++ [0]) -> tnt_io_connect fuel sn w = None.
Proof.
  intros [_ _ (Hhint & (r & Hr & Hh) & _) _] Hl Hu Hstr. unfold tnt_io_connect. rewrite Hu, Hstr. cbn [mbind option_bind block_of default].
  apply text_inv in Hh as (off & -> & Ho & _). set (str := render _ _) in *.
  assert (copy_host (id (str ++ [0])) (uri_host u) = None) as Hc.
  { unfold id. rewrite Hr. cbn [copy_host]. unfold copy128, slice. rewrite decide_True by (rewrite length_app; lia). cbn [mbind option_bind].
    unfold splice. rewrite decide_False; [done|]. rewrite length_app, length_take, length_drop, length_app, length_replicate. simpl. lia. }
  destruct (host_hint u); try (by destruct Hhint); (destruct (port_of _ _); [|done]); cbn [mbind option_bind]; by rewrite Hc.
Qed.
End session.

(** ** Witnesses *)

(** "u:p@h:99", accepted; the server of [SessionSpec]. *)
Definition demo_address : address := Tcp [104] [57; 57].
Definition demo_str : bytes := render (Some ([117], [112])) demo_address.

#[local] Notation demo_program := (first_calls 2 false (demo_sim demo_accepted) [] demo_str).

(** The session, from the URI on: what [SessionSpec.outcome] shows. *)
Example demo_uri_outcome : ('(_, _, s1) ← demo_program; outcome (tnt_connect (MP := RefPuck) 2 demo_x s1)) = Some (0, TNT_EOK, 106%nat, Some 513).
Proof. vm_compute. reflexivity. Qed.

Lemma uri_session_witness :
  exists s0 s1 s2 sn sn' w' addr, tnt_net false (demo_sim demo_accepted) [] = Some (NetStream s0) /\
    tnt_set s0 0 (ArgStr (demo_str ++ [0])) = Some (0, s1) /\ tnt_init s1 = Some (0, s2) /\ st_data s2 = Some (sn, demo_sim demo_accepted) /\
    tnt_io_connect 2 sn (demo_sim demo_accepted) = Some (TNT_EOK, sn', w') /\
    named demo_address (demo_sim demo_accepted) addr /\ sock w' (fd sn') = Peer addr.
Proof.
  destruct (uri_session (MP := RefPuck) 2 false demo_x (demo_sim demo_accepted) [] [117] [112] demo_address)
    as (s0 & s1 & s2 & sn & E0 & E1 & E2 & _ & Hs & (e & sn' & w' & E & _ & Hok & _) & _).
  - apply not_elem_of_nil.
  - apply Nat.ltb_lt. vm_compute. reflexivity.
  - simpl. set_solver.
  - by split.
  - split; [done|]. split; [done|]. simpl. unfold URI_MAXHOST, URI_MAXSERVICE. lia.
  - simpl. lia.
  - split; [split; vm_compute; reflexivity|done|split; apply not_elem_of_nil|simpl; lia].
  - assert (fst <$> demo_program = Some (TNT_EOK, 3)) as H by (vm_compute; reflexivity).
    rewrite (first_calls_eq 2 _ _ _ demo_str _ _ _ _ _ _ _ _ _ _ E0 E1 E2 Hs E) in H.
    injection H as -> _. destruct (Hok eq_refl) as (addr & Hn & Hp). exists s0, s1, s2, sn, sn', w', addr. by repeat (split; [done|]).
Defined.
