(* ===== verification/Stdio.v ===== *)
(** * Files of the C library, as tntrpl/ reads them

    A [FILE] opened for reading has contents and a position.  Errors of the
    medium are not modelled: a read is short only at the end of the file.  A
    stream that cannot be positioned (the standard input may be a pipe) has no
    offset: [ftello] and [fseeko] fail.  An operation on a closed stream is
    undefined. *)

From stdpp Require Import gmap.
From S2P Require Import Prelude.

Record FILE := File { f_data : bytes; f_pos : nat; f_seekable : bool }.

(** [stdin], or the pointer that [fopen] returned. *)
Inductive handle := Stdin | Opened (n : nat).

#[export] Instance handle_eq_dec : EqDecision handle.
Proof. solve_decision. Defined.

(** The file system gives the contents of a path, or the error of opening it. *)
Record fsys := Fs {
  fs_file : bytes -> Z + bytes;
  fs_stdin : FILE;
  fs_open : gmap nat FILE;
  fs_errno : Z;
}.

Definition file_of (w : fsys) (h : handle) : option FILE :=
  match h with Stdin => Some (fs_stdin w) | Opened n => fs_open w !! n end.

Definition put_file (h : handle) (f : FILE) (w : fsys) : fsys :=
  match h with
  | Stdin => Fs (fs_file w) f (fs_open w) (fs_errno w)
  | Opened n => Fs (fs_file w) (fs_stdin w) (<[n := f]> (fs_open w)) (fs_errno w)
  end.

Definition set_pos (p : nat) (f : FILE) : FILE := File (f_data f) p (f_seekable f).

(** [fopen(path, "r")] *)
Definition fopen (path : bytes) (w : fsys) : option handle * fsys :=
  match fs_file w path with
  | inl e => (None, Fs (fs_file w) (fs_stdin w) (fs_open w) e)
  | inr bs =>
      let n := fresh (dom (fs_open w)) in
      (Some (Opened n), put_file (Opened n) (File bs 0 true) w)
  end.

(** [fclose] of a stream that [fopen] returned *)
Definition fclose (h : handle) (w : fsys) : option fsys :=
  match h with
  | Stdin => None
  | Opened n => _ ← fs_open w !! n; Some (Fs (fs_file w) (fs_stdin w) (delete n (fs_open w)) (fs_errno w))
  end.

(** [fread(buf, n, 1, h)]: the bytes stored in [buf]; the result is 1 when
    they are [n] and [n] is not 0. *)
Definition fread (n : nat) (h : handle) (w : fsys) : option (bytes * fsys) :=
  f ← file_of w h;
  let bs := take n (drop (f_pos f) (f_data f)) in
  Some (bs, put_file h (set_pos (f_pos f + length bs) f) w).

(** [fgetc]: [None] is [EOF]. *)
Definition fgetc (h : handle) (w : fsys) : option (option Z * fsys) :=
  f ← file_of w h;
  match drop (f_pos f) (f_data f) with
  | [] => Some (None, w)
  | c :: _ => Some (Some c, put_file h (set_pos (f_pos f + 1) f) w)
  end.

(** At most [n] bytes, up to and including the first newline. *)
Fixpoint line (n : nat) (bs : bytes) : bytes :=
  match n, bs with
  | O, _ | _, [] => []
  | S n, c :: bs => if decide (c = 10) then [c] else c :: line n bs
  end.

(** [fgets(buf, n, h)]: the bytes before the terminating zero, [None] for
    [NULL]. *)
Definition fgets (n : nat) (h : handle) (w : fsys) : option (option bytes * fsys) :=
  f ← file_of w h;
  match line (n - 1) (drop (f_pos f) (f_data f)) with
  | [] => Some (None, w)
  | bs => Some (Some bs, put_file h (set_pos (f_pos f + length bs) f) w)
  end.

(** The string in an array with these contents and a terminating zero. *)
Fixpoint c_str (bs : bytes) : bytes :=
  match bs with
  | [] => []
  | c :: bs => if decide (c = 0) then [] else c :: c_str bs
  end.

Definition ftello (h : handle) (w : fsys) : option Z :=
  f ← file_of w h; Some (if f_seekable f then Z.of_nat (f_pos f) else -1).

(** [fseeko(h, off, SEEK_SET)] *)
Definition fseeko (h : handle) (off : Z) (w : fsys) : option (Z * fsys) :=
  f ← file_of w h;
  if decide (f_seekable f = false \/ off < 0) then Some (-1, w)
  else Some (0, put_file h (set_pos (Z.to_nat off) f) w).

(** ** Lemmas *)

Lemma file_put h f w : file_of (put_file h f w) h = Some f.
Proof. destruct h; simpl; [done|]. apply lookup_insert_eq. Qed.

Lemma put_put h f g w : put_file h f (put_file h g w) = put_file h f w.
Proof. destruct h; unfold put_file; simpl; [done|]. by rewrite insert_insert_eq. Qed.

Lemma put_same h f w : file_of w h = Some f -> put_file h f w = w.
Proof. destruct h, w; simpl; intros H; simplify_eq; [done|]. unfold put_file; simpl. by rewrite insert_id. Qed.

(** The stream [h] of [w] moved to the offset [p]. *)
Definition at_pos (h : handle) (f : FILE) (w : fsys) (p : nat) : fsys := put_file h (set_pos p f) w.

Section at_pos.
Context (h : handle) (f : FILE) (w : fsys).
#[local] Abbreviation pos := (at_pos h f w).

(** What is left at [p]. *)
Definition rest (p : nat) : bytes := drop p (f_data f).

Lemma file_of_at p : file_of (pos p) h = Some (set_pos p f).
Proof. apply file_put. Qed.

Lemma put_file_at p q : put_file h (set_pos q (set_pos p f)) (pos p) = pos q.
Proof. apply put_put. Qed.

Lemma fread_at n p bs : take n (rest p) = bs -> fread n h (pos p) = Some (bs, pos (p + length bs)).
Proof. intros <-. unfold fread. rewrite file_of_at. cbn [mbind option_bind]; change (f_pos (set_pos p f)) with p; change (f_data (set_pos p f)) with (f_data f). by rewrite put_file_at. Qed.

Lemma fgetc_at p :
  fgetc h (pos p) = Some (match rest p with [] => (None, pos p) | c :: _ => (Some c, pos (p + 1)) end).
Proof.
  unfold fgetc. rewrite file_of_at. cbn [mbind option_bind]; change (f_pos (set_pos p f)) with p; change (f_data (set_pos p f)) with (f_data f). fold (rest p).
  destruct (rest p); [done|]. by rewrite put_file_at.
Qed.

Lemma fgets_at n p :
  fgets n h (pos p) = Some (match line (n - 1) (rest p) with [] => (None, pos p) | l => (Some l, pos (p + length l)) end).
Proof.
  unfold fgets. rewrite file_of_at. cbn [mbind option_bind]; change (f_pos (set_pos p f)) with p; change (f_data (set_pos p f)) with (f_data f). fold (rest p).
  destruct (line (n - 1) (rest p)); [done|]. by rewrite put_file_at.
Qed.

Lemma ftello_at p : ftello h (pos p) = Some (if f_seekable f then Z.of_nat p else -1).
Proof. unfold ftello. by rewrite file_of_at. Qed.

Lemma fseeko_at p q : f_seekable f = true -> fseeko h (Z.of_nat q) (pos p) = Some (0, pos q).
Proof.
  intros Hs. unfold fseeko. rewrite file_of_at. cbn [mbind option_bind]. rewrite decide_False by (simpl; rewrite Hs; intros []; [done|lia]).
  by rewrite Nat2Z.id, put_file_at.
Qed.

Lemma at_id : file_of w h = Some f -> pos (f_pos f) = w.
Proof. intros H. unfold at_pos, set_pos. apply put_same. rewrite H. by destruct f. Qed.

End at_pos.

Lemma line_app n (l bs : bytes) : Forall (fun c => c <> 10) l -> (length l < n)%nat -> line n (l ++ 10 :: bs) = l ++ [10].
Proof.
  intros H. revert n. induction H as [|c l Hc _ IH]; intros [|n] Hn; simpl in *; try lia.
  - done.
  - rewrite decide_False by done. by rewrite IH by lia.
Qed.

Lemma line_nonempty n bs : n <> 0%nat -> bs <> [] -> line n bs <> [].
Proof. destruct n, bs; try done. intros _ _. simpl. by case_decide. Qed.

Lemma line_length n bs : (length (line n bs) <= length bs)%nat.
Proof. revert n. induction bs as [|c bs IH]; intros [|n]; simpl; try lia. case_decide; simpl; [lia|]. specialize (IH n). lia. Qed.

Lemma c_str_id bs : Forall (fun c => c <> 0) bs -> c_str bs = bs.
Proof. induction 1; simpl; [done|]. rewrite decide_False by done. by f_equal. Qed.
