(* ===== verification/Log.v ===== *)
(** * tntrpl/tnt_log.c, tnt_xlog.c and tnt_snapshot.c: the readers of logs

    A log is a text header followed by records: a marker, a header with two
    checksums, and a payload that is a request of an xlog or a tuple of a
    snapshot.  Structures that [fread] or [memcpy] fill byte by byte are kept
    as their bytes.  The checksum, the requests and the tuples belong to a
    version of the library that is not in the repository: class [Legacy]. *)

From stdpp Require Import gmap.
From Stdlib Require String.
From S2P Require Import Prelude Mem Uri Stream Murmur Stdio Net.
Import String.StringSyntax.
#[local] Arguments chars s%_string_scope.

Inductive tnt_log_error :=
  | TNT_LOG_EOK | TNT_LOG_EFAIL | TNT_LOG_EMEMORY | TNT_LOG_ETYPE | TNT_LOG_EVERSION
  | TNT_LOG_ECORRUPT | TNT_LOG_ESYSTEM | TNT_LOG_LAST.
Inductive tnt_log_type := TNT_LOG_NONE | TNT_LOG_XLOG | TNT_LOG_SNAPSHOT.

#[export] Instance tnt_log_error_eq_dec : EqDecision tnt_log_error.
Proof. solve_decision. Defined.
#[export] Instance tnt_log_type_eq_dec : EqDecision tnt_log_type.
Proof. solve_decision. Defined.

Definition TNT_LOG_MAGIC_XLOG : bytes := chars "XLOG" ++ [10].
Definition TNT_LOG_MAGIC_SNAP : bytes := chars "SNAP" ++ [10].
Definition TNT_LOG_VERSION : bytes := chars "0.11" ++ [10].

Definition tnt_log_marker_v11 : Z := 0xba0babed.
Definition tnt_log_marker_eof_v11 : Z := 0x10adab1e.

(** The fields of the packed [struct tnt_log_header_v11] ([tm] is not read). *)
Definition HDR_SIZE : nat := 28.
Definition hdr_crc32_hdr (h : bytes) : Z := le_val (take 4 h).
Definition hdr_lsn (h : bytes) : Z := le_val (take 8 (drop 4 h)).
Definition hdr_len (h : bytes) : Z := le_val (take 4 (drop 20 h)).
Definition hdr_crc32_data (h : bytes) : Z := le_val (take 4 (drop 24 h)).

(** [struct tnt_log_row_v11] *)
Definition ROW_SIZE : nat := 12.
Definition row_op (r : bytes) : Z := le_val (take 2 (drop 10 r)).

(** [struct tnt_log_row_snap_v11] *)
Definition ROW_SNAP_SIZE : nat := 22.
Definition snap_tuple_size (r : bytes) : Z := le_val (take 4 (drop 14 r)).
Definition snap_data_size (r : bytes) : Z := le_val (take 4 (drop 18 r)).

(** [tnt_request(r, buf, size, &off, &hdr)] reads the [size] bytes of [buf], for
    an [hdr] of this type and length; [tnt_tuple_set_as(t, buf, size, count)]
    is given all the bytes from [buf] to the end of its block.  [None] is
    undefined behaviour. *)
Class Legacy := {
  lg_request : Type;
  lg_tuple : Type;
  crc32c : Z -> bytes -> Z;
  lg_request_init : lg_request;
  lg_request_parse : lg_request -> bytes -> Z -> Z -> option (Z * lg_request);
  lg_request_setorigin : lg_request -> ptr -> Z -> lg_request;
  lg_tuple_zero : lg_tuple;                                  (** zeroed memory *)
  lg_tuple_free : lg_tuple -> option lg_tuple;
  lg_tuple_set_as : lg_tuple -> bytes -> Z -> Z -> option (bool * lg_tuple);
}.

Section log.
Context {LG : Legacy}.

(** [union tnt_log_value]; [VZero] is zeroed memory. *)
Inductive tnt_log_value := VZero | VRequest (r : lg_request) | VTuple (t : lg_tuple).

(** The member [t] of the union. *)
Definition value_tuple (v : tnt_log_value) : option lg_tuple :=
  match v with VZero => Some lg_tuple_zero | VTuple t => Some t | VRequest _ => None end.

(** The functions the [process] pointer can be. *)
Inductive process_fn := ProcessXlog | ProcessSnapshot.

(** [struct tnt_log_row], without the member [value], which nothing sets. *)
Record tnt_log_row := Row { c_hdr : bytes; c_row : bytes; c_row_snap : bytes }.

Record tnt_log := Log {
  l_type : tnt_log_type;
  l_fd : option handle;                 (** [None] is [NULL] *)
  current_offset : Z;
  l_offset : Z;
  l_read : bool;                        (** set to [tnt_log_read] *)
  l_process : option process_fn;
  current : tnt_log_row;
  current_value : tnt_log_value;
  l_error : tnt_log_error;
  l_errno : Z;
}.
Implicit Types (l : tnt_log) (w : fsys) (m : malloc_state).

Definition put_type ty l := Log ty (l_fd l) (current_offset l) (l_offset l) (l_read l) (l_process l) (current l) (current_value l) (l_error l) (l_errno l).
Definition put_lfd fd l := Log (l_type l) fd (current_offset l) (l_offset l) (l_read l) (l_process l) (current l) (current_value l) (l_error l) (l_errno l).
Definition put_current_offset o l := Log (l_type l) (l_fd l) o (l_offset l) (l_read l) (l_process l) (current l) (current_value l) (l_error l) (l_errno l).
Definition put_loffset o l := Log (l_type l) (l_fd l) (current_offset l) o (l_read l) (l_process l) (current l) (current_value l) (l_error l) (l_errno l).
Definition put_interfaces p l := Log (l_type l) (l_fd l) (current_offset l) (l_offset l) true p (current l) (current_value l) (l_error l) (l_errno l).
Definition put_current c l := Log (l_type l) (l_fd l) (current_offset l) (l_offset l) (l_read l) (l_process l) c (current_value l) (l_error l) (l_errno l).
Definition put_value v l := Log (l_type l) (l_fd l) (current_offset l) (l_offset l) (l_read l) (l_process l) (current l) v (l_error l) (l_errno l).
Definition put_lerror e n l := Log (l_type l) (l_fd l) (current_offset l) (l_offset l) (l_read l) (l_process l) (current l) (current_value l) e n.

(** [memset(l, 0, sizeof(l))] *)
Definition zero_log : tnt_log :=
  Log TNT_LOG_NONE None 0 0 false None (Row (replicate HDR_SIZE 0) (replicate ROW_SIZE 0) (replicate ROW_SNAP_SIZE 0)) VZero TNT_LOG_EOK 0.

(** ** Opening *)

Definition tolower (c : Z) : Z := if decide (65 <= c <= 90) then c + 32 else c.

(** [strrchr(s, c)] *)
Fixpoint strrchr (s : bytes) (c : Z) : option bytes :=
  match s with
  | [] => None
  | x :: s' => match strrchr s' c with Some r => Some r | None => if decide (x = c) then Some s else None end
  end.

(** [strcasecmp(a, b) == 0] *)
Definition strcaseeq (a b : bytes) : bool := bool_decide (map tolower a = map tolower b).

Definition tnt_log_guess (file : option bytes) : tnt_log_type :=
  match file with
  | None => TNT_LOG_XLOG
  | Some file =>
      match strrchr file 46 with
      | None => TNT_LOG_NONE
      | Some ext =>
          if strcaseeq ext (chars ".snap") then TNT_LOG_SNAPSHOT
          else if strcaseeq ext (chars ".xlog") then TNT_LOG_XLOG
          else TNT_LOG_NONE
      end
  end.

Definition tnt_log_seterr l e w : Z * tnt_log :=
  (-1, put_lerror e (if decide (e = TNT_LOG_ESYSTEM) then fs_errno w else l_errno l) l).

Definition tnt_log_close l w : option (tnt_log * fsys) :=
  w ← match l_fd l with Some (Opened n) => fclose (Opened n) w | _ => Some w end;
  Some (put_lfd None l, w).

Definition tnt_log_open_err l e w : option (Z * tnt_log * fsys) :=
  let '(_, l) := tnt_log_seterr l e w in
  '(l, w) ← tnt_log_close l w;
  Some (-1, l, w).

(** A bound on the loops that consume a file: a byte at least each time. *)
Definition file_bound (h : handle) w : nat := match file_of w h with Some f => S (length (f_data f)) | None => O end.

(** The loop over the lines of the header: false at the end of the file. *)
Fixpoint skip_header (n : nat) (h : handle) w : option (bool * fsys) :=
  match n with
  | O => None
  | S n =>
      '(rc, w) ← fgets 256 h w;
      match rc with
      | None => Some (false, w)
      | Some buf => if decide (c_str buf = [10] \/ c_str buf = [13; 10]) then Some (true, w) else skip_header n h w
      end
  end.

(** The interfaces and the magic for a type. *)
Definition log_interfaces (type : tnt_log_type) l : bytes * option process_fn :=
  match type with
  | TNT_LOG_XLOG => (TNT_LOG_MAGIC_XLOG, Some ProcessXlog)
  | TNT_LOG_SNAPSHOT => (TNT_LOG_MAGIC_SNAP, Some ProcessSnapshot)
  | TNT_LOG_NONE => ([], l_process l)
  end.

(** [tnt_log_open]; a file of [None] is [NULL]. *)
Definition tnt_log_open l (file : option bytes) (type : tnt_log_type) w : option (Z * tnt_log * fsys) :=
  let l := put_type type l in
  let '(fd, w) := match file with Some path => fopen path w | None => (Some Stdin, w) end in
  let l := put_lfd fd l in
  match fd with
  | None => tnt_log_open_err l TNT_LOG_ESYSTEM w
  | Some h =>
      '(filetype, w) ← fgets 32 h w;
      match filetype with
      | None => tnt_log_open_err l TNT_LOG_ESYSTEM w
      | Some filetype =>
          '(version, w) ← fgets 32 h w;
          match version with
          | None => tnt_log_open_err l TNT_LOG_ESYSTEM w
          | Some version =>
              let '(magic, process) := log_interfaces type l in
              let l := put_interfaces process l in
              if decide (c_str filetype <> magic) then tnt_log_open_err l TNT_LOG_ETYPE w else
              if decide (c_str version <> TNT_LOG_VERSION) then tnt_log_open_err l TNT_LOG_EVERSION w else
              '(ok, w) ← skip_header (file_bound h w) h w;
              if negb ok then tnt_log_open_err l TNT_LOG_EFAIL w else
              o ← ftello h w;
              Some (0, put_value VZero (put_current_offset 0 (put_loffset o l)), w)
          end
      end
  end.

Definition tnt_log_seek l (offset : Z) w : option (Z * tnt_log * fsys) :=
  let l := put_loffset offset l in
  h ← l_fd l;
  '(rc, w) ← fseeko h offset w;
  Some (rc, l, w).

(** ** Reading a record *)

(** [tnt_log_eof]; [data] is freed unless it is [NULL]. *)
Definition tnt_log_eof l (data : ptr) w : option (Z * tnt_log * fsys) :=
  _ ← match data with PNull => Some PNull | _ => tnt_mem_free custom_realloc data end;
  h ← l_fd l;
  o ← ftello h w;
  if decide (o = l_offset l + 4) then
    '(_, w) ← fseeko h (l_offset l) w;
    '(mk, w) ← fread 4 h w;
    if decide (length mk <> 4%nat) then let '(rc, l) := tnt_log_seterr l TNT_LOG_ESYSTEM w in Some (rc, l, w)
    else if decide (le_val mk <> tnt_log_marker_eof_v11) then let '(rc, l) := tnt_log_seterr l TNT_LOG_ECORRUPT w in Some (rc, l, w)
    else o ← ftello h w; Some (1, put_loffset o l, w)
  else Some (1, l, w).

(** [marker >> 8 | ((uint32_t) c & 0xff) << 24] *)
Definition shift_marker (marker c : Z) : Z := Z.lor (Z.shiftr marker 8) (u32 (Z.shiftl (Z.land (u32 c) 0xff) 24)).

(** Seeking the marker: false at the end of the file. *)
Fixpoint seek_marker (n : nat) (marker : Z) (h : handle) w : option (bool * fsys) :=
  if decide (marker = tnt_log_marker_v11) then Some (true, w) else
  match n with
  | O => None
  | S n =>
      '(c, w) ← fgetc h w;
      match c with None => Some (false, w) | Some c => seek_marker n (shift_marker marker c) h w end
  end.

(** The first [bs] bytes of [current.hdr]. *)
Definition fill_hdr (bs : bytes) l : tnt_log :=
  let c := current l in
  put_current (Row (bs ++ drop (length bs) (c_hdr c)) (c_row c) (c_row_snap c)) l.

(** The end of [tnt_log_read]: the payload.  The [ptr] is [*buf], and [None] for
    it when it is not set. *)
Definition read_data l m (h : handle) w : option (Z * option ptr * tnt_log * malloc_state * fsys) :=
  let len := Z.to_nat (hdr_len (c_hdr (current l))) in
  let '(a, m) := match len with O => (Refuse, m) | _ => pop m end in
  data ← tnt_mem_alloc custom_realloc a len;
  match data with
  | PNull => let '(rc, l) := tnt_log_seterr l TNT_LOG_EMEMORY w in Some (rc, None, l, m, w)
  | _ =>
      '(bs, w) ← fread len h w;
      data ← store data 0 bs;
      if decide (length bs <> len) then '(rc, l, w) ← tnt_log_eof l data w; Some (rc, None, l, m, w) else
      bs ← load data 0 len;
      if decide (crc32c 0 bs <> hdr_crc32_data (c_hdr (current l))) then
        _ ← tnt_mem_free custom_realloc data;
        let '(rc, l) := tnt_log_seterr l TNT_LOG_ECORRUPT w in Some (rc, None, l, m, w)
      else Some (0, Some data, l, m, w)
  end.

(** What follows the marker: the header. *)
Definition read_header l m (h : handle) w : option (Z * option ptr * tnt_log * malloc_state * fsys) :=
  '(bs, w) ← fread HDR_SIZE h w;
  let l := fill_hdr bs l in
  if decide (length bs <> HDR_SIZE) then '(rc, l, w) ← tnt_log_eof l PNull w; Some (rc, None, l, m, w) else
  o ← ftello h w;
  let l := put_loffset o l in
  let hdr := c_hdr (current l) in
  if decide (crc32c 0 (drop 4 hdr) <> hdr_crc32_hdr hdr) then
    let '(rc, l) := tnt_log_seterr l TNT_LOG_ECORRUPT w in Some (rc, None, l, m, w)
  else read_data l m h w.

(** [tnt_log_read]; [*size] is [current.hdr.len]. *)
Definition tnt_log_read l m w : option (Z * option ptr * tnt_log * malloc_state * fsys) :=
  h ← l_fd l;
  o ← ftello h w;
  let l := put_current_offset o l in
  '(mk, w) ← fread 4 h w;
  if decide (length mk <> 4%nat) then '(rc, l, w) ← tnt_log_eof l PNull w; Some (rc, None, l, m, w) else
  '(found, w) ← seek_marker (file_bound h w) (le_val mk) h w;
  if negb found then '(rc, l, w) ← tnt_log_eof l PNull w; Some (rc, None, l, m, w) else
  read_header l m h w.

(** ** Records *)

(** [tnt_log_process_xlog] *)
Definition tnt_log_process_xlog l (buf : ptr) (value : tnt_log_value) w : option (Z * tnt_log * tnt_log_value) :=
  row ← load buf 0 ROW_SIZE;
  let c := current l in
  let l := put_current (Row (c_hdr c) row (c_row_snap c)) l in
  let size := hdr_len (c_hdr c) - Z.of_nat ROW_SIZE in
  body ← load buf ROW_SIZE (Z.to_nat size);
  '(rc, r) ← lg_request_parse lg_request_init body (row_op row) (u32 size);
  if decide (rc <> 0) then let '(rc, l) := tnt_log_seterr l TNT_LOG_ECORRUPT w in Some (rc, l, VRequest r)
  else Some (0, l, VRequest r).

(** [tnt_log_process_snapshot] *)
Definition tnt_log_process_snapshot l (buf : ptr) (value : tnt_log_value) w : option (Z * tnt_log * tnt_log_value) :=
  t ← value_tuple value;
  t ← lg_tuple_free t;
  row ← load buf 0 ROW_SNAP_SIZE;
  let c := current l in
  let l := put_current (Row (c_hdr c) (c_row c) row) l in
  block ← block_of buf;
  '(ok, t) ← lg_tuple_set_as t (drop ROW_SNAP_SIZE block) (snap_data_size row) (snap_tuple_size row);
  if ok : bool then Some (0, l, VTuple t)
  else let '(rc, l) := tnt_log_seterr l TNT_LOG_ECORRUPT w in Some (rc, l, VTuple t).

Definition process (p : process_fn) := match p with ProcessXlog => tnt_log_process_xlog | ProcessSnapshot => tnt_log_process_snapshot end.

(** What [tnt_log_next_to] does with a record that has been read. *)
Definition process_record l (buf : ptr) (value : tnt_log_value) m w : option (bool * tnt_log * tnt_log_value * malloc_state * fsys) :=
  p ← l_process l;
  '(rc, l, value) ← process p l buf value w;
  if decide (rc <> 0) then _ ← tnt_mem_free custom_realloc buf; Some (false, l, value, m, w) else
  if decide (l_type l = TNT_LOG_XLOG) then
    r ← match value with VRequest r => Some r | _ => None end;
    Some (true, l, VRequest (lg_request_setorigin r buf (hdr_len (c_hdr (current l)))), m, w)
  else _ ← tnt_mem_free custom_realloc buf; Some (true, l, value, m, w).

(** [tnt_log_next_to]: whether it returns a row ([&l->current]) or [NULL]. *)
Definition tnt_log_next_to l (value : tnt_log_value) m w : option (bool * tnt_log * tnt_log_value * malloc_state * fsys) :=
  if negb (l_read l) then None else
  '(rc, buf, l, m, w) ← tnt_log_read l m w;
  if decide (rc <> 0) then Some (false, l, value, m, w) else
  buf ← buf;
  process_record l buf value m w.

Definition tnt_log_next l m w : option (bool * tnt_log * malloc_state * fsys) :=
  '(row, l, v, m, w) ← tnt_log_next_to l (current_value l) m w;
  Some (row, put_value v l, m, w).

(** ** Errors *)

Definition tnt_log_error_of l : tnt_log_error := l_error l.
Definition tnt_log_errno l : Z := l_errno l.

(** [tnt_log_error_list\[e\].desc]; [None] is [NULL]. *)
Definition tnt_log_error_list (e : tnt_log_error) : option bytes :=
  match e with
  | TNT_LOG_EOK => Some (chars "ok")
  | TNT_LOG_EFAIL => Some (chars "fail")
  | TNT_LOG_EMEMORY => Some (chars "memory allocation failed")
  | TNT_LOG_ETYPE => Some (chars "file type mismatch")
  | TNT_LOG_EVERSION => Some (chars "file version mismatch")
  | TNT_LOG_ECORRUPT => Some (chars "file crc failed or bad eof marker")
  | TNT_LOG_ESYSTEM => Some (chars "system error")
  | TNT_LOG_LAST => None
  end.

(** [tnt_log_strerror]; [strerror] is the C library's. *)
Definition tnt_log_strerror (strerror : Z -> bytes) l : option bytes :=
  if decide (l_error l = TNT_LOG_ESYSTEM) then
    Some (take 255 (strerror (l_errno l) ++ chars " (errno: " ++ format_int (l_errno l) ++ chars ")"))
  else tnt_log_error_list (l_error l).

(** ** The streams

    Both streams hold a [struct tnt_log]; as for the network stream, the world
    is kept with it. *)

Definition slog : Type := tnt_log * fsys.
Implicit Types (s : stream slog).

Definition tnt_xlog_free s : option (stream slog * fsys) :=
  '(l, w) ← st_data s;
  '(_, w) ← tnt_log_close l w;
  Some (set_data None s, w).

(** [tnt_xlog_request s r]: 0, 1 at the end of the log, -1 for an error. *)
Definition tnt_xlog_request s (r : lg_request) : option (Z * stream slog * lg_request) :=
  '(l, w) ← st_data s;
  '(row, l, v, m, w) ← tnt_log_next_to l (VRequest r) (st_mem s) w;
  r ← match v with VRequest r => Some r | _ => None end;
  let s := set_mem m (set_data (Some (l, w)) s) in
  Some (if negb row && bool_decide (l_error l = TNT_LOG_EOK) then 1 else if row then 0 else -1, s, r).

(** [tnt_xlog]; [given] as in [tnt_stream_init].  [None] is [NULL]. *)
Definition tnt_xlog (given : bool) w m : option (stream slog) :=
  s ← tnt_stream_init given m;
  match pop (st_mem s) with
  | (Refuse, _) => None
  | (Grant _, m) => Some (set_mem m (set_data (Some (zero_log, w)) s))
  end.

(** [tnt_log_open(&TNT_SXLOG_CAST(s)->log, file, type)] *)
Definition slog_open (type : tnt_log_type) s (file : option bytes) : option (Z * stream slog) :=
  '(l, w) ← st_data s;
  '(rc, l, w) ← tnt_log_open l file type w;
  Some (rc, set_data (Some (l, w)) s).

Definition tnt_xlog_open := slog_open TNT_LOG_XLOG.

Definition tnt_xlog_close s : option (stream slog) :=
  '(l, w) ← st_data s;
  '(l, w) ← tnt_log_close l w;
  Some (set_data (Some (l, w)) s).

Definition tnt_xlog_error s : option tnt_log_error := '(l, _) ← st_data s; Some (l_error l).
Definition tnt_xlog_strerror strerror s : option (option bytes) := '(l, _) ← st_data s; Some (tnt_log_strerror strerror l).
Definition tnt_xlog_errno s : option Z := '(l, _) ← st_data s; Some (l_errno l).

Definition tnt_snapshot_free s : option (stream slog * fsys) :=
  '(l, w) ← st_data s;
  '(_, w) ← tnt_log_close l w;
  Some (set_data None s, w).

Definition tnt_snapshot_read_tuple s (t : lg_tuple) : option (Z * stream slog * lg_tuple) :=
  '(l, w) ← st_data s;
  '(row, l, v, m, w) ← tnt_log_next_to l (VTuple t) (st_mem s) w;
  t ← value_tuple v;
  let s := set_mem m (set_data (Some (l, w)) s) in
  Some (if negb row && bool_decide (l_error l = TNT_LOG_EOK) then 1 else if row then 0 else -1, s, t).

Definition tnt_snapshot (given : bool) w m : option (stream slog) :=
  s ← tnt_stream_init given m;
  match pop (st_mem s) with
  | (Refuse, _) => None
  | (Grant _, m) => Some (set_mem m (set_data (Some (zero_log, w)) s))
  end.

Definition tnt_snapshot_open := slog_open TNT_LOG_SNAPSHOT.

Definition tnt_snapshot_close s : option (stream slog) :=
  '(l, w) ← st_data s;
  '(l, w) ← tnt_log_close l w;
  Some (set_data (Some (l, w)) s).

Definition tnt_snapshot_error s : option tnt_log_error := '(l, _) ← st_data s; Some (l_error l).
Definition tnt_snapshot_strerror strerror s : option (option bytes) := '(l, _) ← st_data s; Some (tnt_log_strerror strerror l).
Definition tnt_snapshot_errno s : option Z := '(l, _) ← st_data s; Some (l_errno l).

End log.
