(* ===== verification/LogSpec.v ===== *)
(** * Properties of the readers of logs (Log)

    A reference encoder of logs, and what the readers make of its files, whole,
    truncated or with garbage between the records. *)

From stdpp Require Import gmap.
From S2P Require Import Prelude Mem Uri Stream Murmur Stdio Net Log.

(** ** The format *)

Definition le (n : nat) (z : Z) : bytes := rev (be n z).
Definition marker_bytes : bytes := le 4 tnt_log_marker_v11.
Definition eof_bytes : bytes := le 4 tnt_log_marker_eof_v11.

Lemma length_le n z : length (le n z) = n.
Proof. unfold le. by rewrite length_rev, length_be. Qed.
Lemma le_val_le n z : 0 <= z < 256 ^ Z.of_nat n -> le_val (le n z) = z.
Proof. intros H. unfold le_val, le. rewrite rev_involutive. by apply be_val_small. Qed.
Lemma le_bytes n z : Forall is_byte (le n z).
Proof. unfold le. apply Forall_rev. auto. Qed.
Lemma length_marker : length marker_bytes = 4%nat.
Proof. done. Qed.
#[export] Hint Rewrite length_le length_marker : len.

(** Window of four bytes. *)
Lemma le_val_4 a b c d : le_val [a; b; c; d] = a + 256 * (b + 256 * (c + 256 * d)).
Proof. rewrite !le_val_cons. change (le_val []) with 0. lia. Qed.

Lemma shift_window a b c d x :
  is_byte a -> is_byte b -> is_byte c -> is_byte d -> is_byte x ->
  shift_marker (le_val [a; b; c; d]) x = le_val [b; c; d; x].
Proof.
  unfold is_byte. intros. unfold shift_marker.
  assert (Z.land (u32 x) 255 = x) as ->.
  { unfold u32. rewrite (Z.mod_small x) by lia. change 255 with (Z.ones 8). rewrite Z.land_ones by lia. apply Z.mod_small. lia. }
  assert (u32 (Z.shiftl x 24) = Z.shiftl x 24) as ->.
  { rewrite Z.shiftl_mul_pow2 by lia. apply u32_small. lia. }
  rewrite !le_val_4, (Z.shiftr_div_pow2 _ 8) by lia.
  assert ((a + 256 * (b + 256 * (c + 256 * d))) / 2 ^ 8 = b + 256 * (c + 256 * d)) as ->.
  { symmetry. apply (Z.div_unique _ _ _ a); lia. }
  rewrite lor_shiftl by lia. lia.
Qed.

Lemma window_inj u v : length u = 4%nat -> length v = 4%nat -> Forall is_byte u -> Forall is_byte v -> le_val u = le_val v -> u = v.
Proof.
  destruct u as [|a [|b [|c [|d [|]]]]]; try done. destruct v as [|a' [|b' [|c' [|d' [|]]]]]; try done.
  intros _ _ Hu Hv. rewrite !Forall_cons in Hu, Hv. unfold is_byte in *. rewrite !le_val_4. intros. repeat (f_equal; try lia).
Qed.

(** The first marker of [junk ++ marker_bytes] is at its end. *)
Fixpoint clean (junk : bytes) : Prop :=
  match junk with [] => True | _ :: j => take 4 (junk ++ marker_bytes) <> marker_bytes /\ clean j end.

(** No marker at all. *)
Fixpoint no_marker (bs : bytes) : Prop :=
  match bs with [] => True | _ :: s => take 4 bs <> marker_bytes /\ no_marker s end.

#[export] Instance clean_dec junk : Decision (clean junk).
Proof. induction junk; simpl; apply _. Defined.
#[export] Instance no_marker_dec bs : Decision (no_marker bs).
Proof. induction bs; simpl; apply _. Defined.

Section format.
Context {LG : Legacy}.

(** A record: its number, its time, its payload. *)
Record log_entry := Entry { e_lsn : Z; e_tm : bytes; e_data : bytes }.

Definition header_body (e : log_entry) : bytes := le 8 (e_lsn e) ++ e_tm e ++ le 4 (zlen (e_data e)) ++ le 4 (crc32c 0 (e_data e)).
Definition header_of (e : log_entry) : bytes := le 4 (crc32c 0 (header_body e)) ++ header_body e.
Definition record_bytes (e : log_entry) : bytes := marker_bytes ++ header_of e ++ e_data e.

Definition entry_ok (e : log_entry) : Prop :=
  0 <= e_lsn e < 2 ^ 64 /\ length (e_tm e) = 8%nat /\ (0 < length (e_data e))%nat /\ zlen (e_data e) < 2 ^ 32.

(** The type of [crc32c]. *)
Definition crc_range : Prop := forall s bs, 0 <= crc32c s bs < 2 ^ 32.

Lemma log_header_fields e : entry_ok e -> crc_range ->
  length (header_of e) = HDR_SIZE /\ drop 4 (header_of e) = header_body e /\
  hdr_crc32_hdr (header_of e) = crc32c 0 (header_body e) /\ hdr_lsn (header_of e) = e_lsn e /\
  hdr_len (header_of e) = zlen (e_data e) /\ hdr_crc32_data (header_of e) = crc32c 0 (e_data e).
Proof.
  intros (Hl & Ht & Hd & Hz) Hc. unfold hdr_crc32_hdr, hdr_lsn, hdr_len, hdr_crc32_data, header_of.
  pose proof (Hc 0 (header_body e)). pose proof (Hc 0 (e_data e)).
  assert (forall n z (tl : bytes), drop n (le n z ++ tl) = tl) as Hdrop by (intros; by rewrite drop_app_length' by len).
  assert (forall n z (tl : bytes), take n (le n z ++ tl) = le n z) as Htake by (intros; by rewrite take_app_length' by len).
  assert (drop 20 (le 4 (crc32c 0 (header_body e)) ++ header_body e) = le 4 (zlen (e_data e)) ++ le 4 (crc32c 0 (e_data e))) as H20.
  { change 20%nat with (4 + (8 + 8))%nat. rewrite <- !drop_drop. rewrite Hdrop. unfold header_body. rewrite Hdrop. by rewrite drop_app_length' by done. }
  split; [unfold header_body; len; rewrite Ht; done|]. split; [apply Hdrop|]. split; [rewrite Htake; apply le_val_le; lia|].
  split; [rewrite Hdrop; unfold header_body; rewrite Htake; apply le_val_le; lia|].
  split; [rewrite H20, Htake; apply le_val_le; len|].
  replace (drop 24 _) with (drop 4 (drop 20 (le 4 (crc32c 0 (header_body e)) ++ header_body e))) by (by rewrite drop_drop).
  rewrite H20, Hdrop, firstn_all2 by len. apply le_val_le. lia.
Qed.

End format.

(** ** Finding records *)

Section reading.
Context {LG : Legacy} (Hcrc : crc_range).
Context (h : handle) (f : FILE) (w0 : fsys) (Hbytes : Forall is_byte (f_data f)).
#[local] Abbreviation rest := (rest f).
#[local] Abbreviation pos := (at_pos h f w0).

Lemma rest_drop p n : rest (p + n) = drop n (rest p).
Proof. unfold Stdio.rest. by rewrite drop_drop. Qed.

Lemma rest_bytes p : Forall is_byte (rest p).
Proof. by apply Forall_drop. Qed.

Lemma rest_length p : length (rest p) = (length (f_data f) - p)%nat.
Proof. apply length_drop. Qed.

Lemma file_bound_at p : file_bound h (pos p) = S (length (f_data f)).
Proof. unfold file_bound. by rewrite file_of_at. Qed.

Lemma marker_val u : length u = 4%nat -> Forall is_byte u -> le_val u = tnt_log_marker_v11 <-> u = marker_bytes.
Proof.
  intros Hl Hu. split; [|intros ->; by apply le_val_le].
  intros E. apply window_inj; [done|done|done|apply le_bytes|]. rewrite E. by vm_compute.
Qed.

(** One step of the window over the file. *)
Lemma next_window q x s :
  drop 4 (rest q) = x :: s ->
  shift_marker (le_val (take 4 (rest q))) x = le_val (take 4 (rest (q + 1))) /\ rest (q + 5) = s.
Proof.
  intros E. assert (rest (q + 5) = s) as Hs by (rewrite (rest_drop q 5); change 5%nat with (4 + 1)%nat; rewrite <- drop_drop, E; done).
  split; [|done]. rewrite rest_drop. pose proof (rest_bytes q) as Hb.
  destruct (rest q) as [|a [|b [|c [|d l]]]]; try done. rewrite !skipn_cons, drop_0 in E. subst l.
  rewrite !Forall_cons in Hb. destruct Hb as (? & ? & ? & ? & ? & _). cbn. by apply shift_window.
Qed.

Lemma window_ok q : (4 <= length (rest q))%nat -> length (take 4 (rest q)) = 4%nat /\ Forall is_byte (take 4 (rest q)).
Proof. split; [len|]. apply Forall_take, rest_bytes. Qed.

Lemma seek_found more junk : forall q n,
  rest q = junk ++ marker_bytes ++ more -> clean junk -> (length junk <= n)%nat ->
  seek_marker n (le_val (take 4 (rest q))) h (pos (q + 4)) = Some (true, pos (q + length junk + 4)).
Proof.
  induction junk as [|c junk IH]; intros q n E Hc Hn.
  - rewrite E, app_nil_l, take_app_length' by done. destruct n; cbn [seek_marker]; (rewrite decide_True by by vm_compute); by rewrite Nat.add_0_r.
  - destruct Hc as [Hc Hcl]. simpl length in Hn. destruct n as [|n]; [lia|].
    assert (4 <= length (rest q))%nat as H4 by (rewrite E; len).
    destruct (window_ok q H4) as [Hl Hb].
    assert (take 4 (rest q) = take 4 ((c :: junk) ++ marker_bytes)) as Ht.
    { rewrite E, app_assoc, take_app_le; [done|]. len. }
    cbn [seek_marker]. rewrite decide_False by (rewrite marker_val, Ht by done; done).
    rewrite fgetc_at, rest_drop. destruct (drop 4 (rest q)) as [|x s] eqn:Ed.
    { exfalso. apply (f_equal length) in Ed. rewrite length_drop, E in Ed. len. }
    cbn [mbind option_bind]. destruct (next_window q x s Ed) as [-> _].
    replace (q + 4 + 1)%nat with (q + 1 + 4)%nat by lia.
    rewrite IH; [do 3 f_equal; simpl; lia| |done|lia]. rewrite rest_drop, E. done.
Qed.

Lemma seek_none s : forall q n,
  rest q = s -> (4 <= length s)%nat -> no_marker s -> (length s <= n + 3)%nat ->
  seek_marker n (le_val (take 4 (rest q))) h (pos (q + 4)) = Some (false, pos (q + length s)).
Proof.
  induction s as [|c s IH]; intros q n E H4 Hm Hn; [simpl in H4; lia|]. destruct Hm as [Hm Hnm].
  rewrite <- E in H4, Hm. destruct (window_ok q H4) as [Hl Hb]. destruct n as [|n]; [rewrite E in H4; simpl in *; lia|].
  cbn [seek_marker]. rewrite decide_False by (rewrite marker_val by done; done).
  rewrite fgetc_at, rest_drop. destruct (drop 4 (rest q)) as [|x s'] eqn:Ed; cbn [mbind option_bind].
  - apply (f_equal length) in Ed. rewrite length_drop in Ed. rewrite E in H4, Ed. simpl in *. do 3 f_equal. lia.
  - destruct (next_window q x s' Ed) as [-> _]. replace (q + 4 + 1)%nat with (q + 1 + 4)%nat by lia.
    assert (rest (q + 1) = s) as E1 by (rewrite rest_drop, E; done).
    apply (f_equal length) in Ed. rewrite length_drop, E in Ed. simpl in Ed, Hn.
    rewrite IH; [do 3 f_equal; simpl; lia|done|lia|done|lia].
Qed.


(** ** The end of a log *)

(** What a call of [tnt_log_read] leaves alone. *)
Definition log_kept (l l' : tnt_log) : Prop :=
  l_type l' = l_type l /\ l_fd l' = l_fd l /\ l_read l' = l_read l /\ l_process l' = l_process l /\
  current_value l' = current_value l /\ length (c_hdr (current l')) = length (c_hdr (current l)).

Lemma log_kept_refl l : log_kept l l.
Proof. done. Qed.
Lemma log_kept_trans l1 l2 l3 : log_kept l1 l2 -> log_kept l2 l3 -> log_kept l1 l3.
Proof. unfold log_kept. intuition congruence. Qed.

(** The result at the end of the file, [bs] being what follows the last
    header: four bytes are taken for the marker of the end, and nothing else
    is looked at. *)
Definition verdict (bs : bytes) : Z := if decide (length bs = 4%nat /\ bs <> eof_bytes) then -1 else 1.

Lemma verdict_cases bs : verdict bs = -1 \/ verdict bs = 1.
Proof. unfold verdict. case_decide; auto. Qed.

Definition error_after (rc : Z) (l l' : tnt_log) : Prop :=
  l_error l' = (if decide (rc = -1) then TNT_LOG_ECORRUPT else l_error l).

Definition live_or_null (p : ptr) : Prop := p = PNull \/ exists b, p = PHeap b.

Lemma log_eof_ok l data p :
  live_or_null data -> l_fd l = Some h -> f_seekable f = true -> p = length (f_data f) -> 0 <= l_offset l <= Z.of_nat p ->
  exists l', tnt_log_eof l data (pos p) = Some (verdict (rest (Z.to_nat (l_offset l))), l', pos p) /\
    log_kept l l' /\ error_after (verdict (rest (Z.to_nat (l_offset l)))) l l'.
Proof.
  intros Hd Hf Hs -> Ho. set (o := Z.to_nat (l_offset l)). unfold tnt_log_eof.
  assert (match data with PNull => Some PNull | _ => tnt_mem_free custom_realloc data end = Some (match data with PNull => PNull | _ => PDangling end)) as ->.
  { destruct Hd as [->|[b ->]]; done. }
  cbn [mbind option_bind]. rewrite Hf. cbn [mbind option_bind]. rewrite ftello_at, Hs. cbn [mbind option_bind].
  assert (length (rest o) = (length (f_data f) - o)%nat) as Hl by apply rest_length. unfold verdict, error_after. case_decide as E.
  - replace (l_offset l) with (Z.of_nat o) by (unfold o; lia). rewrite fseeko_at by done. cbn [mbind option_bind].
    rewrite (fread_at h f w0 4 o (rest o)) by (rewrite firstn_all2; [done|lia]). cbn [mbind option_bind].
    assert (length (rest o) = 4%nat) as H4 by lia. rewrite H4, decide_False by auto.
    assert (le_val (rest o) = tnt_log_marker_eof_v11 <-> rest o = eof_bytes) as Hiff.
    { split; [|intros ->; by apply le_val_le]. intros Ee. apply window_inj; [done|done|by apply rest_bytes|apply le_bytes|]. rewrite Ee. by vm_compute. }
    replace (o + 4)%nat with (length (f_data f)) by lia. destruct (decide (rest o = eof_bytes)) as [Ee|Ee].
    + rewrite (decide_False (P := le_val _ <> _)) by (intros H; by apply H, Hiff). rewrite ftello_at. cbn [mbind option_bind].
      rewrite (decide_False (P := _ /\ _)) by tauto. by eexists.
    + rewrite (decide_True (P := le_val _ <> _)) by (by rewrite Hiff). rewrite (decide_True (P := _ /\ _)) by done. by eexists.
  - rewrite decide_False by (intros []; lia). by eexists.
Qed.

(** ** One call of [tnt_log_read] *)

Context (Hseek : f_seekable f = true).

(** An open log, at [p] in the file. *)
Definition open_log (l : tnt_log) (p : nat) : Prop :=
  l_fd l = Some h /\ length (c_hdr (current l)) = HDR_SIZE /\ 0 <= l_offset l <= Z.of_nat p /\ (p <= length (f_data f))%nat.

(** The end of the file: the result, the new state of the log. *)
Definition ends (since : bytes) l m (res : option (Z * option ptr * tnt_log * malloc_state * fsys)) : Prop :=
  exists l', res = Some (verdict since, None, l', m, pos (length (f_data f))) /\ log_kept l l' /\ error_after (verdict since) l l'.

Lemma ends_from l1 l m since res : log_kept l1 l -> l_error l = l_error l1 -> ends since l m res -> ends since l1 m res.
Proof.
  intros Hk He (l' & -> & Hk' & He'). exists l'. split; [done|]. split; [by eapply log_kept_trans|]. unfold error_after in *. by rewrite He', He.
Qed.

Lemma eof_ends l m data p :
  open_log l p -> live_or_null data -> p = length (f_data f) ->
  ends (rest (Z.to_nat (l_offset l))) l m ('(rc, l, w) ← tnt_log_eof l data (pos p); Some (rc, None, l, m, w)).
Proof.
  intros (Hf & _ & Ho & _) Hd ->. destruct (log_eof_ok l data _ Hd Hf Hseek eq_refl Ho) as (l' & -> & Hk & He). by exists l'.
Qed.

Lemma open_current l p o : open_log l p -> open_log (put_current_offset o l) p.
Proof. done. Qed.

Lemma open_fill l p bs q : open_log l p -> (length bs <= HDR_SIZE)%nat -> (p <= q <= length (f_data f))%nat -> open_log (fill_hdr bs l) q.
Proof.
  intros (H1 & H2 & H3 & H4) Hb Hq. split; [done|]. split; [|split; [simpl; lia|lia]]. simpl. len.
Qed.

Lemma fill_kept l bs : length (c_hdr (current l)) = HDR_SIZE -> (length bs <= HDR_SIZE)%nat -> log_kept l (fill_hdr bs l).
Proof. intros H Hb. repeat (split; [done|]). simpl. len. Qed.

Lemma read_found l m p junk more :
  open_log l p -> rest p = junk ++ marker_bytes ++ more -> clean junk ->
  tnt_log_read l m (pos p) = read_header (put_current_offset (Z.of_nat p) l) m h (pos (p + length junk + 4)).
Proof.
  intros (Hf & _) E Hc. assert (4 <= length (rest p))%nat as H4 by (rewrite E; len).
  unfold tnt_log_read. rewrite Hf. cbn [mbind option_bind]. rewrite ftello_at, Hseek. cbn [mbind option_bind].
  rewrite (fread_at h f w0 4 p (take 4 (rest p)) eq_refl). cbn [mbind option_bind]. rewrite decide_False by (rewrite length_take; lia).
  rewrite file_bound_at. replace (p + length (take 4 (rest p)))%nat with (p + 4)%nat by len.
  rewrite (seek_found more junk); [done|done|done|].
  apply (f_equal length) in E. rewrite rest_length, !length_app in E. lia.
Qed.

Lemma read_not_found l m p :
  open_log l p -> no_marker (rest p) -> ends (rest (Z.to_nat (l_offset l))) l m (tnt_log_read l m (pos p)).
Proof.
  intros Hl Hn. pose proof Hl as (Hf & Hh & Ho & Hp).
  assert (open_log (put_current_offset (Z.of_nat p) l) (length (f_data f))) as Hl' by (split; [done|]; split; [done|]; simpl; lia).
  pose proof (rest_length p) as Hr.
  unfold tnt_log_read. rewrite Hf. cbn [mbind option_bind]. rewrite ftello_at, Hseek. cbn [mbind option_bind].
  rewrite (fread_at h f w0 4 p (take 4 (rest p)) eq_refl). cbn [mbind option_bind]. case_decide as E4.
  - replace (p + length (take 4 (rest p)))%nat with (length (f_data f)) by len.
    eapply ends_from; [| |apply (eof_ends (put_current_offset (Z.of_nat p) l) m PNull); [done|by left|done]]; done.
  - rewrite length_take in E4. replace (p + length (take 4 (rest p)))%nat with (p + 4)%nat by len.
    rewrite file_bound_at, (seek_none (rest p)) by (done || lia). cbn [mbind option_bind negb].
    replace (p + length (rest p))%nat with (length (f_data f)) by lia.
    eapply ends_from; [| |apply (eof_ends (put_current_offset (Z.of_nat p) l) m PNull); [done|by left|done]]; done.
Qed.

(** The log after a complete header. *)
Definition after_header (e : log_entry) (q : nat) (l : tnt_log) : tnt_log :=
  put_loffset (Z.of_nat (q + HDR_SIZE)) (put_current (Row (header_of e) (c_row (current l)) (c_row_snap (current l))) l).

Lemma read_header_full l m q e more :
  open_log l q -> entry_ok e -> rest q = header_of e ++ more ->
  read_header l m h (pos q) = read_data (after_header e q l) m h (pos (q + HDR_SIZE)) /\
  open_log (after_header e q l) (q + HDR_SIZE) /\ log_kept l (after_header e q l).
Proof.
  intros (Hf & Hh & Ho & Hp) He E. destruct (log_header_fields e He Hcrc) as (Hlen & Hdrop & Hc & _).
  split; [|split].
  - unfold read_header. rewrite (fread_at h f w0 HDR_SIZE q (header_of e)) by (by rewrite E, take_app_length'). cbn [mbind option_bind].
    rewrite Hlen, decide_False by auto. rewrite ftello_at, Hseek. cbn [mbind option_bind].
    assert (fill_hdr (header_of e) l = put_current (Row (header_of e) (c_row (current l)) (c_row_snap (current l))) l) as ->.
    { unfold fill_hdr. rewrite drop_ge, app_nil_r by lia. done. }
    fold (after_header e q l). change (c_hdr (current (after_header e q l))) with (header_of e).
    by rewrite Hdrop, Hc, decide_False by auto.
  - split; [done|]. split; [done|]. apply (f_equal length) in E. rewrite rest_length, length_app, Hlen in E. unfold after_header. cbn [l_offset put_loffset]. unfold HDR_SIZE in *. lia.
  - repeat (split; [done|]). change (c_hdr (current (after_header e q l))) with (header_of e). by rewrite Hlen, Hh.
Qed.

Lemma read_header_torn l m q bs :
  open_log l q -> rest q = bs -> (length bs < HDR_SIZE)%nat ->
  ends (rest (Z.to_nat (l_offset l))) l m (read_header l m h (pos q)).
Proof.
  intros Hl E Hb. pose proof Hl as (Hf & Hh & Ho & Hp). pose proof (rest_length q) as Hr. rewrite E in Hr. unfold read_header.
  rewrite (fread_at h f w0 HDR_SIZE q bs) by (rewrite E, firstn_all2; [done|lia]). cbn [mbind option_bind]. rewrite decide_True by lia.
  replace (q + length bs)%nat with (length (f_data f)) by lia.
  apply (ends_from l (fill_hdr bs l)); [apply fill_kept; [done|lia]|done|].
  apply (eof_ends (fill_hdr bs l)); [apply (open_fill l q); [done|lia..]|by left|done].
Qed.

Lemma data_len e l q : entry_ok e -> Z.to_nat (hdr_len (c_hdr (current (after_header e q l)))) = length (e_data e).
Proof. intros He. destruct (log_header_fields e He Hcrc) as (_ & _ & _ & _ & Hl & _). simpl. rewrite Hl. apply Nat2Z.id. Qed.

Lemma fresh_block e m j m' :
  entry_ok e -> pop m = (Grant j, m') ->
  match length (e_data e) with O => (Refuse, m) | _ => pop m end = (Grant j, m') /\
  tnt_mem_alloc custom_realloc (Grant j) (length (e_data e)) = Some (PHeap (replicate (length (e_data e)) 0)).
Proof. intros (_ & _ & H0 & _) Hp. split; [by destruct (length (e_data e)); [lia|]|]. by rewrite tnt_mem_alloc_eq. Qed.

Lemma read_data_full l m q e more j m' :
  entry_ok e -> pop m = (Grant j, m') -> rest (q + HDR_SIZE) = e_data e ++ more ->
  read_data (after_header e q l) m h (pos (q + HDR_SIZE)) =
    Some (0, Some (PHeap (e_data e)), after_header e q l, m', pos (q + HDR_SIZE + length (e_data e))).
Proof.
  intros He Hpop E. destruct (log_header_fields e He Hcrc) as (_ & _ & _ & _ & _ & Hc). destruct (fresh_block e m j m' He Hpop) as [Ha Hb].
  unfold read_data. rewrite data_len, Ha by done. rewrite Hb. cbn [mbind option_bind].
  rewrite (fread_at h f w0 _ _ (e_data e)) by (by rewrite E, take_app_length). cbn [mbind option_bind].
  unfold store. rewrite replicate_splice by done. cbn [fmap option_fmap option_map mbind option_bind]. rewrite decide_False by auto.
  unfold load. simpl block_of. cbn [mbind option_bind]. pose proof (slice_all (e_data e)) as Hs. rewrite to_nat_zlen in Hs. rewrite Hs. cbn [mbind option_bind].
  change (c_hdr (current (after_header e q l))) with (header_of e). by rewrite Hc, decide_False by auto.
Qed.

Lemma read_data_torn l m q e bs j m' :
  open_log (after_header e q l) (q + HDR_SIZE) -> entry_ok e -> pop m = (Grant j, m') ->
  rest (q + HDR_SIZE) = bs -> (length bs < length (e_data e))%nat ->
  ends bs (after_header e q l) m' (read_data (after_header e q l) m h (pos (q + HDR_SIZE))).
Proof.
  intros Hl He Hpop E Hlt. destruct (fresh_block e m j m' He Hpop) as [Ha Hb]. pose proof (rest_length (q + HDR_SIZE)) as Hr. rewrite E in Hr.
  unfold read_data. rewrite data_len, Ha by done. rewrite Hb. cbn [mbind option_bind].
  rewrite (fread_at h f w0 _ _ bs) by (rewrite E, firstn_all2; [done|lia]). cbn [mbind option_bind].
  rewrite store_heap by len. cbn [mbind option_bind]. rewrite decide_True by lia.
  replace (q + HDR_SIZE + length bs)%nat with (length (f_data f)) by (destruct Hl as (_ & _ & _ & ?); lia).
  assert (bs = rest (Z.to_nat (l_offset (after_header e q l)))) as Hsince by (simpl l_offset; rewrite Nat2Z.id; done).
  rewrite Hsince at 1. apply eof_ends; [|right; by eexists|done]. destruct Hl as (H1 & H2 & H3 & H4). split; [done|]. split; [done|]. lia.
Qed.

(** ** Whole records, and the last one *)

(** The bytes of a record and of the garbage before it. *)
Definition item_bytes (i : bytes * log_entry) : bytes := i.1 ++ record_bytes i.2.
Definition item_ok (i : bytes * log_entry) : Prop := clean i.1 /\ entry_ok i.2.

Lemma read_entry l m p junk e more :
  open_log l p -> Refuse ∉ m -> clean junk -> entry_ok e -> rest p = item_bytes (junk, e) ++ more ->
  exists l' m' p', tnt_log_read l m (pos p) = Some (0, Some (PHeap (e_data e)), l', m', pos p') /\
    (Refuse ∉ m') /\ open_log l' p' /\ log_kept l l' /\ l_error l' = l_error l /\ c_hdr (current l') = header_of e /\
    rest p' = more /\ rest (Z.to_nat (l_offset l')) = e_data e ++ more.
Proof.
  intros Hl Hm Hc He E. destruct (pop m) as [a m'] eqn:Hpop. destruct (pop_granted _ _ _ Hpop Hm) as [Ha Hm']. destruct a as [|j]; [done|].
  unfold item_bytes, record_bytes in E. cbn [fst snd] in E. rewrite <- !app_assoc in E.
  assert (p + length junk + 4 <= length (f_data f))%nat as Hq.
  { apply (f_equal length) in E. destruct Hl as (_ & _ & _ & Hp). rewrite rest_length, !length_app, length_marker in E. lia. }
  set (q := (p + length junk + 4)%nat) in *.
  assert (rest q = header_of e ++ e_data e ++ more) as Eq.
  { unfold q. rewrite <- Nat.add_assoc, rest_drop, E, <- drop_drop, drop_app_length. apply drop_app_length'. done. }
  set (l1 := put_current_offset (Z.of_nat p) l).
  assert (open_log l1 q) as Hl1 by (destruct Hl as (H1 & H2 & H3 & H4); split; [done|]; split; [done|]; split; [|exact Hq]; change (l_offset l1) with (l_offset l); unfold q; lia).
  destruct (read_header_full l1 m q e _ Hl1 He Eq) as (Eh & Ho & Hk).
  assert (rest (q + HDR_SIZE) = e_data e ++ more) as Ed.
  { rewrite rest_drop, Eq. apply drop_app_length'. by destruct (log_header_fields e He Hcrc). }
  exists (after_header e q l1), m', (q + HDR_SIZE + length (e_data e))%nat.
  rewrite (read_found l m p junk _ Hl E Hc). fold q l1. rewrite Eh, (read_data_full l1 m q e more j m') by done.
  split; [done|]. split; [done|]. split; [|split; [exact Hk|split; [done|split; [done|]]]].
  - destruct Ho as (H1 & H2 & H3 & H4). split; [done|]. split; [done|].
    apply (f_equal length) in Ed. rewrite rest_length, length_app in Ed. lia.
  - split; [by rewrite rest_drop, Ed, drop_app_length|]. change (l_offset (after_header e q l1)) with (Z.of_nat (q + HDR_SIZE)). by rewrite Nat2Z.id.
Qed.

(** What can be left of a log that ends anywhere: no record, or one that is
    cut; then also what there is of its payload after a whole header. *)
Inductive torn : bytes -> option bytes -> Prop :=
  | torn_none t : no_marker t -> torn t None
  | torn_header junk e k : clean junk -> entry_ok e -> (k < HDR_SIZE)%nat ->
      torn (junk ++ marker_bytes ++ take k (header_of e)) None
  | torn_data junk e k : clean junk -> entry_ok e -> (k < length (e_data e))%nat ->
      torn (junk ++ marker_bytes ++ header_of e ++ take k (e_data e)) (Some (take k (e_data e))).

Lemma read_torn l m p t own :
  open_log l p -> Refuse ∉ m -> rest p = t -> torn t own ->
  exists m', ends (default (rest (Z.to_nat (l_offset l))) own) l m' (tnt_log_read l m (pos p)).
Proof.
  intros Hl Hm E Ht. assert (forall l1 since m' res, log_kept l l1 -> l_error l1 = l_error l -> ends since l1 m' res ->
    exists m', ends since l m' res) as Hfin.
  { intros l1 since m' res Hk He Hends. exists m'. by eapply ends_from. }
  destruct Ht as [t Hn|junk e k Hc He Hk|junk e k Hc He Hk].
  - apply (Hfin l _ m); [done|done|]. apply read_not_found; [done|]. by rewrite E.
  - rewrite (read_found l m p junk _ Hl E Hc).
    apply (Hfin (put_current_offset (Z.of_nat p) l) _ m); [done|done|]. pose proof (rest_length p) as Hr. rewrite E, !length_app, length_marker in Hr.
    apply (read_header_torn (put_current_offset (Z.of_nat p) l) m _ (take k (header_of e))).
    + destruct Hl as (H1 & H2 & H3 & H4). split; [done|]. split; [done|]. split; [cbn [l_offset put_current_offset]; lia|lia].
    + rewrite <- Nat.add_assoc, rest_drop, E, <- drop_drop, drop_app_length. by apply drop_app_length'.
    + len.
  - rewrite (read_found l m p junk _ Hl E Hc). destruct (pop m) as [a m'] eqn:Hpop. destruct (pop_granted _ _ _ Hpop Hm) as [Ha _]. destruct a as [|j]; [done|].
    destruct (log_header_fields e He Hcrc) as (Hlen & _).
    set (l1 := put_current_offset (Z.of_nat p) l). set (q := (p + length junk + 4)%nat).
    assert (rest q = header_of e ++ take k (e_data e)) as Eq.
    { unfold q. rewrite <- Nat.add_assoc, rest_drop, E, <- drop_drop, drop_app_length. by apply drop_app_length'. }
    assert (open_log l1 q) as Hl1.
    { pose proof (rest_length p) as Hr. rewrite E, !length_app, length_marker in Hr.
      destruct Hl as (H1 & H2 & H3 & H4). split; [done|]. split; [done|]. change (l_offset l1) with (l_offset l). unfold q. lia. }
    destruct (read_header_full l1 m q e _ Hl1 He Eq) as (-> & Ho & Hkp).
    apply (Hfin (after_header e q l1) _ m'); [exact Hkp|done|].
    apply (read_data_torn l1 m q e _ j m' Ho He Hpop).
    2: { change (length (take k (e_data e)) < length (e_data e))%nat. rewrite length_take. lia. }
    rewrite rest_drop, Eq. by apply drop_app_length'.
Qed.

End reading.

(** ** Any file *)

Section safety.
Context {LG : Legacy} (h : handle) (f : FILE) (w0 : fsys) (Hbytes : Forall is_byte (f_data f)).
#[local] Abbreviation rest := (rest f).
#[local] Abbreviation pos := (at_pos h f w0).

(** The errors of a call, and no error. *)
Definition eof_outcome (l l' : tnt_log) (rc : Z) : Prop :=
  rc = 1 /\ l_error l' = l_error l \/
  rc = -1 /\ (l_error l' = TNT_LOG_ESYSTEM \/ l_error l' = TNT_LOG_ECORRUPT).

Lemma eof_total l data p :
  live_or_null data -> l_fd l = Some h ->
  exists rc l' p', tnt_log_eof l data (pos p) = Some (rc, l', pos p') /\ eof_outcome l l' rc.
Proof.
  intros Hd Hf. unfold tnt_log_eof.
  assert (exists x, match data with PNull => Some PNull | _ => tnt_mem_free custom_realloc data end = Some x) as [x ->] by (destruct Hd as [->|[b ->]]; by eexists).
  cbn [mbind option_bind]. rewrite Hf. cbn [mbind option_bind]. rewrite ftello_at. cbn [mbind option_bind].
  case_decide as E; [|do 3 eexists; split; [done|by left]].
  assert (exists r q, fseeko h (l_offset l) (pos p) = Some (r, pos q)) as (r & q & ->).
  { unfold fseeko. rewrite file_of_at. cbn [mbind option_bind]. case_decide; [by eexists _, p|]. rewrite put_file_at. by eexists _, _. }
  cbn [mbind option_bind]. rewrite (fread_at h f w0 4 q _ eq_refl). cbn [mbind option_bind].
  case_decide; [do 3 eexists; split; [done|]; right; by auto|]. case_decide; [do 3 eexists; split; [done|]; right; by auto|].
  rewrite ftello_at. cbn [mbind option_bind]. do 3 eexists. split; [done|by left].
Qed.

Lemma seek_total n : forall q,
  (4 <= length (rest q))%nat -> (length (rest q) <= n + 3)%nat ->
  exists b q', seek_marker n (le_val (take 4 (rest q))) h (pos (q + 4)) = Some (b, pos (q' + 4)) /\
    (b = true -> exists pre, rest q = pre ++ rest q' /\ take 4 (rest q') = marker_bytes).
Proof.
  induction n as [|n IH]; intros q H4 Hn; [lia|]. destruct (window_ok f Hbytes q H4) as [Hl Hb]. cbn [seek_marker]. case_decide as E.
  - exists true, q. split; [done|]. intros _. exists []. split; [done|]. by apply marker_val.
  - rewrite fgetc_at, rest_drop. destruct (drop 4 (rest q)) as [|x s] eqn:Ed; cbn [mbind option_bind]; [by exists false, q|].
    destruct (next_window f Hbytes q x s Ed) as [-> _]. replace (q + 4 + 1)%nat with (q + 1 + 4)%nat by lia.
    apply (f_equal length) in Ed. rewrite length_drop in Ed. simpl in Ed.
    destruct (IH (q + 1)%nat) as (b & q' & -> & Hq); [rewrite rest_drop, length_drop; lia..|].
    exists b, q'. split; [done|]. intros Hbt. destruct (Hq Hbt) as (pre & Hp & Hm). exists (take 1 (rest q) ++ pre).
    split; [|done]. by rewrite <- app_assoc, <- Hp, rest_drop, take_drop.
Qed.

(** The result of [tnt_log_read] at [p]. *)
Definition read_result (l : tnt_log) (p : nat) (rc : Z) (buf : option ptr) (l' : tnt_log) (p' : nat) : Prop :=
  rc = 0 /\ l_error l' = l_error l /\
    (exists pre data, let hdr := c_hdr (current l') in
      buf = Some (PHeap data) /\ rest p = pre ++ marker_bytes ++ hdr ++ data ++ rest p' /\ length hdr = HDR_SIZE /\
      crc32c 0 (drop 4 hdr) = hdr_crc32_hdr hdr /\ zlen data = hdr_len hdr /\ crc32c 0 data = hdr_crc32_data hdr) \/
  buf = None /\ (eof_outcome l l' rc \/ rc = -1 /\ l_error l' = TNT_LOG_EMEMORY).

Lemma eof_result l1 l data p m p0 buf :
  l_fd l = Some h -> l_error l = l_error l1 -> live_or_null data -> buf = None ->
  exists rc l' m' p', ('(rc, l, w) ← tnt_log_eof l data (pos p); Some (rc, buf : option ptr, l, m : malloc_state, w)) = Some (rc, buf, l', m', pos p') /\
    read_result l1 p0 rc buf l' p'.
Proof.
  intros Hf He Hd ->. destruct (eof_total l data p Hd Hf) as (rc & l' & p' & -> & H). cbn [mbind option_bind].
  exists rc, l', m, p'. split; [done|]. right. split; [done|]. left. unfold eof_outcome in *. by rewrite <- He.
Qed.

Lemma read_data_safe l1 l m p p0 pre :
  l_fd l = Some h -> l_error l = l_error l1 -> length (c_hdr (current l)) = HDR_SIZE ->
  rest p0 = pre ++ marker_bytes ++ c_hdr (current l) ++ rest p ->
  crc32c 0 (drop 4 (c_hdr (current l))) = hdr_crc32_hdr (c_hdr (current l)) -> 0 <= hdr_len (c_hdr (current l)) ->
  exists rc buf l' m' p', read_data l m h (pos p) = Some (rc, buf, l', m', pos p') /\ read_result l1 p0 rc buf l' p'.
Proof.
  intros Hf He Hl E Hcrc Hlen. unfold read_data. set (n := Z.to_nat (hdr_len (c_hdr (current l)))).
  assert (exists a m1, match n with O => (Refuse, m) | _ => pop m end = (a, m1)) as (a & m1 & ->) by (destruct n; [by eexists _, _|]; destruct (pop m); by eexists _, _).
  assert (forall m2, exists rc buf l' m' p', (let '(rc, l2) := tnt_log_seterr l TNT_LOG_EMEMORY (pos p) in Some (rc, None : option ptr, l2, m2 : malloc_state, pos p)) = Some (rc, buf, l', m', pos p') /\ read_result l1 p0 rc buf l' p') as Hmem.
  { intros m2. do 5 eexists. split; [done|]. right. split; [done|]. by right. }
  destruct (decide (n = 0%nat)) as [->|Hn]; [apply Hmem|]. rewrite tnt_mem_alloc_eq by lia. cbn [mbind option_bind]. destruct a as [|j]; [apply Hmem|].
  rewrite (fread_at h f w0 n p _ eq_refl). cbn [mbind option_bind]. rewrite store_heap by len. cbn [mbind option_bind].
  set (bs := take n (rest p)). case_decide as Eb.
  - destruct (eof_result l1 l (PHeap (take 0 (replicate n 0) ++ bs ++ drop (0 + length bs) (replicate n 0))) (p + length bs) m1 p0 None Hf He ltac:(right; by eexists) eq_refl) as (rc & l' & m' & p' & H).
    by exists rc, None, l', m', p'.
  - assert (take 0 (replicate n 0) ++ bs ++ drop (0 + length bs) (replicate n 0) = bs) as ->.
    { rewrite drop_ge by len. by rewrite app_nil_r. }
    unfold load, slice. cbn [block_of mbind option_bind]. rewrite decide_True by lia. cbn [mbind option_bind]. rewrite drop_0, firstn_all2 by lia. case_decide as Ec.
    + unfold tnt_mem_free. cbn. do 5 eexists. split; [done|]. right. split; [done|]. left. right. split; [done|]. by right.
    + do 5 eexists. split; [done|]. left. split; [done|]. split; [done|]. exists pre, bs. cbn zeta. split; [done|].
      split; [rewrite rest_drop; unfold bs in *; rewrite E; do 3 f_equal; by rewrite <- (take_drop n (rest p)) at 1; rewrite length_take in *; f_equal; f_equal; lia|].
      split; [done|]. split; [done|]. split; [unfold zlen; lia|]. by destruct (decide (crc32c 0 bs = hdr_crc32_data (c_hdr (current l)))).
Qed.

Lemma read_header_safe l1 l m q p0 pre :
  l_fd l = Some h -> l_error l = l_error l1 -> length (c_hdr (current l)) = HDR_SIZE -> rest p0 = pre ++ marker_bytes ++ rest q ->
  exists rc buf l' m' p', read_header l m h (pos q) = Some (rc, buf, l', m', pos p') /\ read_result l1 p0 rc buf l' p'.
Proof.
  intros Hf He Hl E. unfold read_header. rewrite (fread_at h f w0 HDR_SIZE q _ eq_refl). cbn [mbind option_bind]. set (bs := take HDR_SIZE (rest q)).
  case_decide as Eb.
  - destruct (eof_result l1 (fill_hdr bs l) PNull (q + length bs) m p0 None Hf He ltac:(by left) eq_refl) as (rc & l' & m' & p' & H).
    by exists rc, None, l', m', p'.
  - rewrite ftello_at. cbn [mbind option_bind]. set (l2 := put_loffset _ _).
    assert (c_hdr (current l2) = bs) as Hc by (unfold l2; cbn [c_hdr current put_loffset fill_hdr put_current]; rewrite drop_ge by lia; apply app_nil_r). rewrite Hc.
    case_decide as Ecrc; [do 5 eexists; split; [done|]; right; split; [done|]; left; right; split; [done|]; by right|].
    apply (read_data_safe l1 l2 m (q + length bs) p0 pre); [done|done|rewrite Hc; lia| | |].
    + rewrite Hc, E. do 2 f_equal. rewrite rest_drop. unfold bs. rewrite length_take, <- (take_drop HDR_SIZE (rest q)) at 1. do 2 f_equal. unfold bs in Eb. rewrite length_take in Eb. lia.
    + rewrite Hc. done.
    + rewrite Hc. unfold hdr_len, le_val. assert (Forall is_byte (rev (take 4 (drop 20 bs)))) as Hb by (apply Forall_rev; apply Forall_take, Forall_drop, Forall_take, Forall_drop, Hbytes).
      induction Hb as [|b s Hb _ IH]; simpl; [lia|]. unfold is_byte in Hb. nia.
Qed.

(** C39: reading a record is safe whatever the file holds.  [tnt_log_read]
    returns, without an access out of its buffers, on any file, at any
    position, however it may be positioned and whatever the allocator
    answers.  What it accepts is in the file: a marker, a header and a payload
    with the two checksums of the header, between which the log is left.
    Otherwise there is no buffer and an error is recorded, or 1 is the end. *)
Theorem log_read_safe l m p :
  l_fd l = Some h -> length (c_hdr (current l)) = HDR_SIZE ->
  exists rc buf l' m' p', tnt_log_read l m (pos p) = Some (rc, buf, l', m', pos p') /\ read_result l p rc buf l' p'.
Proof.
  intros Hf Hl. unfold tnt_log_read. rewrite Hf. cbn [mbind option_bind]. rewrite ftello_at. cbn [mbind option_bind]. set (l1 := put_current_offset _ l).
  rewrite (fread_at h f w0 4 p _ eq_refl). cbn [mbind option_bind]. set (mk := take 4 (rest p)).
  assert (forall q, exists rc buf l' m' p', ('(rc, l, w) ← tnt_log_eof l1 PNull (pos q); Some (rc, None : option ptr, l, m : malloc_state, w)) = Some (rc, buf, l', m', pos p') /\ read_result l p rc buf l' p') as Heof.
  { intros q. destruct (eof_result l l1 PNull q m p None Hf eq_refl ltac:(by left) eq_refl) as (rc & l' & m' & p' & H). by exists rc, None, l', m', p'. }
  case_decide as E4; [apply Heof|]. unfold mk in *. rewrite length_take in E4 |- *. replace (p + 4 `min` _)%nat with (p + 4)%nat by lia.
  rewrite file_bound_at. destruct (seek_total (S (length (f_data f))) p) as (b & q & -> & Hq); [lia|rewrite rest_length; lia|]. cbn [mbind option_bind].
  destruct b; cbn [negb]; [|apply Heof]. destruct (Hq eq_refl) as (pre & Hp & Hm).
  apply (read_header_safe l l1 m (q + 4) p pre); [done|done|done|]. rewrite Hp. f_equal. rewrite rest_drop, <- Hm. by rewrite take_drop.
Qed.

End safety.

(** ** A concrete checksum, requests and tuples

    The checksum is the CRC-32C of [crc32c], bit by bit; a request keeps the
    bytes it was parsed from. *)

Definition crc_bit (c : Z) : Z := if Z.odd c then Z.lxor (Z.shiftr c 1) 0x82f63b78 else Z.shiftr c 1.
Definition crc_byte (c b : Z) : Z := Nat.iter 8 crc_bit (Z.lxor c b).

Record demo_request := DemoRequest { dr_op : Z; dr_body : bytes; dr_origin : ptr }.

#[export] Instance DemoLegacy : Legacy := {
  lg_request := demo_request;
  lg_tuple := bytes;
  crc32c c bs := u32 (fold_left crc_byte bs c);
  lg_request_init := DemoRequest 0 [] PNull;
  lg_request_parse _ body op _ := Some (if decide (op = 99) then 1 else 0, DemoRequest op body PNull);
  lg_request_setorigin r p _ := DemoRequest (dr_op r) (dr_body r) p;
  lg_tuple_zero := [];
  lg_tuple_free t := Some [];
  lg_tuple_set_as _ bs size _ := t ← slice 0 (Z.to_nat size) bs; Some (true, t);
}.

Lemma demo_crc_range : crc_range.
Proof. intros c bs. apply u32_bound. Qed.

#[export] Instance entry_ok_dec e : Decision (entry_ok e).
Proof. unfold entry_ok. apply _. Defined.

(** The payload of an xlog: tag, cookie, operation, body. *)
Definition demo_payload (op : Z) (body : bytes) : bytes := le 2 1 ++ le 8 7 ++ le 2 op ++ body.
Definition demo_entry (lsn op : Z) (body : bytes) : log_entry := Entry lsn (replicate 8 0) (demo_payload op body).
Definition demo_e1 : log_entry := demo_entry 1 13 [65; 66].
Definition demo_e2 : log_entry := demo_entry 2 19 [67].

(** A log in the memory of [stdin]: garbage, then a record that is changed in
    its last byte. *)
Definition demo_stdin : FILE := File ([1; 237; 2] ++ take 45 (record_bytes demo_e1) ++ [0]) 0 false.
Definition demo_fs : fsys := Fs (fun _ => inl 2) demo_stdin ∅ 0.
Definition demo_log : tnt_log := put_lfd (Some Stdin) zero_log.

Lemma log_read_safe_witness :
  exists rc buf l' m' p', tnt_log_read demo_log [] (at_pos Stdin demo_stdin demo_fs 0) = Some (rc, buf, l', m', at_pos Stdin demo_stdin demo_fs p') /\
    read_result demo_stdin demo_log 0 rc buf l' p'.
Proof.
  apply (log_read_safe Stdin demo_stdin demo_fs); [|done|done].
  apply (bool_decide_unpack _). vm_compute. exact I.
Defined.

Example changed_record :
  match tnt_log_read demo_log [] (at_pos Stdin demo_stdin demo_fs 0) with
  | Some (rc, buf, l', _, _) => rc = -1 /\ buf = None /\ l_error l' = TNT_LOG_ECORRUPT
  | None => False
  end.
Proof. vm_compute. done. Qed.
