(* ===== verification/LogReplay.v ===== *)
(** * What a client reads from a log (Log, LogSpec)

    The streams of requests and of tuples, against the same interface: a log is
    opened and its whole records are read, wherever the file ends. *)

From stdpp Require Import gmap.
From Stdlib Require String.
From S2P Require Import Prelude Mem Uri Stream Murmur Stdio Net Log LogSpec.
Import String.StringSyntax.
#[local] Arguments chars s%_string_scope.

(** ** Reading a whole log

    A reader is one of the two streams: how its values are log_kept in the union,
    its type and callback, what a record does to a value, and the function
    that reads. *)

Class Reader (LG : Legacy) (V : Type) := {
  rd_wrap : V -> tnt_log_value;
  rd_unwrap : tnt_log_value -> option V;
  rd_type : tnt_log_type;
  rd_process : process_fn;
  rd_magic : bytes;
  rd_step : log_entry -> V -> option V;
  rd_new : bool -> fsys -> malloc_state -> option (stream slog);
  rd_read : stream slog -> V -> option (Z * stream slog * V);
}.

Class ReaderSpec (LG : Legacy) (V : Type) {R : Reader LG V} : Prop := {
  rd_unwrap_wrap v : rd_unwrap (rd_wrap v) = Some v;
  rd_interfaces l : log_interfaces rd_type l = (rd_magic ++ [10], Some rd_process);
  rd_magic_ok : Forall (fun c => c <> 10 /\ c <> 0) rd_magic /\ (length rd_magic < 31)%nat;
  rd_step_ok e v v' l m w : crc_range -> entry_ok e -> rd_step e v = Some v' ->
    l_type l = rd_type -> l_process l = Some rd_process -> c_hdr (current l) = header_of e ->
    exists l', process_record l (PHeap (e_data e)) (rd_wrap v) m w = Some (true, l', rd_wrap v', m, w) /\
      log_kept l l' /\ l_error l' = l_error l /\ l_offset l' = l_offset l;
  rd_new_eq given w m : rd_new given w m =
    (s ← tnt_stream_init given m;
     match pop (st_mem s) with (Refuse, _) => None | (Grant _, m) => Some (set_mem m (set_data (Some (zero_log, w)) s)) end);
  rd_read_eq s v : rd_read s v =
    ('(l, w) ← st_data s;
     '(row, l, x, m, w) ← tnt_log_next_to l (rd_wrap v) (st_mem s) w;
     v ← rd_unwrap x;
     Some (if negb row && bool_decide (l_error l = TNT_LOG_EOK) then 1 else if row : bool then 0 else -1,
           set_mem m (set_data (Some (l, w)) s), v));
}.

(** The requests of an xlog, the tuples of a snapshot. *)
#[export] Instance xlog_reader {LG : Legacy} : Reader LG lg_request := {
  rd_wrap := VRequest;
  rd_unwrap v := match v with VRequest r => Some r | _ => None end;
  rd_type := TNT_LOG_XLOG;
  rd_process := ProcessXlog;
  rd_magic := chars "XLOG";
  rd_step e _ :=
    row ← slice 0 ROW_SIZE (e_data e);
    '(rc, r) ← lg_request_parse lg_request_init (drop ROW_SIZE (e_data e)) (row_op row) (zlen (e_data e) - Z.of_nat ROW_SIZE);
    if decide (rc = 0) then Some (lg_request_setorigin r (PHeap (e_data e)) (zlen (e_data e))) else None;
  rd_new := tnt_xlog;
  rd_read := tnt_xlog_request;
}.

#[export] Instance snapshot_reader {LG : Legacy} : Reader LG lg_tuple := {
  rd_wrap := VTuple;
  rd_unwrap := value_tuple;
  rd_type := TNT_LOG_SNAPSHOT;
  rd_process := ProcessSnapshot;
  rd_magic := chars "SNAP";
  rd_step e t :=
    t ← lg_tuple_free t;
    row ← slice 0 ROW_SNAP_SIZE (e_data e);
    '(ok, t) ← lg_tuple_set_as t (drop ROW_SNAP_SIZE (e_data e)) (snap_data_size row) (snap_tuple_size row);
    if ok : bool then Some t else None;
  rd_new := tnt_snapshot;
  rd_read := tnt_snapshot_read_tuple;
}.

Lemma current_kept {LG : Legacy} l (c : tnt_log_row) : length (c_hdr c) = length (c_hdr (current l)) -> log_kept l (put_current c l).
Proof. intros H. by repeat (split; [done|]). Qed.

#[export] Instance xlog_reader_spec {LG : Legacy} : ReaderSpec LG lg_request.
Proof.
  split; [done|done|by apply (bool_decide_unpack _)| |done|done]. intros e v v' l m w Hc He Hs Ht Hp Hh. simpl in Hs. inv_opt. destruct x0 as [rc r]. case_decide; simplify_eq.
  destruct (log_header_fields e He Hc) as (_ & _ & _ & _ & Hlen & _).
  unfold process_record. rewrite Hp. cbn [mbind option_bind rd_process xlog_reader process rd_wrap]. unfold tnt_log_process_xlog, load. cbn [block_of mbind option_bind].
  rewrite H. cbn [mbind option_bind]. rewrite Hh, Hlen.
  assert (ROW_SIZE <= length (e_data e))%nat as H12 by (unfold slice in H; case_decide; [lia|done]).
  assert (Z.to_nat (zlen (e_data e) - Z.of_nat ROW_SIZE) = length (e_data e) - ROW_SIZE)%nat as -> by len.
  unfold slice at 1. rewrite decide_True by lia. cbn [mbind option_bind]. rewrite firstn_all2 by (rewrite length_drop; lia).
  rewrite u32_small by (destruct He as (_ & _ & _ & ?); len). rewrite H0. cbn [mbind option_bind]. rewrite decide_False by auto. cbn [mbind option_bind]. rewrite decide_False by auto.
  change (l_type (put_current _ l)) with (l_type l). rewrite Ht. simpl (rd_type). rewrite decide_True by done. cbn [mbind option_bind].
  eexists. split; [cbn [current put_current c_hdr]; by rewrite Hlen|]. split; [apply current_kept; by rewrite Hh|]. done.
Qed.

#[export] Instance snapshot_reader_spec {LG : Legacy} : ReaderSpec LG lg_tuple.
Proof.
  split; [done|done|by apply (bool_decide_unpack _)| |done|done]. intros e v v' l m w Hc He Hs Ht Hp Hh. simpl in Hs. inv_opt. destruct x1 as [ok t]. destruct ok; simplify_eq.
  unfold process_record. rewrite Hp. cbn [mbind option_bind rd_process snapshot_reader process rd_wrap]. unfold tnt_log_process_snapshot, load. cbn [value_tuple block_of mbind option_bind].
  rewrite H. cbn [mbind option_bind]. rewrite H0. cbn [mbind option_bind]. rewrite H1. cbn [mbind option_bind].
  rewrite decide_False by auto. change (l_type (put_current _ l)) with (l_type l). rewrite Ht. simpl (rd_type). rewrite decide_False by done.
  unfold tnt_mem_free. simpl. eexists. split; [done|]. split; [by apply current_kept|]. done.
Qed.

Section client.
Context {LG : Legacy} {V : Type}.

(** The client's loop: read until a result that is not 0. *)
Fixpoint replay (n : nat) (read : stream slog -> V -> option (Z * stream slog * V)) (s : stream slog) (v : V)
    : option (list V * Z * stream slog) :=
  match n with
  | O => None
  | S n =>
      '(rc, s, v) ← read s v;
      if decide (rc = 0) then '(vs, rc, s) ← replay n read s v; Some (v :: vs, rc, s) else Some ([] : list V, rc, s)
  end.

(** The values that records give, when they are all accepted. *)
Fixpoint deliver {R : Reader LG V} (es : list log_entry) (v : V) : option (list V) :=
  match es with
  | [] => Some []
  | e :: es => v ← rd_step e v; vs ← deliver es v; Some (v :: vs)
  end.

(** The payload of the last record. *)
Fixpoint last_data (d : bytes) (items : list (bytes * log_entry)) : bytes :=
  match items with [] => d | i :: items => last_data (e_data i.2) items end.

End client.

Section replay.
Context {LG : Legacy} {V : Type} {R : Reader LG V} {RS : ReaderSpec LG V} (Hcrc : crc_range).
Context (h : handle) (f : FILE) (w0 : fsys) (Hbytes : Forall is_byte (f_data f)) (Hseek : f_seekable f = true).
#[local] Abbreviation rest := (rest f).
#[local] Abbreviation pos := (at_pos h f w0).

(** The stream at [p] in a log of its type, without an error. *)
Record reading_at (s : stream slog) (l : tnt_log) (p : nat) : Prop := {
  ra_data : st_data s = Some (l, pos p);
  ra_open : open_log h f l p;
  ra_read : l_read l = true;
  ra_type : l_type l = rd_type;
  ra_process : l_process l = Some rd_process;
  ra_error : l_error l = TNT_LOG_EOK;
  ra_mem : Refuse ∉ st_mem s;
}.

Lemma read_next s l p v v' junk e more :
  reading_at s l p -> clean junk -> entry_ok e -> rest p = item_bytes (junk, e) ++ more -> rd_step e v = Some v' ->
  exists s' l' p', rd_read s v = Some (0, s', v') /\ reading_at s' l' p' /\ rest p' = more /\
    rest (Z.to_nat (l_offset l')) = e_data e ++ more.
Proof.
  intros [Hd Ho Hr Ht Hp He Hm] Hc Hok E Hv.
  destruct (read_entry Hcrc h f w0 Hbytes Hseek l (st_mem s) p junk e more Ho Hm Hc Hok E)
    as (l1 & m1 & p1 & E1 & Hm1 & Ho1 & Hk1 & He1 & Hh1 & Hr1 & Hl1).
  destruct Hk1 as (Kt & Kf & Kr & Kp & Kv & Kh).
  destruct (rd_step_ok e v v' l1 m1 (pos p1) Hcrc Hok Hv ltac:(congruence) ltac:(congruence) Hh1)
    as (l2 & E2 & (Jt & Jf & Jr & Jp & Jv & Jh) & He2 & Hof2).
  rewrite rd_read_eq, Hd. cbn [mbind option_bind]. unfold tnt_log_next_to. rewrite Hr. cbn [negb]. rewrite E1. cbn [mbind option_bind].
  rewrite decide_False by auto. rewrite E2. cbn [mbind option_bind]. rewrite rd_unwrap_wrap. cbn [mbind option_bind negb andb].
  do 3 eexists. split; [done|]. rewrite Hof2. split; [|done]. destruct Ho1 as (O1 & O2 & O3 & O4).
  split; simpl; try congruence. split; [congruence|]. split; [congruence|]. by rewrite Hof2.
Qed.

Lemma read_end s l p v t own :
  reading_at s l p -> rest p = t -> torn t own ->
  exists s' l', rd_read s v = Some (verdict (default (rest (Z.to_nat (l_offset l))) own), s', v) /\
    st_data s' = Some (l', pos (length (f_data f))) /\
    l_error l' = (if decide (verdict (default (rest (Z.to_nat (l_offset l))) own) = -1) then TNT_LOG_ECORRUPT else TNT_LOG_EOK).
Proof.
  intros [Hd Ho Hr Ht Hp He Hm] E Htorn.
  destruct (read_torn Hcrc h f w0 Hbytes Hseek l (st_mem s) p t own Ho Hm E Htorn) as (m' & l' & E1 & _ & Her).
  set (rc := verdict _) in *. assert (rc = -1 \/ rc = 1) as Hrc by apply verdict_cases.
  unfold error_after in Her. rewrite He in Her.
  rewrite rd_read_eq, Hd. cbn [mbind option_bind]. unfold tnt_log_next_to. rewrite Hr. cbn [negb]. rewrite E1. cbn [mbind option_bind].
  rewrite decide_True by lia. cbn [mbind option_bind]. rewrite rd_unwrap_wrap. cbn [mbind option_bind negb andb].
  exists (set_mem m' (set_data (Some (l', pos (length (f_data f)))) s)), l'. split; [|done].
  do 3 f_equal. rewrite Her. destruct Hrc as [-> | ->]; by vm_compute.
Qed.

Lemma replay_ok items : forall s l p t own v vs n d,
  reading_at s l p -> Forall item_ok items -> rest p = concat (item_bytes <$> items) ++ t -> torn t own ->
  rest (Z.to_nat (l_offset l)) = d ++ rest p -> deliver (items.*2) v = Some vs -> (length items < n)%nat ->
  exists s' l', let rc := verdict (default (last_data d items ++ t) own) in
    replay n rd_read s v = Some (vs, rc, s') /\
    st_data s' = Some (l', pos (length (f_data f))) /\
    l_error l' = (if decide (rc = -1) then TNT_LOG_ECORRUPT else TNT_LOG_EOK).
Proof.
  induction items as [|[junk e] items IH]; intros s l p t own v vs n d Hs Hok E Ht Hd Hv Hn; (destruct n as [|n]; [simpl in Hn; lia|]); cbn [replay].
  - simpl in E, Hv. injection Hv as <-. destruct (read_end s l p v t own Hs E Ht) as (s' & l' & E1 & Hs' & He). rewrite Hd, E in E1, He.
    exists s', l'. cbn [last_data]. rewrite E1. cbn [mbind option_bind]. rewrite decide_False by (by destruct (verdict_cases (default (d ++ t) own)) as [-> | ->]). done.
  - apply Forall_cons in Hok as [[Hc He] Hok]. simpl in Hv. inv_opt. csimpl in E. rewrite <- app_assoc in E.
    destruct (read_next s l p v x junk e _ Hs Hc He E H) as (s1 & l1 & p1 & E1 & Hs1 & Hp1 & Hl1). rewrite E1. cbn [mbind option_bind].
    rewrite decide_True by done. rewrite <- Hp1 in Hl1.
    destruct (IH s1 l1 p1 t own x x0 n (e_data e) Hs1 Hok Hp1 Ht Hl1 H0 ltac:(simpl in Hn; lia)) as (s2 & l2 & E2 & Hs2 & He2).
    exists s2, l2. cbn [last_data snd]. rewrite E2. done.
Qed.

End replay.

(** ** Opening a log *)

(** A line of the header, without its newline. *)
Definition line_ok (l : bytes) : Prop := Forall (fun c => c <> 10) l /\ (length l < 255)%nat /\ l <> [] /\ l <> [13].

Definition header_lines (lines : list bytes) : bytes := concat ((fun l => l ++ [10]) <$> lines).
Lemma header_lines_cons l lines : header_lines (l :: lines) = (l ++ [10]) ++ header_lines lines.
Proof. done. Qed.
Lemma header_lines_length lines : (length lines <= length (header_lines lines))%nat.
Proof. induction lines as [|l lines IH]; [done|]. rewrite header_lines_cons, !length_app. simpl. lia. Qed.

Definition log_header (magic : bytes) (lines : list bytes) : bytes :=
  (magic ++ [10]) ++ TNT_LOG_VERSION ++ header_lines lines ++ [10].

Section opening.
Context {LG : Legacy} {V : Type} {R : Reader LG V} {RS : ReaderSpec LG V}.

Section header.
Context (h : handle) (f : FILE) (w0 : fsys).
#[local] Abbreviation rest := (rest f).
#[local] Abbreviation pos := (at_pos h f w0).

Lemma fgets_line n p l more :
  Forall (fun c => c <> 10) l -> (length l < n - 1)%nat -> rest p = (l ++ [10]) ++ more ->
  fgets n h (pos p) = Some (Some (l ++ [10]), pos (p + length (l ++ [10]))) /\ rest (p + length (l ++ [10])) = more.
Proof.
  intros Hl Hn E. split; [|rewrite rest_drop, E; apply drop_app_length].
  rewrite fgets_at, E, <- app_assoc. change ([10] ++ more) with (10 :: more). rewrite line_app by done. by destruct l.
Qed.

Lemma c_str_line l : line_ok l -> c_str (l ++ [10]) <> [10] /\ c_str (l ++ [10]) <> [13; 10].
Proof.
  intros (Hn & _ & H0 & H13). destruct l as [|a l]; [done|]. apply Forall_cons in Hn as [Ha Hn]. simpl. case_decide; [done|].
  split; [by intros [= -> _]|]. intros [= -> E]. destruct l as [|b l]; [done|]. apply Forall_cons in Hn as [Hb _].
  simpl in E. case_decide; [done|]. by simplify_eq.
Qed.

Lemma skip_header_ok lines more : forall n p,
  Forall line_ok lines -> rest p = (header_lines lines ++ [10]) ++ more -> (length lines < n)%nat ->
  exists q, skip_header n h (pos p) = Some (true, pos q) /\ rest q = more /\ (p <= q)%nat /\
    (q - p)%nat = length (header_lines lines ++ [10]).
Proof.
  induction lines as [|l lines IH]; intros n p Hl E Hn; (destruct n as [|n]; [simpl in Hn; lia|]); cbn [skip_header].
  - destruct (fgets_line 256 p [] more) as [-> Hr]; [done|simpl; lia|done|]. cbn [mbind option_bind]. rewrite decide_True by by left.
    exists (p + 1)%nat. split; [done|]. split; [done|]. simpl. lia.
  - apply Forall_cons in Hl as [Hl Hls]. rewrite header_lines_cons, <- !(app_assoc (l ++ [10])) in E. pose proof Hl as (Hnl & Hlen & _).
    destruct (fgets_line 256 p l _ Hnl ltac:(lia) E) as [-> Hr]. cbn [mbind option_bind].
    rewrite decide_False by (destruct (c_str_line l Hl); tauto).
    destruct (IH n _ Hls Hr ltac:(simpl in Hn; lia)) as (q & -> & Hq & Hle & Hd). exists q. split; [done|]. split; [done|]. rewrite header_lines_cons. rewrite !length_app in *. simpl in *. lia.
Qed.

End header.

(** Opening a file with a header leaves the stream at its end. *)
Lemma open_ok (s : stream slog) w path lines body :
  st_data s = Some (zero_log, w) -> Refuse ∉ st_mem s -> fs_file w path = inr (log_header rd_magic lines ++ body) -> Forall line_ok lines ->
  let hd := Opened (fresh (dom (fs_open w))) in
  let f := File (log_header rd_magic lines ++ body) 0 true in
  exists s' l p, slog_open rd_type s (Some path) = Some (0, s') /\ reading_at hd f w s' l p /\ rest f p = body /\ l_offset l = Z.of_nat p.
Proof.
  intros Hs Hm Hf Hl hd f. destruct rd_magic_ok as [Hmg Hmlen].
  assert (put_file hd f w = at_pos hd f w 0) as Hw by done.
  set (tail := (header_lines lines ++ [10]) ++ body).
  assert (rest f 0 = (rd_magic ++ [10]) ++ (chars "0.11" ++ [10]) ++ tail) as E0 by (unfold tail, Stdio.rest, f, log_header, TNT_LOG_VERSION; cbn [f_data]; by rewrite drop_0, <- !app_assoc).
  destruct (fgets_line hd f w 32 0 rd_magic ((chars "0.11" ++ [10]) ++ tail)) as [G1 E1]; [eapply Forall_impl; [exact Hmg|by intros ? []]|lia|exact E0|].
  destruct (fgets_line hd f w 32 (0 + length (rd_magic ++ [10])) (chars "0.11") tail ltac:(by apply (bool_decide_unpack _)) ltac:(simpl; lia) E1) as [G2 E2].
  match type of E2 with Stdio.rest _ ?x = _ => set (p2 := x) in * end.
  destruct (skip_header_ok hd f w lines body (S (length (f_data f))) p2 Hl E2) as (q & G3 & E3 & Hle & Hq).
  { apply (f_equal length) in E2. unfold tail in E2. rewrite rest_length, !length_app in E2. pose proof (header_lines_length lines). lia. }
  unfold slog_open. rewrite Hs. cbn [mbind option_bind]. unfold tnt_log_open, fopen. rewrite Hf. fold f. fold hd. rewrite Hw.
  rewrite G1. cbn [mbind option_bind]. rewrite G2. cbn [mbind option_bind]. rewrite rd_interfaces.
  rewrite (decide_False (P := c_str (rd_magic ++ [10]) <> _)).
  2: { intros H. apply H, c_str_id. apply Forall_app. split; [eapply Forall_impl; [exact Hmg|by intros ? []]|by repeat constructor]. }
  rewrite (decide_False (P := c_str (chars _ ++ _) <> _)) by (intros H; by apply H).
  rewrite file_bound_at, G3. cbn [mbind option_bind negb]. rewrite ftello_at. cbn [mbind option_bind f_seekable f].
  match goal with |- context [set_data (Some (?l, _)) _] => eexists; exists l, q end. split; [done|]. split; [|done].
  split; try done. split; [done|]. split; [done|]. simpl l_offset. split; [lia|].
  apply (f_equal length) in E3. rewrite rest_length in E3.
  pose proof (rest_length f p2) as H2. unfold tail in E2. rewrite E2, !length_app in H2. rewrite !length_app in Hq. simpl length in *. lia.
Qed.

End opening.

(** ** Logs that end anywhere *)

Section replaying.
Context {LG : Legacy}.

Definition records (es : list log_entry) : bytes := concat (record_bytes <$> es).

Lemma records_cons e es : records (e :: es) = record_bytes e ++ records es.
Proof. done. Qed.

(** How many records are whole in the first [k] bytes. *)
Fixpoint whole (k : nat) (es : list log_entry) : nat :=
  match es with
  | [] => O
  | e :: es => if decide (length (record_bytes e) <= k)%nat then S (whole (k - length (record_bytes e)) es) else O
  end.

(** A prefix of a record is torn. *)
Lemma torn_record e k : crc_range -> entry_ok e -> (k < length (record_bytes e))%nat -> exists own, torn (take k (record_bytes e)) own.
Proof.
  intros Hc He Hk. destruct (log_header_fields e He Hc) as (Hh & _). unfold record_bytes in *. rewrite !length_app, length_marker, Hh in Hk.
  destruct (decide (k < 4)%nat) as [H4|H4].
  - exists None. apply torn_none. rewrite take_app_le by (rewrite length_marker; lia).
    destruct k as [|[|[|[|]]]]; [by apply (bool_decide_unpack _)..|lia].
  - destruct (decide (k < 4 + HDR_SIZE)%nat) as [Hl|Hl].
    + exists None. replace (take k _) with ([] ++ marker_bytes ++ take (k - 4) (header_of e)); [apply torn_header; [done|done|lia]|].
      rewrite take_app_ge, length_marker by (rewrite length_marker; lia). by rewrite take_app_le by (rewrite Hh; lia).
    + eexists. replace (take k _) with ([] ++ marker_bytes ++ header_of e ++ take (k - 4 - HDR_SIZE) (e_data e)); [apply torn_data; [done|done|lia]|].
      rewrite take_app_ge, length_marker by (rewrite length_marker; lia). by rewrite take_app_ge, Hh by (rewrite Hh; lia).
Qed.

Lemma cut_records k es : crc_range -> Forall entry_ok es ->
  exists t own, take k (records es) = records (take (whole k es) es) ++ t /\ torn t own.
Proof.
  intros Hc. revert k. induction es as [|e es IH]; intros k Hok.
  - exists [], None. split; [by destruct k|]. by apply torn_none.
  - apply Forall_cons in Hok as [He Hok]. cbn [whole]. rewrite records_cons. case_decide as Hk.
    + destruct (IH (k - length (record_bytes e))%nat Hok) as (t & own & E & Ht). exists t, own. split; [|done].
      cbn [take]. by rewrite take_app_ge, E, records_cons, app_assoc by done.
    + destruct (torn_record e k Hc He ltac:(lia)) as [own Ht]. exists (take k (record_bytes e)), own. split; [|done].
      rewrite take_app_le by lia. done.
Qed.

(** A new stream opens a log and reads the whole records. *)
Lemma replay_log {V} {R : Reader LG V} {RS : ReaderSpec LG V} given m w path lines items t own v vs n :
  crc_range -> Refuse ∉ m -> Forall line_ok lines -> Forall item_ok items -> torn t own ->
  let file := log_header rd_magic lines ++ concat (item_bytes <$> items) ++ t in
  fs_file w path = inr file -> Forall is_byte file ->
  deliver (items.*2) v = Some vs -> (length items < n)%nat ->
  let rc := verdict (default (last_data [] items ++ t) own) in
  exists s0 s1 s2 l w', rd_new given w m = Some s0 /\ slog_open rd_type s0 (Some path) = Some (0, s1) /\
    replay n rd_read s1 v = Some (vs, rc, s2) /\
    st_data s2 = Some (l, w') /\ l_error l = (if decide (rc = -1) then TNT_LOG_ECORRUPT else TNT_LOG_EOK).
Proof.
  intros Hc Hm Hl Hi Ht file Hf Hb Hd Hn rc.
  assert (exists s0, rd_new given w m = Some s0 /\ st_data s0 = Some (zero_log, w) /\ Refuse ∉ st_mem s0) as (s0 & E0 & Hs0 & Hm0).
  { rewrite rd_new_eq. unfold tnt_stream_init. destruct given; [|destruct (pop m) as [a m1] eqn:Ep; destruct (pop_granted _ _ _ Ep Hm) as [Ha Hm1]; destruct a; [done|]];
      cbn [mbind option_bind st_mem]; (match goal with |- context [pop ?x] => destruct (pop x) as [b m2] eqn:Eb; destruct (pop_granted _ _ _ Eb ltac:(done)) as [Hb2 Hm2]; destruct b; [done|] end);
      by eexists. }
  destruct (open_ok s0 w path lines _ Hs0 Hm0 Hf Hl) as (s1 & l & p & E1 & Hr & Hp & Ho).
  destruct (replay_ok Hc (Opened (fresh (dom (fs_open w)))) (File file 0 true) w Hb eq_refl items s1 l p t own v vs n [] Hr Hi Hp Ht ltac:(by rewrite Ho, Nat2Z.id) Hd Hn) as (s2 & l2 & E2 & Hs2 & He2).
  by exists s0, s1, s2, l2, (at_pos (Opened (fresh (dom (fs_open w)))) (File file 0 true) w (length file)).
Qed.

(** C37: a log is read back.  The file is a header with any lines, then records
    with garbage between them that contains no marker, then an end: nothing,
    the marker of the end, garbage, or a record that is cut anywhere.  A new
    stream opens it, and reading it gives the requests of exactly the whole
    records, in order, each with its payload, then 1 for the end of the log;
    or -1 and a corrupt log when exactly four bytes follow the last header
    and they are not the marker of the end. *)
Theorem xlog_replay given m w path lines items t own r rs n :
  crc_range -> Refuse ∉ m -> Forall line_ok lines -> Forall item_ok items -> torn t own ->
  let file := log_header (chars "XLOG") lines ++ concat (item_bytes <$> items) ++ t in
  fs_file w path = inr file -> Forall is_byte file ->
  deliver (items.*2) r = Some rs -> (length items < n)%nat ->
  let rc := verdict (default (last_data [] items ++ t) own) in
  exists s0 s1 s2, tnt_xlog given w m = Some s0 /\ tnt_xlog_open s0 (Some path) = Some (0, s1) /\
    replay n tnt_xlog_request s1 r = Some (rs, rc, s2) /\
    tnt_xlog_error s2 = Some (if decide (rc = -1) then TNT_LOG_ECORRUPT else TNT_LOG_EOK).
Proof.
  intros. destruct (replay_log given m w path lines items t own r rs n) as (s0 & s1 & s2 & l & w' & E0 & E1 & E2 & Hs & He); try done.
  exists s0, s1, s2. split; [exact E0|]. split; [exact E1|]. split; [exact E2|]. unfold tnt_xlog_error. rewrite Hs. cbn [mbind option_bind]. by rewrite He.
Qed.

(** A snapshot is read back: the tuples of its records, each filled after
    the one before has been freed, then the end as for an xlog. *)
Theorem snapshot_replay given m w path lines items t own tu ts n :
  crc_range -> Refuse ∉ m -> Forall line_ok lines -> Forall item_ok items -> torn t own ->
  let file := log_header (chars "SNAP") lines ++ concat (item_bytes <$> items) ++ t in
  fs_file w path = inr file -> Forall is_byte file ->
  deliver (items.*2) tu = Some ts -> (length items < n)%nat ->
  let rc := verdict (default (last_data [] items ++ t) own) in
  exists s0 s1 s2, tnt_snapshot given w m = Some s0 /\ tnt_snapshot_open s0 (Some path) = Some (0, s1) /\
    replay n tnt_snapshot_read_tuple s1 tu = Some (ts, rc, s2) /\
    tnt_snapshot_error s2 = Some (if decide (rc = -1) then TNT_LOG_ECORRUPT else TNT_LOG_EOK).
Proof.
  intros. destruct (replay_log given m w path lines items t own tu ts n) as (s0 & s1 & s2 & l & w' & E0 & E1 & E2 & Hs & He); try done.
  exists s0, s1, s2. split; [exact E0|]. split; [exact E1|]. split; [exact E2|]. unfold tnt_snapshot_error. rewrite Hs. cbn [mbind option_bind]. by rewrite He.
Qed.

(** C38: a log that has been cut.  Of the records of an xlog that is truncated
    anywhere after its header, reading gives exactly those that are whole, in
    order; then the end of the log, or a corrupt log, and nothing else. *)
Theorem xlog_truncated given m w path lines es k r rs :
  crc_range -> Refuse ∉ m -> Forall line_ok lines -> Forall entry_ok es ->
  let file := log_header (chars "XLOG") lines ++ take k (records es) in
  fs_file w path = inr file -> Forall is_byte file ->
  deliver (take (whole k es) es) r = Some rs ->
  exists s0 s1 rc s2, tnt_xlog given w m = Some s0 /\ tnt_xlog_open s0 (Some path) = Some (0, s1) /\
    replay (S (length es)) tnt_xlog_request s1 r = Some (rs, rc, s2) /\
    (rc = 1 /\ tnt_xlog_error s2 = Some TNT_LOG_EOK \/ rc = -1 /\ tnt_xlog_error s2 = Some TNT_LOG_ECORRUPT).
Proof.
  intros Hc Hm Hl He file Hf Hb Hd. destruct (cut_records k es Hc He) as (t & own & E & Ht).
  set (items := (fun e => ([], e)) <$> take (whole k es) es : list (bytes * log_entry)).
  assert (items.*2 = take (whole k es) es) as Hi2 by (unfold items; rewrite <- list_fmap_compose; apply list_fmap_id).
  assert (concat (item_bytes <$> items) = records (take (whole k es) es)) as Hi1 by (unfold items, records; by rewrite <- list_fmap_compose).
  destruct (replay_log given m w path lines items t own r rs (S (length es))) as (s0 & s1 & s2 & l & w' & E0 & E1 & E2 & Hs & E3); try done.
  - apply Forall_fmap. apply Forall_take. eapply Forall_impl; [exact He|]. by split.
  - by rewrite Hi1, <- E.
  - by rewrite Hi1, <- E.
  - by rewrite Hi2.
  - unfold items. rewrite length_fmap, length_take. lia.
  - exists s0, s1, (verdict (default (last_data [] items ++ t) own)), s2. split; [exact E0|]. split; [exact E1|]. split; [exact E2|]. unfold tnt_xlog_error. rewrite Hs. cbn [mbind option_bind]. rewrite E3. destruct (verdict_cases (default (last_data [] items ++ t) own)) as [Ev|Ev]; rewrite Ev; [right|left]; done.
Qed.

End replaying.

(** ** Witnesses *)

#[export] Instance line_ok_dec l : Decision (line_ok l).
Proof. unfold line_ok. apply _. Defined.
#[export] Instance item_ok_dec i : Decision (item_ok i).
Proof. unfold item_ok. apply _. Defined.

Definition demo_path : bytes := chars "1.xlog".
Definition demo_lines : list bytes := [chars "Created-by: test"; chars "Version: 1"].
Definition disk (bs : bytes) : fsys := Fs (fun _ => inr bs) (File [] 0 false) ∅ 0.

(** The requests of [demo_e1] and [demo_e2]. *)
Definition demo_requests : list (lg_request (Legacy := DemoLegacy)) :=
  [DemoRequest 13 [65; 66] (PHeap (e_data demo_e1)); DemoRequest 19 [67] (PHeap (e_data demo_e2))].

(** Garbage before the second record, then a third one that is cut in its
    payload, after four bytes. *)
Definition demo_items : list (bytes * log_entry) := [([], demo_e1); ([1; 237; 2], demo_e2)].
Definition demo_tail : bytes := [] ++ marker_bytes ++ header_of demo_e1 ++ take 4 (e_data demo_e1).
Definition demo_xlog : bytes := log_header (chars "XLOG") demo_lines ++ concat (item_bytes <$> demo_items) ++ demo_tail.

Ltac compute_decision := apply (bool_decide_unpack _); vm_compute; exact I.

Lemma xlog_replay_witness :
  exists s0 s1 s2, tnt_xlog true (disk demo_xlog) [] = Some s0 /\ tnt_xlog_open s0 (Some demo_path) = Some (0, s1) /\
    replay 3 tnt_xlog_request s1 lg_request_init = Some (demo_requests, -1, s2) /\ tnt_xlog_error s2 = Some TNT_LOG_ECORRUPT.
Proof.
  apply (xlog_replay true [] (disk demo_xlog) demo_path demo_lines demo_items demo_tail (Some (take 4 (e_data demo_e1))) lg_request_init demo_requests 3).
  - apply demo_crc_range.
  - set_solver.
  - compute_decision.
  - compute_decision.
  - apply torn_data; [done|compute_decision|simpl; lia].
  - reflexivity.
  - compute_decision.
  - vm_compute. reflexivity.
  - simpl. lia.
Defined.

Lemma xlog_truncated_witness :
  exists s0 s1 rc s2, tnt_xlog false (disk (log_header (chars "XLOG") demo_lines ++ take 60 (records [demo_e1; demo_e2]))) [] = Some s0 /\
    tnt_xlog_open s0 (Some demo_path) = Some (0, s1) /\
    replay 3 tnt_xlog_request s1 lg_request_init = Some (take 1 demo_requests, rc, s2) /\
    (rc = 1 /\ tnt_xlog_error s2 = Some TNT_LOG_EOK \/ rc = -1 /\ tnt_xlog_error s2 = Some TNT_LOG_ECORRUPT).
Proof.
  apply (xlog_truncated false [] _ demo_path demo_lines [demo_e1; demo_e2] 60 lg_request_init (take 1 demo_requests)).
  - apply demo_crc_range.
  - set_solver.
  - compute_decision.
  - compute_decision.
  - reflexivity.
  - compute_decision.
  - vm_compute. reflexivity.
Defined.

(** A snapshot of two tuples, with its marker of the end. *)
Definition demo_tuple (bs : bytes) : log_entry :=
  Entry 0 (replicate 8 0) (le 2 1 ++ le 8 7 ++ le 4 0 ++ le 4 1 ++ le 4 (zlen bs) ++ bs).
Definition demo_snapshot : bytes := log_header (chars "SNAP") [] ++ concat (item_bytes <$> [([], demo_tuple [1; 2]); ([], demo_tuple [3])]) ++ eof_bytes.

Definition demo_tuples : list (lg_tuple (Legacy := DemoLegacy)) := [[1; 2]; [3]].

Lemma snapshot_replay_witness :
  exists s0 s1 s2, tnt_snapshot true (disk demo_snapshot) [] = Some s0 /\ tnt_snapshot_open s0 (Some demo_path) = Some (0, s1) /\
    replay 3 tnt_snapshot_read_tuple s1 lg_tuple_zero = Some (demo_tuples, 1, s2) /\ tnt_snapshot_error s2 = Some TNT_LOG_EOK.
Proof.
  apply (snapshot_replay true [] (disk demo_snapshot) demo_path [] [([], demo_tuple [1; 2]); ([], demo_tuple [3])] eof_bytes None lg_tuple_zero demo_tuples 3).
  - apply demo_crc_range.
  - set_solver.
  - constructor.
  - compute_decision.
  - apply torn_none. compute_decision.
  - reflexivity.
  - compute_decision.
  - vm_compute. reflexivity.
  - simpl. lia.
Defined.

(** ** Behaviours worth knowing *)

(** What a client reads from a file, and the error that is left. *)
Definition demo_read (bs : bytes) : option (list (lg_request (Legacy := DemoLegacy)) * Z * tnt_log_error) :=
  s ← tnt_xlog true (disk bs) [];
  '(rc, s) ← tnt_xlog_open s (Some demo_path);
  if decide (rc <> 0) then '(l, _) ← st_data s; Some ([], rc, l_error l) else
  '(rs, rc, s) ← replay 5 tnt_xlog_request s lg_request_init;
  '(l, _) ← st_data s;
  Some (rs, rc, l_error l).

Definition demo_file (tail : bytes) : bytes := log_header (chars "XLOG") demo_lines ++ record_bytes demo_e1 ++ tail.

(** After a record the marker of the end is not looked at: a log without it, or
    with another, ends just as well. *)
Example eof_marker_unchecked : Forall (fun tail => demo_read (demo_file tail) = Some (take 1 demo_requests, 1, TNT_LOG_EOK))
  [eof_bytes; []; [1; 2; 3; 4]; marker_bytes; take 40 (record_bytes demo_e2)].
Proof. repeat constructor; vm_compute; reflexivity. Qed.

(** In a log without records it is. *)
Example eof_marker_checked : demo_read (log_header (chars "XLOG") demo_lines ++ [1; 2; 3; 4]) = Some ([], -1, TNT_LOG_ECORRUPT).
Proof. vm_compute. reflexivity. Qed.

(** A payload shorter than the row, whose checksums are right, is read out of
    its block. *)
Example short_payload : demo_read (demo_file (record_bytes (Entry 2 (replicate 8 0) [1; 2; 3]))) = None.
Proof. vm_compute. reflexivity. Qed.

(** An empty payload is taken for a lack of memory. *)
Example empty_payload : demo_read (demo_file (record_bytes (Entry 2 (replicate 8 0) []))) = Some (take 1 demo_requests, -1, TNT_LOG_EMEMORY).
Proof. vm_compute. reflexivity. Qed.

(** The empty file: a system error, whatever [errno] is. *)
Example empty_file : demo_read [] = Some ([], -1, TNT_LOG_ESYSTEM).
Proof. vm_compute. reflexivity. Qed.

(** A log that is opened again keeps its error: its end is then reported as
    a failure. *)
Example reopened_keeps_error :
  (s ← tnt_xlog true (disk (log_header (chars "XLOG") demo_lines)) [];
   '(l, w) ← st_data s;
   let s := set_data (Some (put_lerror TNT_LOG_ECORRUPT 0 l, w)) s in
   '(rc, s) ← tnt_xlog_open s (Some demo_path);
   '(_, rc', _) ← replay 5 tnt_xlog_request s lg_request_init;
   Some (rc, rc')) = Some (0, -1).
Proof. vm_compute. reflexivity. Qed.
