(* ===== verification/Dir.v ===== *)
(** * tntrpl/tnt_dir.c: the logs of a directory

    The directory is what [opendir] and [readdir_r] give for a path: its
    entries and the result that ends the reading, 0 or an error.  [qsort] is an
    interface, as it may put equal elements in any order. *)

From stdpp Require Import gmap sorting.
From Stdlib Require String.
From S2P Require Import Prelude Mem Net.
Import String.StringSyntax.
#[local] Arguments chars s%_string_scope.

Inductive tnt_dir_type := TNT_DIR_XLOG | TNT_DIR_SNAPSHOT.

Record tnt_dir_file := DirFile { d_lsn : Z; d_name : ptr }.

(** The array [files]: [NULL], or a block with room for [room] elements whose
    first ones are the list. *)
Inductive dir_files := FNull | FBlock (room : nat) (l : list tnt_dir_file).

Record tnt_dir := Dir { d_type : tnt_dir_type; d_path : ptr; d_files : dir_files; d_count : nat }.

(** A comparison function. *)
Definition compar (A : Type) := A -> A -> Z.

Class Qsort := qsort : forall {A}, compar A -> list A -> list A.

(** The contract of [qsort]: [cmp] is an order. *)
Class QsortSpec {Q : Qsort} : Prop := {
  qsort_perm {A} (cmp : compar A) l : qsort cmp l ≡ₚ l;
  qsort_sorted {A} (cmp : compar A) l :
    (forall a b, cmp a b <= 0 \/ cmp b a <= 0) -> (forall a b c, cmp a b <= 0 -> cmp b c <= 0 -> cmp a c <= 0) ->
    StronglySorted (fun a b => cmp a b <= 0) (qsort cmp l);
}.

(** The entries of a directory and the result of the last [readdir_r]. *)
Definition directories := bytes -> option (list bytes * Z).

Definition LLONG_MAX : Z := 2 ^ 63 - 1.
Definition LLONG_MIN : Z := - 2 ^ 63.

Fixpoint skip_spaces (s : bytes) : bytes :=
  match s with
  | c :: s' => if decide (c = 32 \/ 9 <= c <= 13) then skip_spaces s' else s
  | [] => []
  end.

(** The value of the leading strtol_digits. *)
Fixpoint strtol_digits (acc : Z) (s : bytes) : Z :=
  match s with
  | c :: s => if decide (48 <= c <= 57) then strtol_digits (10 * acc + (c - 48)) s else acc
  | [] => acc
  end.

(** [strtoll(s, &end, 10)] *)
Definition strtoll (s : bytes) : Z :=
  let v := match skip_spaces s with
           | c :: s' => if decide (c = 45) then - strtol_digits 0 s' else if decide (c = 43) then strtol_digits 0 s' else strtol_digits 0 (c :: s')
           | [] => 0
           end in
  Z.max LLONG_MIN (Z.min LLONG_MAX v).

(** [strchr(s, c)] *)
Fixpoint strchr (s : bytes) (c : Z) : option bytes :=
  match s with
  | [] => None
  | x :: s' => if decide (x = c) then Some s else strchr s' c
  end.

Definition tnt_dir_init (type : tnt_dir_type) : tnt_dir := Dir type PNull FNull 0.

(** The names of the first [n] files are freed, then the array. *)
Fixpoint free_names (n : nat) (l : list tnt_dir_file) : option unit :=
  match n with
  | O => Some tt
  | S n =>
      match l with
      | [] => None
      | f :: l => _ ← match d_name f with PNull => Some PNull | p => tnt_mem_free custom_realloc p end; free_names n l
      end
  end.

(** [tnt_dir_free]; the count stays. *)
Definition tnt_dir_free (d : tnt_dir) : option tnt_dir :=
  _ ← match d_path d with PNull => Some PNull | p => tnt_mem_free custom_realloc p end;
  _ ← match d_files d with FNull => Some tt | FBlock _ l => free_names (d_count d) l end;
  Some (Dir (d_type d) PNull FNull (d_count d)).

(** Room for one more file: [NULL] when the allocation is refused, the old
    block being lost.  The [int] doubles. *)
Definition grow (d : tnt_dir) (top : nat) (m : malloc_state) : option (option (tnt_dir * nat) * malloc_state) :=
  if decide (d_count d = top) then
    let top := if decide (top = 0%nat) then 128%nat else (top * 2)%nat in
    if decide (INT_MAX < Z.of_nat top) then None else
    let l := match d_files d with FNull => [] | FBlock _ l => l end in
    match pop m with
    | (Refuse, m) => Some (None, m)
    | (Grant _, m) => Some (Some (Dir (d_type d) (d_path d) (FBlock top l) (d_count d), top), m)
    end
  else Some (Some (d, top), m).

(** [tnt_dir_put]; the new [*top] *)
Definition tnt_dir_put (d : tnt_dir) (top : nat) (name : bytes) (lsn : Z) (m : malloc_state)
    : option (Z * tnt_dir * nat * malloc_state) :=
  '(g, m) ← grow d top m;
  match g with
  | None => Some (-1, Dir (d_type d) (d_path d) FNull (d_count d), if decide (top = 0%nat) then 128%nat else (top * 2)%nat, m)
  | Some (d, top) =>
      match d_files d with
      | FNull => None
      | FBlock room l =>
          if decide (room <= d_count d)%nat then None else
          let '(a, m) := Mem.pop m in
          p ← tnt_mem_dup custom_realloc a (name ++ [0]);
          let l := take (d_count d) l ++ [DirFile lsn p] in
          match p with
          | PNull => Some (-1, Dir (d_type d) (d_path d) (FBlock room l) (d_count d), top, m)
          | _ => Some (0, Dir (d_type d) (d_path d) (FBlock room l) (S (d_count d)), top, m)
          end
      end
  end.

Definition tnt_dir_cmp : compar tnt_dir_file := fun a b =>
  if decide (d_lsn a = d_lsn b) then 0 else if decide (d_lsn a > d_lsn b) then 1 else -1.

Definition extension (type : tnt_dir_type) : bytes :=
  match type with TNT_DIR_XLOG => chars ".xlog" | TNT_DIR_SNAPSHOT => chars ".snap" end.

(** The conditions of the loop of [tnt_dir_scan]: the number of a log file. *)
Definition entry_lsn (type : tnt_dir_type) (name : bytes) : option Z :=
  if decide (name = chars "." \/ name = chars "..") then None else
  match strchr name 46 with
  | None => None
  | Some ext =>
      if decide (ext <> extension type) then None else
      let lsn := u64 (strtoll name) in
      if decide (lsn = u64 LLONG_MAX \/ lsn = u64 LLONG_MIN) then None else Some lsn
  end.

(** The loop over the entries; the result is -1 for [goto error]. *)
Fixpoint scan_loop (d : tnt_dir) (top : nat) (names : list bytes) (m : malloc_state) : option (Z * tnt_dir * malloc_state) :=
  match names with
  | [] => Some (0, d, m)
  | name :: names =>
      match entry_lsn (d_type d) name with
      | None => scan_loop d top names m
      | Some lsn =>
          '(rc, d, top, m) ← tnt_dir_put d top name lsn m;
          if decide (rc = -1) then Some (-1, d, m) else scan_loop d top names m
      end
  end.

Section scan.
Context {Q : Qsort}.

(** [tnt_dir_scan]; [opendir] and the reading follow [dirs]. *)
Definition tnt_dir_scan (dirs : directories) (d : tnt_dir) (path : bytes) (m : malloc_state) : option (Z * tnt_dir * malloc_state) :=
  let error d m := d ← tnt_dir_free d; Some (-1, d, m) in
  let '(a, m) := Mem.pop m in
  p ← tnt_mem_dup custom_realloc a (path ++ [0]);
  let d := Dir (d_type d) p (d_files d) (d_count d) in
  match p with
  | PNull => Some (-1, d, m)
  | _ =>
      match dirs path with
      | None => error d m
      | Some (names, last) =>
          '(rc, d, m) ← scan_loop d 0 names m;
          if decide (rc = -1) then error d m else
          if decide (last <> 0) then error d m else
          let files := match d_files d with
                       | FNull => FNull      (* qsort(NULL, 0, ...) *)
                       | FBlock room l => FBlock room (qsort tnt_dir_cmp (take (d_count d) l))
                       end in
          Some (0, Dir (d_type d) (d_path d) files (d_count d), m)
      end
  end.

End scan.

(** [d->files\[i\]] *)
Definition dir_at (d : tnt_dir) (i : nat) : option tnt_dir_file :=
  match d_files d with FNull => None | FBlock _ l => l !! i end.

(** [tnt_dir_match_gt]: the result and [*out], when it is set. *)
Definition tnt_dir_match_gt (d : tnt_dir) : option (Z * option Z) :=
  if decide (d_count d = 0%nat) then Some (-1, None) else
  f ← dir_at d (d_count d - 1);
  Some (0, Some (d_lsn f)).

Fixpoint match_loop (d : tnt_dir) (lsn : Z) (current count : nat) : option (Z * option Z) :=
  match count with
  | S (S _ as count) =>
      a ← dir_at d current;
      b ← dir_at d (current + 1);
      if decide (d_lsn a <= lsn <= d_lsn b) then Some (0, Some (d_lsn a))
      else match_loop d lsn (current + 1) count
  | _ => a ← dir_at d current; Some (0, Some (d_lsn a))
  end.

(** [tnt_dir_match_inc] *)
Definition tnt_dir_match_inc (d : tnt_dir) (lsn : Z) : option (Z * option Z) :=
  if decide (d_count d = 0%nat) then Some (-1, None) else match_loop d lsn 0 (d_count d).
