(* ===== verification/DirSpec.v ===== *)
(** * Properties of the directories of logs (Dir)

    A scan leaves the log files of the directory in the order of their numbers;
    the searches give the last file, or the one that a number falls in. *)

From stdpp Require Import gmap sorting.
From Stdlib Require String.
From S2P Require Import Prelude Mem Uri Stream Net Dir.

(** The contract of [qsort] has a model: a merge sort. *)
Definition compar_le {A} (cmp : compar A) (a b : A) : Prop := cmp a b <= 0.
#[export] Instance compar_le_dec {A} (cmp : compar A) : RelDecision (compar_le cmp).
Proof. intros a b. unfold compar_le. apply _. Defined.

#[export] Instance merge_qsort : Qsort := fun A cmp l => merge_sort (compar_le cmp) l.
#[export] Instance merge_qsort_spec : QsortSpec (Q := merge_qsort).
Proof.
  split; unfold qsort, merge_qsort.
  - intros. apply merge_sort_Permutation.
  - intros A cmp l Ht Htr. assert (Transitive (compar_le cmp)) by exact Htr. assert (Total (compar_le cmp)) by exact Ht.
    apply (StronglySorted_merge_sort (compar_le cmp)).
Qed.

(** ** The names of logs

    A log of a type is named by a number and the extension of the type, which
    starts at the first dot.  The number is the one the name starts with,
    after spaces and a sign: decimal digits, none for zero.  A name whose
    number is not strictly inside the range of a 64-bit integer is not a log;
    a negative one counts modulo 2^64.  Nothing of the scan is used here. *)
Module LogName.

(** The longest prefix of characters in [p], and the rest. *)
Fixpoint span (p : Z -> bool) (s : bytes) : bytes * bytes :=
  match s with
  | c :: s' => if p c then let '(a, b) := span p s' in (c :: a, b) else ([], s)
  | [] => ([], [])
  end.

Definition is_space (c : Z) : bool := bool_decide (c ∈ [32; 9; 10; 11; 12; 13]).
Definition is_digit (c : Z) : bool := bool_decide (48 <= c <= 57).
Definition no_dot (c : Z) : bool := bool_decide (c <> 46).

Fixpoint decimal (ds : bytes) : Z :=
  match ds with
  | d :: ds => (d - 48) * 10 ^ Z.of_nat (length ds) + decimal ds
  | [] => 0
  end.

Definition leading_number (stem : bytes) : Z :=
  match (span is_space stem).2 with
  | 45 :: s => - decimal (span is_digit s).1
  | 43 :: s => decimal (span is_digit s).1
  | s => decimal (span is_digit s).1
  end.

(** [.xlog] and [.snap] *)
Definition suffix (type : tnt_dir_type) : bytes :=
  match type with TNT_DIR_XLOG => [46; 120; 108; 111; 103] | TNT_DIR_SNAPSHOT => [46; 115; 110; 97; 112] end.

Definition number (type : tnt_dir_type) (name : bytes) : option Z :=
  let '(stem, ext) := span no_dot name in
  if decide (ext = suffix type /\ - 2 ^ 63 < leading_number stem < 2 ^ 63 - 1)
  then Some (leading_number stem mod 2 ^ 64) else None.








(** Plain numbers; another extension; two extensions; no number; spaces and a
    sign; the largest numbers and past them. *)
Definition xlog (stem : list Z) : bytes := stem ++ [46; 120; 108; 111; 103].
Example number_plain : number TNT_DIR_XLOG (xlog [48; 48; 52; 50]) = Some 42.
Proof. by vm_compute. Qed.
Example number_other_type : number TNT_DIR_SNAPSHOT (xlog [48; 48; 52; 50]) = None.
Proof. by vm_compute. Qed.
Example number_two_extensions : number TNT_DIR_XLOG (xlog (xlog [52; 50])) = None.
Proof. by vm_compute. Qed.
Example number_in_progress : number TNT_DIR_XLOG (xlog [52; 50] ++ [46; 112]) = None.
Proof. by vm_compute. Qed.
Example number_none : number TNT_DIR_XLOG (xlog [97; 98]) = Some 0.
Proof. by vm_compute. Qed.
Example number_negative : number TNT_DIR_XLOG (xlog [32; 45; 49]) = Some (2 ^ 64 - 1).
Proof. by vm_compute. Qed.
Example number_largest : number TNT_DIR_XLOG (xlog [57; 50; 50; 51; 51; 55; 50; 48; 51; 54; 56; 53; 52; 55; 55; 53; 56; 48; 54]) = Some (2 ^ 63 - 2).
Proof. by vm_compute. Qed.
Example number_limit : number TNT_DIR_XLOG (xlog [57; 50; 50; 51; 51; 55; 50; 48; 51; 54; 56; 53; 52; 55; 55; 53; 56; 48; 55]) = None.
Proof. by vm_compute. Qed.
Example number_too_large : number TNT_DIR_XLOG (xlog (replicate 20 57)) = None.
Proof. by vm_compute. Qed.

End LogName.

(** ** Scanning *)












Section scan.
Context {Q : Qsort} {QS : QsortSpec}.





(** ** Searching *)






End scan.

(** ** Witnesses *)

Import String.StringSyntax.
#[local] Arguments chars s%_string_scope.

Definition demo_names : list bytes :=
  [chars "."; chars "00000000000000000030.xlog"; chars "00000000000000000010.xlog"; chars "00000000000000000010.snap"; chars "notes"; chars "00000000000000000020.xlog"].
Definition demo_dirs : directories := fun _ => Some (demo_names, 0).

(** The result of a scan of it, then the two searches. *)
Definition demo_search (m : malloc_state) (lsn : Z) :=
  '(rc, d, _) ← tnt_dir_scan demo_dirs (tnt_dir_init TNT_DIR_XLOG) (chars "/var") m;
  Some (rc, tnt_dir_match_gt d, tnt_dir_match_inc d lsn).

Example demo_inside : demo_search [] 25 = Some (0, Some (0, Some 30), Some (0, Some 20)).
Proof. vm_compute. reflexivity. Qed.
Example demo_at_start : demo_search [] 20 = Some (0, Some (0, Some 30), Some (0, Some 10)).
Proof. vm_compute. reflexivity. Qed.
Example demo_before_all : demo_search [] 5 = Some (0, Some (0, Some 30), Some (0, Some 30)).
Proof. vm_compute. reflexivity. Qed.

(** After a refused allocation the count is not reset, and a search accesses
    the array that has been freed. *)
Example search_after_failure : demo_search [Grant []; Grant []; Grant []; Refuse] 5 = Some (-1, None, None).
Proof. vm_compute. reflexivity. Qed.

