(* ===== verification/Rpl.v ===== *)
(** * tntrpl/tnt_rpl.c: the replication stream

    A stream over a network stream of its user, from which the rows of the
    replication are read.  The request in a row is read by [tnt_request_from],
    of a version of the library that is not in the repository: an argument. *)

From stdpp Require Import gmap.
From S2P Require Import Prelude Msgpuck Mem Uri Stream Murmur Stdio System Opt Io IoSpec Connect Schema Net NetSpec Log LogSpec.

Definition tnt_rpl_version : Z := 11.

(** [struct tnt_stream_rpl]; the network stream is the user's, [None] is
    [NULL].  [RplFreed] is a pointer to a freed structure. *)
Inductive rpl_data (W : Type) :=
  | RplFreed
  | RplData (hdr row : bytes) (rnet : option (stream (net W))).
Arguments RplFreed {W}. Arguments RplData {W}.

Section rpl.
Context {LG : Legacy} {W : Type} {SY : Sys W}.
Implicit Types (s : stream (rpl_data W)) (n : stream (net W)).
Variable fuel : nat.

Definition put_rpl hdr row rnet s : stream (rpl_data W) := set_data (Some (RplData hdr row rnet)) s.

(** [TNT_RPL_CAST(s)] *)
Definition TNT_RPL_CAST s : option (bytes * bytes * option (stream (net W))) :=
  d ← st_data s; match d with RplFreed => None | RplData hdr row rnet => Some (hdr, row, rnet) end.

(** [tnt_rpl_free]: the pointer to the data stays. *)
Definition tnt_rpl_free s : option (stream (rpl_data W)) :=
  _ ← TNT_RPL_CAST s; Some (set_data (Some RplFreed) s).

Definition tnt_rpl_recv_cb n (size : nat) : option (Z * bytes * stream (net W)) :=
  '(sn, w) ← st_data n;
  '(rc, out, sn, w) ← tnt_io_recv fuel sn size w;
  Some (rc, out, set_data (Some (sn, w)) n).

(** The type of [tnt_request_from(r, recv, net, &hdr)], for an [hdr] of this
    type and length. *)
Definition request_from_t : Type :=
  (stream (net W) -> nat -> option (Z * bytes * stream (net W))) -> stream (net W) -> lg_request -> Z -> Z ->
  option (Z * lg_request * stream (net W)).

(** [tnt_io_recv] into a structure with these bytes. *)
Definition recv_struct n (size : nat) (old : bytes) : option (Z * bytes * stream (net W)) :=
  '(sn, w) ← st_data n;
  '(rc, out, sn, w) ← tnt_io_recv fuel sn size w;
  Some (rc, out ++ drop (length out) old, set_data (Some (sn, w)) n).

Definition tnt_rpl_request (from : request_from_t) s (r : lg_request) : option (Z * stream (rpl_data W) * lg_request) :=
  '(hdr, row, n) ← TNT_RPL_CAST s;
  n ← n;
  '(rc, hdr, n) ← recv_struct n HDR_SIZE hdr;
  if decide (rc = -1) then Some (-1, put_rpl hdr row (Some n) s, r) else
  '(rc, row, n) ← recv_struct n ROW_SIZE row;
  if decide (rc = -1) then Some (-1, put_rpl hdr row (Some n) s, r) else
  '(rc, r, n) ← from tnt_rpl_recv_cb n r (row_op row) (u32 (hdr_len hdr - Z.of_nat ROW_SIZE));
  Some (if decide (rc = -1) then -1 else 0, put_rpl hdr row (Some n) s, r).

(** [tnt_rpl]; [given] as in [tnt_stream_init].  [None] is [NULL]. *)
Definition tnt_rpl (given : bool) (m : malloc_state) : option (stream (rpl_data W)) :=
  s ← tnt_stream_init given m;
  match pop (st_mem s) with
  | (Refuse, _) => None
  | (Grant _, m) => Some (set_mem m (put_rpl (replicate HDR_SIZE 0) (replicate ROW_SIZE 0) None s))
  end.

(** [tnt_rpl_close]: [tnt_close] is given the replication stream, whose data is
    not that of a network stream. *)
Definition tnt_rpl_close s : option (stream (rpl_data W)) :=
  '(_, _, n) ← TNT_RPL_CAST s;
  match n with Some _ => None | None => Some s end.

Definition tnt_rpl_attach s n : option (stream (rpl_data W)) :=
  '(hdr, row, _) ← TNT_RPL_CAST s; Some (put_rpl hdr row (Some n) s).

Section opening.
Context {MP : MsgPuck} {OB : Observe W} {SC : SysConnect W}.

(** What [tnt_rpl_open] sends and checks once connected. *)
Definition rpl_handshake n (lsn : Z) : option (Z * stream (net W)) :=
  '(sn, w) ← st_data n;
  '(rc, sn, w) ← tnt_io_send_raw fuel sn (rev (be 8 (u64 lsn))) true w;
  let n := set_data (Some (sn, w)) n in
  if decide (rc = -1) then Some (-1, n) else
  '(rc, out, sn, w) ← tnt_io_recv_raw fuel sn 4 true w;
  let n := set_data (Some (sn, w)) n in
  if decide (rc = -1) then Some (-1, n) else
  let version := le_val (out ++ drop (length out) (replicate 4 0)) in
  Some (if decide (version <> tnt_rpl_version) then -1 else 0, n).

(** [tnt_rpl_open] *)
Definition tnt_rpl_open (x : session) s (lsn : Z) : option (Z * stream (rpl_data W)) :=
  '(hdr, row, n) ← TNT_RPL_CAST s;
  n ← n;
  '(rc, n) ← tnt_init n;
  if decide (rc = -1) then Some (-1, put_rpl hdr row (Some n) s) else
  '(rc, n) ← tnt_connect fuel x n;
  if decide (rc = -1) then Some (-1, put_rpl hdr row (Some n) s) else
  '(rc, n) ← rpl_handshake n lsn;
  Some (rc, put_rpl hdr row (Some n) s).

End opening.
End rpl.
