(* ===== verification/RplSpec.v ===== *)
(** * Properties of the replication stream (Rpl)

    What the handshake sends and checks, and how a row is read. *)

From stdpp Require Import gmap.
From S2P Require Import Prelude Msgpuck MsgpuckRef Mem Uri Stream Murmur Stdio System Opt Io IoSpec Connect ConnectSpec Schema Sim Net NetSpec Log LogSpec Rpl.

Section rpl.
Context {LG : Legacy} {W : Type} {SY : Sys W} {OB : Observe W} {SS : SysSpec W}.
Implicit Types (s : stream (rpl_data W)) (n : stream (net W)).
Variable fuel : nat.

Lemma recv_struct_ok n sn w size old :
  net_state fuel n sn w -> length old = size ->
  exists rc bs n' sn' w', recv_struct fuel n size old = Some (rc, bs, n') /\ net_state fuel n' sn' w' /\ sent w' = sent w /\
    ((rc = Z.of_nat size /\ input sn w = bs ++ input sn' w' /\ length bs = size) \/ (rc = -1 /\ n_error sn' = TNT_ESYSTEM)).
Proof.
  intros Hn Hl. destruct (net_read_ok fuel n sn w size Hn) as (r & out & sn' & w' & E & (H1 & _ & H3 & _) & Hle & H).
  unfold tnt_net_read in E. unfold recv_struct. destruct (st_data n) as [[sn0 w0]|] eqn:Ed; [|done]. cbn [mbind option_bind] in *.
  destruct (tnt_io_recv fuel sn0 size w0) as [[[[rc o] s1] w1]|] eqn:Er; [|done]. cbn [mbind option_bind] in *. simplify_eq.
  do 5 eexists. split; [reflexivity|]. split; [exact H1|]. split; [done|].
  destruct H as [(-> & Hi & Ho)|H]; [left|by right]. rewrite drop_ge, app_nil_r by lia. done.
Qed.

(** A row is read: its two headers, in whatever pieces they arrive, and the
    parser is called for a request of that type and of the length that is
    left, on a stream that goes on after them; unless a transfer failed. *)
Theorem rpl_request_ok from s hdr0 row0 n sn w r hdr row rest :
  st_data s = Some (RplData hdr0 row0 (Some n)) -> length hdr0 = HDR_SIZE -> length row0 = ROW_SIZE -> net_state fuel n sn w ->
  length hdr = HDR_SIZE -> length row = ROW_SIZE -> input sn w = hdr ++ row ++ rest ->
  exists n' sn' w', net_state fuel n' sn' w' /\ sent w' = sent w /\
    ((n_error sn' = TNT_ESYSTEM /\ exists s', tnt_rpl_request fuel from s r = Some (-1, s', r)) \/
     (input sn' w' = rest /\ tnt_rpl_request fuel from s r =
       ('(rc, r, n) ← from (tnt_rpl_recv_cb fuel) n' r (row_op row) (u32 (hdr_len hdr - Z.of_nat ROW_SIZE));
        Some (if decide (rc = -1) then -1 else 0, put_rpl hdr row (Some n) s, r)))).
Proof.
  intros Hs Hh0 Hr0 Hn Hh Hr Hin. unfold tnt_rpl_request, TNT_RPL_CAST. rewrite Hs. cbn [mbind option_bind].
  destruct (recv_struct_ok n sn w HDR_SIZE hdr0 Hn Hh0) as (rc & bs & n1 & sn1 & w1 & -> & H1 & S1 & C1). cbn [mbind option_bind].
  destruct C1 as [(-> & I1 & L1)|[-> He1]].
  2: { exists n1, sn1, w1. split; [done|]. split; [done|]. left. split; [done|]. rewrite decide_True by done. by eexists. }
  rewrite I1 in Hin. apply app_inj_1 in Hin as [-> Hin]; [|lia]. rewrite decide_False by done.
  destruct (recv_struct_ok n1 sn1 w1 ROW_SIZE row0 H1 Hr0) as (rc & bs & n2 & sn2 & w2 & -> & H2 & S2 & C2). cbn [mbind option_bind].
  exists n2, sn2, w2. split; [done|]. split; [congruence|]. destruct C2 as [(-> & I2 & L2)|[-> He2]].
  - rewrite I2 in Hin. apply app_inj_1 in Hin as [-> Hin]; [|lia]. right. split; [done|]. by rewrite decide_False by done.
  - left. split; [done|]. rewrite decide_True by done. by eexists.
Qed.

Context {MP : MsgPuck} {SC : SysConnect W}.

Lemma handshake_ok n sn w lsn :
  net_state fuel n sn w -> 0 <= lsn < 2 ^ 64 ->
  exists r n' sn' w', rpl_handshake fuel n lsn = Some (r, n') /\ net_state fuel n' sn' w' /\
    ((r = -1 /\ n_error sn' = TNT_ESYSTEM) \/
     exists v, length v = 4%nat /\ sent w' = sent w ++ le 8 lsn /\ incoming w = v ++ incoming w' /\
       r = if decide (le_val v = tnt_rpl_version) then 0 else -1).
Proof.
  intros (Hd & Hok & Hf) Hl. unfold rpl_handshake. rewrite Hd. cbn [mbind option_bind]. rewrite u64_small by done. fold (le 8 lsn).
  destruct (send_raw_ok fuel sn (le 8 lsn) w Hok Hf) as (r & sn1 & w1 & -> & (k & ([Hg Hin] & Hi & _ & Hk & Hs) & C) & _). cbn [mbind option_bind].
  destruct C as [(-> & -> & ->)|[-> ->]].
  2: { rewrite decide_True by done. do 4 eexists. split; [reflexivity|]. split; [split; [done|split; [by apply system_error_ok|lia]]|]. by left. }
  rewrite decide_False by done. unfold tnt_io_recv_raw.
  destruct (recv_loop_ok fuel 5 sn 4 [] true w1 Hok ltac:(lia) ltac:(simpl; lia) ltac:(simpl; lia)) as (r & sn2 & w2 & new & -> & (Hs2 & Hi2 & _ & Hg2 & Hin2) & _ & C). cbn [mbind option_bind].
  destruct C as [(-> & -> & _ & Ha)|(-> & -> & _)].
  - rewrite decide_False by (unfold zlen; lia). do 4 eexists. split; [reflexivity|]. split; [split; [done|split; [done|lia]]|].
    right. specialize (Ha eq_refl). simpl in Ha. exists new. split; [done|].
    split; [rewrite Hs2, Hs, firstn_all2; [done|lia]|]. split; [congruence|].
    change ([] ++ new) with new. rewrite drop_ge, app_nil_r by (rewrite length_replicate; lia). repeat case_decide; done.
  - rewrite decide_True by done. do 4 eexists. split; [reflexivity|]. split; [split; [done|split; [by apply system_error_ok|lia]]|]. by left.
Qed.

(** Once connected, [tnt_rpl_open] sends the position, eight bytes, and succeeds
    if and only if the server answers with the version 11. *)
Theorem rpl_open_ok x s hdr row n n1 n2 sn w lsn :
  st_data s = Some (RplData hdr row (Some n)) -> tnt_init n = Some (0, n1) -> tnt_connect fuel x n1 = Some (0, n2) ->
  net_state fuel n2 sn w -> 0 <= lsn < 2 ^ 64 ->
  exists r n' sn' w', tnt_rpl_open fuel x s lsn = Some (r, put_rpl hdr row (Some n') s) /\ net_state fuel n' sn' w' /\
    ((r = -1 /\ n_error sn' = TNT_ESYSTEM) \/
     exists v, length v = 4%nat /\ sent w' = sent w ++ le 8 lsn /\ incoming w = v ++ incoming w' /\
       r = if decide (le_val v = tnt_rpl_version) then 0 else -1).
Proof.
  intros Hs Ei Ec Hn Hl. destruct (handshake_ok n2 sn w lsn Hn Hl) as (r & n' & sn' & w' & E & H). exists r, n', sn', w'. split; [|done].
  unfold tnt_rpl_open, TNT_RPL_CAST. rewrite Hs. cbn [mbind option_bind]. rewrite Ei. cbn [mbind option_bind]. rewrite decide_False by done.
  rewrite Ec. cbn [mbind option_bind]. rewrite decide_False by done. by rewrite E.
Qed.

(** Closing an attached stream is undefined: [tnt_close] takes the replication
    stream for a network stream. *)
Lemma close_attached s n : forall s', tnt_rpl_attach s n = Some s' -> tnt_rpl_close s' = None.
Proof. unfold tnt_rpl_attach. intros s' H. inv_opt. destruct x as [[hdr row] r]. inv_opt. done. Qed.

End rpl.

(** ** Concrete runs *)

(** A connection on which the peer sends [bs], in pieces. *)
Definition demo_peer (bs : bytes) : stream (net Mock.world) :=
  Stream true 0 0 (Some (zero_net PNull, Mock.World [] [] bs [Mock.Xfer 3; Mock.Intr; Mock.Xfer 1] 0)) [].

Definition demo_handshake (version : Z) : option (Z * bytes) :=
  '(rc, n) ← rpl_handshake 5 (demo_peer (le 4 version)) 7;
  '(_, w) ← st_data n;
  Some (rc, sent w).

Example handshake_accepted : demo_handshake 11 = Some (0, le 8 7).
Proof. vm_compute. reflexivity. Qed.
Example handshake_refused : demo_handshake 10 = Some (-1, le 8 7).
Proof. vm_compute. reflexivity. Qed.

(** A parser that reads the whole body at once. *)
Definition demo_from : request_from_t (W := Mock.world) := fun recv n r type len =>
  '(rc, out, n) ← recv n (Z.to_nat len);
  Some (if decide (rc = -1) then -1 else 0, DemoRequest type out PNull, n).

(** The row of [demo_e1], as it is sent: its header and its payload. *)
Definition demo_row : option (Z * lg_request) :=
  s ← tnt_rpl true [];
  s ← tnt_rpl_attach s (demo_peer (header_of demo_e1 ++ e_data demo_e1));
  '(rc, _, r) ← tnt_rpl_request 5 demo_from s lg_request_init;
  Some (rc, r).

Example row_read : demo_row = Some (0, DemoRequest 13 [65; 66] PNull).
Proof. vm_compute. reflexivity. Qed.
